(** * Tajweed rule engine: removal and restoral of the tajweed layer

    A shallow embedding of [src/tajweed.py]: the rule tables
    [REMOVE_SANDHI_RULES] and [RESTORE_SANDHI_RULES], the rule application
    engine [apply_rules] and the evaluation run of the script (round-trip
    check, trace comparison and residual sweep).

    Python strings are sequences of Unicode code points, and the regular
    expressions of the rule tables match code point by code point, so a text
    is a list of code points here. *)

From Stdlib Require Import NArith ZArith Lia.
From stdpp Require Import base option list strings gmap pretty.

Local Open Scope string_scope.
Local Open Scope list_scope.
Local Open Scope nat_scope.

(** ** Texts *)

Abbreviation char := N (only parsing).
Abbreviation str := (list N) (only parsing).

Definition newline : char := 10%N.

(** [s[-1]] of a non-empty text; [None] stands for Python's [IndexError]. *)
Definition last_char (s : str) : option char := last s.

(** [s[-2:]]: the last two code points, or the whole text when shorter. *)
Definition last2 (s : str) : str := drop (length s - 2) s.

(** [x in s] for texts: [x] occurs as a contiguous slice of [s]. *)
Fixpoint str_in (x s : str) : bool :=
  bool_decide (take (length x) s = x)
  || match s with
     | [] => false
     | _ :: s' => str_in x s'
     end.

(** [sep.join(l)]. *)
Fixpoint join (sep : str) (l : list str) : str :=
  match l with
  | [] => []
  | [x] => x
  | x :: l' => x ++ sep ++ join sep l'
  end.

(** ** Regular expressions

    The fragment of Python's [re] syntax that the rule tables and the
    residual sweep use: literals, character sets, [.], concatenation,
    alternation, the greedy [?], capturing and non-capturing groups, [^],
    [$], lookahead and fixed-width lookbehind. There is no repetition
    operator other than [?] anywhere in the script. *)
Module Re.

Inductive regex : Type :=
| Eps                                    (* the empty pattern *)
| Chr (c : char)                         (* a literal code point *)
| Cls (neg : bool) (cs : list char)      (* [..] and [^..] *)
| Any                                    (* . (no DOTALL: not a newline) *)
| Seq (r1 r2 : regex)
| Alt (r1 r2 : regex)                    (* r1|r2 *)
| Opt (r : regex)                        (* r? *)
| Group (n : nat) (r : regex)            (* (r), the n-th group *)
| NGroup (r : regex)                     (* (?:r) *)
| Bol                                    (* ^ *)
| Eol                                    (* $ *)
| Ahead (neg : bool) (r : regex)         (* (?=r) and (?!r) *)
| Behind (neg : bool) (w : nat) (r : regex). (* (?<=r) and (?<!r), r of width w *)

(** A run of literals. *)
Definition Str (cs : str) : regex := foldr (λ c r, Seq (Chr c) r) Eps cs.

(** Spans of the groups matched so far, latest binding first. *)
Abbreviation caps := (list (nat * (nat * nat))) (only parsing).

Fixpoint group_span (c : caps) (n : nat) : option (nat * nat) :=
  match c with
  | [] => None
  | (k, span) :: c' => if bool_decide (k = n) then Some span else group_span c' n
  end.

Definition in_class (neg : bool) (cs : list char) (x : char) : bool :=
  xorb neg (bool_decide (x ∈ cs)).

(** [$] without MULTILINE: at the end of the text, or just before a newline
    that ends the text. *)
Definition at_end (s : str) (pos : nat) : bool :=
  bool_decide (pos = length s)
  || (bool_decide (S pos = length s) && bool_decide (s !! pos = Some newline)).

(** All the ways [r] matches [s] from position [pos], in the order in which
    the backtracking matcher of [re] tries them: each is the end position
    together with the groups bound on the way. *)
Fixpoint matches (r : regex) (s : str) (pos : nat) (c : caps) : list (nat * caps) :=
  match r with
  | Eps => [(pos, c)]
  | Chr a =>
      match s !! pos with
      | Some x => if bool_decide (x = a) then [(S pos, c)] else []
      | None => []
      end
  | Cls neg cs =>
      match s !! pos with
      | Some x => if in_class neg cs x then [(S pos, c)] else []
      | None => []
      end
  | Any =>
      match s !! pos with
      | Some x => if bool_decide (x = newline) then [] else [(S pos, c)]
      | None => []
      end
  | Seq r1 r2 => matches r1 s pos c ≫= λ ec, matches r2 s ec.1 ec.2
  | Alt r1 r2 => matches r1 s pos c ++ matches r2 s pos c
  | Opt r1 => matches r1 s pos c ++ [(pos, c)]
  | Group n r1 => (λ ec, (ec.1, (n, (pos, ec.1)) :: ec.2)) <$> matches r1 s pos c
  | NGroup r1 => matches r1 s pos c
  | Bol => if bool_decide (pos = 0) then [(pos, c)] else []
  | Eol => if at_end s pos then [(pos, c)] else []
  | Ahead neg r1 =>
      match matches r1 s pos c with
      | [] => if neg then [(pos, c)] else []
      | ec :: _ => if neg then [] else [(pos, ec.2)]
      end
  | Behind neg w r1 =>
      if bool_decide (w ≤ pos) then
        match matches r1 s (pos - w) c with
        | [] => if neg then [(pos, c)] else []
        | ec :: _ => if neg then [] else [(pos, ec.2)]
        end
      else if neg then [(pos, c)] else []
  end.

(** One attempt at position [pos]: the first way to match, which has to be
    non-empty when [must_advance] is set. *)
Definition match_at (r : regex) (s : str) (pos : nat) (must_advance : bool)
  : option (nat * caps) :=
  List.find (λ ec, negb (must_advance && bool_decide (ec.1 = pos))) (matches r s pos []).

(** The scan of [re.search]: try [pos], then each later position up to the
    end of the text. [must_advance] only constrains the attempt at [pos]. *)
Fixpoint search_from (r : regex) (s : str) (fuel pos : nat) (must_advance : bool)
  : option (nat * nat * caps) :=
  match match_at r s pos must_advance with
  | Some ec => Some (pos, ec.1, ec.2)
  | None =>
      match fuel with
      | 0 => None
      | S fuel' => search_from r s fuel' (S pos) false
      end
  end.

(** [re.search(r, s)] used as a condition. *)
Definition search (r : regex) (s : str) : bool :=
  bool_decide (is_Some (search_from r s (length s) 0 false)).

(** Replacement templates: literal code points and group references
    ([\1], [\2]). *)
Inductive titem : Type :=
| TLit (c : char)
| TRef (n : nat).

Abbreviation template := (list titem) (only parsing).

Definition lit (cs : str) : template := TLit <$> cs.

(** A group that took no part in the match expands to the empty text. *)
Definition expand_item (s : str) (c : caps) (t : titem) : str :=
  match t with
  | TLit a => [a]
  | TRef n =>
      match group_span c n with
      | Some (b, e) => take (e - b) (drop b s)
      | None => []
      end
  end.

Definition expand (t : template) (s : str) (c : caps) : str :=
  t ≫= expand_item s c.

(** The loop of [re.subn]: search from [start], copy the text skipped,
    append the expansion, go on from the end of the match; after an empty
    match the next search has to advance. *)
Fixpoint subn_loop (r : regex) (t : template) (s : str)
    (fuel start : nat) (must_advance : bool) (acc : str) (n : nat) : str * nat :=
  match fuel with
  | 0 => (acc ++ drop start s, n)
  | S fuel' =>
      match search_from r s (length s - start) start must_advance with
      | None => (acc ++ drop start s, n)
      | Some (b, e, c) =>
          subn_loop r t s fuel' e (bool_decide (e = b))
            (acc ++ take (b - start) (drop start s) ++ expand t s c) (S n)
      end
  end.

(** [re.subn(r, t, s)]: the new text and the number of replacements. *)
Definition subn (r : regex) (t : template) (s : str) : str * nat :=
  subn_loop r t s (2 * length s + 2) 0 false [] 0.

(** [re.sub(r, t, s)]. *)
Definition sub (r : regex) (t : template) (s : str) : str := (subn r t s).1.

(** [f'{p}$'] and [f'^{p}']: the anchor is concatenated to the pattern text,
    so below a top-level alternation it belongs to the last, respectively
    the first, alternative. *)
Fixpoint anchor_end (p : regex) : regex :=
  match p with
  | Alt a b => Alt a (anchor_end b)
  | _ => Seq p Eol
  end.

Definition anchor_start (p : regex) : regex :=
  match p with
  | Alt a b => Alt (Seq Bol a) b
  | _ => Seq Bol p
  end.

End Re.
Export Re.

(** ** Code points

    The code points that the script writes, under their Unicode names.
    U+06E1 is the sukun of the Quranic text, U+0652 the sukun of plain
    Arabic. *)

Local Open Scope N_scope.

Definition ar_hamza : char := 0x0621.                      (* ARABIC LETTER HAMZA *)
Definition ar_alef_with_madda_above : char := 0x0622.      (* ARABIC LETTER ALEF WITH MADDA ABOVE *)
Definition ar_alef_with_hamza_above : char := 0x0623.      (* ARABIC LETTER ALEF WITH HAMZA ABOVE *)
Definition ar_waw_with_hamza_above : char := 0x0624.       (* ARABIC LETTER WAW WITH HAMZA ABOVE *)
Definition ar_alef_with_hamza_below : char := 0x0625.      (* ARABIC LETTER ALEF WITH HAMZA BELOW *)
Definition ar_yeh_with_hamza_above : char := 0x0626.       (* ARABIC LETTER YEH WITH HAMZA ABOVE *)
Definition ar_alef : char := 0x0627.                       (* ARABIC LETTER ALEF *)
Definition ar_beh : char := 0x0628.                        (* ARABIC LETTER BEH *)
Definition ar_teh_marbuta : char := 0x0629.                (* ARABIC LETTER TEH MARBUTA *)
Definition ar_teh : char := 0x062A.                        (* ARABIC LETTER TEH *)
Definition ar_theh : char := 0x062B.                       (* ARABIC LETTER THEH *)
Definition ar_jeem : char := 0x062C.                       (* ARABIC LETTER JEEM *)
Definition ar_hah : char := 0x062D.                        (* ARABIC LETTER HAH *)
Definition ar_khah : char := 0x062E.                       (* ARABIC LETTER KHAH *)
Definition ar_dal : char := 0x062F.                        (* ARABIC LETTER DAL *)
Definition ar_thal : char := 0x0630.                       (* ARABIC LETTER THAL *)
Definition ar_reh : char := 0x0631.                        (* ARABIC LETTER REH *)
Definition ar_zain : char := 0x0632.                       (* ARABIC LETTER ZAIN *)
Definition ar_seen : char := 0x0633.                       (* ARABIC LETTER SEEN *)
Definition ar_sheen : char := 0x0634.                      (* ARABIC LETTER SHEEN *)
Definition ar_sad : char := 0x0635.                        (* ARABIC LETTER SAD *)
Definition ar_dad : char := 0x0636.                        (* ARABIC LETTER DAD *)
Definition ar_tah : char := 0x0637.                        (* ARABIC LETTER TAH *)
Definition ar_zah : char := 0x0638.                        (* ARABIC LETTER ZAH *)
Definition ar_ain : char := 0x0639.                        (* ARABIC LETTER AIN *)
Definition ar_ghain : char := 0x063A.                      (* ARABIC LETTER GHAIN *)
Definition ar_tatweel : char := 0x0640.                    (* ARABIC TATWEEL *)
Definition ar_feh : char := 0x0641.                        (* ARABIC LETTER FEH *)
Definition ar_qaf : char := 0x0642.                        (* ARABIC LETTER QAF *)
Definition ar_kaf : char := 0x0643.                        (* ARABIC LETTER KAF *)
Definition ar_lam : char := 0x0644.                        (* ARABIC LETTER LAM *)
Definition ar_meem : char := 0x0645.                       (* ARABIC LETTER MEEM *)
Definition ar_noon : char := 0x0646.                       (* ARABIC LETTER NOON *)
Definition ar_heh : char := 0x0647.                        (* ARABIC LETTER HEH *)
Definition ar_waw : char := 0x0648.                        (* ARABIC LETTER WAW *)
Definition ar_alef_maksura : char := 0x0649.               (* ARABIC LETTER ALEF MAKSURA *)
Definition ar_yeh : char := 0x064A.                        (* ARABIC LETTER YEH *)
Definition ar_fathatan : char := 0x064B.                   (* ARABIC FATHATAN *)
Definition ar_dammatan : char := 0x064C.                   (* ARABIC DAMMATAN *)
Definition ar_kasratan : char := 0x064D.                   (* ARABIC KASRATAN *)
Definition ar_fatha : char := 0x064E.                      (* ARABIC FATHA *)
Definition ar_damma : char := 0x064F.                      (* ARABIC DAMMA *)
Definition ar_kasra : char := 0x0650.                      (* ARABIC KASRA *)
Definition ar_shadda : char := 0x0651.                     (* ARABIC SHADDA *)
Definition ar_sukun : char := 0x0652.                      (* ARABIC SUKUN *)
Definition ar_maddah_above : char := 0x0653.               (* ARABIC MADDAH ABOVE *)
Definition ar_hamza_above : char := 0x0654.                (* ARABIC HAMZA ABOVE *)
Definition ar_hamza_below : char := 0x0655.                (* ARABIC HAMZA BELOW *)
Definition ar_superscript_alef : char := 0x0670.           (* ARABIC LETTER SUPERSCRIPT ALEF *)
Definition ar_alef_wasla : char := 0x0671.                 (* ARABIC LETTER ALEF WASLA *)
Definition ar_farsi_yeh : char := 0x06CC.                  (* ARABIC LETTER FARSI YEH *)
Definition ar_small_high_seen : char := 0x06DC.            (* ARABIC SMALL HIGH SEEN *)
Definition ar_rounded_zero : char := 0x06DF.               (* ARABIC SMALL HIGH ROUNDED ZERO *)
Definition ar_rectangular_zero : char := 0x06E0.           (* ARABIC SMALL HIGH UPRIGHT RECTANGULAR ZERO *)
Definition ar_quranic_sukun : char := 0x06E1.              (* ARABIC SMALL HIGH DOTLESS HEAD OF KHAH *)
Definition ar_small_high_meem : char := 0x06E2.            (* ARABIC SMALL HIGH MEEM ISOLATED FORM *)
Definition ar_small_waw : char := 0x06E5.                  (* ARABIC SMALL WAW *)
Definition ar_small_yeh : char := 0x06E6.                  (* ARABIC SMALL YEH *)
Definition ar_small_high_yeh : char := 0x06E7.             (* ARABIC SMALL HIGH YEH *)
Definition ar_low_stop : char := 0x06EA.                   (* ARABIC EMPTY CENTRE LOW STOP *)
Definition ar_high_stop : char := 0x06EB.                  (* ARABIC EMPTY CENTRE HIGH STOP *)
Definition ar_filled_high_stop : char := 0x06EC.           (* ARABIC ROUNDED HIGH STOP WITH FILLED CENTRE *)
Definition ar_small_low_meem : char := 0x06ED.             (* ARABIC SMALL LOW MEEM *)
Definition ar_open_fathatan : char := 0x08F0.              (* ARABIC OPEN FATHATAN *)
Definition ar_open_dammatan : char := 0x08F1.              (* ARABIC OPEN DAMMATAN *)
Definition ar_open_kasratan : char := 0x08F2.              (* ARABIC OPEN KASRATAN *)

Local Close Scope N_scope.

(** ** Character sets *)

Definition HAMZA : str := [ar_hamza; ar_alef_with_hamza_above; ar_alef_with_hamza_below; ar_waw_with_hamza_above; ar_yeh_with_hamza_above].
Definition ITHHAR : str := HAMZA ++ [ar_hah; ar_khah; ar_ain; ar_ghain; ar_heh].
Definition IDGHAM : str := [ar_noon; ar_meem; ar_waw; ar_farsi_yeh; ar_lam; ar_reh].
Definition IKHFA2 : str := [ar_teh; ar_theh; ar_jeem; ar_dal; ar_thal; ar_zain; ar_seen; ar_sheen; ar_sad; ar_dad; ar_tah; ar_zah; ar_feh; ar_qaf; ar_kaf].
Definition CONS : str := [ar_beh] ++ ITHHAR ++ IDGHAM ++ IKHFA2.

(** A sequence of patterns, as they are written one after the other. *)
Definition Cat (rs : list regex) : regex := foldr Seq Eps rs.

(** ** Data model *)

(** A Quranic index [(sura, verse, word)]. *)
Abbreviation index := (Z * Z * Z)%type (only parsing).

(** A token: the text of a word and its index ([tokens[i][0]] and
    [tokens[i][1]]). *)
Abbreviation token := (str * index)%type (only parsing).

(** The part of a rule that applies between two words,
    [((TOK_PRE, TOK_POST), (REPL_PRE, REPL_POST))]. [REPL_POST] is [None] when
    the next word only conditions the rule. *)
Record boundary : Type := Boundary {
  tok_pre : regex;
  tok_post : regex;
  repl_pre : template;
  repl_post : option template
}.

(** The part of a rule that applies inside a word,
    [(TOK_INSIDE, REPL_INSIDE)]. *)
Record inside : Type := Inside {
  pat : regex;
  repl : template
}.

(** One row of a rule table. A part that the table gives as [(None, None)]
    is [None]; the sets written [{}] are empty lists. [EXCLUDE_LEMAS] is
    empty in every row and the engine never reads it. *)
Record rule : Type := Rule {
  id_rule : string;
  between : option boundary;
  within : option inside;
  FILTER_POS : option string;
  except_ind : list index;
  except_lemas : list str;
  force_ind : list index;
  restrict_ind : list index
}.

(** ** Index sets, the two rule tables and the patterns of the sweep

    Each row is given with its line of the script. *)

Local Open Scope Z_scope.

Definition MADD_HMZ_EXCEPTION : list index :=
  [(2, 72, 4)].

Definition EXCLUDE_INDEXES_MIN_Y_2 : list index :=
  [(5, 81, 5); (7, 158, 23); (9, 113, 3); (9, 117, 5); (33, 30, 2); (33, 32, 2); (33, 38, 4);
   (33, 50, 33); (33, 53, 7); (33, 56, 6); (49, 2, 9)].

Definition EXCLUDE_INDEXES_SIL_1 : list index :=
  [(2, 160, 9); (9, 94, 13); (15, 49, 5); (15, 89, 3); (20, 13, 1); (20, 14, 2); (27, 9, 3);
   (28, 30, 16)].

Definition EXCLUDE_INDEXES_SIL_5 : list index :=
  [(7, 189, 22)].

Definition MITHL_yy_EXCLUDE_INDEXES : list index :=
  [(51, 47, 3)].

Definition RESTRICT_INDEXES_MIN_Y_4 : list index :=
  [(25, 69, 7); (2, 258, 22); (15, 23, 3); (50, 43, 3); (30, 24, 11); (7, 103, 9); (10, 75, 9);
   (11, 97, 3); (23, 46, 3); (43, 46, 7); (28, 32, 21); (7, 127, 17); (28, 4, 14);
   (33, 53, 32); (33, 53, 36); (12, 101, 15)].

Definition RESTRICT_INDEXES_MIN_5 : list index :=
  [(61, 14, 12); (62, 2, 5); (5, 111, 4); (3, 20, 13); (3, 75, 30); (3, 79, 21)].

Definition RESTRICT_INDEXES_SIL_6 : list index :=
  [(5, 18, 5); (20, 18, 4); (26, 6, 4); (6, 5, 8); (60, 4, 14); (20, 119, 3); (12, 85, 3);
   (59, 17, 9); (5, 29, 12); (5, 33, 2); (40, 50, 12); (42, 21, 3); (6, 94, 21); (30, 13, 6);
   (26, 197, 7); (14, 21, 5); (40, 47, 6); (35, 28, 13); (23, 24, 2); (27, 29, 3); (27, 32, 3);
   (27, 38, 3); (10, 34, 12); (10, 34, 6); (10, 4, 8); (27, 64, 2); (30, 11, 2); (30, 27, 3);
   (16, 48, 9); (25, 77, 3); (75, 13, 1); (43, 18, 2); (14, 9, 3); (38, 21, 4); (64, 5, 3);
   (11, 87, 16); (24, 8, 1); (37, 106, 4); (42, 40, 1)].

Definition RESTRICT_INDEXES_SIL_7 : list index :=
  [(20, 84, 3); (3, 119, 2); (65, 6, 13); (11, 116, 7); (13, 19, 15); (14, 52, 12);
   (24, 22, 3); (27, 33, 3); (2, 269, 15); (38, 29, 8); (39, 18, 12); (39, 9, 23); (3, 7, 45);
   (46, 35, 4); (4, 8, 4); (9, 86, 11); (17, 5, 9); (24, 22, 9); (24, 31, 51); (28, 76, 18);
   (35, 1, 13); (38, 45, 6); (48, 16, 8); (4, 83, 15); (4, 95, 7); (73, 11, 3); (9, 113, 11);
   (21, 37, 5); (7, 145, 18); (12, 111, 6); (20, 128, 16); (20, 54, 8); (24, 44, 9);
   (38, 43, 9); (39, 21, 30); (3, 13, 28); (3, 190, 10); (40, 54, 3); (65, 4, 15); (27, 33, 5);
   (33, 6, 8); (3, 18, 9); (8, 75, 10); (4, 59, 8); (2, 179, 5); (2, 197, 28); (59, 2, 39);
   (5, 100, 12); (65, 10, 8)].

Definition RESTRICT_INDEXES_MIN_U_7 : list index :=
  [(4, 135, 30); (18, 16, 7)].

Definition RESTRICT_INDEXES_SIL_8 : list index :=
  [(8, 65, 17); (8, 66, 12); (18, 25, 5); (24, 2, 7); (2, 259, 19); (2, 259, 35); (2, 261, 16);
   (37, 147, 3); (8, 65, 13); (8, 66, 15)].

Definition RESTRICT_INDEXES_SIL_9 : list index :=
  [(21, 34, 7); (3, 144, 10); (6, 34, 21); (10, 75, 9); (11, 97, 3); (23, 46, 3); (28, 32, 21);
   (43, 46, 7); (7, 103, 9); (10, 83, 12)].

Definition RESTRICT_INDEXES_SIL_A : list index :=
  [(43, 13, 1); (11, 68, 7); (76, 4, 4); (76, 16, 1); (4, 135, 30); (18, 16, 7); (2, 275, 20);
   (2, 275, 25); (2, 275, 3); (2, 276, 3); (2, 278, 10); (3, 130, 6); (4, 161, 2); (25, 38, 2);
   (29, 38, 2); (53, 51, 1); (18, 14, 12); (47, 31, 7); (47, 4, 28); (30, 39, 5); (13, 30, 10);
   (38, 67, 3); (44, 33, 6); (4, 176, 8)].

Definition EXCEPTIONS_SUKUN : list index :=
  [(2, 1, 5); (3, 1, 5); (29, 1, 5); (30, 1, 5); (31, 1, 5); (32, 1, 5); (26, 1, 5);
   (28, 1, 5); (27, 1, 5); (36, 1, 5); (40, 1, 5); (41, 1, 5); (42, 1, 5); (43, 1, 5);
   (44, 1, 5); (45, 1, 5); (46, 1, 5); (40, 1, 5); (41, 1, 5); (42, 1, 5); (43, 1, 5);
   (44, 1, 5); (45, 1, 5); (46, 1, 5); (19, 1, 5); (42, 2, 1); (10, 1, 5); (11, 1, 5);
   (12, 1, 5); (14, 1, 5); (15, 1, 5); (7, 1, 5); (13, 1, 5); (38, 1, 5); (50, 1, 5);
   (68, 1, 5); (20, 1, 5); (39, 69, 7); (89, 23, 1); (51, 47, 3)].

Definition REMOVE_SANDHI_RULES : list rule := [
  (* line 144: ('M1', (('م', 'ب'), ('مۡ', 'ب')), (None, None), None, {}, {}, {}, {}) *)
  Rule "M1"
    (Some (Boundary
       (Chr ar_meem)
       (Chr ar_beh)
       (lit [ar_meem; ar_quranic_sukun])
       (Some (lit [ar_beh]))))
    None
    None [] [] [] [];
  (* line 146: ('M2', (('م', 'مّ'), ('مۡ', 'م')), (None, None), None, {}, {}, {}, {}) *)
  Rule "M2"
    (Some (Boundary
       (Chr ar_meem)
       (Str [ar_meem; ar_shadda])
       (lit [ar_meem; ar_quranic_sukun])
       (Some (lit [ar_meem]))))
    None
    None [] [] [] [];
  (* line 153: ('N2.1.1.A', ((r'ن', r'([نم])ّ'), (r'نۡ', r'\1')), (None, None), None, {}, {}, {}, {}) *)
  Rule "N2.1.1.A"
    (Some (Boundary
       (Chr ar_noon)
       (Cat [Group 1 (Cls false [ar_noon; ar_meem]); Chr ar_shadda])
       (lit [ar_noon; ar_quranic_sukun])
       (Some ([TRef 1]))))
    None
    None [] [] [] [];
  (* line 155: ('N2.1.1.B', ((r'ࣰ([ای]?)', r'([نم])ّ'), (r'ً\1', r'\1')), (None, None), None, {}, {}, {}, {}) *)
  Rule "N2.1.1.B"
    (Some (Boundary
       (Cat [Chr ar_open_fathatan; Group 1 (Opt (Cls false [ar_alef; ar_farsi_yeh]))])
       (Cat [Group 1 (Cls false [ar_noon; ar_meem]); Chr ar_shadda])
       (lit [ar_fathatan] ++ [TRef 1])
       (Some ([TRef 1]))))
    None
    None [] [] [] [];
  (* line 157: ('N2.1.1.C', ((r'ࣱ(ا۟)?', r'([نم])ّ'), (r'ٌ\1', r'\1')), (None, None) , None, {}, {}, {}, {}) *)
  Rule "N2.1.1.C"
    (Some (Boundary
       (Cat [Chr ar_open_dammatan; Opt (Group 1 (Str [ar_alef; ar_rounded_zero]))])
       (Cat [Group 1 (Cls false [ar_noon; ar_meem]); Chr ar_shadda])
       (lit [ar_dammatan] ++ [TRef 1])
       (Some ([TRef 1]))))
    None
    None [] [] [] [];
  (* line 159: ('N2.1.1.D', ((r'ࣲ', r'([نم])ّ'), (r'ٍ', r'\1')), (None, None), None, {}, {}, {}, {}) *)
  Rule "N2.1.1.D"
    (Some (Boundary
       (Chr ar_open_kasratan)
       (Cat [Group 1 (Cls false [ar_noon; ar_meem]); Chr ar_shadda])
       (lit [ar_kasratan])
       (Some ([TRef 1]))))
    None
    None [] [] [] [];
  (* line 164: ('N2.1.2.A', ((r'ن', r'(?:[وی])'), (r'نۡ', None)), (None, None), None, {}, {}, {}, {}) *)
  Rule "N2.1.2.A"
    (Some (Boundary
       (Chr ar_noon)
       (NGroup (Cls false [ar_waw; ar_farsi_yeh]))
       (lit [ar_noon; ar_quranic_sukun])
       None))
    None
    None [] [] [] [];
  (* line 166: ('N2.1.2.B', ((r'ࣰ([ای]?)', r'(?:[وی])'), (r'ً\1', None)), (None, None), None, {}, {}, {}, {}) *)
  Rule "N2.1.2.B"
    (Some (Boundary
       (Cat [Chr ar_open_fathatan; Group 1 (Opt (Cls false [ar_alef; ar_farsi_yeh]))])
       (NGroup (Cls false [ar_waw; ar_farsi_yeh]))
       (lit [ar_fathatan] ++ [TRef 1])
       None))
    None
    None [] [] [] [];
  (* line 168: ('N2.1.2.C', ((r'ࣱ', r'(?:[وی])'), (r'ٌ', None)), (None, None), None, {}, {}, {}, {}) *)
  Rule "N2.1.2.C"
    (Some (Boundary
       (Chr ar_open_dammatan)
       (NGroup (Cls false [ar_waw; ar_farsi_yeh]))
       (lit [ar_dammatan])
       None))
    None
    None [] [] [] [];
  (* line 170: ('N2.1.2.D', ((r'ࣲ', r'(?:[وی])'), (r'ٍ', None)), (None, None), None, {}, {}, {}, {}) *)
  Rule "N2.1.2.D"
    (Some (Boundary
       (Chr ar_open_kasratan)
       (NGroup (Cls false [ar_waw; ar_farsi_yeh]))
       (lit [ar_kasratan])
       None))
    None
    None [] [] [] [];
  (* line 172: ('N2.2.A', ((r'ن', r'([رل])ّ'), (r'نۡ', r'\1')), (None, None), None, {}, {}, {}, {}) *)
  Rule "N2.2.A"
    (Some (Boundary
       (Chr ar_noon)
       (Cat [Group 1 (Cls false [ar_reh; ar_lam]); Chr ar_shadda])
       (lit [ar_noon; ar_quranic_sukun])
       (Some ([TRef 1]))))
    None
    None [] [] [] [];
  (* line 174: ('N2.2.B', ((r'ࣰ([ای]?)', r'([رل])ّ'), (r'ً\1', r'\1')), (None, None), None, {}, {}, {}, {}) *)
  Rule "N2.2.B"
    (Some (Boundary
       (Cat [Chr ar_open_fathatan; Group 1 (Opt (Cls false [ar_alef; ar_farsi_yeh]))])
       (Cat [Group 1 (Cls false [ar_reh; ar_lam]); Chr ar_shadda])
       (lit [ar_fathatan] ++ [TRef 1])
       (Some ([TRef 1]))))
    None
    None [] [] [] [];
  (* line 176: ('N2.2.C', ((r'ࣱ', r'([رل])ّ'), (r'ٌ', r'\1')), (None, None), None, {}, {}, {}, {}) *)
  Rule "N2.2.C"
    (Some (Boundary
       (Chr ar_open_dammatan)
       (Cat [Group 1 (Cls false [ar_reh; ar_lam]); Chr ar_shadda])
       (lit [ar_dammatan])
       (Some ([TRef 1]))))
    None
    None [] [] [] [];
  (* line 178: ('N2.2.D', ((r'ࣲ', r'([رل])ّ'), (r'ٍ', r'\1')), (None, None), None, {}, {}, {}, {}) *)
  Rule "N2.2.D"
    (Some (Boundary
       (Chr ar_open_kasratan)
       (Cat [Group 1 (Cls false [ar_reh; ar_lam]); Chr ar_shadda])
       (lit [ar_kasratan])
       (Some ([TRef 1]))))
    None
    None [] [] [] [];
  (* line 180: ('N3.A', ((r'نۢ', r'ب'), ('نۡ', None)), (r'نۢ(?=ب)', 'نۡ'), None, {}, {}, {}, {}) *)
  Rule "N3.A"
    (Some (Boundary
       (Str [ar_noon; ar_small_high_meem])
       (Chr ar_beh)
       (lit [ar_noon; ar_quranic_sukun])
       None))
    (Some (Inside
       (Cat [Str [ar_noon; ar_small_high_meem]; Ahead false (Chr ar_beh)])
       (lit [ar_noon; ar_quranic_sukun])))
    None [] [] [] [];
  (* line 182: ('N3.B', ((r'َۢ(ا)?', r'ب'), (r'ً\1', None)), (None, None), None, {}, {}, {}, {}) *)
  Rule "N3.B"
    (Some (Boundary
       (Cat [Str [ar_fatha; ar_small_high_meem]; Opt (Group 1 (Chr ar_alef))])
       (Chr ar_beh)
       (lit [ar_fathatan] ++ [TRef 1])
       None))
    None
    None [] [] [] [];
  (* line 184: ('N3.C', ((r'ُۢ', r'ب'), (r'ٌ', None)), (None, None), None, {}, {}, {}, {}) *)
  Rule "N3.C"
    (Some (Boundary
       (Str [ar_damma; ar_small_high_meem])
       (Chr ar_beh)
       (lit [ar_dammatan])
       None))
    None
    None [] [] [] [];
  (* line 186: ('N3.D', ((r'ِۭ', r'ب'), (r'ٍ', None)), (None, None), None, {}, {}, {}, {}) *)
  Rule "N3.D"
    (Some (Boundary
       (Str [ar_kasra; ar_small_low_meem])
       (Chr ar_beh)
       (lit [ar_kasratan])
       None))
    None
    None [] [] [] [];
  (* line 190: ('N4.A', ((r'ن', rf'(?=[{IKHFA2}])'), (r'نۡ', None)), (rf'ن(?=[{IKHFA2}])', r'نۡ'), None, {}, {}, {}, {}) *)
  Rule "N4.A"
    (Some (Boundary
       (Chr ar_noon)
       (Ahead false (Cls false IKHFA2))
       (lit [ar_noon; ar_quranic_sukun])
       None))
    (Some (Inside
       (Cat [Chr ar_noon; Ahead false (Cls false IKHFA2)])
       (lit [ar_noon; ar_quranic_sukun])))
    None [] [] [] [];
  (* line 192: ('N4.B', ((rf'ࣰ([ای])?', rf'(?=[{IKHFA2}])'), (r'ً\1', None)),  (None, None), None, {}, {}, {}, {}) *)
  Rule "N4.B"
    (Some (Boundary
       (Cat [Chr ar_open_fathatan; Opt (Group 1 (Cls false [ar_alef; ar_farsi_yeh]))])
       (Ahead false (Cls false IKHFA2))
       (lit [ar_fathatan] ++ [TRef 1])
       None))
    None
    None [] [] [] [];
  (* line 194: ('N4.C', ((rf'ࣱ', rf'(?=[{IKHFA2}])'), (r'ٌ', None)),  (None, None), None, {}, {}, {}, {}) *)
  Rule "N4.C"
    (Some (Boundary
       (Chr ar_open_dammatan)
       (Ahead false (Cls false IKHFA2))
       (lit [ar_dammatan])
       None))
    None
    None [] [] [] [];
  (* line 196: ('N4.D', ((rf'ࣲ', rf'(?=[{IKHFA2}])'), (r'ٍ', None)),  (None, None), None, {}, {}, {}, {}) *)
  Rule "N4.D"
    (Some (Boundary
       (Chr ar_open_kasratan)
       (Ahead false (Cls false IKHFA2))
       (lit [ar_kasratan])
       None))
    None
    None [] [] [] [];
  (* line 203: ('MADD-hmz',  ((r'(َا|َیٰ|ُ[وۥ]|ِ[یۦ])ٓ', fr'(?:[{HAMZA}]|[ىی]ٕ|ٔ)'), (r'\1', None)), (fr'(َ[اٰ]|ُ[وۥ]|ِ[یۦ])ٓ(?=ـ?(?:[{HAMZA}]|[ىی]ٕ|ٔ))', r'\1'), None, MADD_HMZ_EXCEPTION, {}, {}, {}) *)
  Rule "MADD-hmz"
    (Some (Boundary
       (Cat [Group 1 (Alt (Str [ar_fatha; ar_alef]) (Alt (Str [ar_fatha; ar_farsi_yeh;
         ar_superscript_alef]) (Alt (Cat [Chr ar_damma; Cls false [ar_waw; ar_small_waw]]) (Cat
         [Chr ar_kasra; Cls false [ar_farsi_yeh; ar_small_yeh]])))); Chr ar_maddah_above])
       (NGroup (Alt (Cls false HAMZA) (Alt (Cat [Cls false [ar_alef_maksura; ar_farsi_yeh]; Chr
         ar_hamza_below]) (Chr ar_hamza_above))))
       ([TRef 1])
       None))
    (Some (Inside
       (Cat [Group 1 (Alt (Cat [Chr ar_fatha; Cls false [ar_alef; ar_superscript_alef]]) (Alt (Cat
         [Chr ar_damma; Cls false [ar_waw; ar_small_waw]]) (Cat [Chr ar_kasra; Cls false
         [ar_farsi_yeh; ar_small_yeh]]))); Chr ar_maddah_above; Ahead false (Cat [Opt (Chr
         ar_tatweel); NGroup (Alt (Cls false HAMZA) (Alt (Cat [Cls false [ar_alef_maksura;
         ar_farsi_yeh]; Chr ar_hamza_below]) (Chr ar_hamza_above)))])])
       ([TRef 1])))
    None MADD_HMZ_EXCEPTION [] [] [];
  (* line 204: ('MADD-hmz-A-sil',  ((r'ُوٓا۟', fr'(?:[{HAMZA}]|[ىی]ٕ)'), (r'ُوا۟', None)), (None, None), None, {}, {}, {}, {}) *)
  Rule "MADD-hmz-A-sil"
    (Some (Boundary
       (Str [ar_damma; ar_waw; ar_maddah_above; ar_alef; ar_rounded_zero])
       (NGroup (Alt (Cls false HAMZA) (Cat [Cls false [ar_alef_maksura; ar_farsi_yeh]; Chr
         ar_hamza_below])))
       (lit [ar_damma; ar_waw; ar_alef; ar_rounded_zero])
       None))
    None
    None [] [] [] [];
  (* line 205: ('MADD-hmz-sp-1',  ((None, None), (None, None)), ('تَلۡوُۥٓا۟', 'تَلۡوُۥا۟'), None, {}, {}, {}, {}) *)
  Rule "MADD-hmz-sp-1"
    None
    (Some (Inside
       (Str [ar_teh; ar_fatha; ar_lam; ar_quranic_sukun; ar_waw; ar_damma; ar_small_waw;
         ar_maddah_above; ar_alef; ar_rounded_zero])
       (lit [ar_teh; ar_fatha; ar_lam; ar_quranic_sukun; ar_waw; ar_damma; ar_small_waw; ar_alef;
         ar_rounded_zero])))
    None [] [] [] [];
  (* line 206: ('MADD-hmz-sp-2',  ((None, None), (None, None)), ('فَأۡوُۥٓا۟', 'فَأۡوُۥا۟'), None, {}, {}, {}, {}) *)
  Rule "MADD-hmz-sp-2"
    None
    (Some (Inside
       (Str [ar_feh; ar_fatha; ar_alef_with_hamza_above; ar_quranic_sukun; ar_waw; ar_damma;
         ar_small_waw; ar_maddah_above; ar_alef; ar_rounded_zero])
       (lit [ar_feh; ar_fatha; ar_alef_with_hamza_above; ar_quranic_sukun; ar_waw; ar_damma;
         ar_small_waw; ar_alef; ar_rounded_zero])))
    None [] [] [] [];
  (* line 207: ('MADD-hmz-sp-3',  ((None, None), (None, None)), ('وَجِا۟یٓءَ', 'وَجِا۟یءَ'), None, {}, {}, {}, {}) *)
  Rule "MADD-hmz-sp-3"
    None
    (Some (Inside
       (Str [ar_waw; ar_fatha; ar_jeem; ar_kasra; ar_alef; ar_rounded_zero; ar_farsi_yeh;
         ar_maddah_above; ar_hamza; ar_fatha])
       (lit [ar_waw; ar_fatha; ar_jeem; ar_kasra; ar_alef; ar_rounded_zero; ar_farsi_yeh;
         ar_hamza; ar_fatha])))
    None [] [] [] [];
  (* line 208: ('MADD-hmz-sp-4',  (('ٱلرِّبَوٰٓا۟', fr'[{HAMZA}]'), ('ٱلرِّبَوٰا۟', None)), (None, None), None, {}, {}, {}, {}) *)
  Rule "MADD-hmz-sp-4"
    (Some (Boundary
       (Str [ar_alef_wasla; ar_lam; ar_reh; ar_shadda; ar_kasra; ar_beh; ar_fatha; ar_waw;
         ar_superscript_alef; ar_maddah_above; ar_alef; ar_rounded_zero])
       (Cls false HAMZA)
       (lit [ar_alef_wasla; ar_lam; ar_reh; ar_shadda; ar_kasra; ar_beh; ar_fatha; ar_waw;
         ar_superscript_alef; ar_alef; ar_rounded_zero])
       None))
    None
    None [] [] [] [];
  (* line 214: ('MADD-lzm',  ((None, None), (None, None)), (fr'(َ[اٰ]|ُو|ِی)ٓ(?=[{CONS}](?:[ّْ]|[{CONS}]))', r'\1'), None, {}, {}, {}, {}) *)
  Rule "MADD-lzm"
    None
    (Some (Inside
       (Cat [Group 1 (Alt (Cat [Chr ar_fatha; Cls false [ar_alef; ar_superscript_alef]]) (Alt (Str
         [ar_damma; ar_waw]) (Str [ar_kasra; ar_farsi_yeh]))); Chr ar_maddah_above; Ahead false
         (Cat [Cls false CONS; NGroup (Alt (Cls false [ar_shadda; ar_sukun]) (Cls false CONS))])])
       ([TRef 1])))
    None [] [] [] [];
  (* line 216: ('MADD-shdd-skn', ((None, None), (None, None)), (fr'َآ([{CONS}])(?=[ّۡ])', r'َا\1'), None, {}, {}, {}, {}) *)
  Rule "MADD-shdd-skn"
    None
    (Some (Inside
       (Cat [Str [ar_fatha; ar_alef; ar_maddah_above]; Group 1 (Cls false CONS); Ahead false (Cls
         false [ar_shadda; ar_quranic_sukun])])
       (lit [ar_fatha; ar_alef] ++ [TRef 1])))
    None [] [] [] [];
  (* line 219: ('MADD-sp-1', ((None, None), (None, None)), (r'^الٓمٓ$', 'الم'), None, {}, {}, {}, {}) *)
  Rule "MADD-sp-1"
    None
    (Some (Inside
       (Cat [Bol; Str [ar_alef; ar_lam; ar_maddah_above; ar_meem; ar_maddah_above]; Eol])
       (lit [ar_alef; ar_lam; ar_meem])))
    None [] [] [] [];
  (* line 220: ('MADD-sp-2', ((None, None), (None, None)), (r'^طسٓمٓ$', 'طسم'), None, {}, {}, {}, {}) *)
  Rule "MADD-sp-2"
    None
    (Some (Inside
       (Cat [Bol; Str [ar_tah; ar_seen; ar_maddah_above; ar_meem; ar_maddah_above]; Eol])
       (lit [ar_tah; ar_seen; ar_meem])))
    None [] [] [] [];
  (* line 221: ('MADD-sp-3', ((None, None), (None, None)), (r'^طسٓ$', 'طس'), None, {}, {}, {}, {}) *)
  Rule "MADD-sp-3"
    None
    (Some (Inside
       (Cat [Bol; Str [ar_tah; ar_seen; ar_maddah_above]; Eol])
       (lit [ar_tah; ar_seen])))
    None [] [] [] [];
  (* line 222: ('MADD-sp-4', ((None, None), (None, None)), (r'^یسٓ$', 'یس'), None, {}, {}, {}, {}) *)
  Rule "MADD-sp-4"
    None
    (Some (Inside
       (Cat [Bol; Str [ar_farsi_yeh; ar_seen; ar_maddah_above]; Eol])
       (lit [ar_farsi_yeh; ar_seen])))
    None [] [] [] [];
  (* line 223: ('MADD-sp-5', ((None, None), (None, None)), (r'^حمٓ$', 'حم'), None, {}, {}, {}, {}) *)
  Rule "MADD-sp-5"
    None
    (Some (Inside
       (Cat [Bol; Str [ar_hah; ar_meem; ar_maddah_above]; Eol])
       (lit [ar_hah; ar_meem])))
    None [] [] [] [];
  (* line 224: ('MADD-sp-6', ((None, None), (None, None)), (r'^كٓهیعٓصٓ$', 'كهیعص'), None, {}, {}, {}, {}) *)
  Rule "MADD-sp-6"
    None
    (Some (Inside
       (Cat [Bol; Str [ar_kaf; ar_maddah_above; ar_heh; ar_farsi_yeh; ar_ain; ar_maddah_above;
         ar_sad; ar_maddah_above]; Eol])
       (lit [ar_kaf; ar_heh; ar_farsi_yeh; ar_ain; ar_sad])))
    None [] [] [] [];
  (* line 225: ('MADD-sp-7', ((None, None), (None, None)), (r'^الٓر$', 'الر'), None, {}, {}, {}, {}) *)
  Rule "MADD-sp-7"
    None
    (Some (Inside
       (Cat [Bol; Str [ar_alef; ar_lam; ar_maddah_above; ar_reh]; Eol])
       (lit [ar_alef; ar_lam; ar_reh])))
    None [] [] [] [];
  (* line 226: ('MADD-sp-8', ((None, None), (None, None)), (r'^الٓمٓصٓ$', 'المص'), None, {}, {}, {}, {}) *)
  Rule "MADD-sp-8"
    None
    (Some (Inside
       (Cat [Bol; Str [ar_alef; ar_lam; ar_maddah_above; ar_meem; ar_maddah_above; ar_sad;
         ar_maddah_above]; Eol])
       (lit [ar_alef; ar_lam; ar_meem; ar_sad])))
    None [] [] [] [];
  (* line 227: ('MADD-sp-9', ((None, None), (None, None)), (r'^الٓمٓر$', 'المر'), None, {}, {}, {}, {}) *)
  Rule "MADD-sp-9"
    None
    (Some (Inside
       (Cat [Bol; Str [ar_alef; ar_lam; ar_maddah_above; ar_meem; ar_maddah_above; ar_reh]; Eol])
       (lit [ar_alef; ar_lam; ar_meem; ar_reh])))
    None [] [] [] [];
  (* line 228: ('MADD-sp-A', ((None, None), (None, None)), (r'^صٓ$', 'ص'), None, {}, {}, {}, {}) *)
  Rule "MADD-sp-A"
    None
    (Some (Inside
       (Cat [Bol; Str [ar_sad; ar_maddah_above]; Eol])
       (lit [ar_sad])))
    None [] [] [] [];
  (* line 229: ('MADD-sp-B', ((None, None), (None, None)), (r'^عٓسٓقٓ$', 'عسق'), None, {}, {}, {}, {}) *)
  Rule "MADD-sp-B"
    None
    (Some (Inside
       (Cat [Bol; Str [ar_ain; ar_maddah_above; ar_seen; ar_maddah_above; ar_qaf;
         ar_maddah_above]; Eol])
       (lit [ar_ain; ar_seen; ar_qaf])))
    None [] [] [] [];
  (* line 230: ('MADD-sp-C', ((None, None), (None, None)), (r'^قٓ$', 'ق'), None, {}, {}, {}, {}) *)
  Rule "MADD-sp-C"
    None
    (Some (Inside
       (Cat [Bol; Str [ar_qaf; ar_maddah_above]; Eol])
       (lit [ar_qaf])))
    None [] [] [] [];
  (* line 231: ('MADD-sp-D', ((None, None), (None, None)), (r'^نٓ$', 'ن'), None, {}, {}, {}, {}) *)
  Rule "MADD-sp-D"
    None
    (Some (Inside
       (Cat [Bol; Str [ar_noon; ar_maddah_above]; Eol])
       (lit [ar_noon])))
    None [] [] [] [];
  (* line 234: ('SHMS',  ((None, None), (None, None)), (r'(ٱ|لّ?ِ|وَلَ|ءَا)ل([طثصرتضذندسظزشل])ّ', r'\1لۡ\2'), 'N', {}, {}, {}, {}) *)
  Rule "SHMS"
    None
    (Some (Inside
       (Cat [Group 1 (Alt (Chr ar_alef_wasla) (Alt (Cat [Chr ar_lam; Opt (Chr ar_shadda); Chr
         ar_kasra]) (Alt (Str [ar_waw; ar_fatha; ar_lam; ar_fatha]) (Str [ar_hamza; ar_fatha;
         ar_alef])))); Chr ar_lam; Group 2 (Cls false [ar_tah; ar_theh; ar_sad; ar_reh; ar_teh;
         ar_dad; ar_thal; ar_noon; ar_dal; ar_seen; ar_zah; ar_zain; ar_sheen; ar_lam]); Chr
         ar_shadda])
       ([TRef 1] ++ lit [ar_lam; ar_quranic_sukun] ++ [TRef 2])))
    (Some "N") [] [] [] [];
  (* line 237: ('MITHL-bb', (('ب', 'بّ'), ('بۡ', 'ب')),  (None, None), None, {}, {}, {}, {}) *)
  Rule "MITHL-bb"
    (Some (Boundary
       (Chr ar_beh)
       (Str [ar_beh; ar_shadda])
       (lit [ar_beh; ar_quranic_sukun])
       (Some (lit [ar_beh]))))
    None
    None [] [] [] [];
  (* line 238: ('MITHL-dd', (('د', 'دّ'), ('دۡ', 'د')),  ('ددّ', 'دۡد'), None, {}, {}, {}, {}) *)
  Rule "MITHL-dd"
    (Some (Boundary
       (Chr ar_dal)
       (Str [ar_dal; ar_shadda])
       (lit [ar_dal; ar_quranic_sukun])
       (Some (lit [ar_dal]))))
    (Some (Inside
       (Str [ar_dal; ar_dal; ar_shadda])
       (lit [ar_dal; ar_quranic_sukun; ar_dal])))
    None [] [] [] [];
  (* line 239: ('MITHL-kk', (('ك', 'كّ'), ('كۡ', 'ك')),  ('ككّ', 'كۡك'), None, {}, {}, {}, {}) *)
  Rule "MITHL-kk"
    (Some (Boundary
       (Chr ar_kaf)
       (Str [ar_kaf; ar_shadda])
       (lit [ar_kaf; ar_quranic_sukun])
       (Some (lit [ar_kaf]))))
    (Some (Inside
       (Str [ar_kaf; ar_kaf; ar_shadda])
       (lit [ar_kaf; ar_quranic_sukun; ar_kaf])))
    None [] [] [] [];
  (* line 240: ('MITHL-ll', (('ل', 'لّ'), ('لۡ', 'ل')),  ('للّ', 'لۡل'), None, {}, {}, {}, {}) *)
  Rule "MITHL-ll"
    (Some (Boundary
       (Chr ar_lam)
       (Str [ar_lam; ar_shadda])
       (lit [ar_lam; ar_quranic_sukun])
       (Some (lit [ar_lam]))))
    (Some (Inside
       (Str [ar_lam; ar_lam; ar_shadda])
       (lit [ar_lam; ar_quranic_sukun; ar_lam])))
    None [] [] [] [];
  (* line 241: ('MITHL-yy', ((None, None), (None, None)),  ('ییّ', 'یۡی'), None, MITHL_yy_EXCLUDE_INDEXES, {}, {}, {}) *)
  Rule "MITHL-yy"
    None
    (Some (Inside
       (Str [ar_farsi_yeh; ar_farsi_yeh; ar_shadda])
       (lit [ar_farsi_yeh; ar_quranic_sukun; ar_farsi_yeh])))
    None MITHL_yy_EXCLUDE_INDEXES [] [] [];
  (* line 242: ('MITHL-hh', ((None, None), (None, None)),  ('ههّ', 'هۡه'), None, {}, {}, {}, {}) *)
  Rule "MITHL-hh"
    None
    (Some (Inside
       (Str [ar_heh; ar_heh; ar_shadda])
       (lit [ar_heh; ar_quranic_sukun; ar_heh])))
    None [] [] [] [];
  (* line 243: ('MITHL-ww', ((r'و(ا۟)?', 'وّ'), (r'وۡ\1', 'و')),  (None, None), None, {}, {}, {}, {}) *)
  Rule "MITHL-ww"
    (Some (Boundary
       (Cat [Chr ar_waw; Opt (Group 1 (Str [ar_alef; ar_rounded_zero]))])
       (Str [ar_waw; ar_shadda])
       (lit [ar_waw; ar_quranic_sukun] ++ [TRef 1])
       (Some (lit [ar_waw]))))
    None
    None [] [] [] [];
  (* line 244: ('MITHL-tt', (('ت', 'تّ'), ('تۡ', 'ت')),  (None, None), None, {}, {}, {}, {}) *)
  Rule "MITHL-tt"
    (Some (Boundary
       (Chr ar_teh)
       (Str [ar_teh; ar_shadda])
       (lit [ar_teh; ar_quranic_sukun])
       (Some (lit [ar_teh]))))
    None
    None [] [] [] [];
  (* line 245: ('MITHL-rr', (('ر', 'رّ'), ('رۡ', 'ر')),  (None, None), None, {}, {}, {}, {}) *)
  Rule "MITHL-rr"
    (Some (Boundary
       (Chr ar_reh)
       (Str [ar_reh; ar_shadda])
       (lit [ar_reh; ar_quranic_sukun])
       (Some (lit [ar_reh]))))
    None
    None [] [] [] [];
  (* line 246: ('MITHL-ðð', (('ذ', 'ذّ'), ('ذۡ', 'ذ')),  (None, None), None, {}, {}, {}, {}) *)
  Rule "MITHL-ðð"
    (Some (Boundary
       (Chr ar_thal)
       (Str [ar_thal; ar_shadda])
       (lit [ar_thal; ar_quranic_sukun])
       (Some (lit [ar_thal]))))
    None
    None [] [] [] [];
  (* line 247: ('MITHL-ff', (('ف', 'فّ'), ('فۡ', 'ف')),  (None, None), None, {}, {}, {}, {}) *)
  Rule "MITHL-ff"
    (Some (Boundary
       (Chr ar_feh)
       (Str [ar_feh; ar_shadda])
       (lit [ar_feh; ar_quranic_sukun])
       (Some (lit [ar_feh]))))
    None
    None [] [] [] [];
  (* line 248: ('MITHL-33', (('ع', 'عّ'), ('عۡ', 'ع')),  (None, None), None, {}, {}, {}, {}) *)
  Rule "MITHL-33"
    (Some (Boundary
       (Chr ar_ain)
       (Str [ar_ain; ar_shadda])
       (lit [ar_ain; ar_quranic_sukun])
       (Some (lit [ar_ain]))))
    None
    None [] [] [] [];
  (* line 252: ('MTJNS-dt', (('د', 'تّ'), ('دۡ', 'ت')),  ('دتّ', 'دۡت'), None, {}, {}, {}, {}) *)
  Rule "MTJNS-dt"
    (Some (Boundary
       (Chr ar_dal)
       (Str [ar_teh; ar_shadda])
       (lit [ar_dal; ar_quranic_sukun])
       (Some (lit [ar_teh]))))
    (Some (Inside
       (Str [ar_dal; ar_teh; ar_shadda])
       (lit [ar_dal; ar_quranic_sukun; ar_teh])))
    None [] [] [] [];
  (* line 253: ('MTJNS-td', (('ت', 'دّ'), ('تۡ', 'د')),  (None, None), None, {}, {}, {}, {}) *)
  Rule "MTJNS-td"
    (Some (Boundary
       (Chr ar_teh)
       (Str [ar_dal; ar_shadda])
       (lit [ar_teh; ar_quranic_sukun])
       (Some (lit [ar_dal]))))
    None
    None [] [] [] [];
  (* line 254: ('MTJNS-tT', (('ت', 'طّ'), ('تۡ', 'ط')),  (None, None), None, {}, {}, {}, {}) *)
  Rule "MTJNS-tT"
    (Some (Boundary
       (Chr ar_teh)
       (Str [ar_tah; ar_shadda])
       (lit [ar_teh; ar_quranic_sukun])
       (Some (lit [ar_tah]))))
    None
    None [] [] [] [];
  (* line 255: ('MTJNS-ṯð', (('ث', 'ذّ'), ('ثۡ', 'ذ')),  (None, None), None, {}, {}, {}, {}) *)
  Rule "MTJNS-ṯð"
    (Some (Boundary
       (Chr ar_theh)
       (Str [ar_thal; ar_shadda])
       (lit [ar_theh; ar_quranic_sukun])
       (Some (lit [ar_thal]))))
    None
    None [] [] [] [];
  (* line 256: ('MTJNS-lr', (('ل', 'رّ'), ('لۡ', 'ر')),  (None, None), None, {}, {}, {}, {}) *)
  Rule "MTJNS-lr"
    (Some (Boundary
       (Chr ar_lam)
       (Str [ar_reh; ar_shadda])
       (lit [ar_lam; ar_quranic_sukun])
       (Some (lit [ar_reh]))))
    None
    None [] [] [] [];
  (* line 257: ('MTJNS-ðṮ', (('ذ', 'ظّ'), ('ذۡ', 'ظ')),  (None, None), None, {}, {}, {}, {}) *)
  Rule "MTJNS-ðṮ"
    (Some (Boundary
       (Chr ar_thal)
       (Str [ar_zah; ar_shadda])
       (lit [ar_thal; ar_quranic_sukun])
       (Some (lit [ar_zah]))))
    None
    None [] [] [] [];
  (* line 258: ('MTJNS-qk', ((None, None), (None, None)),  ('قكّ', 'قۡك'), None, {}, {}, {}, {}) *)
  Rule "MTJNS-qk"
    None
    (Some (Inside
       (Str [ar_qaf; ar_kaf; ar_shadda])
       (lit [ar_qaf; ar_quranic_sukun; ar_kaf])))
    None [] [] [] [];
  (* line 259: ('MTJNS-bm', (('ب', 'مّ'), ('بۡ', 'م')),  (None, None), None, {}, {}, {}, {}) *)
  Rule "MTJNS-bm"
    (Some (Boundary
       (Chr ar_beh)
       (Str [ar_meem; ar_shadda])
       (lit [ar_beh; ar_quranic_sukun])
       (Some (lit [ar_meem]))))
    None
    None [] [] [] [];
  (* line 262: ('t-assim', ((None, None), (None, None)),  ('طت', 'طۡت'), None, {}, {}, {}, {}) *)
  Rule "t-assim"
    None
    (Some (Inside
       (Str [ar_tah; ar_teh])
       (lit [ar_tah; ar_quranic_sukun; ar_teh])))
    None [] [] [] [];
  (* line 267: ('HU',  ((r'(?<=[َُِ])هُۥ', r'[^ٱ]'), ('هُ', None)), (None, None), None, {(39,7,13)}, {}, {}, {}) *)
  Rule "HU"
    (Some (Boundary
       (Cat [Behind false 1 (Cls false [ar_fatha; ar_damma; ar_kasra]); Str [ar_heh; ar_damma;
         ar_small_waw]])
       (Cls true [ar_alef_wasla])
       (lit [ar_heh; ar_damma])
       None))
    None
    None ([(39, 7, 13)]) [] [] [];
  (* line 270: ('min-u-1',  ((None, None), (None, None)), ('دَاوُۥد', 'دَاوُد'), None, {}, {}, {}, {}) *)
  Rule "min-u-1"
    None
    (Some (Inside
       (Str [ar_dal; ar_fatha; ar_alef; ar_waw; ar_damma; ar_small_waw; ar_dal])
       (lit [ar_dal; ar_fatha; ar_alef; ar_waw; ar_damma; ar_dal])))
    None [] [] [] [];
  (* line 271: ('min-u-2',  ((None, None), (None, None)), (r'([یت])َلۡوُۥنَ', r'\1َلۡوُنَ'), None, {}, {}, {}, {}) *)
  Rule "min-u-2"
    None
    (Some (Inside
       (Cat [Group 1 (Cls false [ar_farsi_yeh; ar_teh]); Str [ar_fatha; ar_lam; ar_quranic_sukun;
         ar_waw; ar_damma; ar_small_waw; ar_noon; ar_fatha]])
       ([TRef 1] ++ lit [ar_fatha; ar_lam; ar_quranic_sukun; ar_waw; ar_damma; ar_noon;
         ar_fatha])))
    None [] [] [] [];
  (* line 272: ('min-u-3',  ((None, None), (None, None)), ('وُۥرِیَ', 'وُرِیَ'), None, {}, {}, {}, {}) *)
  Rule "min-u-3"
    None
    (Some (Inside
       (Str [ar_waw; ar_damma; ar_small_waw; ar_reh; ar_kasra; ar_farsi_yeh; ar_fatha])
       (lit [ar_waw; ar_damma; ar_reh; ar_kasra; ar_farsi_yeh; ar_fatha])))
    None [] [] [] [];
  (* line 273: ('min-u-4',  ((None, None), (None, None)), (r'(لِت|ی)َسۡتَوُۥ(ا۟|نَ)', r'\1َسۡتَوُ\2'), None, {}, {}, {}, {}) *)
  Rule "min-u-4"
    None
    (Some (Inside
       (Cat [Group 1 (Alt (Str [ar_lam; ar_kasra; ar_teh]) (Chr ar_farsi_yeh)); Str [ar_fatha;
         ar_seen; ar_quranic_sukun; ar_teh; ar_fatha; ar_waw; ar_damma; ar_small_waw]; Group 2
         (Alt (Str [ar_alef; ar_rounded_zero]) (Str [ar_noon; ar_fatha]))])
       ([TRef 1] ++ lit [ar_fatha; ar_seen; ar_quranic_sukun; ar_teh; ar_fatha; ar_waw; ar_damma]
         ++ [TRef 2])))
    None [] [] [] [];
  (* line 274: ('min-u-5',  ((None, None), (None, None)), (r'(وَ)?ٱلۡغَاوُۥنَ', r'\1ٱلۡغَاوُنَ'), None, {}, {}, {}, {}) *)
  Rule "min-u-5"
    None
    (Some (Inside
       (Cat [Opt (Group 1 (Str [ar_waw; ar_fatha])); Str [ar_alef_wasla; ar_lam; ar_quranic_sukun;
         ar_ghain; ar_fatha; ar_alef; ar_waw; ar_damma; ar_small_waw; ar_noon; ar_fatha]])
       ([TRef 1] ++ lit [ar_alef_wasla; ar_lam; ar_quranic_sukun; ar_ghain; ar_fatha; ar_alef;
         ar_waw; ar_damma; ar_noon; ar_fatha])))
    None [] [] [] [];
  (* line 275: ('min-u-6',  ((None, None), (None, None)), ('ٱلۡمَوۡءُۥدَةُ', 'ٱلۡمَوۡءُدَةُ'), None, {}, {}, {}, {}) *)
  Rule "min-u-6"
    None
    (Some (Inside
       (Str [ar_alef_wasla; ar_lam; ar_quranic_sukun; ar_meem; ar_fatha; ar_waw; ar_quranic_sukun;
         ar_hamza; ar_damma; ar_small_waw; ar_dal; ar_fatha; ar_teh_marbuta; ar_damma])
       (lit [ar_alef_wasla; ar_lam; ar_quranic_sukun; ar_meem; ar_fatha; ar_waw; ar_quranic_sukun;
         ar_hamza; ar_damma; ar_dal; ar_fatha; ar_teh_marbuta; ar_damma])))
    None [] [] [] [];
  (* line 276: ('min-u-7',  ((None, None), (None, None)), ('وُۥ', 'وُ'), None, {}, {}, {}, RESTRICT_INDEXES_MIN_U_7) *)
  Rule "min-u-7"
    None
    (Some (Inside
       (Str [ar_waw; ar_damma; ar_small_waw])
       (lit [ar_waw; ar_damma])))
    None [] [] [] RESTRICT_INDEXES_MIN_U_7;
  (* line 277: ('min-u-8',  ((None, None), (None, None)), (r'لِیَسُۥ(ـ)?ُٔوا', r'لِیَسُ\1ُٔوا'), None, {}, {}, {}, {(17,7,12)}) *)
  Rule "min-u-8"
    None
    (Some (Inside
       (Cat [Str [ar_lam; ar_kasra; ar_farsi_yeh; ar_fatha; ar_seen; ar_damma; ar_small_waw]; Opt
         (Group 1 (Chr ar_tatweel)); Str [ar_hamza_above; ar_damma; ar_waw; ar_alef]])
       (lit [ar_lam; ar_kasra; ar_farsi_yeh; ar_fatha; ar_seen; ar_damma] ++ [TRef 1] ++ lit
         [ar_hamza_above; ar_damma; ar_waw; ar_alef])))
    None [] [] [] ([(17, 7, 12)]);
  (* line 279: ('HI',  ((r'(?<=[َُِ])هِۦ', '[^ٱ]'), ('هِ', None)), (None, None), None, {}, {}, {}, {}) *)
  Rule "HI"
    (Some (Boundary
       (Cat [Behind false 1 (Cls false [ar_fatha; ar_damma; ar_kasra]); Str [ar_heh; ar_kasra;
         ar_small_yeh]])
       (Cls true [ar_alef_wasla])
       (lit [ar_heh; ar_kasra])
       None))
    None
    None [] [] [] [];
  (* line 281: ('min-y-1',  ((None, None), (None, None)), ('إِبۡرَٰهِۧم', 'إِبۡرَٰهِم'), None, {}, {}, {}, {}) *)
  Rule "min-y-1"
    None
    (Some (Inside
       (Str [ar_alef_with_hamza_below; ar_kasra; ar_beh; ar_quranic_sukun; ar_reh; ar_fatha;
         ar_superscript_alef; ar_heh; ar_kasra; ar_small_high_yeh; ar_meem])
       (lit [ar_alef_with_hamza_below; ar_kasra; ar_beh; ar_quranic_sukun; ar_reh; ar_fatha;
         ar_superscript_alef; ar_heh; ar_kasra; ar_meem])))
    None [] [] [] [];
  (* line 282: ('min-y-2',  ((None, None), (None, None)), ('نَبِیِّۧ', 'نَبِیِّ'), None, EXCLUDE_INDEXES_MIN_Y_2, {}, {}, {}) *)
  Rule "min-y-2"
    None
    (Some (Inside
       (Str [ar_noon; ar_fatha; ar_beh; ar_kasra; ar_farsi_yeh; ar_shadda; ar_kasra;
         ar_small_high_yeh])
       (lit [ar_noon; ar_fatha; ar_beh; ar_kasra; ar_farsi_yeh; ar_shadda; ar_kasra])))
    None EXCLUDE_INDEXES_MIN_Y_2 [] [] [];
  (* line 283: ('min-y-3',  ((r'^یُحۡیِۦ$', r'[^ٱ]'), ('یُحۡیِ', None)), (None, None), None, {}, {}, {}, {}) *)
  Rule "min-y-3"
    (Some (Boundary
       (Cat [Bol; Str [ar_farsi_yeh; ar_damma; ar_hah; ar_quranic_sukun; ar_farsi_yeh; ar_kasra;
         ar_small_yeh]; Eol])
       (Cls true [ar_alef_wasla])
       (lit [ar_farsi_yeh; ar_damma; ar_hah; ar_quranic_sukun; ar_farsi_yeh; ar_kasra])
       None))
    None
    None [] [] [] [];
  (* line 284: ('min-y-4',  ((None, None), (None, None)), (r'ۦ$', r''), None, {}, {}, {}, RESTRICT_INDEXES_MIN_Y_4) *)
  Rule "min-y-4"
    None
    (Some (Inside
       (Cat [Chr ar_small_yeh; Eol])
       ([])))
    None [] [] [] RESTRICT_INDEXES_MIN_Y_4;
  (* line 285: ('min-y-5',  ((None, None), (None, None)), (r'ِۧنَ$', 'ِنَ'), None, {}, {}, {}, RESTRICT_INDEXES_MIN_5) *)
  Rule "min-y-5"
    None
    (Some (Inside
       (Cat [Str [ar_kasra; ar_small_high_yeh; ar_noon; ar_fatha]; Eol])
       (lit [ar_kasra; ar_noon; ar_fatha])))
    None [] [] [] RESTRICT_INDEXES_MIN_5;
  (* line 286: ('min-y-6',  ((None, None), (None, None)), ('ءَاتَىٰنِۦ', 'ءَاتَىٰنِ'), None, {}, {}, {}, {(27,36,8)}) *)
  Rule "min-y-6"
    None
    (Some (Inside
       (Str [ar_hamza; ar_fatha; ar_alef; ar_teh; ar_fatha; ar_alef_maksura; ar_superscript_alef;
         ar_noon; ar_kasra; ar_small_yeh])
       (lit [ar_hamza; ar_fatha; ar_alef; ar_teh; ar_fatha; ar_alef_maksura; ar_superscript_alef;
         ar_noon; ar_kasra])))
    None [] [] [] ([(27, 36, 8)]);
  (* line 287: ('min-y-7',  ((None, None), (None, None)), ('إِۧلَٰفِهِمۡ', 'إِلَٰفِهِمۡ'), None, {}, {}, {}, {(106,2,1)}) *)
  Rule "min-y-7"
    None
    (Some (Inside
       (Str [ar_alef_with_hamza_below; ar_kasra; ar_small_high_yeh; ar_lam; ar_fatha;
         ar_superscript_alef; ar_feh; ar_kasra; ar_heh; ar_kasra; ar_meem; ar_quranic_sukun])
       (lit [ar_alef_with_hamza_below; ar_kasra; ar_lam; ar_fatha; ar_superscript_alef; ar_feh;
         ar_kasra; ar_heh; ar_kasra; ar_meem; ar_quranic_sukun])))
    None [] [] [] ([(106, 2, 1)]);
  (* line 288: ('min-y-8',  ((None, None), (None, None)), ('حِۡۧی', 'حِۡی'), None, {}, {}, {}, {(25,49,1), (46,33,15), (75,40,6)}) *)
  Rule "min-y-8"
    None
    (Some (Inside
       (Str [ar_hah; ar_quranic_sukun; ar_small_high_yeh; ar_kasra; ar_farsi_yeh])
       (lit [ar_hah; ar_quranic_sukun; ar_kasra; ar_farsi_yeh])))
    None [] [] [] ([(25, 49, 1); (46, 33, 15); (75, 40, 6)]);
  (* line 289: ('min-y-9',  ((None, None), (None, None)), ('وَلِِّۧی', 'وَلِِّی'), None, {}, {}, {}, {(7,196,2)}) *)
  Rule "min-y-9"
    None
    (Some (Inside
       (Str [ar_waw; ar_fatha; ar_lam; ar_kasra; ar_small_high_yeh; ar_shadda; ar_kasra;
         ar_farsi_yeh])
       (lit [ar_waw; ar_fatha; ar_lam; ar_kasra; ar_shadda; ar_kasra; ar_farsi_yeh])))
    None [] [] [] ([(7, 196, 2)]);
  (* line 290: ('min-y-A',  ((None, None), (None, None)), ('یَسۡتَحۡیِۦ', 'یَسۡتَحۡیِ'), None, {}, {}, {}, {(2,26,5)}) *)
  Rule "min-y-A"
    None
    (Some (Inside
       (Str [ar_farsi_yeh; ar_fatha; ar_seen; ar_quranic_sukun; ar_teh; ar_fatha; ar_hah;
         ar_quranic_sukun; ar_farsi_yeh; ar_kasra; ar_small_yeh])
       (lit [ar_farsi_yeh; ar_fatha; ar_seen; ar_quranic_sukun; ar_teh; ar_fatha; ar_hah;
         ar_quranic_sukun; ar_farsi_yeh; ar_kasra])))
    None [] [] [] ([(2, 26, 5)]);
  (* line 293: ('sakt-1',  ((None, None), (None, None)), ('صۜ', 'ص'), None, {}, {}, {}, {(2,245,14), (7,69,22)}) *)
  Rule "sakt-1"
    None
    (Some (Inside
       (Str [ar_sad; ar_small_high_seen])
       (lit [ar_sad])))
    None [] [] [] ([(2, 245, 14); (7, 69, 22)]);
  (* line 294: ('sakt-2',  ((None, None), (None, None)), ('اۜ', 'ا'), None, {}, {}, {}, {(18,1,15), (36,52,6)}) *)
  Rule "sakt-2"
    None
    (Some (Inside
       (Str [ar_alef; ar_small_high_seen])
       (lit [ar_alef])))
    None [] [] [] ([(18, 1, 15); (36, 52, 6)]);
  (* line 295: ('sakt-3',  ((None, None), (None, None)), ('ۡۜ', 'ۡ'), None, {}, {}, {}, {(69,28,4), (75,27,2), (83,14,2)}) *)
  Rule "sakt-3"
    None
    (Some (Inside
       (Str [ar_quranic_sukun; ar_small_high_seen])
       (lit [ar_quranic_sukun])))
    None [] [] [] ([(69, 28, 4); (75, 27, 2); (83, 14, 2)]);
  (* line 305: ('P-sil-1', ((None, None), (None, None)), (r'^((?:وَ|فَ)?أَنَا|لَٰكِنَّا|ٱلۡرَسُولَا|ٱلۡسَبِیلَا|ٱلۡظُنُونَا)۠$', r'\1'), None, {}, {}, {}, {}) *)
  Rule "P-sil-1"
    None
    (Some (Inside
       (Cat [Bol; Group 1 (Alt (Cat [Opt (NGroup (Alt (Str [ar_waw; ar_fatha]) (Str [ar_feh;
         ar_fatha]))); Str [ar_alef_with_hamza_above; ar_fatha; ar_noon; ar_fatha; ar_alef]]) (Alt
         (Str [ar_lam; ar_fatha; ar_superscript_alef; ar_kaf; ar_kasra; ar_noon; ar_shadda;
         ar_fatha; ar_alef]) (Alt (Str [ar_alef_wasla; ar_lam; ar_quranic_sukun; ar_reh; ar_fatha;
         ar_seen; ar_damma; ar_waw; ar_lam; ar_fatha; ar_alef]) (Alt (Str [ar_alef_wasla; ar_lam;
         ar_quranic_sukun; ar_seen; ar_fatha; ar_beh; ar_kasra; ar_farsi_yeh; ar_lam; ar_fatha;
         ar_alef]) (Str [ar_alef_wasla; ar_lam; ar_quranic_sukun; ar_zah; ar_damma; ar_noon;
         ar_damma; ar_waw; ar_noon; ar_fatha; ar_alef]))))); Chr ar_rectangular_zero; Eol])
       ([TRef 1])))
    None [] [] [] [];
  (* line 306: ('P-sil-2', ((None, None), (None, None)), ('قَوَارِیرَا۠', 'قَوَارِیرَا'), None, {}, {}, {}, {(76,15,8)}) *)
  Rule "P-sil-2"
    None
    (Some (Inside
       (Str [ar_qaf; ar_fatha; ar_waw; ar_fatha; ar_alef; ar_reh; ar_kasra; ar_farsi_yeh; ar_reh;
         ar_fatha; ar_alef; ar_rectangular_zero])
       (lit [ar_qaf; ar_fatha; ar_waw; ar_fatha; ar_alef; ar_reh; ar_kasra; ar_farsi_yeh; ar_reh;
         ar_fatha; ar_alef])))
    None [] [] [] ([(76, 15, 8)]);
  (* line 312: ('Sil-1', ((None, None), (None, None)), (r'وا۟$', r'وا'), None, {}, {}, {}, {}) *)
  Rule "Sil-1"
    None
    (Some (Inside
       (Cat [Str [ar_waw; ar_alef; ar_rounded_zero]; Eol])
       (lit [ar_waw; ar_alef])))
    None [] [] [] [];
  (* line 313: ('Sil-2', ((None, None), (None, None)), (r'َوۡا۟$', r'َوۡا'), None, {}, {}, {}, {}) *)
  Rule "Sil-2"
    None
    (Some (Inside
       (Cat [Str [ar_fatha; ar_waw; ar_quranic_sukun; ar_alef; ar_rounded_zero]; Eol])
       (lit [ar_fatha; ar_waw; ar_quranic_sukun; ar_alef])))
    None [] [] [] [];
  (* line 314: ('Sil-3', ((None, None), (None, None)), ('أُو۟لَٰىِٕك', 'أُولَٰىِٕك'), None, {}, {}, {}, {}) *)
  Rule "Sil-3"
    None
    (Some (Inside
       (Str [ar_alef_with_hamza_above; ar_damma; ar_waw; ar_rounded_zero; ar_lam; ar_fatha;
         ar_superscript_alef; ar_alef_maksura; ar_hamza_below; ar_kasra; ar_kaf])
       (lit [ar_alef_with_hamza_above; ar_damma; ar_waw; ar_lam; ar_fatha; ar_superscript_alef;
         ar_alef_maksura; ar_hamza_below; ar_kasra; ar_kaf])))
    None [] [] [] [];
  (* line 315: ('Sil-4', ((r'و([َُ])ا۟', 'ٱ'), (r'و\1ا', None)), (None, None), None, EXCLUDE_INDEXES_SIL_5, {}, {}, {}) *)
  Rule "Sil-4"
    (Some (Boundary
       (Cat [Chr ar_waw; Group 1 (Cls false [ar_fatha; ar_damma]); Str [ar_alef;
         ar_rounded_zero]])
       (Chr ar_alef_wasla)
       (lit [ar_waw] ++ [TRef 1] ++ lit [ar_alef])
       None))
    None
    None EXCLUDE_INDEXES_SIL_5 [] [] [];
  (* line 316: ('Sil-5', ((None, None), (None, None)), ('ؤُا۟', 'ؤُا'), None, {}, {}, {}, RESTRICT_INDEXES_SIL_6) *)
  Rule "Sil-5"
    None
    (Some (Inside
       (Str [ar_waw_with_hamza_above; ar_damma; ar_alef; ar_rounded_zero])
       (lit [ar_waw_with_hamza_above; ar_damma; ar_alef])))
    None [] [] [] RESTRICT_INDEXES_SIL_6;
  (* line 317: ('Sil-6', ((None, None), (None, None)), ('أُو۟', 'أُو'), None, {}, {}, {}, RESTRICT_INDEXES_SIL_7) *)
  Rule "Sil-6"
    None
    (Some (Inside
       (Str [ar_alef_with_hamza_above; ar_damma; ar_waw; ar_rounded_zero])
       (lit [ar_alef_with_hamza_above; ar_damma; ar_waw])))
    None [] [] [] RESTRICT_INDEXES_SIL_7;
  (* line 318: ('Sil-7', ((None, None), (None, None)), (r'ا۟(?!$)', 'ا'), None, {}, {}, {}, RESTRICT_INDEXES_SIL_8) *)
  Rule "Sil-7"
    None
    (Some (Inside
       (Cat [Str [ar_alef; ar_rounded_zero]; Ahead true (Eol)])
       (lit [ar_alef])))
    None [] [] [] RESTRICT_INDEXES_SIL_8;
  (* line 319: ('Sil-8', ((None, None), (None, None)), ('إِی۟', 'إِی'), None, {}, {}, {}, RESTRICT_INDEXES_SIL_9) *)
  Rule "Sil-8"
    None
    (Some (Inside
       (Str [ar_alef_with_hamza_below; ar_kasra; ar_farsi_yeh; ar_rounded_zero])
       (lit [ar_alef_with_hamza_below; ar_kasra; ar_farsi_yeh])))
    None [] [] [] RESTRICT_INDEXES_SIL_9;
  (* line 320: ('Sil-9', ((None, None), (None, None)), (r'ا۟$', 'ا'), None, {(76,16,1)}, {}, {}, RESTRICT_INDEXES_SIL_A) *)
  Rule "Sil-9"
    None
    (Some (Inside
       (Cat [Str [ar_alef; ar_rounded_zero]; Eol])
       (lit [ar_alef])))
    None ([(76, 16, 1)]) [] [] RESTRICT_INDEXES_SIL_A;
  (* line 321: ('Sil-A', ((None, None), (None, None)), ('ا۟', 'ا'), None, {}, {}, {}, {(39,69,7), (89,23,1)}) *)
  Rule "Sil-A"
    None
    (Some (Inside
       (Str [ar_alef; ar_rounded_zero])
       (lit [ar_alef])))
    None [] [] [] ([(39, 69, 7); (89, 23, 1)]);
  (* line 322: ('Sil-B', ((None, None), (None, None)), ('قَوَارِیرَا۟', 'قَوَارِیرَا'), None, {}, {}, {}, {(76,16,1)}) *)
  Rule "Sil-B"
    None
    (Some (Inside
       (Str [ar_qaf; ar_fatha; ar_waw; ar_fatha; ar_alef; ar_reh; ar_kasra; ar_farsi_yeh; ar_reh;
         ar_fatha; ar_alef; ar_rounded_zero])
       (lit [ar_qaf; ar_fatha; ar_waw; ar_fatha; ar_alef; ar_reh; ar_kasra; ar_farsi_yeh; ar_reh;
         ar_fatha; ar_alef])))
    None [] [] [] ([(76, 16, 1)]);
  (* line 323: ('Sil-C', ((None, None), (None, None)), ('بِأَیۡی۟دٍ', 'بِأَیۡیدٍ'), None, {}, {}, {}, {(51,47,3)}) *)
  Rule "Sil-C"
    None
    (Some (Inside
       (Str [ar_beh; ar_kasra; ar_alef_with_hamza_above; ar_fatha; ar_farsi_yeh; ar_quranic_sukun;
         ar_farsi_yeh; ar_rounded_zero; ar_dal; ar_kasratan])
       (lit [ar_beh; ar_kasra; ar_alef_with_hamza_above; ar_fatha; ar_farsi_yeh; ar_quranic_sukun;
         ar_farsi_yeh; ar_dal; ar_kasratan])))
    None [] [] [] ([(51, 47, 3)]);
  (* line 324: ('Sil-D', ((None, None), (None, None)), (r'تَا۟یۡ(ـ)?َٔسُوا', r'تَایۡ\1َٔسُوا'), None, {}, {}, {}, {(12,87,8)}) *)
  Rule "Sil-D"
    None
    (Some (Inside
       (Cat [Str [ar_teh; ar_fatha; ar_alef; ar_rounded_zero; ar_farsi_yeh; ar_quranic_sukun]; Opt
         (Group 1 (Chr ar_tatweel)); Str [ar_hamza_above; ar_fatha; ar_seen; ar_damma; ar_waw;
         ar_alef]])
       (lit [ar_teh; ar_fatha; ar_alef; ar_farsi_yeh; ar_quranic_sukun] ++ [TRef 1] ++ lit
         [ar_hamza_above; ar_fatha; ar_seen; ar_damma; ar_waw; ar_alef])))
    None [] [] [] ([(12, 87, 8)]);
  (* line 325: ('Sil-E', ((None, None), (None, None)), ('لَأَا۟ذۡبَحَنَّهُ', 'لَأَاذۡبَحَنَّهُ'), None, {}, {}, {}, {(27,21,5)}) *)
  Rule "Sil-E"
    None
    (Some (Inside
       (Str [ar_lam; ar_fatha; ar_alef_with_hamza_above; ar_fatha; ar_alef; ar_rounded_zero;
         ar_thal; ar_quranic_sukun; ar_beh; ar_fatha; ar_hah; ar_fatha; ar_noon; ar_shadda;
         ar_fatha; ar_heh; ar_damma])
       (lit [ar_lam; ar_fatha; ar_alef_with_hamza_above; ar_fatha; ar_alef; ar_thal;
         ar_quranic_sukun; ar_beh; ar_fatha; ar_hah; ar_fatha; ar_noon; ar_shadda; ar_fatha;
         ar_heh; ar_damma])))
    None [] [] [] ([(27, 21, 5)]);
  (* line 326: ('Sil-F', ((None, None), (None, None)), ('لِشَا۟یۡءٍ', 'لِشَایۡءٍ'), None, {}, {}, {}, {(18,23,3)}) *)
  Rule "Sil-F"
    None
    (Some (Inside
       (Str [ar_lam; ar_kasra; ar_sheen; ar_fatha; ar_alef; ar_rounded_zero; ar_farsi_yeh;
         ar_quranic_sukun; ar_hamza; ar_kasratan])
       (lit [ar_lam; ar_kasra; ar_sheen; ar_fatha; ar_alef; ar_farsi_yeh; ar_quranic_sukun;
         ar_hamza; ar_kasratan])))
    None [] [] [] ([(18, 23, 3)]);
  (* line 327: ('Sil-G', ((None, None), (None, None)), ('یَا۟', 'یَا'), None, {}, {}, {}, {(12,87,14), (13,31,20)}) *)
  Rule "Sil-G"
    None
    (Some (Inside
       (Str [ar_farsi_yeh; ar_fatha; ar_alef; ar_rounded_zero])
       (lit [ar_farsi_yeh; ar_fatha; ar_alef])))
    None [] [] [] ([(12, 87, 14); (13, 31, 20)]);
  (* line 332: ('hapax-1', ((None, None), (None, None)), ('مَجۡر۪ىٰهَا', 'مَجۡرىٰهَا'), None, {}, {}, {}, {}) *)
  Rule "hapax-1"
    None
    (Some (Inside
       (Str [ar_meem; ar_fatha; ar_jeem; ar_quranic_sukun; ar_reh; ar_low_stop; ar_alef_maksura;
         ar_superscript_alef; ar_heh; ar_fatha; ar_alef])
       (lit [ar_meem; ar_fatha; ar_jeem; ar_quranic_sukun; ar_reh; ar_alef_maksura;
         ar_superscript_alef; ar_heh; ar_fatha; ar_alef])))
    None [] [] [] [];
  (* line 333: ('hapax-2', ((None, None), (None, None)), ('تَأۡمَ۫نَّا', 'تَأۡمَنَّا'), None, {}, {}, {}, {}) *)
  Rule "hapax-2"
    None
    (Some (Inside
       (Str [ar_teh; ar_fatha; ar_alef_with_hamza_above; ar_quranic_sukun; ar_meem; ar_fatha;
         ar_high_stop; ar_noon; ar_shadda; ar_fatha; ar_alef])
       (lit [ar_teh; ar_fatha; ar_alef_with_hamza_above; ar_quranic_sukun; ar_meem; ar_fatha;
         ar_noon; ar_shadda; ar_fatha; ar_alef])))
    None [] [] [] [];
  (* line 334: ('hapax-3', ((None, None), (None, None)), ('ءَا۬عۡجَمِیّ', 'ءَاعۡجَمِیّ'), None, {}, {}, {}, {}) *)
  Rule "hapax-3"
    None
    (Some (Inside
       (Str [ar_hamza; ar_fatha; ar_alef; ar_filled_high_stop; ar_ain; ar_quranic_sukun; ar_jeem;
         ar_fatha; ar_meem; ar_kasra; ar_farsi_yeh; ar_shadda])
       (lit [ar_hamza; ar_fatha; ar_alef; ar_ain; ar_quranic_sukun; ar_jeem; ar_fatha; ar_meem;
         ar_kasra; ar_farsi_yeh; ar_shadda])))
    None [] [] [] []
].

Definition RESTORE_SANDHI_RULES : list rule := [
  (* line 340: ('hapax-1', ((None, None), (None, None)), ('مَجۡرىٰهَا', 'مَجۡر۪ىٰهَا'), None, {}, {}, {}, {}) *)
  Rule "hapax-1"
    None
    (Some (Inside
       (Str [ar_meem; ar_fatha; ar_jeem; ar_quranic_sukun; ar_reh; ar_alef_maksura;
         ar_superscript_alef; ar_heh; ar_fatha; ar_alef])
       (lit [ar_meem; ar_fatha; ar_jeem; ar_quranic_sukun; ar_reh; ar_low_stop; ar_alef_maksura;
         ar_superscript_alef; ar_heh; ar_fatha; ar_alef])))
    None [] [] [] [];
  (* line 341: ('hapax-2', ((None, None), (None, None)), ('تَأۡمَنَّا', 'تَأۡمَ۫نَّا'), None, {}, {}, {}, {}) *)
  Rule "hapax-2"
    None
    (Some (Inside
       (Str [ar_teh; ar_fatha; ar_alef_with_hamza_above; ar_quranic_sukun; ar_meem; ar_fatha;
         ar_noon; ar_shadda; ar_fatha; ar_alef])
       (lit [ar_teh; ar_fatha; ar_alef_with_hamza_above; ar_quranic_sukun; ar_meem; ar_fatha;
         ar_high_stop; ar_noon; ar_shadda; ar_fatha; ar_alef])))
    None [] [] [] [];
  (* line 342: ('hapax-3', ((None, None), (None, None)), ('ءَاعۡجَمِیّ', 'ءَا۬عۡجَمِیّ'), None, {}, {}, {}, {}) *)
  Rule "hapax-3"
    None
    (Some (Inside
       (Str [ar_hamza; ar_fatha; ar_alef; ar_ain; ar_quranic_sukun; ar_jeem; ar_fatha; ar_meem;
         ar_kasra; ar_farsi_yeh; ar_shadda])
       (lit [ar_hamza; ar_fatha; ar_alef; ar_filled_high_stop; ar_ain; ar_quranic_sukun; ar_jeem;
         ar_fatha; ar_meem; ar_kasra; ar_farsi_yeh; ar_shadda])))
    None [] [] [] [];
  (* line 345: ('P-sil-1',  ((None, None), (None, None)),  (r'^((?:وَ|فَ)?أَنَا|لَّٰكِنَّا|ٱلۡرَسُولَا|ٱلۡسَبِیلَا|ٱلۡظُنُونَا)$', r'\1۠'), None, EXCLUDE_INDEXES_SIL_1, {}, {}, {}) *)
  Rule "P-sil-1"
    None
    (Some (Inside
       (Cat [Bol; Group 1 (Alt (Cat [Opt (NGroup (Alt (Str [ar_waw; ar_fatha]) (Str [ar_feh;
         ar_fatha]))); Str [ar_alef_with_hamza_above; ar_fatha; ar_noon; ar_fatha; ar_alef]]) (Alt
         (Str [ar_lam; ar_shadda; ar_fatha; ar_superscript_alef; ar_kaf; ar_kasra; ar_noon;
         ar_shadda; ar_fatha; ar_alef]) (Alt (Str [ar_alef_wasla; ar_lam; ar_quranic_sukun;
         ar_reh; ar_fatha; ar_seen; ar_damma; ar_waw; ar_lam; ar_fatha; ar_alef]) (Alt (Str
         [ar_alef_wasla; ar_lam; ar_quranic_sukun; ar_seen; ar_fatha; ar_beh; ar_kasra;
         ar_farsi_yeh; ar_lam; ar_fatha; ar_alef]) (Str [ar_alef_wasla; ar_lam; ar_quranic_sukun;
         ar_zah; ar_damma; ar_noon; ar_damma; ar_waw; ar_noon; ar_fatha; ar_alef]))))); Eol])
       ([TRef 1] ++ lit [ar_rectangular_zero])))
    None EXCLUDE_INDEXES_SIL_1 [] [] [];
  (* line 346: ('P-sil-2', ((None, None), (None, None)), ('قَوَارِیرَا', 'قَوَارِیرَا۠'), None, {}, {}, {}, {(76,15,8)}) *)
  Rule "P-sil-2"
    None
    (Some (Inside
       (Str [ar_qaf; ar_fatha; ar_waw; ar_fatha; ar_alef; ar_reh; ar_kasra; ar_farsi_yeh; ar_reh;
         ar_fatha; ar_alef])
       (lit [ar_qaf; ar_fatha; ar_waw; ar_fatha; ar_alef; ar_reh; ar_kasra; ar_farsi_yeh; ar_reh;
         ar_fatha; ar_alef; ar_rectangular_zero])))
    None [] [] [] ([(76, 15, 8)]);
  (* line 348: ('sakt-1',  ((None, None), (None, None)), ('ص', 'صۜ'), None, {}, {}, {}, {(2,245,14), (7,69,22)}) *)
  Rule "sakt-1"
    None
    (Some (Inside
       (Chr ar_sad)
       (lit [ar_sad; ar_small_high_seen])))
    None [] [] [] ([(2, 245, 14); (7, 69, 22)]);
  (* line 349: ('sakt-2',  ((None, None), (None, None)), ('ا', 'اۜ'), None, {}, {}, {}, {(18,1,15), (36,52,6)}) *)
  Rule "sakt-2"
    None
    (Some (Inside
       (Chr ar_alef)
       (lit [ar_alef; ar_small_high_seen])))
    None [] [] [] ([(18, 1, 15); (36, 52, 6)]);
  (* line 350: ('sakt-3',  ((None, None), (None, None)), ('ۡ', 'ۡۜ'), None, {}, {}, {}, {(69,28,4), (75,27,2), (83,14,2)}) *)
  Rule "sakt-3"
    None
    (Some (Inside
       (Chr ar_quranic_sukun)
       (lit [ar_quranic_sukun; ar_small_high_seen])))
    None [] [] [] ([(69, 28, 4); (75, 27, 2); (83, 14, 2)]);
  (* line 352: ('Sil-1',  ((None, None), (None, None)),  (r'وا$', 'وا۟'), None, {}, {}, {}, {}) *)
  Rule "Sil-1"
    None
    (Some (Inside
       (Cat [Str [ar_waw; ar_alef]; Eol])
       (lit [ar_waw; ar_alef; ar_rounded_zero])))
    None [] [] [] [];
  (* line 353: ('Sil-2',  ((None, None), (None, None)),  (r'َوۡا$', 'َوۡا۟'), None, {}, {}, {}, {}) *)
  Rule "Sil-2"
    None
    (Some (Inside
       (Cat [Str [ar_fatha; ar_waw; ar_quranic_sukun; ar_alef]; Eol])
       (lit [ar_fatha; ar_waw; ar_quranic_sukun; ar_alef; ar_rounded_zero])))
    None [] [] [] [];
  (* line 354: ('Sil-3', ((None, None), (None, None)), ('أُولَٰىِٕك', 'أُو۟لَٰىِٕك'), None, {}, {}, {}, {}) *)
  Rule "Sil-3"
    None
    (Some (Inside
       (Str [ar_alef_with_hamza_above; ar_damma; ar_waw; ar_lam; ar_fatha; ar_superscript_alef;
         ar_alef_maksura; ar_hamza_below; ar_kasra; ar_kaf])
       (lit [ar_alef_with_hamza_above; ar_damma; ar_waw; ar_rounded_zero; ar_lam; ar_fatha;
         ar_superscript_alef; ar_alef_maksura; ar_hamza_below; ar_kasra; ar_kaf])))
    None [] [] [] [];
  (* line 355: ('Sil-4', ((r'و([َُ])ا', 'ٱ'), (r'و\1ا۟', None)), (None, None), None, EXCLUDE_INDEXES_SIL_5, {}, {}, {}) *)
  Rule "Sil-4"
    (Some (Boundary
       (Cat [Chr ar_waw; Group 1 (Cls false [ar_fatha; ar_damma]); Chr ar_alef])
       (Chr ar_alef_wasla)
       (lit [ar_waw] ++ [TRef 1] ++ lit [ar_alef; ar_rounded_zero])
       None))
    None
    None EXCLUDE_INDEXES_SIL_5 [] [] [];
  (* line 356: ('Sil-5', ((None, None), (None, None)), ('ؤُا', 'ؤُا۟'), None, {}, {}, {}, RESTRICT_INDEXES_SIL_6) *)
  Rule "Sil-5"
    None
    (Some (Inside
       (Str [ar_waw_with_hamza_above; ar_damma; ar_alef])
       (lit [ar_waw_with_hamza_above; ar_damma; ar_alef; ar_rounded_zero])))
    None [] [] [] RESTRICT_INDEXES_SIL_6;
  (* line 357: ('Sil-6', ((None, None), (None, None)), ('أُو', 'أُو۟'), None, {}, {}, {}, RESTRICT_INDEXES_SIL_7) *)
  Rule "Sil-6"
    None
    (Some (Inside
       (Str [ar_alef_with_hamza_above; ar_damma; ar_waw])
       (lit [ar_alef_with_hamza_above; ar_damma; ar_waw; ar_rounded_zero])))
    None [] [] [] RESTRICT_INDEXES_SIL_7;
  (* line 358: ('Sil-7', ((None, None), (None, None)), (r'ا(?!$)', 'ا۟'), None, {}, {}, {}, RESTRICT_INDEXES_SIL_8) *)
  Rule "Sil-7"
    None
    (Some (Inside
       (Cat [Chr ar_alef; Ahead true (Eol)])
       (lit [ar_alef; ar_rounded_zero])))
    None [] [] [] RESTRICT_INDEXES_SIL_8;
  (* line 359: ('Sil-8', ((None, None), (None, None)), ('إِی', 'إِی۟'), None, {}, {}, {}, RESTRICT_INDEXES_SIL_9) *)
  Rule "Sil-8"
    None
    (Some (Inside
       (Str [ar_alef_with_hamza_below; ar_kasra; ar_farsi_yeh])
       (lit [ar_alef_with_hamza_below; ar_kasra; ar_farsi_yeh; ar_rounded_zero])))
    None [] [] [] RESTRICT_INDEXES_SIL_9;
  (* line 360: ('Sil-9', ((None, None), (None, None)), (r'ا$', 'ا۟'), None, {(76,16,1)}, {}, {}, RESTRICT_INDEXES_SIL_A) *)
  Rule "Sil-9"
    None
    (Some (Inside
       (Cat [Chr ar_alef; Eol])
       (lit [ar_alef; ar_rounded_zero])))
    None ([(76, 16, 1)]) [] [] RESTRICT_INDEXES_SIL_A;
  (* line 361: ('Sil-A', ((None, None), (None, None)), ('ا', 'ا۟'), None, {}, {}, {}, {(39,69,7), (89,23,1)}) *)
  Rule "Sil-A"
    None
    (Some (Inside
       (Chr ar_alef)
       (lit [ar_alef; ar_rounded_zero])))
    None [] [] [] ([(39, 69, 7); (89, 23, 1)]);
  (* line 362: ('Sil-B', ((None, None), (None, None)), ('قَوَارِیرَا', 'قَوَارِیرَا۟'), None, {}, {}, {}, {(76,16,1)}) *)
  Rule "Sil-B"
    None
    (Some (Inside
       (Str [ar_qaf; ar_fatha; ar_waw; ar_fatha; ar_alef; ar_reh; ar_kasra; ar_farsi_yeh; ar_reh;
         ar_fatha; ar_alef])
       (lit [ar_qaf; ar_fatha; ar_waw; ar_fatha; ar_alef; ar_reh; ar_kasra; ar_farsi_yeh; ar_reh;
         ar_fatha; ar_alef; ar_rounded_zero])))
    None [] [] [] ([(76, 16, 1)]);
  (* line 363: ('Sil-C', ((None, None), (None, None)), ('بِأَیۡیدٍ', 'بِأَیۡی۟دٍ'), None, {}, {}, {}, {(51,47,3)}) *)
  Rule "Sil-C"
    None
    (Some (Inside
       (Str [ar_beh; ar_kasra; ar_alef_with_hamza_above; ar_fatha; ar_farsi_yeh; ar_quranic_sukun;
         ar_farsi_yeh; ar_dal; ar_kasratan])
       (lit [ar_beh; ar_kasra; ar_alef_with_hamza_above; ar_fatha; ar_farsi_yeh; ar_quranic_sukun;
         ar_farsi_yeh; ar_rounded_zero; ar_dal; ar_kasratan])))
    None [] [] [] ([(51, 47, 3)]);
  (* line 364: ('Sil-D', ((None, None), (None, None)), (r'تَایۡ(ـ)?َٔسُوا', r'تَا۟یۡ\1َٔسُوا'), None, {}, {}, {}, {(12,87,8)}) *)
  Rule "Sil-D"
    None
    (Some (Inside
       (Cat [Str [ar_teh; ar_fatha; ar_alef; ar_farsi_yeh; ar_quranic_sukun]; Opt (Group 1 (Chr
         ar_tatweel)); Str [ar_hamza_above; ar_fatha; ar_seen; ar_damma; ar_waw; ar_alef]])
       (lit [ar_teh; ar_fatha; ar_alef; ar_rounded_zero; ar_farsi_yeh; ar_quranic_sukun] ++ [TRef
         1] ++ lit [ar_hamza_above; ar_fatha; ar_seen; ar_damma; ar_waw; ar_alef])))
    None [] [] [] ([(12, 87, 8)]);
  (* line 365: ('Sil-E', ((None, None), (None, None)), ('لَأَاذۡبَحَنَّهُ', 'لَأَا۟ذۡبَحَنَّهُ'), None, {}, {}, {}, {(27,21,5)}) *)
  Rule "Sil-E"
    None
    (Some (Inside
       (Str [ar_lam; ar_fatha; ar_alef_with_hamza_above; ar_fatha; ar_alef; ar_thal;
         ar_quranic_sukun; ar_beh; ar_fatha; ar_hah; ar_fatha; ar_noon; ar_shadda; ar_fatha;
         ar_heh; ar_damma])
       (lit [ar_lam; ar_fatha; ar_alef_with_hamza_above; ar_fatha; ar_alef; ar_rounded_zero;
         ar_thal; ar_quranic_sukun; ar_beh; ar_fatha; ar_hah; ar_fatha; ar_noon; ar_shadda;
         ar_fatha; ar_heh; ar_damma])))
    None [] [] [] ([(27, 21, 5)]);
  (* line 366: ('Sil-F', ((None, None), (None, None)), ('لِشَایۡءٍ', 'لِشَا۟یۡءٍ'), None, {}, {}, {}, {(18,23,3)}) *)
  Rule "Sil-F"
    None
    (Some (Inside
       (Str [ar_lam; ar_kasra; ar_sheen; ar_fatha; ar_alef; ar_farsi_yeh; ar_quranic_sukun;
         ar_hamza; ar_kasratan])
       (lit [ar_lam; ar_kasra; ar_sheen; ar_fatha; ar_alef; ar_rounded_zero; ar_farsi_yeh;
         ar_quranic_sukun; ar_hamza; ar_kasratan])))
    None [] [] [] ([(18, 23, 3)]);
  (* line 367: ('Sil-G', ((None, None), (None, None)), ('یَا', 'یَا۟'), None, {}, {}, {}, {(12,87,14), (13,31,20)}) *)
  Rule "Sil-G"
    None
    (Some (Inside
       (Str [ar_farsi_yeh; ar_fatha; ar_alef])
       (lit [ar_farsi_yeh; ar_fatha; ar_alef; ar_rounded_zero])))
    None [] [] [] ([(12, 87, 14); (13, 31, 20)]);
  (* line 369: ('M1', (('مۡ', 'ب'), ('م', 'ب')), (None, None), None, {}, {}, {}, {}) *)
  Rule "M1"
    (Some (Boundary
       (Str [ar_meem; ar_quranic_sukun])
       (Chr ar_beh)
       (lit [ar_meem])
       (Some (lit [ar_beh]))))
    None
    None [] [] [] [];
  (* line 370: ('M2', (('مۡ', 'م'), ('م', 'مّ')), (None, None), None, {}, {}, {}, {}) *)
  Rule "M2"
    (Some (Boundary
       (Str [ar_meem; ar_quranic_sukun])
       (Chr ar_meem)
       (lit [ar_meem])
       (Some (lit [ar_meem; ar_shadda]))))
    None
    None [] [] [] [];
  (* line 371: ('N2.1.1.A', ((r'نۡ', r'([نم])'), (r'ن', r'\1ّ')), (None, None), None, {}, {}, {}, {}) *)
  Rule "N2.1.1.A"
    (Some (Boundary
       (Str [ar_noon; ar_quranic_sukun])
       (Group 1 (Cls false [ar_noon; ar_meem]))
       (lit [ar_noon])
       (Some ([TRef 1] ++ lit [ar_shadda]))))
    None
    None [] [] [] [];
  (* line 372: ('N2.1.1.B', ((r'ً([ای]?)', r'([نم])'), (r'ࣰ\1', r'\1ّ')), (None, None), None, {}, {}, {}, {}) *)
  Rule "N2.1.1.B"
    (Some (Boundary
       (Cat [Chr ar_fathatan; Group 1 (Opt (Cls false [ar_alef; ar_farsi_yeh]))])
       (Group 1 (Cls false [ar_noon; ar_meem]))
       (lit [ar_open_fathatan] ++ [TRef 1])
       (Some ([TRef 1] ++ lit [ar_shadda]))))
    None
    None [] [] [] [];
  (* line 373: ('N2.1.1.C', ((r'ٌ(ا۟)?', r'([نم])'), (r'ࣱ\1', r'\1ّ')), (None, None) , None, {}, {}, {}, {}) *)
  Rule "N2.1.1.C"
    (Some (Boundary
       (Cat [Chr ar_dammatan; Opt (Group 1 (Str [ar_alef; ar_rounded_zero]))])
       (Group 1 (Cls false [ar_noon; ar_meem]))
       (lit [ar_open_dammatan] ++ [TRef 1])
       (Some ([TRef 1] ++ lit [ar_shadda]))))
    None
    None [] [] [] [];
  (* line 374: ('N2.1.1.D', ((r'ٍ', r'([نم])'), (r'ࣲ', r'\1ّ')), (None, None), None, {}, {}, {}, {}) *)
  Rule "N2.1.1.D"
    (Some (Boundary
       (Chr ar_kasratan)
       (Group 1 (Cls false [ar_noon; ar_meem]))
       (lit [ar_open_kasratan])
       (Some ([TRef 1] ++ lit [ar_shadda]))))
    None
    None [] [] [] [];
  (* line 375: ('N2.1.2.A', ((r'نۡ', r'(?:[وی])'), (r'ن', None)), (None, None), None, {}, {}, {}, {}) *)
  Rule "N2.1.2.A"
    (Some (Boundary
       (Str [ar_noon; ar_quranic_sukun])
       (NGroup (Cls false [ar_waw; ar_farsi_yeh]))
       (lit [ar_noon])
       None))
    None
    None [] [] [] [];
  (* line 376: ('N2.1.2.B', ((r'ً([ای]?)', r'(?:[وی])'), (r'ࣰ\1', None)), (None, None), None, {}, {}, {}, {}) *)
  Rule "N2.1.2.B"
    (Some (Boundary
       (Cat [Chr ar_fathatan; Group 1 (Opt (Cls false [ar_alef; ar_farsi_yeh]))])
       (NGroup (Cls false [ar_waw; ar_farsi_yeh]))
       (lit [ar_open_fathatan] ++ [TRef 1])
       None))
    None
    None [] [] [] [];
  (* line 377: ('N2.1.2.C', ((r'ٌ', r'(?:[وی])'), (r'ࣱ', None)), (None, None), None, {}, {}, {}, {}) *)
  Rule "N2.1.2.C"
    (Some (Boundary
       (Chr ar_dammatan)
       (NGroup (Cls false [ar_waw; ar_farsi_yeh]))
       (lit [ar_open_dammatan])
       None))
    None
    None [] [] [] [];
  (* line 378: ('N2.1.2.D', ((r'ٍ', r'(?:[وی])'), (r'ࣲ', None)), (None, None), None, {}, {}, {}, {}) *)
  Rule "N2.1.2.D"
    (Some (Boundary
       (Chr ar_kasratan)
       (NGroup (Cls false [ar_waw; ar_farsi_yeh]))
       (lit [ar_open_kasratan])
       None))
    None
    None [] [] [] [];
  (* line 379: ('N2.2.A', ((r'نۡ', r'([رل])'), (r'ن', r'\1ّ')), (None, None), None, {}, {}, {}, {}) *)
  Rule "N2.2.A"
    (Some (Boundary
       (Str [ar_noon; ar_quranic_sukun])
       (Group 1 (Cls false [ar_reh; ar_lam]))
       (lit [ar_noon])
       (Some ([TRef 1] ++ lit [ar_shadda]))))
    None
    None [] [] [] [];
  (* line 380: ('N2.2.B', ((r'ً([ای]?)', r'([رل])'), (r'ࣰ\1', r'\1ّ')), (None, None), None, {}, {}, {}, {}) *)
  Rule "N2.2.B"
    (Some (Boundary
       (Cat [Chr ar_fathatan; Group 1 (Opt (Cls false [ar_alef; ar_farsi_yeh]))])
       (Group 1 (Cls false [ar_reh; ar_lam]))
       (lit [ar_open_fathatan] ++ [TRef 1])
       (Some ([TRef 1] ++ lit [ar_shadda]))))
    None
    None [] [] [] [];
  (* line 381: ('N2.2.C', ((r'ٌ', r'([رل])'), (r'ࣱ', r'\1ّ')), (None, None), None, {}, {}, {}, {}) *)
  Rule "N2.2.C"
    (Some (Boundary
       (Chr ar_dammatan)
       (Group 1 (Cls false [ar_reh; ar_lam]))
       (lit [ar_open_dammatan])
       (Some ([TRef 1] ++ lit [ar_shadda]))))
    None
    None [] [] [] [];
  (* line 382: ('N2.2.D', ((r'ٍ', r'([رل])'), (r'ࣲ', r'\1ّ')), (None, None), None, {}, {}, {}, {}) *)
  Rule "N2.2.D"
    (Some (Boundary
       (Chr ar_kasratan)
       (Group 1 (Cls false [ar_reh; ar_lam]))
       (lit [ar_open_kasratan])
       (Some ([TRef 1] ++ lit [ar_shadda]))))
    None
    None [] [] [] [];
  (* line 383: ('N3.A', ((r'نۡ', r'ب'), ('نۢ', None)), (r'نۡ(?=ب)', r'نۢ'), None, {}, {}, {}, {}) *)
  Rule "N3.A"
    (Some (Boundary
       (Str [ar_noon; ar_quranic_sukun])
       (Chr ar_beh)
       (lit [ar_noon; ar_small_high_meem])
       None))
    (Some (Inside
       (Cat [Str [ar_noon; ar_quranic_sukun]; Ahead false (Chr ar_beh)])
       (lit [ar_noon; ar_small_high_meem])))
    None [] [] [] [];
  (* line 384: ('N3.B', ((r'ً(ا)?', r'ب'), (r'َۢ\1', None)), (None, None), None, {}, {}, {}, {}) *)
  Rule "N3.B"
    (Some (Boundary
       (Cat [Chr ar_fathatan; Opt (Group 1 (Chr ar_alef))])
       (Chr ar_beh)
       (lit [ar_fatha; ar_small_high_meem] ++ [TRef 1])
       None))
    None
    None [] [] [] [];
  (* line 385: ('N3.C', ((r'ٌ', r'ب'), (r'ُۢ', None)), (None, None), None, {}, {}, {}, {}) *)
  Rule "N3.C"
    (Some (Boundary
       (Chr ar_dammatan)
       (Chr ar_beh)
       (lit [ar_damma; ar_small_high_meem])
       None))
    None
    None [] [] [] [];
  (* line 386: ('N3.D', ((r'ٍ', r'ب'), (r'ِۭ', None)), (None, None), None, {}, {}, {}, {}) *)
  Rule "N3.D"
    (Some (Boundary
       (Chr ar_kasratan)
       (Chr ar_beh)
       (lit [ar_kasra; ar_small_low_meem])
       None))
    None
    None [] [] [] [];
  (* line 387: ('N4.A', ((r'نۡ', rf'(?=[{IKHFA2}])'), (r'ن', None)), (rf'نۡ(?=[{IKHFA2}])', r'ن'), None, {}, {}, {}, {}) *)
  Rule "N4.A"
    (Some (Boundary
       (Str [ar_noon; ar_quranic_sukun])
       (Ahead false (Cls false IKHFA2))
       (lit [ar_noon])
       None))
    (Some (Inside
       (Cat [Str [ar_noon; ar_quranic_sukun]; Ahead false (Cls false IKHFA2)])
       (lit [ar_noon])))
    None [] [] [] [];
  (* line 388: ('N4.B', ((rf'ً([ای])?', rf'(?=[{IKHFA2}])'), (r'ࣰ\1', None)),  (None, None), None, {}, {}, {}, {}) *)
  Rule "N4.B"
    (Some (Boundary
       (Cat [Chr ar_fathatan; Opt (Group 1 (Cls false [ar_alef; ar_farsi_yeh]))])
       (Ahead false (Cls false IKHFA2))
       (lit [ar_open_fathatan] ++ [TRef 1])
       None))
    None
    None [] [] [] [];
  (* line 389: ('N4.C', ((rf'ٌ', rf'(?=[{IKHFA2}])'), (r'ࣱ', None)),  (None, None), None, {}, {}, {}, {}) *)
  Rule "N4.C"
    (Some (Boundary
       (Chr ar_dammatan)
       (Ahead false (Cls false IKHFA2))
       (lit [ar_open_dammatan])
       None))
    None
    None [] [] [] [];
  (* line 390: ('N4.D', ((rf'ٍ', rf'(?=[{IKHFA2}])'), (r'ࣲ', None)),  (None, None), None, {}, {}, {}, {}) *)
  Rule "N4.D"
    (Some (Boundary
       (Chr ar_kasratan)
       (Ahead false (Cls false IKHFA2))
       (lit [ar_open_kasratan])
       None))
    None
    None [] [] [] [];
  (* line 392: ('SHMS',  ((None, None), (None, None)),  (r'(ٱ|لّ?ِ|وَلَ|ءَا)لۡ([طثصرتضذندسظزشل])', r'\1ل\2ّ'), 'N', {}, {}, {}, {}) *)
  Rule "SHMS"
    None
    (Some (Inside
       (Cat [Group 1 (Alt (Chr ar_alef_wasla) (Alt (Cat [Chr ar_lam; Opt (Chr ar_shadda); Chr
         ar_kasra]) (Alt (Str [ar_waw; ar_fatha; ar_lam; ar_fatha]) (Str [ar_hamza; ar_fatha;
         ar_alef])))); Str [ar_lam; ar_quranic_sukun]; Group 2 (Cls false [ar_tah; ar_theh;
         ar_sad; ar_reh; ar_teh; ar_dad; ar_thal; ar_noon; ar_dal; ar_seen; ar_zah; ar_zain;
         ar_sheen; ar_lam])])
       ([TRef 1] ++ lit [ar_lam] ++ [TRef 2] ++ lit [ar_shadda])))
    (Some "N") [] [] [] [];
  (* line 394: ('MITHL-bb', (('بۡ', 'ب'), ('ب', 'بّ')),  (None, None), None, {}, {}, {}, {}) *)
  Rule "MITHL-bb"
    (Some (Boundary
       (Str [ar_beh; ar_quranic_sukun])
       (Chr ar_beh)
       (lit [ar_beh])
       (Some (lit [ar_beh; ar_shadda]))))
    None
    None [] [] [] [];
  (* line 395: ('MITHL-dd', (('دۡ', 'د'), ('د', 'دّ')),  ('دۡد', 'ددّ'), None, {}, {}, {}, {}) *)
  Rule "MITHL-dd"
    (Some (Boundary
       (Str [ar_dal; ar_quranic_sukun])
       (Chr ar_dal)
       (lit [ar_dal])
       (Some (lit [ar_dal; ar_shadda]))))
    (Some (Inside
       (Str [ar_dal; ar_quranic_sukun; ar_dal])
       (lit [ar_dal; ar_dal; ar_shadda])))
    None [] [] [] [];
  (* line 396: ('MITHL-kk', (('كۡ', 'ك'), ('ك', 'كّ')),  ('كۡك', 'ككّ'), None, {}, {}, {}, {}) *)
  Rule "MITHL-kk"
    (Some (Boundary
       (Str [ar_kaf; ar_quranic_sukun])
       (Chr ar_kaf)
       (lit [ar_kaf])
       (Some (lit [ar_kaf; ar_shadda]))))
    (Some (Inside
       (Str [ar_kaf; ar_quranic_sukun; ar_kaf])
       (lit [ar_kaf; ar_kaf; ar_shadda])))
    None [] [] [] [];
  (* line 397: ('MITHL-ll', (('لۡ', 'ل'), ('ل', 'لّ')),  ('لۡل', 'للّ'), None, {}, {}, {}, {}) *)
  Rule "MITHL-ll"
    (Some (Boundary
       (Str [ar_lam; ar_quranic_sukun])
       (Chr ar_lam)
       (lit [ar_lam])
       (Some (lit [ar_lam; ar_shadda]))))
    (Some (Inside
       (Str [ar_lam; ar_quranic_sukun; ar_lam])
       (lit [ar_lam; ar_lam; ar_shadda])))
    None [] [] [] [];
  (* line 398: ('MITHL-yy', ((None, None), (None, None)),  ('یۡی', 'ییّ'), None, MITHL_yy_EXCLUDE_INDEXES, {}, {}, {}) *)
  Rule "MITHL-yy"
    None
    (Some (Inside
       (Str [ar_farsi_yeh; ar_quranic_sukun; ar_farsi_yeh])
       (lit [ar_farsi_yeh; ar_farsi_yeh; ar_shadda])))
    None MITHL_yy_EXCLUDE_INDEXES [] [] [];
  (* line 399: ('MITHL-hh', ((None, None), (None, None)),  ('هۡه', 'ههّ'), None, {}, {}, {}, {}) *)
  Rule "MITHL-hh"
    None
    (Some (Inside
       (Str [ar_heh; ar_quranic_sukun; ar_heh])
       (lit [ar_heh; ar_heh; ar_shadda])))
    None [] [] [] [];
  (* line 400: ('MITHL-ww', ((r'وۡ(ا۟)?', 'و'), (r'و\1', 'وّ')),  (None, None), None, {}, {}, {}, {}) *)
  Rule "MITHL-ww"
    (Some (Boundary
       (Cat [Str [ar_waw; ar_quranic_sukun]; Opt (Group 1 (Str [ar_alef; ar_rounded_zero]))])
       (Chr ar_waw)
       (lit [ar_waw] ++ [TRef 1])
       (Some (lit [ar_waw; ar_shadda]))))
    None
    None [] [] [] [];
  (* line 401: ('MITHL-tt', (('تۡ', 'ت'), ('ت', 'تّ')),  (None, None), None, {}, {}, {}, {}) *)
  Rule "MITHL-tt"
    (Some (Boundary
       (Str [ar_teh; ar_quranic_sukun])
       (Chr ar_teh)
       (lit [ar_teh])
       (Some (lit [ar_teh; ar_shadda]))))
    None
    None [] [] [] [];
  (* line 402: ('MITHL-rr', (('رۡ', 'ر'), ('ر', 'رّ')),  (None, None), None, {}, {}, {}, {}) *)
  Rule "MITHL-rr"
    (Some (Boundary
       (Str [ar_reh; ar_quranic_sukun])
       (Chr ar_reh)
       (lit [ar_reh])
       (Some (lit [ar_reh; ar_shadda]))))
    None
    None [] [] [] [];
  (* line 403: ('MITHL-ðð', (('ذۡ', 'ذ'), ('ذ', 'ذّ')),  (None, None), None, {}, {}, {}, {}) *)
  Rule "MITHL-ðð"
    (Some (Boundary
       (Str [ar_thal; ar_quranic_sukun])
       (Chr ar_thal)
       (lit [ar_thal])
       (Some (lit [ar_thal; ar_shadda]))))
    None
    None [] [] [] [];
  (* line 404: ('MITHL-ff', (('فۡ', 'ف'), ('ف', 'فّ')),  (None, None), None, {}, {}, {}, {}) *)
  Rule "MITHL-ff"
    (Some (Boundary
       (Str [ar_feh; ar_quranic_sukun])
       (Chr ar_feh)
       (lit [ar_feh])
       (Some (lit [ar_feh; ar_shadda]))))
    None
    None [] [] [] [];
  (* line 405: ('MITHL-33', (('عۡ', 'ع'), ('ع', 'عّ')),  (None, None), None, {}, {}, {}, {}) *)
  Rule "MITHL-33"
    (Some (Boundary
       (Str [ar_ain; ar_quranic_sukun])
       (Chr ar_ain)
       (lit [ar_ain])
       (Some (lit [ar_ain; ar_shadda]))))
    None
    None [] [] [] [];
  (* line 407: ('MTJNS-dt', (('دۡ', 'ت'), ('د', 'تّ')),  ('دۡت', 'دتّ'), None, {}, {}, {}, {}) *)
  Rule "MTJNS-dt"
    (Some (Boundary
       (Str [ar_dal; ar_quranic_sukun])
       (Chr ar_teh)
       (lit [ar_dal])
       (Some (lit [ar_teh; ar_shadda]))))
    (Some (Inside
       (Str [ar_dal; ar_quranic_sukun; ar_teh])
       (lit [ar_dal; ar_teh; ar_shadda])))
    None [] [] [] [];
  (* line 408: ('MTJNS-td', (('تۡ', 'د'), ('ت', 'دّ')),  (None, None), None, {}, {}, {}, {}) *)
  Rule "MTJNS-td"
    (Some (Boundary
       (Str [ar_teh; ar_quranic_sukun])
       (Chr ar_dal)
       (lit [ar_teh])
       (Some (lit [ar_dal; ar_shadda]))))
    None
    None [] [] [] [];
  (* line 409: ('MTJNS-tT', (('تۡ', 'ط'), ('ت', 'طّ')),  (None, None), None, {}, {}, {}, {}) *)
  Rule "MTJNS-tT"
    (Some (Boundary
       (Str [ar_teh; ar_quranic_sukun])
       (Chr ar_tah)
       (lit [ar_teh])
       (Some (lit [ar_tah; ar_shadda]))))
    None
    None [] [] [] [];
  (* line 410: ('MTJNS-ṯð', (('ثۡ', 'ذ'), ('ث', 'ذّ')),  (None, None), None, {}, {}, {}, {}) *)
  Rule "MTJNS-ṯð"
    (Some (Boundary
       (Str [ar_theh; ar_quranic_sukun])
       (Chr ar_thal)
       (lit [ar_theh])
       (Some (lit [ar_thal; ar_shadda]))))
    None
    None [] [] [] [];
  (* line 411: ('MTJNS-lr', (('لۡ', 'ر'), ('ل', 'رّ')),  ('لۡر', 'لرّ'), None, {}, {}, {}, {}) *)
  Rule "MTJNS-lr"
    (Some (Boundary
       (Str [ar_lam; ar_quranic_sukun])
       (Chr ar_reh)
       (lit [ar_lam])
       (Some (lit [ar_reh; ar_shadda]))))
    (Some (Inside
       (Str [ar_lam; ar_quranic_sukun; ar_reh])
       (lit [ar_lam; ar_reh; ar_shadda])))
    None [] [] [] [];
  (* line 412: ('MTJNS-ðṮ', (('ذۡ', 'ظ'), ('ذ', 'ظّ')),  (None, None), None, {}, {}, {}, {}) *)
  Rule "MTJNS-ðṮ"
    (Some (Boundary
       (Str [ar_thal; ar_quranic_sukun])
       (Chr ar_zah)
       (lit [ar_thal])
       (Some (lit [ar_zah; ar_shadda]))))
    None
    None [] [] [] [];
  (* line 413: ('MTJNS-qk', ((None, None), (None, None)),  ('قۡك', 'قكّ'), None, {}, {}, {}, {}) *)
  Rule "MTJNS-qk"
    None
    (Some (Inside
       (Str [ar_qaf; ar_quranic_sukun; ar_kaf])
       (lit [ar_qaf; ar_kaf; ar_shadda])))
    None [] [] [] [];
  (* line 414: ('MTJNS-bm', (('بۡ', 'م'), ('ب', 'مّ')),  (None, None), None, {}, {}, {}, {}) *)
  Rule "MTJNS-bm"
    (Some (Boundary
       (Str [ar_beh; ar_quranic_sukun])
       (Chr ar_meem)
       (lit [ar_beh])
       (Some (lit [ar_meem; ar_shadda]))))
    None
    None [] [] [] [];
  (* line 416: ('t-assim', ((None, None), (None, None)),  ('طۡت', 'طت'), None, {}, {}, {}, {}) *)
  Rule "t-assim"
    None
    (Some (Inside
       (Str [ar_tah; ar_quranic_sukun; ar_teh])
       (lit [ar_tah; ar_teh])))
    None [] [] [] [];
  (* line 418: ('HU',  ((r'(?<=[َُِ])هُ', r'[^ٱ]'), ('هُۥ', None)), (None, None), None, {(39,7,13)}, {}, {}, {}) *)
  Rule "HU"
    (Some (Boundary
       (Cat [Behind false 1 (Cls false [ar_fatha; ar_damma; ar_kasra]); Str [ar_heh; ar_damma]])
       (Cls true [ar_alef_wasla])
       (lit [ar_heh; ar_damma; ar_small_waw])
       None))
    None
    None ([(39, 7, 13)]) [] [] [];
  (* line 420: ('min-u-1',  ((None, None), (None, None)), ('دَاوُد', 'دَاوُۥد'), None, {}, {}, {}, {}) *)
  Rule "min-u-1"
    None
    (Some (Inside
       (Str [ar_dal; ar_fatha; ar_alef; ar_waw; ar_damma; ar_dal])
       (lit [ar_dal; ar_fatha; ar_alef; ar_waw; ar_damma; ar_small_waw; ar_dal])))
    None [] [] [] [];
  (* line 421: ('min-u-2',  ((None, None), (None, None)), (r'([یت])َلۡوُنَ', r'\1َلۡوُۥنَ'), None, {}, {}, {}, {}) *)
  Rule "min-u-2"
    None
    (Some (Inside
       (Cat [Group 1 (Cls false [ar_farsi_yeh; ar_teh]); Str [ar_fatha; ar_lam; ar_quranic_sukun;
         ar_waw; ar_damma; ar_noon; ar_fatha]])
       ([TRef 1] ++ lit [ar_fatha; ar_lam; ar_quranic_sukun; ar_waw; ar_damma; ar_small_waw;
         ar_noon; ar_fatha])))
    None [] [] [] [];
  (* line 422: ('min-u-3',  ((None, None), (None, None)), ('وُرِیَ', 'وُۥرِیَ'), None, {}, {}, {}, {}) *)
  Rule "min-u-3"
    None
    (Some (Inside
       (Str [ar_waw; ar_damma; ar_reh; ar_kasra; ar_farsi_yeh; ar_fatha])
       (lit [ar_waw; ar_damma; ar_small_waw; ar_reh; ar_kasra; ar_farsi_yeh; ar_fatha])))
    None [] [] [] [];
  (* line 423: ('min-u-4',  ((None, None), (None, None)), (r'(لِت|ی)َسۡتَوُ(ا۟|نَ)', r'\1َسۡتَوُۥ\2'), None, {}, {}, {}, {}) *)
  Rule "min-u-4"
    None
    (Some (Inside
       (Cat [Group 1 (Alt (Str [ar_lam; ar_kasra; ar_teh]) (Chr ar_farsi_yeh)); Str [ar_fatha;
         ar_seen; ar_quranic_sukun; ar_teh; ar_fatha; ar_waw; ar_damma]; Group 2 (Alt (Str
         [ar_alef; ar_rounded_zero]) (Str [ar_noon; ar_fatha]))])
       ([TRef 1] ++ lit [ar_fatha; ar_seen; ar_quranic_sukun; ar_teh; ar_fatha; ar_waw; ar_damma;
         ar_small_waw] ++ [TRef 2])))
    None [] [] [] [];
  (* line 424: ('min-u-5',  ((None, None), (None, None)), (r'(وَ)?ٱلۡغَاوُنَ', r'\1ٱلۡغَاوُۥنَ'), None, {}, {}, {}, {}) *)
  Rule "min-u-5"
    None
    (Some (Inside
       (Cat [Opt (Group 1 (Str [ar_waw; ar_fatha])); Str [ar_alef_wasla; ar_lam; ar_quranic_sukun;
         ar_ghain; ar_fatha; ar_alef; ar_waw; ar_damma; ar_noon; ar_fatha]])
       ([TRef 1] ++ lit [ar_alef_wasla; ar_lam; ar_quranic_sukun; ar_ghain; ar_fatha; ar_alef;
         ar_waw; ar_damma; ar_small_waw; ar_noon; ar_fatha])))
    None [] [] [] [];
  (* line 425: ('min-u-6',  ((None, None), (None, None)), ('ٱلۡمَوۡءُدَةُ', 'ٱلۡمَوۡءُۥدَةُ'), None, {}, {}, {}, {}) *)
  Rule "min-u-6"
    None
    (Some (Inside
       (Str [ar_alef_wasla; ar_lam; ar_quranic_sukun; ar_meem; ar_fatha; ar_waw; ar_quranic_sukun;
         ar_hamza; ar_damma; ar_dal; ar_fatha; ar_teh_marbuta; ar_damma])
       (lit [ar_alef_wasla; ar_lam; ar_quranic_sukun; ar_meem; ar_fatha; ar_waw; ar_quranic_sukun;
         ar_hamza; ar_damma; ar_small_waw; ar_dal; ar_fatha; ar_teh_marbuta; ar_damma])))
    None [] [] [] [];
  (* line 426: ('min-u-7',  ((None, None), (None, None)), ('وُ', 'وُۥ'), None, {}, {}, {}, RESTRICT_INDEXES_MIN_U_7) *)
  Rule "min-u-7"
    None
    (Some (Inside
       (Str [ar_waw; ar_damma])
       (lit [ar_waw; ar_damma; ar_small_waw])))
    None [] [] [] RESTRICT_INDEXES_MIN_U_7;
  (* line 427: ('min-u-8',  ((None, None), (None, None)), (r'لِیَسُ(ـ)?ُٔوا', r'لِیَسُۥ\1ُٔوا'), None, {}, {}, {}, {(17,7,12)}) *)
  Rule "min-u-8"
    None
    (Some (Inside
       (Cat [Str [ar_lam; ar_kasra; ar_farsi_yeh; ar_fatha; ar_seen; ar_damma]; Opt (Group 1 (Chr
         ar_tatweel)); Str [ar_hamza_above; ar_damma; ar_waw; ar_alef]])
       (lit [ar_lam; ar_kasra; ar_farsi_yeh; ar_fatha; ar_seen; ar_damma; ar_small_waw] ++ [TRef
         1] ++ lit [ar_hamza_above; ar_damma; ar_waw; ar_alef])))
    None [] [] [] ([(17, 7, 12)]);
  (* line 429: ('HI',  ((r'(?<=[َُِ])هِ', '[^ٱ]'), ('هِۦ', None)), (None, None), None, {}, {}, {}, {}) *)
  Rule "HI"
    (Some (Boundary
       (Cat [Behind false 1 (Cls false [ar_fatha; ar_damma; ar_kasra]); Str [ar_heh; ar_kasra]])
       (Cls true [ar_alef_wasla])
       (lit [ar_heh; ar_kasra; ar_small_yeh])
       None))
    None
    None [] [] [] [];
  (* line 431: ('min-y-1',  ((None, None), (None, None)), ('إِبۡرَٰهِم', 'إِبۡرَٰهِۧم'), None, {}, {}, {}, {}) *)
  Rule "min-y-1"
    None
    (Some (Inside
       (Str [ar_alef_with_hamza_below; ar_kasra; ar_beh; ar_quranic_sukun; ar_reh; ar_fatha;
         ar_superscript_alef; ar_heh; ar_kasra; ar_meem])
       (lit [ar_alef_with_hamza_below; ar_kasra; ar_beh; ar_quranic_sukun; ar_reh; ar_fatha;
         ar_superscript_alef; ar_heh; ar_kasra; ar_small_high_yeh; ar_meem])))
    None [] [] [] [];
  (* line 432: ('min-y-2',  ((None, None), (None, None)), ('نَّبِیِّ', 'نَّبِیِّۧ'), None, EXCLUDE_INDEXES_MIN_Y_2, {}, {}, {}) *)
  Rule "min-y-2"
    None
    (Some (Inside
       (Str [ar_noon; ar_shadda; ar_fatha; ar_beh; ar_kasra; ar_farsi_yeh; ar_shadda; ar_kasra])
       (lit [ar_noon; ar_shadda; ar_fatha; ar_beh; ar_kasra; ar_farsi_yeh; ar_shadda; ar_kasra;
         ar_small_high_yeh])))
    None EXCLUDE_INDEXES_MIN_Y_2 [] [] [];
  (* line 433: ('min-y-3',  ((r'^یُحۡیِ$', r'[^ٱ]'), ('یُحۡیِۦ', None)), (None, None), None, {}, {}, {}, {}) *)
  Rule "min-y-3"
    (Some (Boundary
       (Cat [Bol; Str [ar_farsi_yeh; ar_damma; ar_hah; ar_quranic_sukun; ar_farsi_yeh; ar_kasra];
         Eol])
       (Cls true [ar_alef_wasla])
       (lit [ar_farsi_yeh; ar_damma; ar_hah; ar_quranic_sukun; ar_farsi_yeh; ar_kasra;
         ar_small_yeh])
       None))
    None
    None [] [] [] [];
  (* line 434: ('min-y-4',  ((None, None), (None, None)), (r'(.)$', r'\1ۦ'), None, {}, {}, {}, RESTRICT_INDEXES_MIN_Y_4) *)
  Rule "min-y-4"
    None
    (Some (Inside
       (Cat [Group 1 (Any); Eol])
       ([TRef 1] ++ lit [ar_small_yeh])))
    None [] [] [] RESTRICT_INDEXES_MIN_Y_4;
  (* line 435: ('min-y-5',  ((None, None), (None, None)), (r'ِنَ$', 'ِۧنَ'), None, {}, {}, {}, RESTRICT_INDEXES_MIN_5) *)
  Rule "min-y-5"
    None
    (Some (Inside
       (Cat [Str [ar_kasra; ar_noon; ar_fatha]; Eol])
       (lit [ar_kasra; ar_small_high_yeh; ar_noon; ar_fatha])))
    None [] [] [] RESTRICT_INDEXES_MIN_5;
  (* line 436: ('min-y-6',  ((None, None), (None, None)), ('ءَاتَىٰنِ', 'ءَاتَىٰنِۦ'), None, {}, {}, {}, {(27,36,8)}) *)
  Rule "min-y-6"
    None
    (Some (Inside
       (Str [ar_hamza; ar_fatha; ar_alef; ar_teh; ar_fatha; ar_alef_maksura; ar_superscript_alef;
         ar_noon; ar_kasra])
       (lit [ar_hamza; ar_fatha; ar_alef; ar_teh; ar_fatha; ar_alef_maksura; ar_superscript_alef;
         ar_noon; ar_kasra; ar_small_yeh])))
    None [] [] [] ([(27, 36, 8)]);
  (* line 437: ('min-y-7',  ((None, None), (None, None)), ('إِلَٰفِهِمۡ', 'إِۧلَٰفِهِمۡ'), None, {}, {}, {}, {(106,2,1)}) *)
  Rule "min-y-7"
    None
    (Some (Inside
       (Str [ar_alef_with_hamza_below; ar_kasra; ar_lam; ar_fatha; ar_superscript_alef; ar_feh;
         ar_kasra; ar_heh; ar_kasra; ar_meem; ar_quranic_sukun])
       (lit [ar_alef_with_hamza_below; ar_kasra; ar_small_high_yeh; ar_lam; ar_fatha;
         ar_superscript_alef; ar_feh; ar_kasra; ar_heh; ar_kasra; ar_meem; ar_quranic_sukun])))
    None [] [] [] ([(106, 2, 1)]);
  (* line 438: ('min-y-8',  ((None, None), (None, None)), ('حِۡی', 'حِۡۧی'), None, {}, {}, {}, {(25,49,1), (46,33,15), (75,40,6)}) *)
  Rule "min-y-8"
    None
    (Some (Inside
       (Str [ar_hah; ar_quranic_sukun; ar_kasra; ar_farsi_yeh])
       (lit [ar_hah; ar_quranic_sukun; ar_small_high_yeh; ar_kasra; ar_farsi_yeh])))
    None [] [] [] ([(25, 49, 1); (46, 33, 15); (75, 40, 6)]);
  (* line 439: ('min-y-9',  ((None, None), (None, None)), ('وَلِِّی', 'وَلِِّۧی'), None, {}, {}, {}, {(7,196,2)}) *)
  Rule "min-y-9"
    None
    (Some (Inside
       (Str [ar_waw; ar_fatha; ar_lam; ar_kasra; ar_shadda; ar_kasra; ar_farsi_yeh])
       (lit [ar_waw; ar_fatha; ar_lam; ar_kasra; ar_small_high_yeh; ar_shadda; ar_kasra;
         ar_farsi_yeh])))
    None [] [] [] ([(7, 196, 2)]);
  (* line 440: ('min-y-A',  ((None, None), (None, None)), ('یَسۡتَحۡیِ', 'یَسۡتَحۡیِۦ'), None, {}, {}, {}, {(2,26,5)}) *)
  Rule "min-y-A"
    None
    (Some (Inside
       (Str [ar_farsi_yeh; ar_fatha; ar_seen; ar_quranic_sukun; ar_teh; ar_fatha; ar_hah;
         ar_quranic_sukun; ar_farsi_yeh; ar_kasra])
       (lit [ar_farsi_yeh; ar_fatha; ar_seen; ar_quranic_sukun; ar_teh; ar_fatha; ar_hah;
         ar_quranic_sukun; ar_farsi_yeh; ar_kasra; ar_small_yeh])))
    None [] [] [] ([(2, 26, 5)]);
  (* line 442: ('MADD-hmz',  ((r'(َا|َیٰ|ُ[وۥ]|ِ[یۦ])', fr'(?:[{HAMZA}]|[ىی]ٕ|ٔ)'), (r'\1ٓ', None)),  (fr'(َ[اٰ]|ُ[وۥ]|ِ[یۦ])(?=ـ?(?:[{HAMZA}]|[ىی]ٕ|ٔ))', r'\1ٓ'), None, MADD_HMZ_EXCEPTION, {}, {}, {}) *)
  Rule "MADD-hmz"
    (Some (Boundary
       (Group 1 (Alt (Str [ar_fatha; ar_alef]) (Alt (Str [ar_fatha; ar_farsi_yeh;
         ar_superscript_alef]) (Alt (Cat [Chr ar_damma; Cls false [ar_waw; ar_small_waw]]) (Cat
         [Chr ar_kasra; Cls false [ar_farsi_yeh; ar_small_yeh]])))))
       (NGroup (Alt (Cls false HAMZA) (Alt (Cat [Cls false [ar_alef_maksura; ar_farsi_yeh]; Chr
         ar_hamza_below]) (Chr ar_hamza_above))))
       ([TRef 1] ++ lit [ar_maddah_above])
       None))
    (Some (Inside
       (Cat [Group 1 (Alt (Cat [Chr ar_fatha; Cls false [ar_alef; ar_superscript_alef]]) (Alt (Cat
         [Chr ar_damma; Cls false [ar_waw; ar_small_waw]]) (Cat [Chr ar_kasra; Cls false
         [ar_farsi_yeh; ar_small_yeh]]))); Ahead false (Cat [Opt (Chr ar_tatweel); NGroup (Alt
         (Cls false HAMZA) (Alt (Cat [Cls false [ar_alef_maksura; ar_farsi_yeh]; Chr
         ar_hamza_below]) (Chr ar_hamza_above)))])])
       ([TRef 1] ++ lit [ar_maddah_above])))
    None MADD_HMZ_EXCEPTION [] [] [];
  (* line 443: ('MADD-hmz-A-sil',  ((r'ُوا۟', fr'(?:[{HAMZA}]|[ىی]ٕ)'), (r'ُوٓا۟', None)), (None, None), None, {}, {}, {}, {}) *)
  Rule "MADD-hmz-A-sil"
    (Some (Boundary
       (Str [ar_damma; ar_waw; ar_alef; ar_rounded_zero])
       (NGroup (Alt (Cls false HAMZA) (Cat [Cls false [ar_alef_maksura; ar_farsi_yeh]; Chr
         ar_hamza_below])))
       (lit [ar_damma; ar_waw; ar_maddah_above; ar_alef; ar_rounded_zero])
       None))
    None
    None [] [] [] [];
  (* line 444: ('MADD-hmz-sp-1',  ((None, None), (None, None)), ('تَلۡوُۥا۟', 'تَلۡوُۥٓا۟'), None, {}, {}, {}, {}) *)
  Rule "MADD-hmz-sp-1"
    None
    (Some (Inside
       (Str [ar_teh; ar_fatha; ar_lam; ar_quranic_sukun; ar_waw; ar_damma; ar_small_waw; ar_alef;
         ar_rounded_zero])
       (lit [ar_teh; ar_fatha; ar_lam; ar_quranic_sukun; ar_waw; ar_damma; ar_small_waw;
         ar_maddah_above; ar_alef; ar_rounded_zero])))
    None [] [] [] [];
  (* line 445: ('MADD-hmz-sp-2',  ((None, None), (None, None)), ('فَأۡوُۥا۟', 'فَأۡوُۥٓا۟'), None, {}, {}, {}, {}) *)
  Rule "MADD-hmz-sp-2"
    None
    (Some (Inside
       (Str [ar_feh; ar_fatha; ar_alef_with_hamza_above; ar_quranic_sukun; ar_waw; ar_damma;
         ar_small_waw; ar_alef; ar_rounded_zero])
       (lit [ar_feh; ar_fatha; ar_alef_with_hamza_above; ar_quranic_sukun; ar_waw; ar_damma;
         ar_small_waw; ar_maddah_above; ar_alef; ar_rounded_zero])))
    None [] [] [] [];
  (* line 446: ('MADD-hmz-sp-3',  ((None, None), (None, None)), ('وَجِا۟یءَ', 'وَجِا۟یٓءَ'), None, {}, {}, {}, {}) *)
  Rule "MADD-hmz-sp-3"
    None
    (Some (Inside
       (Str [ar_waw; ar_fatha; ar_jeem; ar_kasra; ar_alef; ar_rounded_zero; ar_farsi_yeh;
         ar_hamza; ar_fatha])
       (lit [ar_waw; ar_fatha; ar_jeem; ar_kasra; ar_alef; ar_rounded_zero; ar_farsi_yeh;
         ar_maddah_above; ar_hamza; ar_fatha])))
    None [] [] [] [];
  (* line 447: ('MADD-hmz-sp-4',  (('ٱلرِّبَوٰا۟', fr'[{HAMZA}]'), ('ٱلرِّبَوٰٓا۟', None)), (None, None), None, {}, {}, {}, {}) *)
  Rule "MADD-hmz-sp-4"
    (Some (Boundary
       (Str [ar_alef_wasla; ar_lam; ar_reh; ar_shadda; ar_kasra; ar_beh; ar_fatha; ar_waw;
         ar_superscript_alef; ar_alef; ar_rounded_zero])
       (Cls false HAMZA)
       (lit [ar_alef_wasla; ar_lam; ar_reh; ar_shadda; ar_kasra; ar_beh; ar_fatha; ar_waw;
         ar_superscript_alef; ar_maddah_above; ar_alef; ar_rounded_zero])
       None))
    None
    None [] [] [] [];
  (* line 450: ('MADD-lzm',  ((None, None), (None, None)),  (fr'(َ[اٰ]|ُو|ِی)(?=[{CONS}](?:[ّْ]|[{CONS}]))', r'\1ٓ'), None, {}, {}, {}, {}) *)
  Rule "MADD-lzm"
    None
    (Some (Inside
       (Cat [Group 1 (Alt (Cat [Chr ar_fatha; Cls false [ar_alef; ar_superscript_alef]]) (Alt (Str
         [ar_damma; ar_waw]) (Str [ar_kasra; ar_farsi_yeh]))); Ahead false (Cat [Cls false CONS;
         NGroup (Alt (Cls false [ar_shadda; ar_sukun]) (Cls false CONS))])])
       ([TRef 1] ++ lit [ar_maddah_above])))
    None [] [] [] [];
  (* line 451: ('MADD-shdd-skn', ((None, None), (None, None)), (fr'َا([{CONS}])(?=[ّۡ])', r'َآ\1'), None, {}, {}, {}, {}) *)
  Rule "MADD-shdd-skn"
    None
    (Some (Inside
       (Cat [Str [ar_fatha; ar_alef]; Group 1 (Cls false CONS); Ahead false (Cls false [ar_shadda;
         ar_quranic_sukun])])
       (lit [ar_fatha; ar_alef; ar_maddah_above] ++ [TRef 1])))
    None [] [] [] [];
  (* line 452: ('MADD-sp-1', ((None, None), (None, None)), (r'^الم$', 'الٓمٓ'), None, {}, {}, {}, {}) *)
  Rule "MADD-sp-1"
    None
    (Some (Inside
       (Cat [Bol; Str [ar_alef; ar_lam; ar_meem]; Eol])
       (lit [ar_alef; ar_lam; ar_maddah_above; ar_meem; ar_maddah_above])))
    None [] [] [] [];
  (* line 453: ('MADD-sp-2', ((None, None), (None, None)), (r'^طسم$', 'طسٓمٓ'), None, {}, {}, {}, {}) *)
  Rule "MADD-sp-2"
    None
    (Some (Inside
       (Cat [Bol; Str [ar_tah; ar_seen; ar_meem]; Eol])
       (lit [ar_tah; ar_seen; ar_maddah_above; ar_meem; ar_maddah_above])))
    None [] [] [] [];
  (* line 454: ('MADD-sp-3', ((None, None), (None, None)), (r'^طس$', 'طسٓ'), None, {}, {}, {}, {}) *)
  Rule "MADD-sp-3"
    None
    (Some (Inside
       (Cat [Bol; Str [ar_tah; ar_seen]; Eol])
       (lit [ar_tah; ar_seen; ar_maddah_above])))
    None [] [] [] [];
  (* line 455: ('MADD-sp-4', ((None, None), (None, None)), (r'^یس$', 'یسٓ'), None, {}, {}, {}, {}) *)
  Rule "MADD-sp-4"
    None
    (Some (Inside
       (Cat [Bol; Str [ar_farsi_yeh; ar_seen]; Eol])
       (lit [ar_farsi_yeh; ar_seen; ar_maddah_above])))
    None [] [] [] [];
  (* line 456: ('MADD-sp-5', ((None, None), (None, None)), (r'^حم$', 'حمٓ'), None, {}, {}, {}, {}) *)
  Rule "MADD-sp-5"
    None
    (Some (Inside
       (Cat [Bol; Str [ar_hah; ar_meem]; Eol])
       (lit [ar_hah; ar_meem; ar_maddah_above])))
    None [] [] [] [];
  (* line 457: ('MADD-sp-6', ((None, None), (None, None)), (r'^كهیعص$', 'كٓهیعٓصٓ'), None, {}, {}, {}, {}) *)
  Rule "MADD-sp-6"
    None
    (Some (Inside
       (Cat [Bol; Str [ar_kaf; ar_heh; ar_farsi_yeh; ar_ain; ar_sad]; Eol])
       (lit [ar_kaf; ar_maddah_above; ar_heh; ar_farsi_yeh; ar_ain; ar_maddah_above; ar_sad;
         ar_maddah_above])))
    None [] [] [] [];
  (* line 458: ('MADD-sp-7', ((None, None), (None, None)), (r'^الر$', 'الٓر'), None, {}, {}, {}, {}) *)
  Rule "MADD-sp-7"
    None
    (Some (Inside
       (Cat [Bol; Str [ar_alef; ar_lam; ar_reh]; Eol])
       (lit [ar_alef; ar_lam; ar_maddah_above; ar_reh])))
    None [] [] [] [];
  (* line 459: ('MADD-sp-8', ((None, None), (None, None)), (r'^المص$', 'الٓمٓصٓ'), None, {}, {}, {}, {}) *)
  Rule "MADD-sp-8"
    None
    (Some (Inside
       (Cat [Bol; Str [ar_alef; ar_lam; ar_meem; ar_sad]; Eol])
       (lit [ar_alef; ar_lam; ar_maddah_above; ar_meem; ar_maddah_above; ar_sad;
         ar_maddah_above])))
    None [] [] [] [];
  (* line 460: ('MADD-sp-9', ((None, None), (None, None)), (r'^المر$', 'الٓمٓر'), None, {}, {}, {}, {}) *)
  Rule "MADD-sp-9"
    None
    (Some (Inside
       (Cat [Bol; Str [ar_alef; ar_lam; ar_meem; ar_reh]; Eol])
       (lit [ar_alef; ar_lam; ar_maddah_above; ar_meem; ar_maddah_above; ar_reh])))
    None [] [] [] [];
  (* line 461: ('MADD-sp-A', ((None, None), (None, None)), (r'^ص$', 'صٓ'), None, {}, {}, {}, {}) *)
  Rule "MADD-sp-A"
    None
    (Some (Inside
       (Cat [Bol; Chr ar_sad; Eol])
       (lit [ar_sad; ar_maddah_above])))
    None [] [] [] [];
  (* line 462: ('MADD-sp-B', ((None, None), (None, None)), (r'^عسق$', 'عٓسٓقٓ'), None, {}, {}, {}, {}) *)
  Rule "MADD-sp-B"
    None
    (Some (Inside
       (Cat [Bol; Str [ar_ain; ar_seen; ar_qaf]; Eol])
       (lit [ar_ain; ar_maddah_above; ar_seen; ar_maddah_above; ar_qaf; ar_maddah_above])))
    None [] [] [] [];
  (* line 463: ('MADD-sp-C', ((None, None), (None, None)), (r'^ق$', 'قٓ'), None, {}, {}, {}, {}) *)
  Rule "MADD-sp-C"
    None
    (Some (Inside
       (Cat [Bol; Chr ar_qaf; Eol])
       (lit [ar_qaf; ar_maddah_above])))
    None [] [] [] [];
  (* line 464: ('MADD-sp-D', ((None, None), (None, None)), (r'^ن$', 'نٓ'), None, {}, {}, {}, {}) *)
  Rule "MADD-sp-D"
    None
    (Some (Inside
       (Cat [Bol; Chr ar_noon; Eol])
       (lit [ar_noon; ar_maddah_above])))
    None [] [] [] []
].

Definition SUKUN_REGEX : regex :=
  Cat [Cls false CONS; Behind true 2 (Alt (Str [ar_damma; ar_waw]) (Str [ar_kasra;
    ar_farsi_yeh])); Cls false CONS].
Definition SHADDA_REGEX : regex :=
  Cat [Bol; Cls false CONS; Chr ar_shadda].
Definition TANWIN_REGEX : regex :=
  Alt (Cls false [ar_open_fathatan; ar_open_dammatan; ar_open_kasratan]) (Alt (Str [ar_fatha;
    ar_small_high_meem]) (Alt (Str [ar_damma; ar_small_high_meem]) (Str [ar_kasra;
    ar_small_low_meem]))).

Local Close Scope Z_scope.

(** ** The morphological table

    One record of [qmorf.json]: the normalised POS tags of a word, its
    lemmas, its roots and its derivational tags. *)
Record morf : Type := Morf {
  pos : list string;
  lemas : list str;
  roots : list str;
  derv : list string
}.

(** [','.join(map(str, ind))], the key of a word in the table. *)
Definition ind_key (ind : index) : string :=
  pretty ind.1.1 +:+ "," +:+ pretty ind.1.2 +:+ "," +:+ pretty ind.2.

(** ** Traces

    [counts] maps a rule id to the list of [((s,v,w), count, is_boundary)]
    it recorded. A Python dict keeps its keys in insertion order, which the
    report of the evaluation run follows, so the dict is an association
    list. *)
Abbreviation entry := (index * nat * bool)%type (only parsing).
Abbreviation counts_t := (list (string * list entry)) (only parsing).

Fixpoint counts_get (id : string) (c : counts_t) : option (list entry) :=
  match c with
  | [] => None
  | (k, l) :: c' => if bool_decide (k = id) then Some l else counts_get id c'
  end.

(** [counts[id] = l]. *)
Fixpoint counts_set (id : string) (l : list entry) (c : counts_t) : counts_t :=
  match c with
  | [] => [(id, l)]
  | (k, l0) :: c' =>
      if bool_decide (k = id) then (k, l) :: c' else (k, l0) :: counts_set id l c'
  end.

(** [counts[id].append(e)] when [id] is a key, [counts[id] = [e]] otherwise. *)
Definition counts_append (id : string) (e : entry) (c : counts_t) : counts_t :=
  match counts_get id c with
  | Some l => counts_set id (l ++ [e]) c
  | None => counts_set id [e] c
  end.

(** [if counts != None and cnt: ...]. *)
Definition record_count (id : string) (ind : index) (cnt : nat) (is_boundary : bool)
    (counts : option counts_t) : option counts_t :=
  match counts with
  | Some c => if bool_decide (cnt ≠ 0) then Some (counts_append id (ind, cnt, is_boundary) c) else counts
  | None => None
  end.

(** ** Errors and output *)

Inductive error : Type :=
| KeyError (key : string)      (* qmorf[ind_key] with no such key *)
| IndexError.                  (* r[-1] of an empty root *)

Inductive result (A : Type) : Type :=
| Ok (a : A)
| Err (e : error).
Arguments Ok {A} a.
Arguments Err {A} e.

#[export] Instance result_ret : MRet result := λ A a, Ok a.
#[export] Instance result_bind : MBind result := λ A B f m,
  match m with
  | Ok a => f a
  | Err e => Err e
  end.

(** The lines the script writes on standard output. The lines of the debug
    mode go to standard error and are left out. *)
Inductive line : Type :=
| Out_root_diff (n : nat) (m : morf) (wordform_rasm : str)
    (* print('diff 1', qmorf[ind_key], wordform_rasm), and 'diff 2' *)
| Out_applying_remove
| Out_applying_restore
| Out_rule (id : string) (rm add : nat) (ok : bool)
    (* rule {id} rm applied {rm} times add {add} times - OK / - FAIL! *)
| Out_match
| Out_fail
| Out_tok_diff (word word_rest : str) (ind : index)
| Out_tok_oki (word word_rest : str) (ind : index)
| Out_warning (code : string) (what : string) (tok : str) (ind : index)
    (* WARNING-{code}! untreated tajweed traces! {what} {tok} Q.{ind} *)
| Out_total (cnt : nat).

(** The objects [apply_rules] works on: the token list it mutates in place,
    the optional [counts] sink and the standard output. *)
Record state : Type := State {
  st_tokens : list token;
  st_counts : option counts_t;
  st_out : list line
}.

(** ** The rule application engine *)

Section Engine.

(** The archigraphemic skeleton of a word,
    [next(rasm(io.StringIO(text)))[-1]] of the external [rasm] library, taken
    as a total function. *)
Variable rasm : str → str.

Variable qmorf : gmap string morf.

Definition lookup_morf (key : string) : result morf :=
  match qmorf !! key with
  | Some m => Ok m
  | None => Err (KeyError key)
  end.

(** [any(r[-1]=='ه' for r in roots)]: stops at the first root that ends in
    heh; an empty root met before that raises. *)
Fixpoint any_last_heh (rs : list str) : result bool :=
  match rs with
  | [] => Ok false
  | r :: rs' =>
      match last_char r with
      | None => Err IndexError
      | Some x => if bool_decide (x = ar_heh) then Ok true else any_last_heh rs'
      end
  end.

(** [any(r[-2:]=='هي' for r in roots)]. *)
Definition any_last2_heh_yeh (rs : list str) : bool :=
  existsb (λ r, bool_decide (last2 r = [ar_heh; ar_yeh])) rs.

(** [wordform_rasm[-2:] != 'هه']. *)
Definition not_double_heh (wordform_rasm : str) : bool :=
  bool_decide (last2 wordform_rasm ≠ [ar_heh; ar_heh]).

(** The block under [if ind not in force_ind and id_rule in ('HU', 'HI')]:
    whether the rule is skipped for this word, and what is printed. *)
Definition clitic_check (r : rule) (ind : index) (wordform_rasm : str)
  : result (bool * list line) :=
  if bool_decide (ind ∉ force_ind r) && bool_decide (id_rule r ∈ ["HU"; "HI"]) then
    m ← lookup_morf (ind_key ind);
    c1 ← (if bool_decide (roots m ≠ []) then
            h ← any_last_heh (roots m);
            mret (h && not_double_heh wordform_rasm)
          else mret false);
    if c1 : bool then
      mret (true, if bool_decide (ind = (2, 237, 21)%Z)
                  then [Out_root_diff 1 m wordform_rasm] else [])
    else if any_last2_heh_yeh (roots m) && not_double_heh wordform_rasm then
      mret (true, if bool_decide (ind = (2, 237, 21)%Z)
                  then [Out_root_diff 2 m wordform_rasm] else [])
    else mret (false, [])
  else mret (false, []).

(** [if FILTER_POS and FILTER_POS not in qmorf[ind_key]['pos']: continue]:
    [true] when the rule is skipped. *)
Definition pos_filtered (r : rule) (ind : index) : result bool :=
  match FILTER_POS r with
  | None => mret false
  | Some p =>
      if bool_decide (p = "") then mret false
      else m ← lookup_morf (ind_key ind); mret (bool_decide (p ∉ pos m))
  end.

(** The rule between two words, at position [i]. *)
Definition apply_between (r : rule) (i : nat) (st : state) : state :=
  match between r, st_tokens st !! i, st_tokens st !! S i with
  | Some b, Some (cur, ind), Some (next, ind_next) =>
      if search (anchor_end (tok_pre b)) cur && search (anchor_start (tok_post b)) next then
        let (cur_tok_modif, cnt) := subn (anchor_end (tok_pre b)) (repl_pre b) cur in
        let counts := record_count (id_rule r) ind cnt true (st_counts st) in
        let tokens :=
          match repl_post b with
          | None | Some [] => st_tokens st
          | Some rp =>
              <[S i := (sub (anchor_start (tok_post b)) rp next, ind_next)]> (st_tokens st)
          end in
        State (<[i := (cur_tok_modif, ind)]> tokens) counts (st_out st)
      else st
  | _, _, _ => st
  end.

(** The rule inside a word, at position [i]. *)
Definition apply_within (r : rule) (i : nat) (st : state) : state :=
  match within r, st_tokens st !! i with
  | Some w, Some (cur, ind) =>
      let (cur_tok_modif, cnt) := subn (pat w) (repl w) cur in
      State (<[i := (cur_tok_modif, ind)]> (st_tokens st))
            (record_count (id_rule r) ind cnt false (st_counts st))
            (st_out st)
  | _, _ => st
  end.

(** One turn of the inner loop: rule [r] at position [i]. *)
Definition apply_rule (r : rule) (i : nat) (wordform_rasm : str) (st : state)
  : result state :=
  match st_tokens st !! i with
  | None => Err IndexError
  | Some (_, ind) =>
      if bool_decide (restrict_ind r ≠ []) && bool_decide (ind ∉ restrict_ind r) then mret st
      else if bool_decide (ind ∈ except_ind r) then mret st
      else
        skip ← pos_filtered r ind;
        if skip : bool then mret st
        else
          '(suppressed, printed) ← clitic_check r ind wordform_rasm;
          let st' := State (st_tokens st) (st_counts st) (st_out st ++ printed) in
          if suppressed : bool then mret st'
          else mret (apply_within r i (apply_between r i st'))
  end.

(** The inner loop: every rule of the table, in order, at position [i]. *)
Fixpoint apply_rules_at (rules : list rule) (i : nat) (wordform_rasm : str) (st : state)
  : result state :=
  match rules with
  | [] => mret st
  | r :: rules' =>
      st' ← apply_rule r i wordform_rasm st;
      apply_rules_at rules' i wordform_rasm st'
  end.

(** One turn of the outer loop. The skeleton is taken from the text of the
    word as it is when its turn comes. *)
Definition apply_token (rules : list rule) (i : nat) (st : state) : result state :=
  match st_tokens st !! i with
  | None => Err IndexError
  | Some (text, _) => apply_rules_at rules i (rasm text) st
  end.

Fixpoint apply_positions (rules : list rule) (positions : list nat) (st : state)
  : result state :=
  match positions with
  | [] => mret st
  | i :: positions' =>
      st' ← apply_token rules i st;
      apply_positions rules positions' st'
  end.

(** [apply_rules(tokens, rules, qmorf, counts)]: [for i in range(ntokens)]. *)
Definition apply_rules (tokens : list token) (rules : list rule) (counts : option counts_t)
  : result state :=
  apply_positions rules (seq 0 (length tokens)) (State tokens counts []).

(** ** The evaluation run ([--eval], without [--debug] and [--save_counts]) *)

(** [{i[0]: [] for i in rules}]. *)
Definition counts_init (rules : list rule) : counts_t :=
  foldl (λ c r, counts_set (id_rule r) [] c) [] rules.

(** [sum(c for _,c,_ in traces)]. *)
Definition total (traces : list entry) : nat :=
  foldr (λ e n, e.1.2 + n) 0 traces.

(** The loop over [counts_rm.items()]: a trace of the removal pass matches
    when it equals, as a list, the trace that the restoral pass has under the
    same id. *)
Definition trace_report (counts_rm counts_add : counts_t) : list line :=
  (λ it,
     let traces_rm := it.2 in
     let traces_add := default [] (counts_get it.1 counts_add) in
     Out_rule it.1 (total traces_rm) (total traces_add)
              (bool_decide (traces_rm = traces_add))) <$> counts_rm.

Definition space : char := 32%N.

(** [' '.join(t for t,_ in tokens)]. *)
Definition qtext (tokens : list token) : str := join [space] (fst <$> tokens).

(** The lines printed for the pairs of [zip(qtokens, qtokens_restored)]. *)
Fixpoint diff_lines (qtokens qtokens_restored : list token) : list line :=
  match qtokens, qtokens_restored with
  | (word, ind) :: l, (word_rest, _) :: l' =>
      (if bool_decide (word ≠ word_rest)
       then Out_tok_diff word word_rest ind
       else Out_tok_oki word word_rest ind) :: diff_lines l l'
  | _, _ => []
  end.

(** The classes of residual traces of the sweep, one for each branch of its
    [if]/[elif] chain. *)
Inductive residual : Type :=
| Bare_consonant        (* consonant without harakat nor sukun *)
| Initial_shadda        (* shadda on initial consonant of word *)
| Tajweed_tanwin        (* tanwin with tajweed *)
| Madd_sign             (* madd sign *)
| Silent_alif_mark      (* mark for silent alif *)
| Miniature_ya          (* miniature ya *)
| Miniature_waw         (* miniature waw *)
| Unpronounced_alif     (* mark in alif for not pronouncing *)
| Hapax_06ea            (* hapax sign U+06ea *)
| Hapax_06eb            (* hapax sign U+06eb *)
| Hapax_06ec            (* hapax sign U+06ec *)
| Miniature_mim         (* miniature mim U+06e2 *)
| Miniature_sin.        (* miniature sin U+06dc *)

(** The first branch of the chain that fires for a token, if any. The index
    is the triple it is for tokens that come from the [rasm] library; read
    from a JSON file it is a list, which the membership test of the first
    branch cannot hash. *)
Definition classify (tok : str) (ind : index) : option residual :=
  if search SUKUN_REGEX tok && bool_decide (ind ∉ EXCEPTIONS_SUKUN) then Some Bare_consonant
  else if search SHADDA_REGEX tok then Some Initial_shadda
  else if search TANWIN_REGEX tok then Some Tajweed_tanwin
  else if str_in [ar_maddah_above] tok || str_in [ar_alef_with_madda_above] tok
    then Some Madd_sign
  else if str_in [ar_rectangular_zero] tok then Some Silent_alif_mark
  else if str_in [ar_small_yeh] tok || str_in [ar_small_high_yeh] tok then Some Miniature_ya
  else if str_in [ar_small_waw] tok then Some Miniature_waw
  else if str_in [ar_rounded_zero] tok then Some Unpronounced_alif
  else if str_in [ar_low_stop] tok then Some Hapax_06ea
  else if str_in [ar_high_stop] tok then Some Hapax_06eb
  else if str_in [ar_filled_high_stop] tok then Some Hapax_06ec
  else if str_in [ar_small_high_meem] tok then Some Miniature_mim
  else if str_in [ar_small_high_seen] tok then Some Miniature_sin
  else None.

(** The code after [WARNING-] in the line of each branch. *)
Definition warning_code (c : residual) : string :=
  match c with
  | Bare_consonant => "1"
  | Initial_shadda => "2"
  | Tajweed_tanwin => "3"
  | Madd_sign => "4"
  | Silent_alif_mark => "5"
  | Miniature_ya => "6"
  | Miniature_waw => "7"
  | Unpronounced_alif => "8"
  | Hapax_06ea => "9"
  | Hapax_06eb => "A"
  | Hapax_06ec => "B"
  | Miniature_mim => "C"
  | Miniature_sin => "C"
  end.

(** The text of the line of each branch, between the fixed
    [untreated tajweed traces!] and the token. *)
Definition warning_text (c : residual) : string :=
  match c with
  | Bare_consonant => "consonant without harakat nor sukun in"
  | Initial_shadda => "shadda on initial consonant of word in"
  | Tajweed_tanwin => "tanwin with tajweed in"
  | Madd_sign => "madd sign found in"
  | Silent_alif_mark => "mark for silent alif found in"
  | Miniature_ya => "miniature ya found in"
  | Miniature_waw => "miniature waw found in"
  | Unpronounced_alif => "mark in alif for not pronouncing found in"
  | Hapax_06ea => "hapax sign U+06ea found in"
  | Hapax_06eb => "hapax sign U+06eb found in"
  | Hapax_06ec => "hapax sign U+06ec found in"
  | Miniature_mim => "miniature mim U+06e2 found in"
  | Miniature_sin => "miniature sin U+06dc found in"
  end.

(** The sweep over the de-tajweed-ized tokens: the warning lines and the
    counter [cnt]. *)
Fixpoint sweep (tokens : list token) : list line * nat :=
  match tokens with
  | [] => ([], 0)
  | (tok, ind) :: tokens' =>
      let (ls, cnt) := sweep tokens' in
      match classify tok ind with
      | Some c => (Out_warning (warning_code c) (warning_text c) tok ind :: ls, S cnt)
      | None => (ls, cnt)
      end
  end.

Definition residual_sweep (tokens : list token) : list line :=
  let (ls, cnt) := sweep tokens in ls ++ [Out_total cnt].

(** The check that the original and the restored texts are equal, and what
    follows it: the lines printed and the exit status. On a mismatch the
    script leaves with [sys.exit(1)] before the sweep. *)
Definition roundtrip_check (qtokens qtokens_detajweed qtokens_restored : list token)
  : list line * Z :=
  if bool_decide (qtext qtokens = qtext qtokens_restored) then
    (Out_match :: residual_sweep qtokens_detajweed, 0%Z)
  else
    (Out_fail :: diff_lines qtokens qtokens_restored, 1%Z).

(** The whole run. An error of a rule pass is an uncaught exception. *)
Definition eval_run (qtokens : list token) : result (list line * Z) :=
  rm ← apply_rules qtokens REMOVE_SANDHI_RULES (Some (counts_init REMOVE_SANDHI_RULES));
  ad ← apply_rules (st_tokens rm) RESTORE_SANDHI_RULES (Some (counts_init RESTORE_SANDHI_RULES));
  let (ls, status) := roundtrip_check qtokens (st_tokens rm) (st_tokens ad) in
  mret ([Out_applying_remove] ++ st_out rm ++ [Out_applying_restore] ++ st_out ad
          ++ trace_report (default [] (st_counts rm)) (default [] (st_counts ad))
          ++ ls,
        status).

End Engine.

(** ** Notions used in the properties *)

(** The least number of code points a match of [r] spans. *)
Fixpoint min_width (r : regex) : nat :=
  match r with
  | Chr _ | Cls _ _ | Any => 1
  | Seq r1 r2 => min_width r1 + min_width r2
  | Alt r1 r2 => min_width r1 `min` min_width r2
  | Group _ r1 | NGroup r1 => min_width r1
  | Eps | Opt _ | Bol | Eol | Ahead _ _ | Behind _ _ _ => 0
  end.

(** No match of [r] spans a newline. *)
Fixpoint no_newline (r : regex) : bool :=
  match r with
  | Chr a => bool_decide (a ≠ newline)
  | Cls neg cs => negb neg && bool_decide (newline ∉ cs)
  | Seq r1 r2 | Alt r1 r2 => no_newline r1 && no_newline r2
  | Opt r1 | Group _ r1 | NGroup r1 => no_newline r1
  | Eps | Any | Bol | Eol | Ahead _ _ | Behind _ _ _ => true
  end.

Definition is_alt (r : regex) : bool :=
  match r with
  | Alt _ _ => true
  | _ => false
  end.

(** A pattern before a word boundary that matches at most once when it is
    anchored at the end of the word. *)
Definition single_at_end (p : regex) : bool :=
  negb (is_alt p) && bool_decide (1 ≤ min_width p) && no_newline p.

(** The state with some more lines printed. *)
Definition with_out (st : state) (printed : list line) : state :=
  State (st_tokens st) (st_counts st) (st_out st ++ printed).

(** Every entry of a [counts] sink satisfies [P], which may depend on the
    rule id the entry is recorded under. *)
Definition counts_ok (P : string → entry → Prop) (counts : option counts_t) : Prop :=
  match counts with
  | Some c => Forall (λ it, Forall (P it.1) it.2) c
  | None => True
  end.

(** The boundary pattern of the rule, if it has one, matches at most once at
    the end of a word. *)
Definition boundary_single (r : rule) : bool :=
  match between r with
  | Some b => single_at_end (tok_pre b)
  | None => true
  end.

(** A rule restricted to a set of indices has no boundary part. *)
Definition restricted_inside_only (r : rule) : bool :=
  match restrict_ind r, between r with
  | _ :: _, Some _ => false
  | _, _ => true
  end.

(** The rule consults the morphological table for every word: it has a POS
    filter and no index set that would skip the word first. *)
Definition always_consults (r : rule) : bool :=
  match restrict_ind r, except_ind r, FILTER_POS r with
  | [], [], Some p => bool_decide (p ≠ "")
  | _, _, _ => false
  end.

(** The rule tables the script passes to [apply_rules]. *)
Definition is_table (rules : list rule) : Prop :=
  rules = REMOVE_SANDHI_RULES ∨ rules = RESTORE_SANDHI_RULES.

(** Some root of the word ends in heh, or in heh and yeh. *)
Definition root_holds_heh (m : morf) : bool :=
  existsb (λ r, bool_decide (last_char r = Some ar_heh)) (roots m)
  || any_last2_heh_yeh (roots m).

(** The word at position [k] has a record, whose roots are not empty. *)
Definition has_record (qmorf : gmap string morf) (inds : list index) (k : nat) : Prop :=
  ∃ ind m, inds !! k = Some ind ∧ qmorf !! ind_key ind = Some m ∧ [] ∉ roots m.

(** The lines that a rule pass prints. *)
Definition is_root_diff (l : line) : Prop :=
  match l with
  | Out_root_diff _ _ _ => True
  | _ => False
  end.

(** The ids of a sink, in the order of the dict. *)
Definition counts_keys (counts : option counts_t) : list string :=
  fst <$> default [] counts.

(** The indices a trace touches. *)
Definition touched (traces : list entry) : list index := (λ e, e.1.1) <$> traces.

(** The first rule of a table with a given id. *)
Definition rule_by_id (id : string) (rules : list rule) : option rule :=
  List.find (λ r, bool_decide (id_rule r = id)) rules.

(** ** Inputs of the examples *)

(** A stand-in for [rasm] in the examples: the letters of a word, without
    its marks. The properties below hold for any function. *)
Definition is_letter (c : char) : bool :=
  ((0x0621 <=? c) && (c <=? 0x064A) && negb (c =? 0x0640)
   || (c =? 0x0671) || (c =? 0x06CC))%N.

Definition skeleton (s : str) : str := List.filter is_letter s.

(** Q.23:59:2-3, the case rule [M1] documents. *)
Definition ex_tokens : list token :=
  [([ar_heh; ar_damma; ar_meem], (23, 59, 2)%Z);
   ([ar_beh; ar_kasra; ar_reh; ar_fatha; ar_beh; ar_shadda; ar_kasra; ar_heh; ar_kasra;
     ar_meem; ar_quranic_sukun], (23, 59, 3)%Z)].

Definition ex_qmorf : gmap string morf :=
  {[ "23,59,2" := Morf ["P"] [] [] [];
     "23,59,3" := Morf ["P"; "N"] [] [[ar_reh; ar_beh; ar_beh]] [] ]}.

(** The same two words without the tajweed layer, as [--rm] writes them. *)
Definition ex_tokens_rm : list token :=
  [([ar_heh; ar_damma; ar_meem; ar_quranic_sukun], (23, 59, 2)%Z);
   ([ar_beh; ar_kasra; ar_reh; ar_fatha; ar_beh; ar_shadda; ar_kasra; ar_heh; ar_kasra;
     ar_meem; ar_quranic_sukun], (23, 59, 3)%Z)].

(** The table with the record of the second word missing. *)
Definition ex_qmorf_short : gmap string morf :=
  {[ "23,59,2" := Morf ["P"] [] [] [] ]}.

(** A word with a miniature sin and a word with a miniature mim. *)
Definition ex_sweep_tokens : list token :=
  [([ar_meem; ar_fatha; ar_noon; ar_quranic_sukun; ar_small_high_seen], (1, 1, 1)%Z);
   ([ar_meem; ar_kasra; ar_noon; ar_small_high_meem], (1, 1, 2)%Z)].

Definition ex_sweep_qmorf : gmap string morf :=
  {[ "1,1,1" := Morf ["P"] [] [] []; "1,1,2" := Morf ["P"] [] [] [] ]}.

(** A verb of root n-h-y with the clitic of the third person, and the word
    after it. *)
Definition ex_clitic_tokens : list token :=
  [([ar_farsi_yeh; ar_fatha; ar_noon; ar_quranic_sukun; ar_heh; ar_fatha; ar_heh;
     ar_damma; ar_small_waw], (1, 1, 1)%Z);
   ([ar_ain; ar_fatha; ar_noon; ar_quranic_sukun], (1, 1, 2)%Z)].

Definition ex_clitic_morf : morf := Morf ["V"] [] [[ar_noon; ar_heh; ar_yeh]] [].

Definition ex_clitic_qmorf : gmap string morf :=
  {[ "1,1,1" := ex_clitic_morf; "1,1,2" := Morf ["P"] [] [] [] ]}.

(** A noun of root w-j-h, whose final heh is a letter of the root, and the
    word after it (Q.55:27:2-3 without the tajweed layer). *)
Definition ex_root_tokens : list token :=
  [([ar_waw; ar_fatha; ar_jeem; ar_quranic_sukun; ar_heh; ar_damma], (55, 27, 2)%Z);
   ([ar_reh; ar_fatha; ar_beh; ar_shadda; ar_kasra; ar_kaf; ar_fatha], (55, 27, 3)%Z)].

Definition ex_root_morf : morf := Morf ["N"] [] [[ar_waw; ar_jeem; ar_heh]] [].

Definition ex_root_qmorf : gmap string morf :=
  {[ "55,27,2" := ex_root_morf;
     "55,27,3" := Morf ["N"; "P"] [] [[ar_reh; ar_beh; ar_beh]] [] ]}.

(** The word documented at Q.25:69:7, which ends in a small yeh. *)
Definition ex_small_yeh_word : str :=
  [ar_feh; ar_kasra; ar_farsi_yeh; ar_heh; ar_kasra; ar_small_yeh].

(** The three words with a hapax sign, as rules [hapax-1] to [hapax-3]
    spell them, and the same words without the sign. *)
Definition ex_hapax_words : list token :=
  [([ar_meem; ar_fatha; ar_jeem; ar_quranic_sukun; ar_reh; ar_low_stop; ar_alef_maksura;
     ar_superscript_alef; ar_heh; ar_fatha; ar_alef], (11, 41, 7)%Z);
   ([ar_teh; ar_fatha; ar_alef_with_hamza_above; ar_quranic_sukun; ar_meem; ar_fatha;
     ar_high_stop; ar_noon; ar_shadda; ar_fatha; ar_alef], (12, 11, 6)%Z);
   ([ar_hamza; ar_fatha; ar_alef; ar_filled_high_stop; ar_ain; ar_quranic_sukun; ar_jeem;
     ar_fatha; ar_meem; ar_kasra; ar_farsi_yeh; ar_shadda], (41, 44, 9)%Z)].

Definition ex_hapax_bare : list str :=
  [[ar_meem; ar_fatha; ar_jeem; ar_quranic_sukun; ar_reh; ar_alef_maksura;
    ar_superscript_alef; ar_heh; ar_fatha; ar_alef];
   [ar_teh; ar_fatha; ar_alef_with_hamza_above; ar_quranic_sukun; ar_meem; ar_fatha;
    ar_noon; ar_shadda; ar_fatha; ar_alef];
   [ar_hamza; ar_fatha; ar_alef; ar_ain; ar_quranic_sukun; ar_jeem; ar_fatha; ar_meem;
    ar_kasra; ar_farsi_yeh; ar_shadda]].

Definition ex_hapax_qmorf : gmap string morf :=
  {[ "11,41,7" := Morf ["N"] [] [] []; "12,11,6" := Morf ["V"] [] [] [];
     "41,44,9" := Morf ["N"] [] [] [] ]}.

(** The state after a pass, or an empty state if the pass raises. *)
Definition state_of (r : result state) : state :=
  match r with
  | Ok st => st
  | Err _ => State [] None []
  end.

(** The two passes of the evaluation run on the words of Q.23:59:2-3. *)
Definition ex_eval_rm : state :=
  Eval vm_compute in
    state_of (apply_rules skeleton ex_qmorf ex_tokens REMOVE_SANDHI_RULES
                (Some (counts_init REMOVE_SANDHI_RULES))).

Definition ex_eval_ad : state :=
  Eval vm_compute in
    state_of (apply_rules skeleton ex_qmorf (st_tokens ex_eval_rm) RESTORE_SANDHI_RULES
                (Some (counts_init RESTORE_SANDHI_RULES))).

(** The two passes on the same words without the tajweed layer. *)
Definition ex_bare_rm : state :=
  Eval vm_compute in
    state_of (apply_rules skeleton ex_qmorf ex_tokens_rm REMOVE_SANDHI_RULES
                (Some (counts_init REMOVE_SANDHI_RULES))).

Definition ex_bare_ad : state :=
  Eval vm_compute in
    state_of (apply_rules skeleton ex_qmorf (st_tokens ex_bare_rm) RESTORE_SANDHI_RULES
                (Some (counts_init RESTORE_SANDHI_RULES))).

(** A removal pass without a sink. *)
Definition ex_removed : state :=
  Eval vm_compute in
    state_of (apply_rules skeleton ex_qmorf ex_tokens REMOVE_SANDHI_RULES None).

(** A removal pass with an empty sink. *)
Definition ex_counted : state :=
  Eval vm_compute in
    state_of (apply_rules skeleton ex_qmorf ex_tokens REMOVE_SANDHI_RULES (Some [])).

(** The rules the examples name. *)
Definition no_rule : rule := Rule "" None None None [] [] [] [].

Definition removal_M1 : rule := default no_rule (rule_by_id "M1" REMOVE_SANDHI_RULES).
Definition removal_HU : rule := default no_rule (rule_by_id "HU" REMOVE_SANDHI_RULES).
Definition restoral_HU : rule := default no_rule (rule_by_id "HU" RESTORE_SANDHI_RULES).
Definition removal_min_y_4 : rule :=
  default no_rule (rule_by_id "min-y-4" REMOVE_SANDHI_RULES).

(** One word alone through a removal pass and then a restoral pass: the text
    after each. *)
Definition there_and_back (qmorf : gmap string morf) (t : token) : option (str * str) :=
  match apply_rules skeleton qmorf [t] REMOVE_SANDHI_RULES None with
  | Ok rm =>
      match apply_rules skeleton qmorf (st_tokens rm) RESTORE_SANDHI_RULES None with
      | Ok ad => Some (join [] (fst <$> st_tokens rm), join [] (fst <$> st_tokens ad))
      | Err _ => None
      end
  | Err _ => None
  end.

(** * The rest of the scripts

    The parts of [src/tajweed.py] around the engine (preprocessing, the
    removal and restoral runs, the construction of the morphological
    table), the grouping of [src/tajweed_tabular.py] and
    [src/tajweed2df.py], and the normalisation of [src/searcher.py]. *)

(** ** Preprocessing ([preproc]) *)

(** The pause marks U+06D6 to U+06DB of [QSTOPS_REGEX]. *)
Definition QSTOPS : list char := [0x06D6; 0x06D7; 0x06D8; 0x06D9; 0x06DA; 0x06DB]%N.

(** [QSTOPS_REGEX = re.compile(r'[..]')], a set of the six pause marks. *)
Definition QSTOPS_REGEX : regex := Cls false QSTOPS.

(** [preproc(s)]: [QSTOPS_REGEX.sub('', s)]. *)
Definition preproc (s : str) : str := sub QSTOPS_REGEX [] s.

(** ** The removal and restoral runs ([--rm] and [--add]) *)

(** What a run writes after the pass: the tokens with [--json], their text
    otherwise. *)
Inductive printed : Type :=
| Printed_json (qtokens : list token)     (* json.dump(qtokens, args.outfile) *)
| Printed_text (s : str).                 (* print(' '.join(t for t,i in qtokens)) *)

Definition print_tokens (json : bool) (qtokens : list token) : printed :=
  if json then Printed_json qtokens else Printed_text (qtext qtokens).

Section Runs.

Variable rasm : str → str.
Variable qmorf : gmap string morf.

(** [--rm]: the pass of the removal table without a sink. The lines that the
    pass prints come first. *)
Definition rm_run (json : bool) (qtokens : list token) : result (list line * printed) :=
  st ← apply_rules rasm qmorf qtokens REMOVE_SANDHI_RULES None;
  mret (st_out st, print_tokens json (st_tokens st)).

(** [--add]: the same with the restoral table. *)
Definition add_run (json : bool) (qtokens : list token) : result (list line * printed) :=
  st ← apply_rules rasm qmorf qtokens RESTORE_SANDHI_RULES None;
  mret (st_out st, print_tokens json (st_tokens st)).

End Runs.

(** ** The morphological table from the corpus ([_qmorf_process]) *)

(** The items of [mushaf.json] and the entries of their ['morf'] lists, with
    the fields that [_qmorf_process] reads. A JSON [null] is [None]; the
    other values of ['lema'], ['root'] and ['derv'] are texts. *)
Module Mushaf.

Record morpheme : Type := Morpheme {
  POS : string;
  lema : option str;
  root : option str;
  derv : option string
}.

Record item : Type := Item {
  sura : Z;
  vers : Z;
  word : Z;
  tok : str;
  morf : list morpheme
}.

End Mushaf.

(** The tags collected under each of the two meta-classes that
    [POS_MAPPING] is built from. In the script ['CONJ'] and ['SUB'] stand
    side by side without a comma, which makes them one literal. *)
Definition POS_CLASSES : list (string * list string) :=
  [("N", ["PN"; "ADJ"; "LOC"; "DEM"; "EMPH"; "IMPV"; "PRP"]);
   ("P", ["IMPN"; "PRON"; "REL"; "T"; "CONJ" +:+ "SUB"; "ACC"; "AMD"; "ANS"; "AVR"; "CAUS";
          "CERT"; "CIRC"; "COM"; "COND"; "EQ"; "EXH"; "EXL"; "EXP"; "FUT"; "INC"; "INT";
          "INTG"; "NEG"; "PREV"; "PRO"; "REM"; "RES"; "RET"; "RSLT"; "SUP"; "SUR"; "VOC";
          "INL"])].

(** [{p:POS for POS,pos in (...) for p in pos}]. *)
Definition POS_MAPPING : gmap string string :=
  foldl (λ m c, foldl (λ m p, <[p := c.1]> m) m c.2) ∅ POS_CLASSES.

(** [POS_MAPPING.get(p, p)]. *)
Definition pos_norm (p : string) : string := default p (POS_MAPPING !! p).

(** [dict.fromkeys(l)]: the keys in the order of their first occurrence. *)
Definition fromkeys (l : list string) : list string :=
  foldl (λ keys k, if bool_decide (k ∈ keys) then keys else keys ++ [k]) [] l.

(** What [filter(None, ...)] keeps: a value that is neither [None] nor
    empty. *)
Definition truthy_str (x : option str) : option str :=
  match x with
  | Some (c :: s) => Some (c :: s)
  | _ => None
  end.

Definition truthy_string (x : option string) : option string :=
  match x with
  | Some (String a s) => Some (String a s)
  | _ => None
  end.

(** [f'{item["sura"]},{item["vers"]},{item["word"]}']. *)
Definition qmorf_key (it : Mushaf.item) : string :=
  pretty (Mushaf.sura it) +:+ "," +:+ pretty (Mushaf.vers it) +:+ ","
    +:+ pretty (Mushaf.word it).

(** The record of one item: its preprocessed text under ['tok'], and the
    four lists that the engine reads. *)
Definition qmorf_record (it : Mushaf.item) : str * morf :=
  (preproc (Mushaf.tok it),
   Morf (fromkeys ((λ m, pos_norm (Mushaf.POS m)) <$> Mushaf.morf it))
        (omap (λ m, truthy_str (Mushaf.lema m)) (Mushaf.morf it))
        (omap (λ m, truthy_str (Mushaf.root m)) (Mushaf.morf it))
        (omap (λ m, truthy_string (Mushaf.derv m)) (Mushaf.morf it))).

(** The dict that [_qmorf_process] dumps to [qmorf.json], built from the
    items of [mushaf.json] in their order. *)
Definition _qmorf_process (dt_quran : list Mushaf.item) : gmap string (str * morf) :=
  foldl (λ qmorf it, <[qmorf_key it := qmorf_record it]> qmorf) ∅ dt_quran.

(** [QMORF] as the engine reads it after the dict is loaded again. *)
Definition QMORF (dt_quran : list Mushaf.item) : gmap string morf :=
  snd <$> _qmorf_process dt_quran.

(** The index of an item. *)
Definition item_index (it : Mushaf.item) : index :=
  (Mushaf.sura it, Mushaf.vers it, Mushaf.word it).

(** ** Dicts in insertion order

    The dicts of the report scripts are printed in the order of their keys,
    so they are association lists, as [counts] is. *)
Section Dict.

Context {K V : Type} `{EqDecision K}.

Fixpoint dict_get (k : K) (d : list (K * V)) : option V :=
  match d with
  | [] => None
  | (k0, v0) :: d' => if bool_decide (k0 = k) then Some v0 else dict_get k d'
  end.

(** [d[k] = v]. *)
Fixpoint dict_set (k : K) (v : V) (d : list (K * V)) : list (K * V) :=
  match d with
  | [] => [(k, v)]
  | (k0, v0) :: d' =>
      if bool_decide (k0 = k) then (k0, v) :: d' else (k0, v0) :: dict_set k v d'
  end.

End Dict.

(** ** Counts by verse ([tajweed_tabular.py]) *)

(** The prefixes of the main groups of rules. *)
Definition RULES : list string := ["M"; "N"; "SHMS"; "MTHL"; "MTJNS"].

(** The group of a rule id: the first prefix of [RULES] that the id starts
    with, [None] when there is none. *)
Definition rule_gr (rule : string) : option string :=
  List.find (λ rule_pat, String.prefix rule_pat rule) RULES.

(** The triples [(rule_gr, ind, cnt)] of the counts file, which has the
    shape of the [counts] of the removal pass. *)
Definition parsed (rules_counts : counts_t) : list (option string * index * nat) :=
  rules_counts ≫= λ it, (λ word : entry, (rule_gr it.1, word.1.1, word.1.2)) <$> it.2.

(** A row of counts: a dict from a group, or [None], to a number. *)
Abbreviation row := (list (option string * nat)) (only parsing).

(** [{'M':0, 'N':0, 'SHMS':0, 'MTHL':0, 'MTJNS':0}]. *)
Definition row_zero : row :=
  [(Some "M", 0); (Some "N", 0); (Some "SHMS", 0); (Some "MTHL", 0); (Some "MTJNS", 0)].

(** [row[k] = row.get(k, 0) + cnt]. *)
Definition row_add (k : option string) (cnt : nat) (r : row) : row :=
  dict_set k (default 0 (dict_get k r) + cnt) r.

(** [':'.join(map(str, i))] of a pair [(sura, verse)]. *)
Definition verse_key (i : Z * Z) : string := pretty i.1 +:+ ":" +:+ pretty i.2.

(** The verses in the order of their first occurrence (the [seen] idiom). *)
Definition unique_verses (ind_complete : list (Z * Z)) : list (Z * Z) :=
  foldl (λ seen i, if bool_decide (i ∈ seen) then seen else seen ++ [i]) [] ind_complete.

(** [merged] before the loop: a row of zeros for every verse. *)
Definition merged_init (indexes : list (Z * Z)) : list (string * row) :=
  foldl (λ merged i, dict_set (verse_key i) row_zero merged) [] indexes.

(** The loop over [parsed]. A verse that is not a key of [merged] raises. *)
Fixpoint merge_verses (triples : list (option string * index * nat))
    (merged : list (string * row)) : result (list (string * row)) :=
  match triples with
  | [] => Ok merged
  | (rule_id, rule_ind, rule_cnt) :: rest =>
      let key := verse_key (rule_ind.1.1, rule_ind.1.2) in
      match dict_get key merged with
      | None => Err (KeyError key)
      | Some r => merge_verses rest (dict_set key (row_add rule_id rule_cnt r) merged)
      end
  end.

(** The branch without [-n]: [ind_complete] are the pairs [(sura, verse)] of
    the words that [rasm] yields. *)
Definition by_verses (ind_complete : list (Z * Z)) (rules_counts : counts_t)
  : result (list (string * row)) :=
  merge_verses (parsed rules_counts) (merged_init (unique_verses ind_complete)).

(** The sum of the numbers of a row, and of all rows. *)
Definition row_total (r : row) : nat := foldr (λ (c : option string * nat) n, c.2 + n) 0 r.

Definition merged_total (merged : list (string * row)) : nat :=
  foldr (λ (it : string * row) n, row_total it.2 + n) 0 merged.

Definition parsed_total (triples : list (option string * index * nat)) : nat :=
  foldr (λ (t : option string * index * nat) n, t.2 + n) 0 triples.

(** ** Groups of rules ([tajweed2df.py]) *)

Definition RULE_GROUPS : list (string * list string) := [
   ("ASSIM-M", ["M1"; "M2"]);
   ("ASSIM-N", ["N2.1.1.A"; "N2.1.1.B"; "N2.1.1.C"; "N2.1.1.D"; "N2.1.2.A"; "N2.1.2.B";
      "N2.1.2.C"; "N2.1.2.D"; "N2.2.A"; "N2.2.B"; "N2.2.C"; "N2.2.D"; "N3.A"; "N3.B"; "N3.C";
      "N3.D"; "N4.A"; "N4.B"; "N4.C"; "N4.D"]);
   ("ASSIM", ["MITHL-bb"; "MITHL-dd"; "MITHL-kk"; "MITHL-ll"; "MITHL-yy"; "MITHL-hh"; "MITHL-ww";
      "MITHL-tt"; "MITHL-rr"; "MITHL-ðð"; "MITHL-ff"; "MITHL-33"; "MTJNS-dt"; "MTJNS-td";
      "MTJNS-tT"; "MTJNS-ṯð"; "MTJNS-lr"; "MTJNS-ðṮ"; "MTJNS-qk"; "MTJNS-bm"; "t-assim"]);
   ("MADDA", ["MADD-hmz"; "MADD-hmz-A-sil"; "MADD-hmz-sp-1"; "MADD-hmz-sp-2"; "MADD-hmz-sp-3";
      "MADD-hmz-sp-4"; "MADD-lzm"; "MADD-shdd-skn"; "MADD-sp-1"; "MADD-sp-2"; "MADD-sp-3";
      "MADD-sp-4"; "MADD-sp-5"; "MADD-sp-6"; "MADD-sp-7"; "MADD-sp-8"; "MADD-sp-9"; "MADD-sp-A";
      "MADD-sp-B"; "MADD-sp-C"; "MADD-sp-D"]);
   ("SHAMS", ["SHMS"]);
   ("CLIT-H", ["HU"; "HI"]);
   ("MIN-W", ["min-u-1"; "min-u-2"; "min-u-3"; "min-u-4"; "min-u-5"; "min-u-6"; "min-u-7";
      "min-u-8"]);
   ("MIN-Y", ["min-y-1"; "min-y-2"; "min-y-3"; "min-y-4"; "min-y-5"; "min-y-6"; "min-y-7";
      "min-y-8"; "min-y-9"; "min-y-A"]);
   ("P_SIL", ["P-sil-1"; "P-sil-2"]);
   ("SIL", ["Sil-1"; "Sil-2"; "Sil-3"; "Sil-4"; "Sil-5"; "Sil-6"; "Sil-7"; "Sil-8"; "Sil-9";
      "Sil-A"; "Sil-B"; "Sil-C"; "Sil-D"; "Sil-E"; "Sil-F"; "Sil-G"]);
   ("SAKT", ["sakt-1"; "sakt-2"; "sakt-3"]);
   ("HAPAX", ["hapax-1"; "hapax-2"; "hapax-3"])].

(** [{rule:gr for gr,rule_li in RULE_GROUPS.items() for rule in rule_li}]. *)
Definition RULE_MAPPER : gmap string string :=
  foldl (λ m g, foldl (λ m rule, <[rule := g.1]> m) m g.2) ∅ RULE_GROUPS.

(** The name a rule is counted under: with [--groups] it is
    [RULE_MAPPER[rule]], which raises for an id that is not a key. *)
Definition counted_under (groups : bool) (rule : string) : result string :=
  if groups then
    match RULE_MAPPER !! rule with
    | Some gr => Ok gr
    | None => Err (KeyError rule)
    end
  else Ok rule.

(** ** Normalisation of the searched text ([searcher.py]) *)

(** The code points that [NOISY_CHARS] maps to [None]. *)
Definition NOISY_CHARS : list char :=
  [0x200C; 60; 62; 91; 93; 0x06D6; 0x06D7; 0x06D8; 0x06D9; 0x06DA; 0x06DB; 0x06DE;
   0x06E9]%N.

(** [s.translate(table)] for a table that maps code points to [None]: they
    are deleted. *)
Definition translate (table : list char) (s : str) : str :=
  List.filter (λ c, negb (bool_decide (c ∈ table))) s.

Section Normalise.

(** The fields of a token other than its text. *)
Context {A : Type}.

(** The loop [while i < len(tokens)] over the enumerated tokens: the text
    of token [i] is translated; the token is popped if nothing is left of
    it, and [i] moves on otherwise. Every turn pops a token or moves on, so
    the length of the list is fuel enough. *)
Fixpoint normalise_loop (fuel i : nat) (tokens : list (nat * (str * A)))
  : list (nat * (str * A)) :=
  match fuel with
  | 0 => tokens
  | S fuel' =>
      match tokens !! i with
      | None => tokens
      | Some (iabs, (tok, fields)) =>
          let tokens' := <[i := (iabs, (translate NOISY_CHARS tok, fields))]> tokens in
          if bool_decide (translate NOISY_CHARS tok = [])
          then normalise_loop fuel' i (delete i tokens')
          else normalise_loop fuel' (S i) tokens'
      end
  end.

(** [list(enumerate(l))]. *)
Definition enumerate (l : list (str * A)) : list (nat * (str * A)) :=
  zip (seq 0 (length l)) l.

Definition normalise (l : list (str * A)) : list (nat * (str * A)) :=
  normalise_loop (length l) 0 (enumerate l).

End Normalise.

(** ** Notions used in the further properties *)

(** Two states with the same tokens and the same output. *)
Definition same_text (st1 st2 : state) : Prop :=
  st_tokens st1 = st_tokens st2 ∧ st_out st1 = st_out st2.

(** Two results that fail with the same error, or succeed with related
    values. *)
Definition result_rel {A : Type} (R : A → A → Prop) (x y : result A) : Prop :=
  match x, y with
  | Ok a, Ok b => R a b
  | Err e, Err e' => e = e'
  | _, _ => False
  end.

(** The letter at position [k] of a word is a waw after a damma or a yeh
    after a kasra: it writes a long vowel. *)
Definition long_vowel_at (tok : str) (k : nat) : Prop :=
  ∃ k', k = S k'
        ∧ ((tok !! k' = Some ar_damma ∧ tok !! k = Some ar_waw)
           ∨ (tok !! k' = Some ar_kasra ∧ tok !! k = Some ar_farsi_yeh)).

(** Two letters of [CONS] side by side at positions [k] and [k + 1], the
    first of which does not write a long vowel. *)
Definition bare_consonant_at (tok : str) (k : nat) : Prop :=
  ∃ a b, tok !! k = Some a ∧ a ∈ CONS ∧ tok !! S k = Some b ∧ b ∈ CONS
         ∧ ¬ long_vowel_at tok k.

(** The numbers of the groups of a pattern. *)
Fixpoint groups_of (r : regex) : list nat :=
  match r with
  | Group n r1 => n :: groups_of r1
  | Seq r1 r2 | Alt r1 r2 => groups_of r1 ++ groups_of r2
  | Opt r1 | NGroup r1 | Ahead _ r1 | Behind _ _ r1 => groups_of r1
  | Eps | Chr _ | Cls _ _ | Any | Bol | Eol => []
  end.

(** The groups a replacement refers to. *)
Definition refs_of (t : template) : list nat :=
  omap (λ it, match it with TRef n => Some n | TLit _ => None end) t.

(** Every reference of the replacement is to a group of the pattern. A
    reference to a group that the pattern does not have makes [re.sub] raise
    [re.error]. *)
Definition refs_bound (p : regex) (t : template) : bool :=
  forallb (λ n, bool_decide (n ∈ groups_of p)) (refs_of t).

Definition rule_refs_bound (r : rule) : bool :=
  match between r with
  | Some b =>
      refs_bound (tok_pre b) (repl_pre b)
      && match repl_post b with
         | Some rp => refs_bound (tok_post b) rp
         | None => true
         end
  | None => true
  end
  && match within r with
     | Some w => refs_bound (pat w) (repl w)
     | None => true
     end.

(** A rule and its inverse fire at the same words: the same POS filter and
    the same index sets. *)
Definition guards_agree (r r' : rule) : bool :=
  bool_decide (FILTER_POS r = FILTER_POS r')
  && bool_decide (except_ind r = except_ind r')
  && bool_decide (force_ind r = force_ind r')
  && bool_decide (restrict_ind r = restrict_ind r').

Section Separators.

Import Stdlib.Strings.Ascii.

(** A string without the character [c]. *)
Fixpoint sep_free (c : ascii) (s : string) : Prop :=
  match s with
  | EmptyString => True
  | String a s' => a ≠ c ∧ sep_free c s'
  end.

(** A character that is neither a digit nor the sign. *)
Definition is_sep (c : ascii) : Prop :=
  c ∉ ["-"; "0"; "1"; "2"; "3"; "4"; "5"; "6"; "7"; "8"; "9"]%char.

End Separators.

(** The cells of the two groups that no id reaches hold 0. *)
Definition unreached_zero (r : row) : Prop :=
  dict_get (Some "MTHL") r = Some 0 ∧ dict_get (Some "MTJNS") r = Some 0.

(** ** Inputs of the further examples *)

(** Q.39:7:13-14 without the tajweed layer: the verb of root r-d-w whose
    final heh takes no miniature waw, and the word after it. *)
Definition ex_except_tokens : list token :=
  [([ar_farsi_yeh; ar_fatha; ar_reh; ar_quranic_sukun; ar_dad; ar_fatha; ar_heh; ar_damma],
    (39, 7, 13)%Z);
   ([ar_lam; ar_fatha; ar_kaf; ar_damma; ar_meem; ar_quranic_sukun], (39, 7, 14)%Z)].

(** The same two words at two other positions. *)
Definition ex_plain_tokens : list token :=
  [([ar_farsi_yeh; ar_fatha; ar_reh; ar_quranic_sukun; ar_dad; ar_fatha; ar_heh; ar_damma],
    (1, 1, 1)%Z);
   ([ar_lam; ar_fatha; ar_kaf; ar_damma; ar_meem; ar_quranic_sukun], (1, 1, 2)%Z)].

Definition ex_except_qmorf : gmap string morf :=
  {[ "39,7,13" := Morf ["V"; "P"] [] [[ar_reh; ar_dad; ar_waw]] [];
     "39,7,14" := Morf ["P"] [] [] [];
     "1,1,1" := Morf ["V"; "P"] [] [[ar_reh; ar_dad; ar_waw]] [];
     "1,1,2" := Morf ["P"] [] [] [] ]}.

(** The restoral pass of the evaluation run on each. *)
Definition ex_except_ad : state :=
  Eval vm_compute in
    state_of (apply_rules skeleton ex_except_qmorf ex_except_tokens RESTORE_SANDHI_RULES
                (Some (counts_init RESTORE_SANDHI_RULES))).

Definition ex_plain_ad : state :=
  Eval vm_compute in
    state_of (apply_rules skeleton ex_except_qmorf ex_plain_tokens RESTORE_SANDHI_RULES
                (Some (counts_init RESTORE_SANDHI_RULES))).

(** The restoral pass without a sink on the words of Q.23:59:2-3 as the
    removal pass leaves them. *)
Definition ex_restored : state :=
  Eval vm_compute in
    state_of (apply_rules skeleton ex_qmorf (st_tokens ex_removed) RESTORE_SANDHI_RULES None).

(** The rules the further examples name. *)
Definition restoral_M1 : rule := default no_rule (rule_by_id "M1" RESTORE_SANDHI_RULES).
Definition removal_P_sil_1 : rule :=
  default no_rule (rule_by_id "P-sil-1" REMOVE_SANDHI_RULES).
Definition restoral_P_sil_1 : rule :=
  default no_rule (rule_by_id "P-sil-1" RESTORE_SANDHI_RULES).

(** Two items of a corpus: a particle with the tag [CONJ] before a noun, and
    a verb whose second entry has no root and an empty lemma. *)
Definition ex_items : list Mushaf.item :=
  [Mushaf.Item 1 1 1 [ar_waw; ar_fatha; ar_reh; ar_fatha; ar_beh; ar_shadda; 0x06DA%N]
     [Mushaf.Morpheme "CONJ" None None None;
      Mushaf.Morpheme "PN" (Some [ar_reh; ar_beh]) (Some [ar_reh; ar_beh; ar_beh]) None;
      Mushaf.Morpheme "ADJ" None None (Some "")];
   Mushaf.Item 1 1 2 [ar_qaf; ar_fatha; ar_alef; ar_lam; ar_fatha]
     [Mushaf.Morpheme "V" (Some [ar_qaf; ar_alef; ar_lam]) (Some [ar_qaf; ar_waw; ar_lam])
        (Some "PERF");
      Mushaf.Morpheme "PRON" (Some []) None None]].


(** A counts file with a boundary match of [MTJNS-dt] and two matches of
    [HU] in Q.2:8, and the verses of three words. *)
Definition ex_rules_counts : counts_t :=
  [("MTJNS-dt", [((2, 8, 10)%Z, 1, true)]); ("HU", [((2, 8, 3)%Z, 2, true)])].

Definition ex_verses : list (Z * Z) := [(2, 8); (2, 8); (2, 9)]%Z.

(** Three tokens of a searched text: the second is a pause mark alone. *)
Definition ex_search_tokens : list (str * index) :=
  [([ar_meem; 0x06D6%N; ar_noon], (1, 1, 1)%Z);
   ([0x06DE%N], (1, 1, 2)%Z);
   ([ar_beh], (1, 1, 3)%Z)].

(** * Properties *)

(** ** The matcher *)

Section matcher.

Implicit Types (r : regex) (s : str) (c : caps).

Lemma matches_span r s pos c e c' :
  (e, c') ∈ matches r s pos c →
  pos + min_width r ≤ e
  ∧ (pos ≤ length s → e ≤ length s)
  ∧ (no_newline r = true → ∀ k, pos ≤ k < e → s !! k ≠ Some newline).
Proof.
  revert pos c e c'.
  induction r as [|a|neg cs| |r1 IH1 r2 IH2|r1 IH1 r2 IH2|r1 IH1|n r1 IH1|r1 IH1
                 | | |neg r1 IH1|neg w r1 IH1]; intros pos c e c' Hin; simpl in *.
  - apply list_elem_of_singleton in Hin. injection Hin as -> ->.
    split; [lia|]. split; [done|]. intros _ k ?. lia.
  - destruct (s !! pos) as [x|] eqn:Hx; [|by apply elem_of_nil in Hin].
    case_bool_decide as Hxa; [|by apply elem_of_nil in Hin].
    apply list_elem_of_singleton in Hin. injection Hin as -> ->.
    apply lookup_lt_Some in Hx as Hlt.
    split; [lia|]. split; [lia|].
    intros Hnl k Hk. assert (k = pos) as -> by lia.
    rewrite Hx. apply bool_decide_eq_true in Hnl. congruence.
  - destruct (s !! pos) as [x|] eqn:Hx; [|by apply elem_of_nil in Hin].
    destruct (in_class neg cs x) eqn:Hcl; [|by apply elem_of_nil in Hin].
    apply list_elem_of_singleton in Hin. injection Hin as -> ->.
    apply lookup_lt_Some in Hx as Hlt.
    split; [lia|]. split; [lia|].
    intros Hnl k Hk. assert (k = pos) as -> by lia.
    rewrite Hx. apply andb_true_iff in Hnl as [Hneg Hnot].
    destruct neg; [done|]. apply bool_decide_eq_true in Hnot.
    unfold in_class in Hcl. simpl in Hcl. apply bool_decide_eq_true in Hcl.
    intros [= ->]. done.
  - destruct (s !! pos) as [x|] eqn:Hx; [|by apply elem_of_nil in Hin].
    case_bool_decide as Hxa; [by apply elem_of_nil in Hin|].
    apply list_elem_of_singleton in Hin. injection Hin as -> ->.
    apply lookup_lt_Some in Hx as Hlt.
    split; [lia|]. split; [lia|].
    intros _ k Hk. assert (k = pos) as -> by lia. rewrite Hx. congruence.
  - apply list_elem_of_bind in Hin as ([e1 c1] & Hin2 & Hin1). simpl in Hin2.
    apply IH1 in Hin1 as (Hw1 & Hl1 & Hn1). apply IH2 in Hin2 as (Hw2 & Hl2 & Hn2).
    split; [lia|]. split; [auto|].
    intros Hnl k Hk. apply andb_true_iff in Hnl as [Hnl1 Hnl2].
    destruct (decide (k < e1)); [apply Hn1; [done|lia] | apply Hn2; [done|lia]].
  - apply elem_of_app in Hin as [Hin|Hin]; [apply IH1 in Hin | apply IH2 in Hin];
      destruct Hin as (Hw & Hl & Hn); (split; [lia|]); (split; [done|]);
      intros Hnl; apply andb_true_iff in Hnl as [Hnl1 Hnl2]; auto.
  - apply elem_of_app in Hin as [Hin|Hin].
    + apply IH1 in Hin as (Hw & Hl & Hn). split; [lia|]. split; [done|]. auto.
    + apply list_elem_of_singleton in Hin. injection Hin as -> ->.
      split; [lia|]. split; [done|]. intros _ k ?. lia.
  - apply list_elem_of_fmap in Hin as ([e1 c1] & Heq & Hin). simpl in Heq.
    injection Heq as -> ->. by apply IH1 in Hin.
  - by apply IH1 in Hin.
  - case_bool_decide; [|by apply elem_of_nil in Hin].
    apply list_elem_of_singleton in Hin. injection Hin as -> ->.
    split; [lia|]. split; [done|]. intros _ k ?. lia.
  - destruct (at_end s pos); [|by apply elem_of_nil in Hin].
    apply list_elem_of_singleton in Hin. injection Hin as -> ->.
    split; [lia|]. split; [done|]. intros _ k ?. lia.
  - destruct (matches r1 s pos c) as [|ec l], neg;
      try (by apply elem_of_nil in Hin);
      apply list_elem_of_singleton in Hin; injection Hin as -> ->;
      (split; [lia|]); (split; [done|]); intros _ k ?; lia.
  - case_bool_decide.
    + destruct (matches r1 s (pos - w) c) as [|ec l], neg;
        try (by apply elem_of_nil in Hin);
        apply list_elem_of_singleton in Hin; injection Hin as -> ->;
        (split; [lia|]); (split; [done|]); intros _ k ?; lia.
    + destruct neg; [|by apply elem_of_nil in Hin].
      apply list_elem_of_singleton in Hin. injection Hin as -> ->.
      split; [lia|]. split; [done|]. intros _ k ?. lia.
Qed.

Lemma match_at_Some r s pos ma e c :
  match_at r s pos ma = Some (e, c) → (e, c) ∈ matches r s pos [].
Proof.
  unfold match_at. intros H. apply find_some in H as [H _]. by apply list_elem_of_In.
Qed.

Lemma match_at_nil r s pos ma :
  matches r s pos [] = [] → match_at r s pos ma = None.
Proof. unfold match_at. by intros ->. Qed.

Lemma match_at_first r s pos ma e c l :
  matches r s pos [] = (e, c) :: l → e ≠ pos → match_at r s pos ma = Some (e, c).
Proof.
  unfold match_at. intros -> Hne. simpl.
  rewrite (bool_decide_eq_false_2 (e = pos)) by done. by rewrite andb_false_r.
Qed.

(** What a successful search returns is a match, at or after the start. *)
Lemma search_from_Some r s fuel pos ma b e c :
  search_from r s fuel pos ma = Some (b, e, c) →
  pos ≤ b ≤ pos + fuel ∧ (e, c) ∈ matches r s b [].
Proof.
  revert pos ma. induction fuel as [|fuel IH]; intros pos ma; simpl.
  - destruct (match_at r s pos ma) as [[e1 c1]|] eqn:Hm; [|done].
    intros [= <- <- <-]. split; [lia|]. by eapply match_at_Some.
  - destruct (match_at r s pos ma) as [[e1 c1]|] eqn:Hm.
    + intros [= <- <- <-]. split; [lia|]. by eapply match_at_Some.
    + intros H. apply IH in H as [? ?]. split; [lia|done].
Qed.

(** A search with no match in its range fails. *)
Lemma search_from_None r s fuel pos ma :
  (∀ b, pos ≤ b ≤ pos + fuel → matches r s b [] = []) →
  search_from r s fuel pos ma = None.
Proof.
  revert pos ma. induction fuel as [|fuel IH]; intros pos ma Hno; simpl.
  - rewrite match_at_nil; [done|]. apply Hno. lia.
  - rewrite match_at_nil by (apply Hno; lia).
    apply IH. intros b ?. apply Hno. lia.
Qed.

(** A search returns the first match of the first position that has one. *)
Lemma search_from_first r s fuel pos ma b e c l :
  pos ≤ b ≤ pos + fuel →
  (∀ j, pos ≤ j < b → matches r s j [] = []) →
  matches r s b [] = (e, c) :: l → e ≠ b →
  search_from r s fuel pos ma = Some (b, e, c).
Proof.
  revert pos ma. induction fuel as [|fuel IH]; intros pos ma Hb Hno Hm Hne.
  - assert (b = pos) as -> by lia. simpl. by erewrite match_at_first.
  - simpl. destruct (decide (b = pos)) as [->|Hbp].
    + by erewrite match_at_first.
    + rewrite match_at_nil by (apply Hno; lia).
      apply IH; [lia| |done|done]. intros j ?. apply Hno. lia.
Qed.

Lemma match_at_advance r s pos e c :
  match_at r s pos true = Some (e, c) → e ≠ pos.
Proof.
  unfold match_at. intros H. apply find_some in H as [_ H]. simpl in H.
  apply negb_true_iff, bool_decide_eq_false in H. done.
Qed.

(** A match found by a search lies inside the text, and is not empty at the
    start of a search that has to advance. *)
Lemma search_from_bounds r s fuel pos ma b e c :
  pos + fuel ≤ length s →
  search_from r s fuel pos ma = Some (b, e, c) →
  pos ≤ b ≤ e ∧ e ≤ length s ∧ (ma = true → b = pos → e ≠ b).
Proof.
  intros Hlen H. pose proof H as H'.
  apply search_from_Some in H' as [Hb Hin].
  apply matches_span in Hin as (Hw & Hl & _).
  split; [lia|]. split; [apply Hl; lia|].
  intros -> ->. destruct fuel as [|fuel]; simpl in H.
  - destruct (match_at r s pos true) as [[e1 c1]|] eqn:Hm; [|done].
    injection H as <- <-. by eapply match_at_advance.
  - destruct (match_at r s pos true) as [[e1 c1]|] eqn:Hm.
    + injection H as <- <-. by eapply match_at_advance.
    + apply search_from_Some in H as [? _]. lia.
Qed.

(** The loop of [subn] never runs out of fuel: beyond the fuel that [subn]
    gives it, more fuel changes nothing. *)
Lemma subn_loop_fuel r t s fuel start (ma : bool) acc n :
  start ≤ length s →
  2 * (length s - start) + (if ma then 0 else 1) < fuel →
  subn_loop r t s (S fuel) start ma acc n = subn_loop r t s fuel start ma acc n.
Proof.
  revert start ma acc n. induction fuel as [|fuel IH]; intros start ma acc n Hs Hf; [lia|].
  cbn [subn_loop].
  destruct (search_from r s (length s - start) start ma) as [[[b e] c]|] eqn:Hsearch; [|done].
  apply search_from_bounds in Hsearch as (Hb & He & Hadv); [|lia].
  apply IH; [done|].
  case_bool_decide as Heb.
  - subst e. destruct (decide (b = start)) as [->|Hne]; [|lia].
    destruct ma; [by specialize (Hadv eq_refl eq_refl)|lia].
  - destruct ma; lia.
Qed.

Lemma subn_fuel r t s k :
  subn_loop r t s (2 * length s + 2 + k) 0 false [] 0 = subn r t s.
Proof.
  unfold subn. induction k as [|k IH]; [by rewrite Nat.add_0_r|].
  rewrite <- IH. replace (2 * length s + 2 + S k) with (S (2 * length s + 2 + k)) by lia.
  apply subn_loop_fuel; lia.
Qed.

(** The anchor alone does not bound the count: an optional pattern anchored
    at the end of a word matches the word and then the empty text after it.
    No pattern of the rule tables is of this kind. *)
Example subn_optional_at_end :
  subn (anchor_end (Opt (Chr ar_alef))) (lit [ar_beh]) [ar_alef] = ([ar_beh; ar_beh], 2).
Proof. reflexivity. Qed.

Lemma at_end_spec s pos :
  at_end s pos = true ↔
  pos = length s ∨ (S pos = length s ∧ s !! pos = Some newline).
Proof.
  unfold at_end. rewrite orb_true_iff, andb_true_iff, !bool_decide_eq_true. done.
Qed.

(** A match of [anchor_end p] is a match of [p] that stops where [$] holds. *)
Lemma matches_anchor_end p s pos c e c' :
  is_alt p = false →
  (e, c') ∈ matches (anchor_end p) s pos c →
  (e, c') ∈ matches p s pos c ∧ at_end s e = true.
Proof.
  intros Hp Hin.
  assert (anchor_end p = Seq p Eol) as Heq by (by destruct p).
  rewrite Heq in Hin. simpl in Hin.
  apply list_elem_of_bind in Hin as ([e1 c1] & Hin2 & Hin1). simpl in Hin2.
  destruct (at_end s e1) eqn:He; [|by apply elem_of_nil in Hin2].
  apply list_elem_of_singleton in Hin2. injection Hin2 as -> ->. done.
Qed.

(** A pattern anchored at the end of the word, which spans at least one code
    point and no newline, is replaced at most once. *)
Lemma subn_anchor_end_count p t s :
  single_at_end p = true → (subn (anchor_end p) t s).2 ≤ 1.
Proof.
  unfold single_at_end. rewrite !andb_true_iff, negb_true_iff, bool_decide_eq_true.
  intros [[Halt Hw] Hnl]. unfold subn.
  replace (2 * length s + 2) with (S (S (2 * length s))) by lia.
  cbn [subn_loop].
  destruct (search_from (anchor_end p) s (length s - 0) 0 false)
    as [[[b e] c]|] eqn:H1; [|simpl; lia].
  apply search_from_Some in H1 as [Hb Hin].
  apply matches_anchor_end in Hin as [Hin He]; [|done].
  apply matches_span in Hin as (Hw1 & Hl1 & _).
  rewrite search_from_None; [simpl; lia|].
  intros b2 Hb2.
  destruct (matches (anchor_end p) s b2 []) as [|[e2 c2] l] eqn:Hm2; [done|exfalso].
  assert ((e2, c2) ∈ matches (anchor_end p) s b2 []) as Hin2
    by (rewrite Hm2; apply list_elem_of_here).
  apply matches_anchor_end in Hin2 as [Hin2 He2]; [|done].
  apply matches_span in Hin2 as (Hw2 & Hl2 & Hn2).
  apply at_end_spec in He. apply at_end_spec in He2.
  assert (e ≤ length s) by (apply Hl1; lia).
  assert (e2 ≤ length s) by (apply Hl2; lia).
  destruct He as [He|[He Hnle]]; [lia|].
  assert (b2 = e) as -> by lia.
  apply (Hn2 Hnl e); [lia|done].
Qed.

End matcher.

(** ** The engine: what one turn can do *)

Section engine_facts.

Context (rasm : str → str) (qmorf : gmap string morf).

Implicit Types (r : rule) (st : state) (i j : nat).

Lemma with_out_nil st : with_out st [] = st.
Proof. destruct st. unfold with_out. simpl. by rewrite app_nil_r. Qed.

Lemma apply_between_indices r i st :
  (snd <$> st_tokens (apply_between r i st)) = (snd <$> st_tokens st).
Proof.
  unfold apply_between.
  destruct (between r) as [b|]; [|done].
  destruct (st_tokens st !! i) as [[cur ind]|] eqn:Hi; [|done].
  destruct (st_tokens st !! S i) as [[next ind']|] eqn:Hs; [|done].
  destruct (search _ cur && search _ next); [|done].
  destruct (subn _ _ cur) as [m cnt]. simpl.
  assert ((snd <$> st_tokens st) !! i = Some ind) as Hi'.
  { rewrite list_lookup_fmap. by rewrite Hi. }
  assert ((snd <$> st_tokens st) !! S i = Some ind') as Hs'.
  { rewrite list_lookup_fmap. by rewrite Hs. }
  destruct (repl_post b) as [[|t rp]|]; rewrite !list_fmap_insert; simpl;
    rewrite ?(list_insert_id _ (S i)) by done; by rewrite list_insert_id.
Qed.

Lemma apply_between_other r i st j :
  j ≠ i → j ≠ S i → st_tokens (apply_between r i st) !! j = st_tokens st !! j.
Proof.
  intros Hi Hs. unfold apply_between.
  destruct (between r) as [b|]; [|done].
  destruct (st_tokens st !! i) as [[cur ind]|]; [|done].
  destruct (st_tokens st !! S i) as [[next ind']|]; [|done].
  destruct (search _ cur && search _ next); [|done].
  destruct (subn _ _ cur) as [m cnt]. simpl.
  destruct (repl_post b) as [[|t rp]|];
    rewrite !list_lookup_insert_ne by done; done.
Qed.

Lemma apply_between_out r i st : st_out (apply_between r i st) = st_out st.
Proof.
  unfold apply_between.
  destruct (between r) as [b|]; [|done].
  destruct (st_tokens st !! i) as [[cur ind]|]; [|done].
  destruct (st_tokens st !! S i) as [[next ind']|]; [|done].
  destruct (search _ cur && search _ next); [|done].
  by destruct (subn _ _ cur) as [m cnt].
Qed.

(** A rule without a boundary part does nothing between words. *)
Lemma apply_between_None r i st : between r = None → apply_between r i st = st.
Proof. unfold apply_between. by intros ->. Qed.

Lemma apply_within_indices r i st :
  (snd <$> st_tokens (apply_within r i st)) = (snd <$> st_tokens st).
Proof.
  unfold apply_within.
  destruct (within r) as [w|]; [|done].
  destruct (st_tokens st !! i) as [[cur ind]|] eqn:Hi; [|done].
  destruct (subn _ _ cur) as [m cnt]. simpl.
  rewrite list_fmap_insert. simpl. apply list_insert_id.
  rewrite list_lookup_fmap. by rewrite Hi.
Qed.

Lemma apply_within_other r i st j :
  j ≠ i → st_tokens (apply_within r i st) !! j = st_tokens st !! j.
Proof.
  intros Hi. unfold apply_within.
  destruct (within r) as [w|]; [|done].
  destruct (st_tokens st !! i) as [[cur ind]|]; [|done].
  destruct (subn _ _ cur) as [m cnt]. simpl.
  by rewrite list_lookup_insert_ne.
Qed.

Lemma apply_within_out r i st : st_out (apply_within r i st) = st_out st.
Proof.
  unfold apply_within.
  destruct (within r) as [w|]; [|done].
  destruct (st_tokens st !! i) as [[cur ind]|]; [|done].
  by destruct (subn _ _ cur) as [m cnt].
Qed.

(** The three outcomes of a turn that does not raise: the rule is skipped,
    it is skipped by the clitic check (which may print), or both its parts
    are applied, the boundary part first. *)
Lemma apply_rule_Ok r i w st st' :
  apply_rule qmorf r i w st = Ok st' →
  ∃ printed,
    st' = with_out st printed
    ∨ st' = apply_within r i (apply_between r i (with_out st printed)).
Proof.
  unfold apply_rule.
  destruct (st_tokens st !! i) as [[tok ind]|]; [|done].
  destruct (_ && _).
  { intros [= <-]. exists []. left. by rewrite with_out_nil. }
  destruct (bool_decide (ind ∈ except_ind r)).
  { intros [= <-]. exists []. left. by rewrite with_out_nil. }
  destruct (pos_filtered qmorf r ind) as [[|]|e]; simpl; [| |done].
  { intros [= <-]. exists []. left. by rewrite with_out_nil. }
  destruct (clitic_check qmorf r ind w) as [[[|] printed]|e]; simpl; [| |done].
  - intros [= <-]. exists printed. by left.
  - intros [= <-]. exists printed. by right.
Qed.

Lemma apply_rule_indices r i w st st' :
  apply_rule qmorf r i w st = Ok st' →
  (snd <$> st_tokens st') = (snd <$> st_tokens st).
Proof.
  intros H. apply apply_rule_Ok in H as (printed & [->| ->]); [done|].
  by rewrite apply_within_indices, apply_between_indices.
Qed.

Lemma apply_rule_other r i w st st' j :
  apply_rule qmorf r i w st = Ok st' →
  j ≠ i → j ≠ S i → st_tokens st' !! j = st_tokens st !! j.
Proof.
  intros H Hi Hs. apply apply_rule_Ok in H as (printed & [->| ->]); [done|].
  by rewrite apply_within_other, apply_between_other.
Qed.

(** ** Lifting a property of the turns to the loops *)

Section lifting.

Variable R : state → state → Prop.
Hypothesis R_refl : ∀ st, R st st.
Hypothesis R_trans : ∀ st1 st2 st3, R st1 st2 → R st2 st3 → R st1 st3.

Lemma apply_rules_at_lift rules i w st st' :
  (∀ r st1 st2, r ∈ rules → apply_rule qmorf r i w st1 = Ok st2 → R st1 st2) →
  apply_rules_at qmorf rules i w st = Ok st' → R st st'.
Proof.
  revert st. induction rules as [|r rules IH]; intros st Hstep; simpl.
  - intros [= <-]. apply R_refl.
  - destruct (apply_rule qmorf r i w st) as [st1|e] eqn:H1; simpl; [|done].
    intros H. eapply R_trans.
    + eapply Hstep; [apply list_elem_of_here|done].
    + apply IH; [|done]. intros r' ? ? ?. apply Hstep. by apply list_elem_of_further.
Qed.

Lemma apply_token_lift rules i st st' :
  (∀ r w st1 st2, r ∈ rules → apply_rule qmorf r i w st1 = Ok st2 → R st1 st2) →
  apply_token rasm qmorf rules i st = Ok st' → R st st'.
Proof.
  intros Hstep. unfold apply_token.
  destruct (st_tokens st !! i) as [[text ind]|]; [|done].
  apply apply_rules_at_lift. intros r ? ? ?. apply Hstep. done.
Qed.

Lemma apply_positions_lift rules positions st st' :
  (∀ r i w st1 st2, r ∈ rules → apply_rule qmorf r i w st1 = Ok st2 → R st1 st2) →
  apply_positions rasm qmorf rules positions st = Ok st' → R st st'.
Proof.
  intros Hstep. revert st. induction positions as [|i positions IH]; intros st; simpl.
  - intros [= <-]. apply R_refl.
  - destruct (apply_token rasm qmorf rules i st) as [st1|e] eqn:H1; simpl; [|done].
    intros H. eapply R_trans; [|by apply IH].
    eapply apply_token_lift; [|done]. intros r w ? ? ?. by apply Hstep.
Qed.

End lifting.

Lemma apply_positions_indices rules positions st st' :
  apply_positions rasm qmorf rules positions st = Ok st' →
  (snd <$> st_tokens st') = (snd <$> st_tokens st).
Proof.
  apply (apply_positions_lift (λ st1 st2, (snd <$> st_tokens st2) = (snd <$> st_tokens st1))).
  - done.
  - intros ??? H1 H2. by rewrite H2.
  - intros r i w st1 st2 _. apply apply_rule_indices.
Qed.

Lemma apply_token_indices rules i st st' :
  apply_token rasm qmorf rules i st = Ok st' →
  (snd <$> st_tokens st') = (snd <$> st_tokens st).
Proof.
  apply (apply_token_lift (λ st1 st2, (snd <$> st_tokens st2) = (snd <$> st_tokens st1))).
  - done.
  - intros ??? H1 H2. by rewrite H2.
  - intros r w st1 st2 _. apply apply_rule_indices.
Qed.

Lemma apply_token_other rules i st st' j :
  apply_token rasm qmorf rules i st = Ok st' →
  j ≠ i → j ≠ S i → st_tokens st' !! j = st_tokens st !! j.
Proof.
  intros H Hi Hs. revert H.
  apply (apply_token_lift (λ st1 st2, st_tokens st2 !! j = st_tokens st1 !! j)).
  - done.
  - intros ??? H1 H2. by rewrite H2.
  - intros r w st1 st2 _ H. by eapply apply_rule_other.
Qed.

(** A pass is the pass over a prefix of the positions followed by the pass
    over the rest. *)
Lemma apply_positions_app rules p1 p2 st :
  apply_positions rasm qmorf rules (p1 ++ p2) st
  = apply_positions rasm qmorf rules p1 st ≫= apply_positions rasm qmorf rules p2.
Proof.
  revert st. induction p1 as [|i p1 IH]; intros st; simpl; [done|].
  destruct (apply_token rasm qmorf rules i st) as [st1|e]; simpl; [apply IH|done].
Qed.

End engine_facts.

(** ** The pass as a whole *)

Section pass_facts.

Context (rasm : str → str) (qmorf : gmap string morf).

(** The state in which the turn of position [i] starts, in a pass that does
    not raise, and the state in which it ends. *)
Lemma apply_rules_turn tokens rules counts st_end i :
  apply_rules rasm qmorf tokens rules counts = Ok st_end →
  i < length tokens →
  ∃ st st',
    apply_positions rasm qmorf rules (seq 0 i) (State tokens counts []) = Ok st
    ∧ apply_token rasm qmorf rules i st = Ok st'.
Proof.
  unfold apply_rules. intros Hrun Hi.
  replace (length tokens) with (i + S (length tokens - S i)) in Hrun by lia.
  rewrite seq_app, apply_positions_app in Hrun. simpl in Hrun.
  destruct (apply_positions rasm qmorf rules (seq 0 i) _) as [st|e]; [|done].
  simpl in Hrun. exists st.
  destruct (apply_token rasm qmorf rules i st) as [st'|e]; [|done].
  by exists st'.
Qed.

(** C9. [apply_rules] changes nothing but the text of tokens: after a pass
    the list has the same length and carries the same indices at the same
    positions, and the turn of position [i] leaves every token other than
    those at [i] and [i+1] as it was. *)
Theorem apply_rules_frame (tokens : list token) (rules : list rule)
    (counts : option counts_t) (st_end : state) :
  apply_rules rasm qmorf tokens rules counts = Ok st_end →
  (snd <$> st_tokens st_end) = (snd <$> tokens)
  ∧ length (st_tokens st_end) = length tokens
  ∧ ∀ i, i < length tokens →
      ∃ st st',
        apply_positions rasm qmorf rules (seq 0 i) (State tokens counts []) = Ok st
        ∧ apply_token rasm qmorf rules i st = Ok st'
        ∧ (snd <$> st_tokens st') = (snd <$> tokens)
        ∧ ∀ j, j ≠ i → j ≠ S i → st_tokens st' !! j = st_tokens st !! j.
Proof.
  intros Hrun.
  assert ((snd <$> st_tokens st_end) = (snd <$> tokens)) as Hind
    by (by apply apply_positions_indices in Hrun).
  split; [done|]. split.
  { rewrite <- (length_fmap snd (st_tokens st_end)), Hind. apply length_fmap. }
  intros i Hi.
  destruct (apply_rules_turn _ _ _ _ _ Hrun Hi) as (st & st' & Hst & Hst').
  exists st, st'. split; [done|]. split; [done|]. split.
  - apply apply_token_indices in Hst'. apply apply_positions_indices in Hst.
    by rewrite Hst', Hst.
  - intros j ? ?. by eapply apply_token_other.
Qed.

End pass_facts.

(** ** Traces *)

Section counts_facts.

Context (qmorf : gmap string morf).
Variable P : string → entry → Prop.

Lemma counts_get_ok id c l :
  Forall (λ it, Forall (P it.1) it.2) c → counts_get id c = Some l → Forall (P id) l.
Proof.
  induction c as [|[k l0] c IH]; simpl; [done|].
  intros Hc. apply Forall_cons in Hc as [Hk Hc]. simpl in Hk.
  case_bool_decide as Heq; [|by apply IH].
  intros [= <-]. by subst k.
Qed.

Lemma counts_set_ok id c l :
  Forall (λ it, Forall (P it.1) it.2) c → Forall (P id) l →
  Forall (λ it, Forall (P it.1) it.2) (counts_set id l c).
Proof.
  intros Hc Hl. induction c as [|[k l0] c IH]; simpl.
  - by apply Forall_singleton.
  - apply Forall_cons in Hc as [Hk Hc]. simpl in Hk.
    case_bool_decide as Heq.
    + subst k. by apply Forall_cons.
    + apply Forall_cons. split; [done|]. by apply IH.
Qed.

Lemma counts_append_ok id e c :
  Forall (λ it, Forall (P it.1) it.2) c → P id e →
  Forall (λ it, Forall (P it.1) it.2) (counts_append id e c).
Proof.
  intros Hc He. unfold counts_append.
  destruct (counts_get id c) as [l|] eqn:Hg.
  - apply counts_set_ok; [done|]. apply Forall_app. split.
    + by eapply counts_get_ok.
    + by apply Forall_singleton.
  - apply counts_set_ok; [done|]. by apply Forall_singleton.
Qed.

Lemma record_count_ok id ind cnt b counts :
  counts_ok P counts → (cnt ≠ 0 → P id (ind, cnt, b)) →
  counts_ok P (record_count id ind cnt b counts).
Proof.
  destruct counts as [c|]; simpl; [|done]. intros Hc He.
  case_bool_decide; [|done]. simpl. apply counts_append_ok; auto.
Qed.

(** A turn that goes past the index sets of its rule. *)
Lemma apply_rule_fired r i w st st' :
  apply_rule qmorf r i w st = Ok st' →
  (∃ printed, st' = with_out st printed)
  ∨ (∃ tok ind printed,
      st_tokens st !! i = Some (tok, ind)
      ∧ (restrict_ind r = [] ∨ ind ∈ restrict_ind r)
      ∧ (ind ∉ except_ind r)
      ∧ st' = apply_within r i (apply_between r i (with_out st printed))).
Proof.
  unfold apply_rule.
  destruct (st_tokens st !! i) as [[tok ind]|] eqn:Hi; [|done].
  destruct (bool_decide (restrict_ind r ≠ []) && bool_decide (ind ∉ restrict_ind r)) eqn:Hr.
  { intros [= <-]. left. exists []. by rewrite with_out_nil. }
  destruct (bool_decide (ind ∈ except_ind r)) eqn:Hex.
  { intros [= <-]. left. exists []. by rewrite with_out_nil. }
  apply bool_decide_eq_false in Hex.
  destruct (pos_filtered qmorf r ind) as [[|]|e]; simpl; [| |done].
  { intros [= <-]. left. exists []. by rewrite with_out_nil. }
  destruct (clitic_check qmorf r ind w) as [[[|] printed]|e]; simpl; [| |done].
  - intros [= <-]. left. by exists printed.
  - intros [= <-]. right. exists tok, ind, printed.
    split; [done|]. split; [|done].
    apply andb_false_iff in Hr as [Hr|Hr]; apply bool_decide_eq_false in Hr.
    + left. by destruct (restrict_ind r); [|exfalso; apply Hr].
    + right. by apply dec_stable.
Qed.

(** The entries a turn of rule [r] adds: one for its boundary part, with the
    count of the substitution at the end of the word, and one for its inside
    part; both under the index of the word. *)
Lemma apply_rule_counts r i w st st' :
  (∀ b cur ind cnt,
     (restrict_ind r = [] ∨ ind ∈ restrict_ind r) →
     between r = Some b →
     cnt = (subn (anchor_end (tok_pre b)) (repl_pre b) cur).2 → cnt ≠ 0 →
     P (id_rule r) (ind, cnt, true)) →
  (∀ ind cnt,
     (restrict_ind r = [] ∨ ind ∈ restrict_ind r) →
     P (id_rule r) (ind, cnt, false)) →
  apply_rule qmorf r i w st = Ok st' →
  counts_ok P (st_counts st) → counts_ok P (st_counts st').
Proof.
  intros Hb Hw Hrun Hok.
  apply apply_rule_fired in Hrun
    as [[printed ->]|(tok & ind & printed & Hi & Hre & _ & ->)]; [done|].
  set (st0 := with_out st printed).
  assert (counts_ok P (st_counts (apply_between r i st0))) as Hok1.
  { unfold apply_between.
    destruct (between r) as [b|] eqn:Hbr; [|done].
    change (st_tokens st0) with (st_tokens st). rewrite Hi.
    destruct (st_tokens st !! S i) as [[next ind']|]; [|done].
    destruct (search _ tok && search _ next); [|done].
    destruct (subn _ _ tok) as [m cnt] eqn:Hs. simpl.
    apply record_count_ok; [done|]. intros Hcnt.
    eapply Hb; [done|done| |done]. by rewrite Hs. }
  assert ((snd <$> st_tokens (apply_between r i st0)) !! i = Some ind) as Hi1.
  { rewrite apply_between_indices. change (st_tokens st0) with (st_tokens st).
    rewrite list_lookup_fmap. by rewrite Hi. }
  rewrite list_lookup_fmap in Hi1.
  unfold apply_within.
  destruct (within r) as [wi|]; [|done].
  destruct (st_tokens (apply_between r i st0) !! i) as [[cur ind1]|]; [|done].
  simpl in Hi1. injection Hi1 as ->.
  destruct (subn _ _ cur) as [m cnt]. simpl.
  apply record_count_ok; [done|]. intros _. by apply Hw.
Qed.

End counts_facts.

Section counts_pass.

Context (rasm : str → str) (qmorf : gmap string morf).
Variable P : string → entry → Prop.

(** An invariant of the entries that every rule of the table keeps is kept
    by the pass. *)
Lemma apply_rules_counts tokens rules counts st' :
  (∀ r b cur ind cnt,
     r ∈ rules → (restrict_ind r = [] ∨ ind ∈ restrict_ind r) →
     between r = Some b →
     cnt = (subn (anchor_end (tok_pre b)) (repl_pre b) cur).2 → cnt ≠ 0 →
     P (id_rule r) (ind, cnt, true)) →
  (∀ r ind cnt,
     r ∈ rules → (restrict_ind r = [] ∨ ind ∈ restrict_ind r) →
     P (id_rule r) (ind, cnt, false)) →
  apply_rules rasm qmorf tokens rules counts = Ok st' →
  counts_ok P counts → counts_ok P (st_counts st').
Proof.
  intros Hb Hw. unfold apply_rules.
  apply (apply_positions_lift rasm qmorf
           (λ st1 st2, counts_ok P (st_counts st1) → counts_ok P (st_counts st2))).
  - done.
  - intros ??? H1 H2 ?. auto.
  - intros r i w st1 st2 Hr. apply apply_rule_counts.
    + intros b cur ind cnt. by apply Hb.
    + intros ind cnt. by apply Hw.
Qed.

End counts_pass.

(** ** The two rule tables *)

Lemma forallb_elem_of {A} (f : A → bool) (l : list A) x :
  forallb f l = true → x ∈ l → f x = true.
Proof. intros H Hx. rewrite forallb_forall in H. apply H. by apply list_elem_of_In. Qed.

Lemma table_boundary_single rules r :
  is_table rules → r ∈ rules → boundary_single r = true.
Proof. intros [->| ->]; apply forallb_elem_of; by vm_compute. Qed.

Lemma table_restricted_inside_only rules r :
  is_table rules → r ∈ rules → restricted_inside_only r = true.
Proof. intros [->| ->]; apply forallb_elem_of; by vm_compute. Qed.

Lemma table_ids_NoDup rules : is_table rules → NoDup (id_rule <$> rules).
Proof. intros [->| ->]; apply (bool_decide_unpack _); by vm_compute. Qed.

(** The two tables have the same ids: every rule of one has its pair in the
    other. *)
Lemma table_ids_paired :
  id_rule <$> REMOVE_SANDHI_RULES ≡ₚ id_rule <$> RESTORE_SANDHI_RULES.
Proof.
  apply NoDup_Permutation.
  - apply table_ids_NoDup. by left.
  - apply table_ids_NoDup. by right.
  - assert ((id_rule <$> REMOVE_SANDHI_RULES) ⊆ (id_rule <$> RESTORE_SANDHI_RULES)) as H1
      by (apply (bool_decide_unpack _); by vm_compute).
    assert ((id_rule <$> RESTORE_SANDHI_RULES) ⊆ (id_rule <$> REMOVE_SANDHI_RULES)) as H2
      by (apply (bool_decide_unpack _); by vm_compute).
    intros id. split; [apply H1|apply H2].
Qed.

Lemma table_min_y_4 rules r :
  is_table rules → r ∈ rules → id_rule r = "min-y-4" →
  restrict_ind r = RESTRICT_INDEXES_MIN_Y_4.
Proof.
  intros Ht Hr Hid.
  set (f := λ r, bool_decide (id_rule r = "min-y-4"
                               → restrict_ind r = RESTRICT_INDEXES_MIN_Y_4)).
  assert (f r = true) as H.
  { revert Hr. destruct Ht as [->| ->]; apply (forallb_elem_of f); by vm_compute. }
  apply bool_decide_eq_true in H. auto.
Qed.

Lemma table_always_consults rules :
  is_table rules → ∃ r, r ∈ rules ∧ always_consults r = true.
Proof.
  intros Ht.
  assert (existsb always_consults rules = true) as H
    by (destruct Ht as [->| ->]; by vm_compute).
  apply existsb_exists in H as (r & Hr & Hc). exists r. split; [|done].
  by apply list_elem_of_In.
Qed.

Lemma RESTRICT_INDEXES_MIN_Y_4_NoDup : NoDup RESTRICT_INDEXES_MIN_Y_4.
Proof. apply (bool_decide_unpack _). by vm_compute. Qed.

Lemma NoDup_fmap_eq {A B} `{EqDecision B} (f : A → B) (l : list A) x y :
  NoDup (f <$> l) → x ∈ l → y ∈ l → f x = f y → x = y.
Proof.
  induction l as [|a l IH]; simpl; intros Hnd Hx Hy Heq.
  - by apply elem_of_nil in Hx.
  - apply NoDup_cons in Hnd as [Ha Hnd].
    apply elem_of_cons in Hx as [->|Hx]; apply elem_of_cons in Hy as [->|Hy].
    + done.
    + exfalso. apply Ha. rewrite Heq. by apply list_elem_of_fmap_2.
    + exfalso. apply Ha. rewrite <- Heq. by apply list_elem_of_fmap_2.
    + by apply IH.
Qed.

(** ** Traces and index sets in a pass *)

Section pass_traces.

Context (rasm : str → str) (qmorf : gmap string morf).

(** C10. In a pass of either rule table every boundary entry of the sink has
    the count 1: the entries that the pass adds are boundary entries of a
    pattern anchored at the end of the word, which is replaced exactly once
    when an entry is recorded. *)
Theorem boundary_entries_count_one (rules : list rule) (tokens : list token)
    (counts : counts_t) (st' : state) (counts' : counts_t) :
  is_table rules →
  apply_rules rasm qmorf tokens rules (Some counts) = Ok st' →
  (∀ id l ind cnt, (id, l) ∈ counts → (ind, cnt, true) ∈ l → cnt = 1) →
  st_counts st' = Some counts' →
  ∀ id l ind cnt, (id, l) ∈ counts' → (ind, cnt, true) ∈ l → cnt = 1.
Proof.
  intros Ht Hrun H0 Hc'.
  set (P := λ (_ : string) (e : entry), e.2 = true → e.1.2 = 1).
  assert (counts_ok P (st_counts st')) as Hok.
  { eapply (apply_rules_counts rasm qmorf P); [| |exact Hrun|].
    - intros r b cur ind cnt Hr _ Hb -> Hcnt _. simpl.
      pose proof (table_boundary_single rules r Ht Hr) as Hs.
      unfold boundary_single in Hs. rewrite Hb in Hs.
      pose proof (subn_anchor_end_count (tok_pre b) (repl_pre b) cur Hs). lia.
    - intros r ind cnt _ _. unfold P. simpl. done.
    - simpl. apply Forall_forall. intros [id l] Hid. simpl.
      apply Forall_forall. intros [[ind cnt] b] He. unfold P. simpl.
      intros ->. by eapply H0. }
  rewrite Hc' in Hok. simpl in Hok.
  intros id l ind cnt Hid He.
  rewrite Forall_forall in Hok. specialize (Hok _ Hid). simpl in Hok.
  rewrite Forall_forall in Hok. by apply (Hok _ He).
Qed.

Lemma counts_init_ok P rules : counts_ok P (Some (counts_init rules)).
Proof.
  simpl. unfold counts_init.
  assert (∀ c : counts_t, Forall (λ it, Forall (P it.1) it.2) c →
            Forall (λ it, Forall (P it.1) it.2)
                   (foldl (λ c r, counts_set (id_rule r) [] c) c rules)) as H.
  { induction rules as [|r rules IH]; intros c Hc; simpl; [done|].
    apply IH. by apply counts_set_ok. }
  by apply H.
Qed.

(** C3, as amended. A rule of either table with a non-empty [RestrictIndexes]
    set is skipped at a word whose index is outside the set, the turn leaving
    the state as it is; such a rule has no boundary part, so a pass of the
    rule alone leaves every token with an index outside the set as it was;
    in a pass of the whole table every entry recorded under the id of the
    rule carries an index of the set; and the set of rule [min-y-4] has 16
    indices. *)
Theorem restricted_rule_fires_inside_set (rules : list rule) (r : rule) :
  is_table rules → r ∈ rules → restrict_ind r ≠ [] →
  (∀ i w st tok ind,
     st_tokens st !! i = Some (tok, ind) → ind ∉ restrict_ind r →
     apply_rule qmorf r i w st = Ok st)
  ∧ (∀ tokens counts st' j tok ind,
       apply_rules rasm qmorf tokens [r] counts = Ok st' →
       tokens !! j = Some (tok, ind) → ind ∉ restrict_ind r →
       st_tokens st' !! j = Some (tok, ind))
  ∧ (∀ tokens st' counts' l ind cnt b,
       apply_rules rasm qmorf tokens rules (Some (counts_init rules)) = Ok st' →
       st_counts st' = Some counts' →
       (id_rule r, l) ∈ counts' → (ind, cnt, b) ∈ l → ind ∈ restrict_ind r)
  ∧ (id_rule r = "min-y-4" →
     restrict_ind r = RESTRICT_INDEXES_MIN_Y_4
     ∧ NoDup (restrict_ind r) ∧ length (restrict_ind r) = 16).
Proof.
  intros Ht Hr Hne. split; [|split; [|split]].
  - intros i w st tok ind Hi Hout. unfold apply_rule. rewrite Hi.
    rewrite (bool_decide_eq_true_2 _ Hne), (bool_decide_eq_true_2 _ Hout). done.
  - intros tokens counts st' j tok ind Hrun.
    pose proof (table_restricted_inside_only rules r Ht Hr) as Hin.
    unfold restricted_inside_only in Hin.
    assert (between r = None) as Hb.
    { destruct (restrict_ind r); [done|]. by destruct (between r). }
    revert j tok ind. unfold apply_rules in Hrun. revert Hrun.
    apply (apply_positions_lift rasm qmorf
             (λ st1 st2, ∀ j tok ind, st_tokens st1 !! j = Some (tok, ind) →
                           ind ∉ restrict_ind r → st_tokens st2 !! j = Some (tok, ind))).
    + done.
    + intros st1 st2 st3 H1 H2 j tok ind Hj Hout. apply H2; [|done]. by apply H1.
    + intros r' i w st1 st2 Hr'. apply list_elem_of_singleton in Hr'. subst r'.
      intros Hstep j tok ind Hj Hout.
      apply apply_rule_fired in Hstep
        as [[printed ->]|(tok' & ind' & printed & Hi & Hre & _ & ->)]; [done|].
      rewrite apply_between_None by done.
      destruct Hre as [Hre|Hre]; [done|].
      rewrite apply_within_other; [done|].
      intros ->. simpl in Hi. rewrite Hj in Hi. injection Hi as <- <-. done.
  - intros tokens st' counts' l ind cnt b Hrun Hc' Hl He.
    set (P := λ (id : string) (e : entry),
                ∀ r0, r0 ∈ rules → id_rule r0 = id → restrict_ind r0 ≠ [] →
                      e.1.1 ∈ restrict_ind r0).
    assert (counts_ok P (st_counts st')) as Hok.
    { eapply (apply_rules_counts rasm qmorf P); [| |exact Hrun|apply counts_init_ok].
      - intros r1 b1 cur ind1 cnt1 Hr1 Hre _ _ _ r0 Hr0 Hid Hne0. simpl.
        assert (r0 = r1) as -> by
          (eapply (NoDup_fmap_eq id_rule); [by apply table_ids_NoDup|done|done|done]).
        by destruct Hre.
      - intros r1 ind1 cnt1 Hr1 Hre r0 Hr0 Hid Hne0. simpl.
        assert (r0 = r1) as -> by
          (eapply (NoDup_fmap_eq id_rule); [by apply table_ids_NoDup|done|done|done]).
        by destruct Hre. }
    rewrite Hc' in Hok. simpl in Hok.
    rewrite Forall_forall in Hok. specialize (Hok _ Hl). simpl in Hok.
    rewrite Forall_forall in Hok. by apply (Hok _ He r).
  - intros Hid. rewrite (table_min_y_4 rules r Ht Hr Hid).
    split; [done|]. split; [apply RESTRICT_INDEXES_MIN_Y_4_NoDup|done].
Qed.

End pass_traces.

(** ** Literal patterns at a word boundary *)

Section literal_boundary.

Implicit Types (s pre rest cs : str) (a b : char).

Lemma expand_lit cs s (c : caps) : expand (lit cs) s c = cs.
Proof.
  unfold expand, lit. induction cs as [|x cs IH]; [done|].
  csimpl. by rewrite IH.
Qed.

Lemma matches_chr_eol a s pos :
  matches (Seq (Chr a) Eol) s pos []
  = if bool_decide (s !! pos = Some a) && at_end s (S pos) then [(S pos, [])] else [].
Proof.
  simpl. destruct (s !! pos) as [x|] eqn:Hx.
  - case_bool_decide as Hxa.
    + subst x. rewrite bool_decide_eq_true_2 by done. simpl.
      destruct (at_end s (S pos)); done.
    + rewrite bool_decide_eq_false_2 by congruence. done.
  - by rewrite bool_decide_eq_false_2.
Qed.

(** In a word that ends in [a], the pattern [a$] matches at the last
    position only. *)
Lemma matches_chr_eol_last a pre pos :
  a ≠ newline →
  matches (Seq (Chr a) Eol) (pre ++ [a]) pos []
  = if bool_decide (pos = length pre) then [(S pos, [])] else [].
Proof.
  intros Ha. rewrite matches_chr_eol.
  destruct (decide (pos = length pre)) as [->|Hne].
  - rewrite list_lookup_middle by done.
    rewrite !bool_decide_eq_true_2 by done. simpl.
    replace (at_end (pre ++ [a]) (S (length pre))) with true; [done|].
    symmetry. apply at_end_spec. left. rewrite length_app. simpl. lia.
  - rewrite (bool_decide_eq_false_2 (pos = length pre)) by done.
    destruct (bool_decide (_ !! pos = Some a)) eqn:Hx; [|done]. simpl.
    apply bool_decide_eq_true in Hx. apply lookup_lt_Some in Hx as Hlt.
    rewrite length_app in Hlt. simpl in Hlt.
    replace (at_end (pre ++ [a]) (S pos)) with false; [done|].
    symmetry. apply not_true_is_false. rewrite at_end_spec.
    rewrite length_app. simpl. intros [?|[? Hnl]]; [lia|].
    assert (S pos = length pre) as Heq by lia.
    rewrite Heq, list_lookup_middle in Hnl by done. congruence.
Qed.

Lemma search_chr_eol a pre :
  a ≠ newline → search (Seq (Chr a) Eol) (pre ++ [a]) = true.
Proof.
  intros Ha. unfold search. apply bool_decide_eq_true.
  exists (length pre, S (length pre), []).
  apply search_from_first with (l := []).
  - rewrite length_app. simpl. lia.
  - intros j Hj. rewrite matches_chr_eol_last by done.
    rewrite bool_decide_eq_false_2; [done|lia].
  - rewrite matches_chr_eol_last by done. by rewrite bool_decide_eq_true_2.
  - lia.
Qed.

(** [re.subn('a$', cs, pre + 'a')] is [(pre + cs, 1)]. *)
Lemma subn_chr_eol a pre cs :
  a ≠ newline →
  subn (Seq (Chr a) Eol) (lit cs) (pre ++ [a]) = (pre ++ cs, 1).
Proof.
  intros Ha. unfold subn.
  replace (2 * length (pre ++ [a]) + 2) with (S (S (2 * length (pre ++ [a])))) by lia.
  cbn [subn_loop].
  rewrite (search_from_first _ _ _ 0 false (length pre) (S (length pre)) [] []).
  2: { rewrite length_app. simpl. lia. }
  2: { intros j Hj. rewrite matches_chr_eol_last by done.
       rewrite bool_decide_eq_false_2; [done|lia]. }
  2: { rewrite matches_chr_eol_last by done. by rewrite bool_decide_eq_true_2. }
  2: lia.
  rewrite search_from_None.
  2: { intros b2 Hb2. rewrite matches_chr_eol_last by done.
       rewrite bool_decide_eq_false_2; [done|lia]. }
  rewrite expand_lit, Nat.sub_0_r, drop_0, take_app_length, app_nil_l.
  replace (S (length pre)) with (length (pre ++ [a])) by (rewrite length_app; simpl; lia).
  by rewrite drop_all, app_nil_r.
Qed.

Lemma matches_bol_chr b s pos :
  matches (Seq Bol (Chr b)) s pos []
  = if bool_decide (pos = 0) && bool_decide (s !! 0 = Some b) then [(1, [])] else [].
Proof.
  simpl. case_bool_decide as Hp; [|done]. subst pos. simpl.
  destruct (s !! 0) as [x|]; [|by rewrite bool_decide_eq_false_2].
  case_bool_decide as Hx.
  - subst x. by rewrite bool_decide_eq_true_2.
  - rewrite bool_decide_eq_false_2 by congruence. done.
Qed.

Lemma search_bol_chr b rest : search (Seq Bol (Chr b)) (b :: rest) = true.
Proof.
  unfold search. apply bool_decide_eq_true. exists (0, 1, []).
  apply search_from_first with (l := []); [lia| intros; lia | | lia].
  by rewrite matches_bol_chr, !bool_decide_eq_true_2.
Qed.

(** [re.sub('^b', 'b', 'b' + rest)] is the word itself. *)
Lemma sub_bol_chr_same b rest :
  sub (Seq Bol (Chr b)) (lit [b]) (b :: rest) = b :: rest.
Proof.
  unfold sub, subn.
  replace (2 * length (b :: rest) + 2) with (S (S (2 * length (b :: rest)))) by lia.
  cbn [subn_loop].
  rewrite (search_from_first _ _ _ 0 false 0 1 [] []);
    [|lia|intros; lia|by rewrite matches_bol_chr, !bool_decide_eq_true_2|lia].
  rewrite search_from_None.
  2: { intros b2 Hb2. rewrite matches_bol_chr.
       rewrite (bool_decide_eq_false_2 (b2 = 0)); [done|lia]. }
  by rewrite expand_lit.
Qed.

End literal_boundary.

Section rule_M1.

Context (qmorf : gmap string morf).

(** A rule other than [HU] and [HI] goes through the clitic check. *)
Lemma clitic_check_other r ind w :
  id_rule r ∉ ["HU"; "HI"] → clitic_check qmorf r ind w = Ok (false, []).
Proof.
  intros Hid. unfold clitic_check.
  rewrite (bool_decide_eq_false_2 (id_rule r ∈ _)) by done.
  by rewrite andb_false_r.
Qed.

(** C4. Where the word at position [i] ends in meem and the next word begins
    with beh, the turn of removal rule [M1] rewrites the final meem into
    meem and sukun, records one boundary match, and leaves the next word, and
    every other word, as it was. *)
Theorem removal_M1_literal (r : rule) (i : nat) (w : str) (st : state)
    (pre : str) (ind : index) (rest : str) (ind_next : index) :
  rule_by_id "M1" REMOVE_SANDHI_RULES = Some r →
  st_tokens st !! i = Some (pre ++ [ar_meem], ind) →
  st_tokens st !! S i = Some (ar_beh :: rest, ind_next) →
  ∃ st',
    apply_rule qmorf r i w st = Ok st'
    ∧ st_tokens st' = <[i := (pre ++ [ar_meem; ar_quranic_sukun], ind)]> (st_tokens st)
    ∧ st_tokens st' !! i = Some (pre ++ [ar_meem; ar_quranic_sukun], ind)
    ∧ st_tokens st' !! S i = Some (ar_beh :: rest, ind_next)
    ∧ st_counts st' = record_count "M1" ind 1 true (st_counts st)
    ∧ st_out st' = st_out st.
Proof.
  intros Hr Hi Hs.
  assert (r = Rule "M1"
                (Some (Boundary (Chr ar_meem) (Chr ar_beh)
                         (lit [ar_meem; ar_quranic_sukun]) (Some (lit [ar_beh]))))
                None None [] [] [] []) as -> by (by injection Hr as <-).
  exists (State (<[i := (pre ++ [ar_meem; ar_quranic_sukun], ind)]> (st_tokens st))
                (record_count "M1" ind 1 true (st_counts st)) (st_out st)).
  split; [|split; [done|split; [|split; [|done]]]].
  - unfold apply_rule. rewrite Hi. cbn [restrict_ind except_ind].
    rewrite (bool_decide_eq_false_2 ([] ≠ [])) by (intros H; by apply H).
    rewrite (bool_decide_eq_false_2 (ind ∈ [])) by apply not_elem_of_nil.
    cbn [andb]. unfold pos_filtered. cbn [FILTER_POS mbind result_bind mret result_ret].
    rewrite clitic_check_other by (by apply (bool_decide_unpack _)).
    cbn [mbind result_bind mret result_ret]. f_equal.
    unfold apply_within. cbn [within].
    unfold apply_between.
    cbn [between tok_pre tok_post repl_pre repl_post anchor_end anchor_start
         st_tokens st_counts st_out id_rule].
    rewrite Hi, Hs.
    rewrite search_chr_eol, search_bol_chr by done. cbn [andb].
    rewrite (subn_chr_eol ar_meem pre [ar_meem; ar_quranic_sukun]) by done.
    rewrite sub_bol_chr_same. cbn [lit fmap list_fmap].
    rewrite (list_insert_id (st_tokens st) (S i)) by done.
    by rewrite app_nil_r.
  - simpl. apply list_lookup_insert_eq. by eapply lookup_lt_Some.
  - simpl. rewrite list_lookup_insert_ne by lia. done.
Qed.

End rule_M1.

(** ** The morphological table in a turn *)

Section morf_facts.

Context (rasm : str → str) (qmorf : gmap string morf).

Lemma any_last_heh_total rs :
  [] ∉ rs →
  any_last_heh rs = Ok (existsb (λ r, bool_decide (last_char r = Some ar_heh)) rs).
Proof.
  induction rs as [|r rs IH]; intros Hne; simpl; [done|].
  apply not_elem_of_cons in Hne as [Hr Hrs].
  unfold last_char in *. destruct (last r) as [x|] eqn:Hl.
  - case_bool_decide as Hx.
    + subst x. by rewrite bool_decide_eq_true_2.
    + rewrite bool_decide_eq_false_2 by congruence. simpl. by apply IH.
  - apply last_None in Hl. congruence.
Qed.

(** What the clitic check answers for [HU] and [HI] at an index that is not
    forced: the rule is skipped when some root holds the heh and the
    skeleton of the word does not end in two hehs. Lines are printed at
    index 2:237:21 only. *)
Lemma clitic_check_HU_HI r ind w m :
  id_rule r ∈ ["HU"; "HI"] → ind ∉ force_ind r →
  qmorf !! ind_key ind = Some m → [] ∉ roots m →
  ∃ printed,
    clitic_check qmorf r ind w = Ok (root_holds_heh m && not_double_heh w, printed)
    ∧ (ind ≠ (2, 237, 21)%Z → printed = [])
    ∧ (root_holds_heh m && not_double_heh w = false → printed = []).
Proof.
  intros Hid Hf Hm Hroots. unfold clitic_check, lookup_morf.
  rewrite (bool_decide_eq_true_2 _ Hf), (bool_decide_eq_true_2 _ Hid), Hm.
  cbn [andb mbind result_bind mret result_ret].
  rewrite any_last_heh_total by done.
  unfold root_holds_heh.
  set (h := existsb _ (roots m)). set (y := any_last2_heh_yeh (roots m)).
  set (d := not_double_heh w).
  assert ((if bool_decide (roots m ≠ [])
           then h0 ← Ok h; mret (h0 && d) else mret false) = Ok (h && d)) as ->.
  { destruct (roots m) as [|r0 rs] eqn:Hr; [done|].
    by rewrite bool_decide_eq_true_2. }
  cbn [mbind result_bind mret result_ret].
  destruct h, y, d; simpl;
    (eexists; split; [reflexivity|]; split; [|done]);
    intros Hne; try done; by rewrite bool_decide_eq_false_2.
Qed.

(** C5, as amended. The clitic check concerns the rules [HU] and [HI] only,
    and only at an index outside [ForceIndexes]: any other rule, and either
    of the two at a forced index, is applied without it. For the two rules
    at an unforced index the rule is skipped exactly when the skeleton of the
    word does not end in two hehs and some root of the word ends in heh, or
    has heh and yeh as its last two letters. *)
Theorem clitic_suppression (r : rule) (i : nat) (w : str) (st : state)
    (tok : str) (ind : index) :
  st_tokens st !! i = Some (tok, ind) →
  (restrict_ind r = [] ∨ ind ∈ restrict_ind r) →
  ind ∉ except_ind r →
  pos_filtered qmorf r ind = Ok false →
  ((id_rule r ∉ ["HU"; "HI"] ∨ ind ∈ force_ind r) →
   apply_rule qmorf r i w st = Ok (apply_within r i (apply_between r i st)))
  ∧ (id_rule r ∈ ["HU"; "HI"] → ind ∉ force_ind r →
     ∀ m, qmorf !! ind_key ind = Some m → [] ∉ roots m →
     ∃ printed,
       apply_rule qmorf r i w st
       = Ok (if root_holds_heh m && not_double_heh w
             then with_out st printed
             else apply_within r i (apply_between r i st))
       ∧ (ind ≠ (2, 237, 21)%Z → printed = [])).
Proof.
  intros Hi Hre Hex Hpos.
  assert (bool_decide (restrict_ind r ≠ []) && bool_decide (ind ∉ restrict_ind r) = false)
    as Hg1.
  { destruct Hre as [->|Hin].
    - by rewrite (bool_decide_eq_false_2 ([] ≠ [])) by (intros H; by apply H).
    - rewrite (bool_decide_eq_false_2 (ind ∉ _)) by (intros H; by apply H).
      apply andb_false_r. }
  split.
  - intros Hno. unfold apply_rule. rewrite Hi, Hg1.
    rewrite (bool_decide_eq_false_2 _ Hex), Hpos.
    cbn [mbind result_bind mret result_ret].
    assert (clitic_check qmorf r ind w = Ok (false, [])) as ->.
    { destruct Hno as [Hid|Hf]; [by apply clitic_check_other|].
      unfold clitic_check. rewrite (bool_decide_eq_false_2 (ind ∉ _)); [done|].
      intros H. by apply H. }
    cbn [mbind result_bind mret result_ret].
    change (State (st_tokens st) (st_counts st) (st_out st ++ [])) with (with_out st []).
    by rewrite with_out_nil.
  - intros Hid Hf m Hm Hroots.
    destruct (clitic_check_HU_HI r ind w m Hid Hf Hm Hroots)
      as (printed & Hchk & Hpr & Hno).
    exists printed. split; [|done].
    unfold apply_rule. rewrite Hi, Hg1.
    rewrite (bool_decide_eq_false_2 _ Hex), Hpos.
    cbn [mbind result_bind mret result_ret]. rewrite Hchk.
    cbn [mbind result_bind mret result_ret].
    destruct (root_holds_heh m && not_double_heh w); [done|].
    rewrite Hno by done.
    change (State (st_tokens st) (st_counts st) (st_out st ++ [])) with (with_out st []).
    by rewrite with_out_nil.
Qed.

(** *** A missing record *)

Lemma pos_filtered_absent r ind :
  qmorf !! ind_key ind = None →
  pos_filtered qmorf r ind = Ok false
  ∨ pos_filtered qmorf r ind = Err (KeyError (ind_key ind)).
Proof.
  intros Hm. unfold pos_filtered, lookup_morf. rewrite Hm.
  destruct (FILTER_POS r) as [p|]; [|by left].
  destruct (bool_decide (p = "")); [by left|by right].
Qed.

Lemma clitic_check_absent r ind w :
  qmorf !! ind_key ind = None →
  clitic_check qmorf r ind w = Ok (false, [])
  ∨ clitic_check qmorf r ind w = Err (KeyError (ind_key ind)).
Proof.
  intros Hm. unfold clitic_check, lookup_morf. rewrite Hm.
  destruct (_ && _); [by right|by left].
Qed.

(** With no record for the word, a turn goes through or raises the
    [KeyError] of the word. *)
Lemma apply_rule_absent r i w st tok ind :
  st_tokens st !! i = Some (tok, ind) → qmorf !! ind_key ind = None →
  (∃ st', apply_rule qmorf r i w st = Ok st')
  ∨ apply_rule qmorf r i w st = Err (KeyError (ind_key ind)).
Proof.
  intros Hi Hm. unfold apply_rule. rewrite Hi.
  destruct (_ && _); [left; by eexists|].
  destruct (bool_decide (ind ∈ except_ind r)); [left; by eexists|].
  destruct (pos_filtered_absent r ind Hm) as [-> | ->]; [|by right].
  cbn [mbind result_bind].
  destruct (clitic_check_absent r ind w Hm) as [-> | ->]; [|by right].
  left. by eexists.
Qed.

Lemma apply_rule_consults r i w st tok ind :
  st_tokens st !! i = Some (tok, ind) → qmorf !! ind_key ind = None →
  always_consults r = true →
  apply_rule qmorf r i w st = Err (KeyError (ind_key ind)).
Proof.
  intros Hi Hm Hc. unfold apply_rule. rewrite Hi.
  unfold always_consults in Hc.
  destruct (restrict_ind r); [|done]. destruct (except_ind r); [|done].
  destruct (FILTER_POS r) as [p|] eqn:Hp; [|done].
  apply bool_decide_eq_true in Hc.
  rewrite (bool_decide_eq_false_2 ([] ≠ [])) by (intros H; by apply H).
  rewrite (bool_decide_eq_false_2 (ind ∈ [])) by apply not_elem_of_nil.
  cbn [andb]. unfold pos_filtered, lookup_morf. rewrite Hp, Hm.
  by rewrite (bool_decide_eq_false_2 (p = "")).
Qed.

Lemma apply_rules_at_absent rules i w st tok ind :
  st_tokens st !! i = Some (tok, ind) → qmorf !! ind_key ind = None →
  (∃ r, r ∈ rules ∧ always_consults r = true) →
  apply_rules_at qmorf rules i w st = Err (KeyError (ind_key ind)).
Proof.
  revert st tok. induction rules as [|r rules IH]; intros st tok Hi Hm (r0 & Hr0 & Hc).
  { by apply elem_of_nil in Hr0. }
  simpl.
  destruct (apply_rule_absent r i w st tok ind Hi Hm) as [[st1 H1]| ->]; [|done].
  rewrite H1. cbn [mbind result_bind].
  apply elem_of_cons in Hr0 as [->|Hr0].
  { by rewrite (apply_rule_consults r i w st tok ind) in H1. }
  assert ((snd <$> st_tokens st1) !! i = Some ind) as Hi1.
  { rewrite (apply_rule_indices qmorf _ _ _ _ _ H1), list_lookup_fmap. by rewrite Hi. }
  rewrite list_lookup_fmap in Hi1.
  destruct (st_tokens st1 !! i) as [[tok1 ind1]|] eqn:Hl; [|done].
  simpl in Hi1. injection Hi1 as ->.
  eapply IH; [done|done|]. by exists r0.
Qed.

(** With a record whose roots are not empty, a turn does not raise. *)
Lemma apply_rule_present r i w st tok ind m :
  st_tokens st !! i = Some (tok, ind) →
  qmorf !! ind_key ind = Some m → [] ∉ roots m →
  ∃ st', apply_rule qmorf r i w st = Ok st'.
Proof.
  intros Hi Hm Hroots. unfold apply_rule. rewrite Hi.
  destruct (_ && _); [by eexists|].
  destruct (bool_decide (ind ∈ except_ind r)); [by eexists|].
  assert (∃ b, pos_filtered qmorf r ind = Ok b) as [b ->].
  { unfold pos_filtered, lookup_morf. rewrite Hm.
    destruct (FILTER_POS r); [|by eexists]. case_bool_decide; by eexists. }
  cbn [mbind result_bind]. destruct b; [by eexists|].
  assert (∃ chk, clitic_check qmorf r ind w = Ok chk) as [[s printed] ->].
  { unfold clitic_check, lookup_morf. rewrite Hm.
    destruct (_ && _); [|by eexists].
    cbn [mbind result_bind mret result_ret].
    rewrite any_last_heh_total by done.
    destruct (bool_decide (roots m ≠ [])); cbn [mbind result_bind mret result_ret];
      repeat (match goal with |- context [if ?c then _ else _] => destruct c end);
      by eexists. }
  cbn [mbind result_bind]. destruct s; by eexists.
Qed.

Lemma apply_token_present rules i st :
  has_record qmorf (snd <$> st_tokens st) i →
  ∃ st', apply_token rasm qmorf rules i st = Ok st'.
Proof.
  intros (ind & m & Hi & Hm & Hroots). unfold apply_token.
  rewrite list_lookup_fmap in Hi.
  destruct (st_tokens st !! i) as [[tok ind0]|] eqn:Hl; [|done].
  simpl in Hi. injection Hi as ->.
  generalize (rasm tok). intros w. revert st tok Hl.
  induction rules as [|r rules IH]; intros st tok Hl; simpl; [by eexists|].
  destruct (apply_rule_present r i w st tok ind m Hl Hm Hroots) as [st1 H1].
  rewrite H1. cbn [mbind result_bind].
  assert ((snd <$> st_tokens st1) !! i = Some ind) as Hi1.
  { rewrite (apply_rule_indices qmorf _ _ _ _ _ H1), list_lookup_fmap. by rewrite Hl. }
  rewrite list_lookup_fmap in Hi1.
  destruct (st_tokens st1 !! i) as [[tok1 ind1]|] eqn:Hl1; [|done].
  simpl in Hi1. injection Hi1 as ->. by eapply IH.
Qed.

Lemma apply_positions_present rules positions st :
  (∀ k, k ∈ positions → has_record qmorf (snd <$> st_tokens st) k) →
  ∃ st', apply_positions rasm qmorf rules positions st = Ok st'.
Proof.
  revert st. induction positions as [|i positions IH]; intros st Hall; simpl.
  { by eexists. }
  destruct (apply_token_present rules i st) as [st1 H1].
  { apply Hall, list_elem_of_here. }
  rewrite H1. cbn [mbind result_bind]. apply IH.
  intros k Hk. rewrite (apply_token_indices rasm qmorf _ _ _ _ H1).
  apply Hall. by apply list_elem_of_further.
Qed.

(** C8. In a pass of either rule table a word without a record in the
    morphological table aborts the pass: the table has a rule with a POS
    filter that is tried at every word. When every earlier word has a
    record (with roots that are not empty), the pass raises the [KeyError]
    of the key of that word. *)
Theorem absent_index_aborts (rules : list rule) (tokens : list token)
    (counts : option counts_t) (j : nat) (tok : str) (ind : index) :
  is_table rules →
  tokens !! j = Some (tok, ind) →
  qmorf !! ind_key ind = None →
  (∃ e, apply_rules rasm qmorf tokens rules counts = Err e)
  ∧ ((∀ k, k < j → has_record qmorf (snd <$> tokens) k) →
     apply_rules rasm qmorf tokens rules counts = Err (KeyError (ind_key ind))).
Proof.
  intros Ht Hj Hm.
  assert (j < length tokens) as Hlt by (by eapply lookup_lt_Some).
  assert (∀ st, apply_positions rasm qmorf rules (seq 0 j) (State tokens counts []) = Ok st →
            apply_token rasm qmorf rules j st = Err (KeyError (ind_key ind))) as Hturn.
  { intros st Hst. apply apply_positions_indices in Hst. simpl in Hst.
    assert ((snd <$> st_tokens st) !! j = Some ind) as Hj1.
    { rewrite Hst, list_lookup_fmap. by rewrite Hj. }
    rewrite list_lookup_fmap in Hj1. unfold apply_token.
    destruct (st_tokens st !! j) as [[tok1 ind1]|] eqn:Hl; [|done].
    simpl in Hj1. injection Hj1 as ->.
    eapply apply_rules_at_absent; [done|done|]. by apply table_always_consults. }
  unfold apply_rules.
  replace (length tokens) with (j + S (length tokens - S j)) by lia.
  rewrite seq_app, apply_positions_app. simpl. split.
  - destruct (apply_positions rasm qmorf rules (seq 0 j) _) as [st|e] eqn:Hst.
    + cbn [mbind result_bind]. rewrite (Hturn st) by done. by eexists.
    + by eexists.
  - intros Hall.
    destruct (apply_positions_present rules (seq 0 j) (State tokens counts [])) as [st Hst].
    { intros k Hk. apply Hall. apply elem_of_seq in Hk. lia. }
    rewrite Hst. cbn [mbind result_bind]. by rewrite (Hturn st).
Qed.

End morf_facts.

(** ** The evaluation run *)

Section eval_facts.

Context (rasm : str → str) (qmorf : gmap string morf).

Lemma clitic_check_printed r ind w s printed :
  clitic_check qmorf r ind w = Ok (s, printed) → Forall is_root_diff printed.
Proof.
  unfold clitic_check. destruct (_ && _); [|by intros [= <- <-]].
  destruct (lookup_morf qmorf (ind_key ind)) as [m|e]; [|done].
  cbn [mbind result_bind].
  destruct (if bool_decide (roots m ≠ []) then _ else _) as [c1|e]; [|done].
  cbn [mbind result_bind mret result_ret].
  destruct c1; [|destruct (_ && _)]; intros [= <- <-];
    try case_bool_decide; repeat constructor.
Qed.

Lemma apply_rule_out r i w st st' :
  apply_rule qmorf r i w st = Ok st' →
  ∃ printed, st_out st' = st_out st ++ printed ∧ Forall is_root_diff printed.
Proof.
  unfold apply_rule.
  destruct (st_tokens st !! i) as [[tok ind]|]; [|done].
  destruct (_ && _).
  { intros [= <-]. exists []. by rewrite app_nil_r. }
  destruct (bool_decide (ind ∈ except_ind r)).
  { intros [= <-]. exists []. by rewrite app_nil_r. }
  destruct (pos_filtered qmorf r ind) as [[|]|e]; cbn [mbind result_bind]; [| |done].
  { intros [= <-]. exists []. by rewrite app_nil_r. }
  destruct (clitic_check qmorf r ind w) as [[s printed]|e] eqn:Hc;
    cbn [mbind result_bind]; [|done].
  apply clitic_check_printed in Hc.
  destruct s; intros [= <-]; exists printed.
  - done.
  - by rewrite apply_within_out, apply_between_out.
Qed.

(** A rule pass prints lines of the root check only. *)
Lemma apply_rules_out tokens rules counts st' :
  apply_rules rasm qmorf tokens rules counts = Ok st' → Forall is_root_diff (st_out st').
Proof.
  unfold apply_rules. intros Hrun.
  cut (Forall is_root_diff (st_out (State tokens counts [])) →
       Forall is_root_diff (st_out st')); [by auto|].
  revert Hrun.
  apply (apply_positions_lift rasm qmorf
           (λ st1 st2, Forall is_root_diff (st_out st1) → Forall is_root_diff (st_out st2))).
  - done.
  - auto.
  - intros r i w st1 st2 _ Hstep H1.
    apply apply_rule_out in Hstep as (printed & -> & Hp). by apply Forall_app.
Qed.

(** *** The keys of the sink *)

Lemma counts_set_keys id l (c : counts_t) :
  id ∈ fst <$> c → fst <$> counts_set id l c = fst <$> c.
Proof.
  induction c as [|[k l0] c IH]; simpl; intros Hin.
  - by apply elem_of_nil in Hin.
  - case_bool_decide as Hk; [done|].
    apply elem_of_cons in Hin as [->|Hin]; [done|].
    simpl. f_equal. by apply IH.
Qed.

Lemma record_count_keys id ind cnt b counts :
  id ∈ counts_keys counts →
  counts_keys (record_count id ind cnt b counts) = counts_keys counts.
Proof.
  unfold counts_keys. destruct counts as [c|]; simpl; [|done]. intros Hin.
  case_bool_decide; [|done]. simpl. unfold counts_append.
  destruct (counts_get id c); by apply counts_set_keys.
Qed.

Lemma record_count_is_Some id ind cnt b counts :
  is_Some counts → is_Some (record_count id ind cnt b counts).
Proof.
  intros [c ->]. simpl. case_bool_decide; by eexists.
Qed.

Lemma apply_between_keys r i st :
  id_rule r ∈ counts_keys (st_counts st) →
  counts_keys (st_counts (apply_between r i st)) = counts_keys (st_counts st)
  ∧ (is_Some (st_counts st) → is_Some (st_counts (apply_between r i st))).
Proof.
  intros Hin. unfold apply_between.
  destruct (between r) as [b|]; [|done].
  destruct (st_tokens st !! i) as [[cur ind]|]; [|done].
  destruct (st_tokens st !! S i) as [[next ind']|]; [|done].
  destruct (search _ cur && search _ next); [|done].
  destruct (subn _ _ cur) as [m cnt]. simpl. split.
  - by apply record_count_keys.
  - apply record_count_is_Some.
Qed.

Lemma apply_within_keys r i st :
  id_rule r ∈ counts_keys (st_counts st) →
  counts_keys (st_counts (apply_within r i st)) = counts_keys (st_counts st)
  ∧ (is_Some (st_counts st) → is_Some (st_counts (apply_within r i st))).
Proof.
  intros Hin. unfold apply_within.
  destruct (within r) as [w|]; [|done].
  destruct (st_tokens st !! i) as [[cur ind]|]; [|done].
  destruct (subn _ _ cur) as [m cnt]. simpl. split.
  - by apply record_count_keys.
  - apply record_count_is_Some.
Qed.

(** A pass over a sink that has a key for every rule of the table keeps the
    keys, and their order. *)
Lemma apply_rules_keys tokens rules counts st' :
  (∀ r, r ∈ rules → id_rule r ∈ counts_keys counts) →
  apply_rules rasm qmorf tokens rules counts = Ok st' →
  counts_keys (st_counts st') = counts_keys counts
  ∧ (is_Some counts → is_Some (st_counts st')).
Proof.
  unfold apply_rules. intros Hall Hrun.
  cut ((∀ r, r ∈ rules → id_rule r ∈ counts_keys (st_counts (State tokens counts []))) →
       counts_keys (st_counts st') = counts_keys (st_counts (State tokens counts []))
       ∧ (is_Some (st_counts (State tokens counts [])) → is_Some (st_counts st')));
    [by auto|].
  revert Hrun.
  apply (apply_positions_lift rasm qmorf
           (λ st1 st2, (∀ r, r ∈ rules → id_rule r ∈ counts_keys (st_counts st1)) →
                       counts_keys (st_counts st2) = counts_keys (st_counts st1)
                       ∧ (is_Some (st_counts st1) → is_Some (st_counts st2)))).
  - done.
  - intros st1 st2 st3 H12 H23 H1.
    destruct (H12 H1) as [Hk Hs]. destruct H23 as [Hk' Hs'].
    { intros r Hr. rewrite Hk. by apply H1. }
    split; [by rewrite Hk', Hk|auto].
  - intros r i w st1 st2 Hr Hstep H1.
    apply apply_rule_Ok in Hstep as (printed & [->| ->]); [done|].
    set (st0 := with_out st1 printed).
    assert (id_rule r ∈ counts_keys (st_counts st0)) as Hin by (by apply H1).
    destruct (apply_between_keys r i st0 Hin) as [Hk1 Hs1].
    destruct (apply_within_keys r i (apply_between r i st0)) as [Hk2 Hs2].
    { by rewrite Hk1. }
    split; [by rewrite Hk2, Hk1|auto].
Qed.

Lemma counts_set_keys_new id l (c : counts_t) :
  id ∉ fst <$> c → fst <$> counts_set id l c = (fst <$> c) ++ [id].
Proof.
  induction c as [|[k l0] c IH]; simpl; intros Hin; [done|].
  apply not_elem_of_cons in Hin as [Hne Hin].
  rewrite bool_decide_eq_false_2 by done. simpl. f_equal. by apply IH.
Qed.

(** The sink of the evaluation run has the ids of the table as its keys, in
    the order of the table. *)
Lemma counts_init_keys rules :
  NoDup (id_rule <$> rules) → fst <$> counts_init rules = id_rule <$> rules.
Proof.
  unfold counts_init.
  assert (∀ c : counts_t, NoDup ((fst <$> c) ++ (id_rule <$> rules)) →
            fst <$> foldl (λ c r, counts_set (id_rule r) [] c) c rules
            = (fst <$> c) ++ (id_rule <$> rules)) as H.
  { induction rules as [|r rules IH]; intros c Hnd; simpl.
    - by rewrite app_nil_r.
    - simpl in Hnd. rewrite IH.
      + rewrite counts_set_keys_new, <- app_assoc; [done|].
        apply NoDup_app in Hnd as (_ & Hd & _). intros Hin.
        apply (Hd _ Hin). apply list_elem_of_here.
      + rewrite counts_set_keys_new, <- app_assoc; [done|].
        apply NoDup_app in Hnd as (_ & Hd & _). intros Hin.
        apply (Hd _ Hin). apply list_elem_of_here. }
  intros Hnd. by apply (H []).
Qed.

(** *** The round-trip check *)

Lemma diff_lines_diff (l l' : list token) k word ind word_rest ind_rest :
  l !! k = Some (word, ind) → l' !! k = Some (word_rest, ind_rest) →
  word ≠ word_rest → Out_tok_diff word word_rest ind ∈ diff_lines l l'.
Proof.
  revert l' k. induction l as [|[w0 i0] l IH]; intros [|[w1 i1] l'] k Hl Hl' Hne;
    try done.
  destruct k as [|k]; simpl in *.
  - injection Hl as -> ->. injection Hl' as -> ->.
    rewrite bool_decide_eq_true_2 by done. apply list_elem_of_here.
  - apply list_elem_of_further. by eapply IH.
Qed.

Lemma sweep_lines tokens ln :
  ln ∈ (sweep tokens).1 →
  ∃ c tok ind, (tok, ind) ∈ tokens ∧ classify tok ind = Some c
               ∧ ln = Out_warning (warning_code c) (warning_text c) tok ind.
Proof.
  induction tokens as [|[tok ind] tokens IH]; simpl.
  { intros H. by apply elem_of_nil in H. }
  destruct (sweep tokens) as [ls cnt]. simpl in IH.
  destruct (classify tok ind) as [c|] eqn:Hc; simpl.
  - intros [->|Hin]%elem_of_cons.
    + exists c, tok, ind. split; [apply list_elem_of_here|done].
    + destruct (IH Hin) as (c' & tok' & ind' & Hin' & ? & ?).
      exists c', tok', ind'. split; [by apply list_elem_of_further|done].
  - intros Hin. destruct (IH Hin) as (c' & tok' & ind' & Hin' & ? & ?).
    exists c', tok', ind'. split; [by apply list_elem_of_further|done].
Qed.

Lemma sweep_count tokens : (sweep tokens).2 = length (sweep tokens).1.
Proof.
  induction tokens as [|[tok ind] tokens IH]; simpl; [done|].
  destruct (sweep tokens) as [ls cnt]. simpl in IH.
  destruct (classify tok ind); simpl; by rewrite ?IH.
Qed.

Lemma residual_sweep_no_fail tokens :
  Out_fail ∉ residual_sweep tokens.
Proof.
  unfold residual_sweep. intros Hin.
  destruct (sweep tokens) as [ls cnt] eqn:Hs.
  apply elem_of_app in Hin as [Hin|Hin].
  - assert (Out_fail ∈ (sweep tokens).1) as Hin' by (by rewrite Hs).
    apply sweep_lines in Hin' as (c & tok & ind & _ & _ & ?). done.
  - by apply list_elem_of_singleton in Hin.
Qed.

Lemma trace_report_no_fail c1 c2 : Out_fail ∉ trace_report c1 c2.
Proof.
  unfold trace_report. intros Hin.
  apply list_elem_of_fmap in Hin as (it & ? & _). done.
Qed.

(** C6. In an evaluation run whose two passes go through, a mismatch of the
    original and the restored text prints the line of failure and one
    [diff] line for every pair of tokens that differ, and leaves with
    status 1; when the two texts are equal the run prints the line of
    success, no line of failure, and ends with status 0. *)
Theorem eval_run_verdict (qtokens : list token) (rm ad : state) :
  apply_rules rasm qmorf qtokens REMOVE_SANDHI_RULES
    (Some (counts_init REMOVE_SANDHI_RULES)) = Ok rm →
  apply_rules rasm qmorf (st_tokens rm) RESTORE_SANDHI_RULES
    (Some (counts_init RESTORE_SANDHI_RULES)) = Ok ad →
  ∃ ls status,
    eval_run rasm qmorf qtokens = Ok (ls, status)
    ∧ (qtext qtokens ≠ qtext (st_tokens ad) →
       status = 1%Z ∧ Out_fail ∈ ls
       ∧ ∀ k word ind word_rest ind_rest,
           qtokens !! k = Some (word, ind) →
           st_tokens ad !! k = Some (word_rest, ind_rest) →
           word ≠ word_rest → Out_tok_diff word word_rest ind ∈ ls)
    ∧ (qtext qtokens = qtext (st_tokens ad) →
       status = 0%Z ∧ Out_match ∈ ls ∧ Out_fail ∉ ls).
Proof.
  intros Hrm Had. unfold eval_run. rewrite Hrm. cbn [mbind result_bind].
  rewrite Had. cbn [mbind result_bind]. unfold roundtrip_check.
  destruct (decide (qtext qtokens = qtext (st_tokens ad))) as [Heq|Hne].
  - rewrite bool_decide_eq_true_2 by done. eexists _, _. split; [reflexivity|].
    split; [done|]. intros _. split; [done|]. split.
    + rewrite !elem_of_app. do 4 right. right. apply list_elem_of_here.
    + rewrite !not_elem_of_app. repeat split.
      * by intros ?%list_elem_of_singleton.
      * intros Hin. apply apply_rules_out in Hrm.
        rewrite Forall_forall in Hrm. by apply Hrm in Hin.
      * by intros ?%list_elem_of_singleton.
      * intros Hin. apply apply_rules_out in Had.
        rewrite Forall_forall in Had. by apply Had in Hin.
      * apply trace_report_no_fail.
      * intros [?|Hin]%elem_of_cons; [done|]. by apply residual_sweep_no_fail in Hin.
  - rewrite bool_decide_eq_false_2 by done. eexists _, _. split; [reflexivity|].
    split; [|done]. intros _. split; [done|]. split.
    + rewrite !elem_of_app. do 4 right. right. apply list_elem_of_here.
    + intros k word ind word_rest ind_rest Hk Hk' Hw.
      rewrite !elem_of_app. do 4 right. right. apply list_elem_of_further.
      by eapply diff_lines_diff.
Qed.

End eval_facts.

Section report_facts.

Context (rasm : str → str) (qmorf : gmap string morf).

Lemma trace_report_line c_rm c_add id traces_rm :
  (id, traces_rm) ∈ c_rm →
  Out_rule id (total traces_rm) (total (default [] (counts_get id c_add)))
           (bool_decide (traces_rm = default [] (counts_get id c_add)))
  ∈ trace_report c_rm c_add.
Proof.
  intros Hin. unfold trace_report.
  apply list_elem_of_fmap. by exists (id, traces_rm).
Qed.

Lemma counts_init_has_key rules :
  NoDup (id_rule <$> rules) →
  ∀ r, r ∈ rules → id_rule r ∈ counts_keys (Some (counts_init rules)).
Proof.
  intros Hnd r Hr. unfold counts_keys. simpl. rewrite counts_init_keys by done.
  by apply list_elem_of_fmap_2.
Qed.

Lemma counts_get_is_Some id (c : counts_t) :
  id ∈ fst <$> c → is_Some (counts_get id c).
Proof.
  induction c as [|[k l] c IH]; simpl; intros Hin.
  - by apply elem_of_nil in Hin.
  - case_bool_decide as Hk; [by eexists|].
    apply elem_of_cons in Hin as [->|Hin]; [done|]. by apply IH.
Qed.

(** C2, as amended. In an evaluation run whose two passes go through, the
    sink of each pass has one trace for every rule of its table, in the order
    of the table, and the two tables have the same ids. For each id of the
    removal table the run prints one line with the totals of the removal
    trace and of the restoral trace of that id, marked OK exactly when the
    two traces are equal as lists; two traces marked OK have the same total,
    touch the same indices and are equal as multisets. The engine does not
    make the two traces equal. *)
Theorem trace_comparison (qtokens : list token) (rm ad : state) :
  apply_rules rasm qmorf qtokens REMOVE_SANDHI_RULES
    (Some (counts_init REMOVE_SANDHI_RULES)) = Ok rm →
  apply_rules rasm qmorf (st_tokens rm) RESTORE_SANDHI_RULES
    (Some (counts_init RESTORE_SANDHI_RULES)) = Ok ad →
  ∃ c_rm c_add ls status,
    st_counts rm = Some c_rm ∧ st_counts ad = Some c_add
    ∧ eval_run rasm qmorf qtokens = Ok (ls, status)
    ∧ fst <$> c_rm = id_rule <$> REMOVE_SANDHI_RULES
    ∧ fst <$> c_add = id_rule <$> RESTORE_SANDHI_RULES
    ∧ ∀ id traces_rm, (id, traces_rm) ∈ c_rm →
        ∃ traces_add,
          counts_get id c_add = Some traces_add
          ∧ Out_rule id (total traces_rm) (total traces_add)
                     (bool_decide (traces_rm = traces_add)) ∈ ls
          ∧ (traces_rm = traces_add →
             total traces_rm = total traces_add
             ∧ touched traces_rm = touched traces_add
             ∧ traces_rm ≡ₚ traces_add).
Proof.
  intros Hrm Had.
  assert (is_table REMOVE_SANDHI_RULES) as Ht1 by (by left).
  assert (is_table RESTORE_SANDHI_RULES) as Ht2 by (by right).
  destruct (apply_rules_keys rasm qmorf _ _ _ _
              (counts_init_has_key _ (table_ids_NoDup _ Ht1)) Hrm) as [Hk1 Hs1].
  destruct (apply_rules_keys rasm qmorf _ _ _ _
              (counts_init_has_key _ (table_ids_NoDup _ Ht2)) Had) as [Hk2 Hs2].
  destruct Hs1 as [c_rm Hc1]; [by eexists|].
  destruct Hs2 as [c_add Hc2]; [by eexists|].
  assert (fst <$> c_rm = id_rule <$> REMOVE_SANDHI_RULES) as Hkeys1.
  { change (fst <$> c_rm) with (counts_keys (Some c_rm)). rewrite <- Hc1, Hk1.
    exact (counts_init_keys _ (table_ids_NoDup _ Ht1)). }
  assert (fst <$> c_add = id_rule <$> RESTORE_SANDHI_RULES) as Hkeys2.
  { change (fst <$> c_add) with (counts_keys (Some c_add)). rewrite <- Hc2, Hk2.
    exact (counts_init_keys _ (table_ids_NoDup _ Ht2)). }
  exists c_rm, c_add.
  unfold eval_run. rewrite Hrm. cbn [mbind result_bind].
  rewrite Had. cbn [mbind result_bind].
  destruct (roundtrip_check qtokens (st_tokens rm) (st_tokens ad)) as [ls0 status].
  eexists _, status. split; [done|]. split; [done|]. split; [reflexivity|].
  split; [done|]. split; [done|].
  intros id traces_rm Hin.
  destruct (counts_get_is_Some id c_add) as [traces_add Hget].
  { rewrite Hkeys2, <- table_ids_paired, <- Hkeys1.
    by apply (list_elem_of_fmap_2 fst _ _ Hin). }
  exists traces_add. split; [done|]. split.
  - rewrite Hc1, Hc2.
    change (default [] (Some c_rm)) with c_rm.
    change (default [] (Some c_add)) with c_add.
    rewrite !elem_of_app. do 4 right. left.
    pose proof (trace_report_line c_rm c_add id traces_rm Hin) as Hline.
    by rewrite Hget in Hline.
  - by intros <-.
Qed.

End report_facts.

(** C7. The sweep gives the code [C] to two classes of residual traces, the
    miniature mim and the miniature sin: an evaluation run over a word with
    the one and a word with the other prints two lines [WARNING-C]. Every
    other class has a code of its own; each line of the sweep carries the
    token and the index of a token of the text, and the total is the number
    of lines. *)
Theorem sweep_code_C_shared :
  warning_code Miniature_mim = warning_code Miniature_sin
  ∧ (∃ ls,
       eval_run skeleton ex_sweep_qmorf ex_sweep_tokens = Ok (ls, 0%Z)
       ∧ Out_warning "C" "miniature sin U+06dc found in"
           [ar_meem; ar_fatha; ar_noon; ar_quranic_sukun; ar_small_high_seen]
           (1, 1, 1)%Z ∈ ls
       ∧ Out_warning "C" "miniature mim U+06e2 found in"
           [ar_meem; ar_kasra; ar_noon; ar_small_high_meem] (1, 1, 2)%Z ∈ ls)
  ∧ (∀ c1 c2, warning_code c1 = warning_code c2 →
       c1 = c2 ∨ (c1 = Miniature_mim ∧ c2 = Miniature_sin)
       ∨ (c1 = Miniature_sin ∧ c2 = Miniature_mim))
  ∧ (∀ tokens, ∃ ls,
       residual_sweep tokens = ls ++ [Out_total (length ls)]
       ∧ ∀ ln, ln ∈ ls →
           ∃ c tok ind, (tok, ind) ∈ tokens ∧ classify tok ind = Some c
                        ∧ ln = Out_warning (warning_code c) (warning_text c) tok ind).
Proof.
  split; [done|]. split; [|split].
  - eexists. split; [vm_compute; reflexivity|].
    split; repeat (apply list_elem_of_here || apply list_elem_of_further).
  - intros c1 c2; destruct c1, c2; simpl; intros H; try discriminate H; auto.
  - intros tokens. exists (sweep tokens).1. split.
    + unfold residual_sweep. rewrite <- sweep_count. by destruct (sweep tokens).
    + apply sweep_lines.
Qed.

(** ** The properties at work *)

Lemma rule_by_id_elem_of id rules r :
  rule_by_id id rules = Some r → r ∈ rules ∧ id_rule r = id.
Proof.
  unfold rule_by_id. intros H. apply find_some in H as [Hin Hid].
  split; [by apply list_elem_of_In|]. by apply bool_decide_eq_true in Hid.
Qed.

(** On the words of Q.23:59:2-3 removal followed by restoral gives the
    words back; on the same words without the tajweed layer it does not:
    restoral puts the layer on. *)
Example roundtrip_Q_23_59 :
  st_tokens ex_eval_ad = ex_tokens ∧ st_tokens ex_bare_ad ≠ ex_tokens_rm.
Proof. split; [reflexivity|]. vm_compute. discriminate. Qed.

(** Each word with a hapax sign loses the sign in removal and has it back
    after restoral. *)
Example hapax_roundtrip :
  there_and_back ex_hapax_qmorf <$> ex_hapax_words
  = (λ p, Some p) <$> zip ex_hapax_bare (fst <$> ex_hapax_words).
Proof. vm_compute. reflexivity. Qed.

(** C9 at Q.23:59:2-3. *)
Lemma apply_rules_frame_witness :
  apply_rules skeleton ex_qmorf ex_tokens REMOVE_SANDHI_RULES None = Ok ex_removed
  ∧ (snd <$> st_tokens ex_removed) = (snd <$> ex_tokens)
  ∧ length (st_tokens ex_removed) = length ex_tokens
  ∧ ∀ i, i < length ex_tokens →
      ∃ st st',
        apply_positions skeleton ex_qmorf REMOVE_SANDHI_RULES (seq 0 i)
          (State ex_tokens None []) = Ok st
        ∧ apply_token skeleton ex_qmorf REMOVE_SANDHI_RULES i st = Ok st'
        ∧ (snd <$> st_tokens st') = (snd <$> ex_tokens)
        ∧ ∀ j, j ≠ i → j ≠ S i → st_tokens st' !! j = st_tokens st !! j.
Proof.
  split; [vm_compute; reflexivity|].
  apply (apply_rules_frame skeleton ex_qmorf ex_tokens REMOVE_SANDHI_RULES None ex_removed).
  vm_compute; reflexivity.
Defined.

(** C10 at Q.23:59:2-3: the one entry of the pass is the boundary match of
    [M1], with count 1. *)
Lemma boundary_entries_count_one_witness :
  is_table REMOVE_SANDHI_RULES
  ∧ apply_rules skeleton ex_qmorf ex_tokens REMOVE_SANDHI_RULES (Some []) = Ok ex_counted
  ∧ st_counts ex_counted = Some [("M1", [((23, 59, 2)%Z, 1, true)])]
  ∧ ∀ id l ind cnt,
      (id, l) ∈ [("M1", [((23, 59, 2)%Z, 1, true)])] → (ind, cnt, true) ∈ l → cnt = 1.
Proof.
  split; [left; reflexivity|].
  split; [vm_compute; reflexivity|].
  split; [reflexivity|].
  apply (boundary_entries_count_one skeleton ex_qmorf REMOVE_SANDHI_RULES ex_tokens []
           ex_counted).
  - left; reflexivity.
  - vm_compute; reflexivity.
  - intros id l ind cnt H. exfalso. exact (proj1 (elem_of_nil _) H).
  - reflexivity.
Defined.

(** C3 at rule [min-y-4] of the removal table. *)
Lemma restricted_rule_fires_inside_set_witness :
  is_table REMOVE_SANDHI_RULES
  ∧ removal_min_y_4 ∈ REMOVE_SANDHI_RULES
  ∧ restrict_ind removal_min_y_4 ≠ []
  ∧ restrict_ind removal_min_y_4 = RESTRICT_INDEXES_MIN_Y_4
  ∧ NoDup (restrict_ind removal_min_y_4)
  ∧ length (restrict_ind removal_min_y_4) = 16.
Proof.
  split; [left; reflexivity|].
  split; [apply (rule_by_id_elem_of "min-y-4"); reflexivity|].
  split; [discriminate|].
  apply (restricted_rule_fires_inside_set skeleton ex_qmorf REMOVE_SANDHI_RULES
           removal_min_y_4).
  - left; reflexivity.
  - apply (rule_by_id_elem_of "min-y-4"); reflexivity.
  - discriminate.
  - reflexivity.
Defined.

(** C3 as it is written fails: rule [min-y-4] fires on the first of its
    documented words at each of 16 indices, so no set of 15 indices holds
    every index at which it fires. *)
Lemma min_y_4_fires_at_16_indices :
  ¬ ∃ S : list index,
      length S = 15
      ∧ ∀ ind,
          apply_rule ∅ removal_min_y_4 0 [] (State [(ex_small_yeh_word, ind)] None [])
          ≠ Ok (State [(ex_small_yeh_word, ind)] None []) →
          ind ∈ S.
Proof.
  intros (S & Hlen & Hall).
  assert (Forall (λ ind,
            apply_rule ∅ removal_min_y_4 0 [] (State [(ex_small_yeh_word, ind)] None [])
            ≠ Ok (State [(ex_small_yeh_word, ind)] None []))
            RESTRICT_INDEXES_MIN_Y_4) as Hfire.
  { unfold RESTRICT_INDEXES_MIN_Y_4. repeat constructor; vm_compute; discriminate. }
  assert (RESTRICT_INDEXES_MIN_Y_4 ⊆+ S) as Hsub.
  { apply NoDup_submseteq; [apply RESTRICT_INDEXES_MIN_Y_4_NoDup|].
    intros ind Hin. apply Hall. rewrite Forall_forall in Hfire. by apply Hfire. }
  apply submseteq_length in Hsub. rewrite Hlen in Hsub. simpl in Hsub. lia.
Qed.

(** C4 at the documented case, Q.23:59:2-3. *)
Lemma removal_M1_literal_witness :
  rule_by_id "M1" REMOVE_SANDHI_RULES = Some removal_M1
  ∧ ex_tokens !! 0 = Some ([ar_heh; ar_damma] ++ [ar_meem], (23, 59, 2)%Z)
  ∧ ex_tokens !! 1
    = Some (ar_beh :: [ar_kasra; ar_reh; ar_fatha; ar_beh; ar_shadda; ar_kasra; ar_heh;
                       ar_kasra; ar_meem; ar_quranic_sukun], (23, 59, 3)%Z)
  ∧ ∃ st',
      apply_rule ex_qmorf removal_M1 0 (skeleton [ar_heh; ar_damma; ar_meem])
        (State ex_tokens None []) = Ok st'
      ∧ st_tokens st'
        = <[0 := ([ar_heh; ar_damma] ++ [ar_meem; ar_quranic_sukun], (23, 59, 2)%Z)]>
            ex_tokens
      ∧ st_tokens st' !! 0
        = Some ([ar_heh; ar_damma] ++ [ar_meem; ar_quranic_sukun], (23, 59, 2)%Z)
      ∧ st_tokens st' !! 1
        = Some (ar_beh :: [ar_kasra; ar_reh; ar_fatha; ar_beh; ar_shadda; ar_kasra; ar_heh;
                           ar_kasra; ar_meem; ar_quranic_sukun], (23, 59, 3)%Z)
      ∧ st_counts st' = record_count "M1" (23, 59, 2)%Z 1 true None
      ∧ st_out st' = [].
Proof.
  split; [reflexivity|]. split; [reflexivity|]. split; [reflexivity|].
  apply (removal_M1_literal ex_qmorf removal_M1 0 (skeleton [ar_heh; ar_damma; ar_meem])
           (State ex_tokens None [])); reflexivity.
Defined.

(** C5 at a noun whose final heh belongs to the root: restoral rule [HU]
    is skipped. *)
Lemma clitic_suppression_witness :
  ex_root_tokens !! 0
  = Some ([ar_waw; ar_fatha; ar_jeem; ar_quranic_sukun; ar_heh; ar_damma], (55, 27, 2)%Z)
  ∧ restrict_ind restoral_HU = []
  ∧ ((55, 27, 2)%Z ∉ except_ind restoral_HU)
  ∧ pos_filtered ex_root_qmorf restoral_HU (55, 27, 2)%Z = Ok false
  ∧ id_rule restoral_HU ∈ ["HU"; "HI"]
  ∧ ((55, 27, 2)%Z ∉ force_ind restoral_HU)
  ∧ ex_root_qmorf !! ind_key (55, 27, 2)%Z = Some ex_root_morf
  ∧ root_holds_heh ex_root_morf
    && not_double_heh (skeleton [ar_waw; ar_fatha; ar_jeem; ar_quranic_sukun; ar_heh;
                                 ar_damma]) = true
  ∧ apply_rule ex_root_qmorf restoral_HU 0
      (skeleton [ar_waw; ar_fatha; ar_jeem; ar_quranic_sukun; ar_heh; ar_damma])
      (State ex_root_tokens None [])
    = Ok (State ex_root_tokens None []).
Proof.
  assert ((55, 27, 2)%Z ∉ except_ind restoral_HU) as Hex.
  { apply (bool_decide_unpack _). vm_compute. exact I. }
  assert ((55, 27, 2)%Z ∉ force_ind restoral_HU) as Hf.
  { apply (bool_decide_unpack _). vm_compute. exact I. }
  assert (id_rule restoral_HU ∈ ["HU"; "HI"]) as Hid.
  { apply (bool_decide_unpack _). vm_compute. exact I. }
  assert ([] ∉ roots ex_root_morf) as Hroots.
  { apply (bool_decide_unpack _). vm_compute. exact I. }
  split; [reflexivity|]. split; [reflexivity|]. split; [exact Hex|].
  split; [reflexivity|]. split; [exact Hid|]. split; [exact Hf|].
  split; [vm_compute; reflexivity|]. split; [vm_compute; reflexivity|].
  destruct (clitic_suppression ex_root_qmorf restoral_HU 0
              (skeleton [ar_waw; ar_fatha; ar_jeem; ar_quranic_sukun; ar_heh; ar_damma])
              (State ex_root_tokens None [])
              [ar_waw; ar_fatha; ar_jeem; ar_quranic_sukun; ar_heh; ar_damma]
              (55, 27, 2)%Z eq_refl (or_introl eq_refl) Hex eq_refl) as [_ Hsup].
  destruct (Hsup Hid Hf ex_root_morf) as (printed & Hrun & Hpr).
  - vm_compute; reflexivity.
  - exact Hroots.
  - rewrite Hrun, Hpr by discriminate. reflexivity.
Defined.

(** C5 as it is written fails: the root of the verb ends in heh and yeh and
    the index is not forced, yet removal rule [HU] fires, because the
    skeleton of the word ends in two hehs. *)
Lemma clitic_fires_on_root_pattern :
  ¬ (∀ (qmorf : gmap string morf) r i w st tok ind m,
       id_rule r ∈ ["HU"; "HI"] →
       st_tokens st !! i = Some (tok, ind) →
       ind ∉ force_ind r →
       qmorf !! ind_key ind = Some m →
       (∃ root, root ∈ roots m
                ∧ (last2 root = [ar_heh; ar_heh] ∨ last2 root = [ar_heh; ar_yeh])) →
       ∃ st', apply_rule qmorf r i w st = Ok st' ∧ st_tokens st' = st_tokens st).
Proof.
  intros H.
  destruct (H ex_clitic_qmorf removal_HU 0
              (skeleton [ar_farsi_yeh; ar_fatha; ar_noon; ar_quranic_sukun; ar_heh;
                         ar_fatha; ar_heh; ar_damma; ar_small_waw])
              (State ex_clitic_tokens None [])
              [ar_farsi_yeh; ar_fatha; ar_noon; ar_quranic_sukun; ar_heh; ar_fatha;
               ar_heh; ar_damma; ar_small_waw]
              (1, 1, 1)%Z ex_clitic_morf) as (st' & Hrun & Htok).
  - apply (bool_decide_unpack _). vm_compute. exact I.
  - reflexivity.
  - apply (bool_decide_unpack _). vm_compute. exact I.
  - vm_compute; reflexivity.
  - exists [ar_noon; ar_heh; ar_yeh]. split; [apply list_elem_of_here|by right].
  - vm_compute in Hrun. injection Hrun as <-. vm_compute in Htok. discriminate.
Qed.

(** C6 at Q.23:59:2-3. *)
Lemma eval_run_verdict_witness :
  apply_rules skeleton ex_qmorf ex_tokens REMOVE_SANDHI_RULES
    (Some (counts_init REMOVE_SANDHI_RULES)) = Ok ex_eval_rm
  ∧ apply_rules skeleton ex_qmorf (st_tokens ex_eval_rm) RESTORE_SANDHI_RULES
      (Some (counts_init RESTORE_SANDHI_RULES)) = Ok ex_eval_ad
  ∧ ∃ ls status,
      eval_run skeleton ex_qmorf ex_tokens = Ok (ls, status)
      ∧ (qtext ex_tokens ≠ qtext (st_tokens ex_eval_ad) →
         status = 1%Z ∧ Out_fail ∈ ls
         ∧ ∀ k word ind word_rest ind_rest,
             ex_tokens !! k = Some (word, ind) →
             st_tokens ex_eval_ad !! k = Some (word_rest, ind_rest) →
             word ≠ word_rest → Out_tok_diff word word_rest ind ∈ ls)
      ∧ (qtext ex_tokens = qtext (st_tokens ex_eval_ad) →
         status = 0%Z ∧ Out_match ∈ ls ∧ Out_fail ∉ ls).
Proof.
  split; [vm_compute; reflexivity|]. split; [vm_compute; reflexivity|].
  apply (eval_run_verdict skeleton ex_qmorf ex_tokens ex_eval_rm ex_eval_ad);
    vm_compute; reflexivity.
Defined.

(** C8 at Q.23:59:2-3 with the record of the second word missing. *)
Lemma absent_index_aborts_witness :
  is_table REMOVE_SANDHI_RULES
  ∧ ex_tokens !! 1
    = Some ([ar_beh; ar_kasra; ar_reh; ar_fatha; ar_beh; ar_shadda; ar_kasra; ar_heh;
             ar_kasra; ar_meem; ar_quranic_sukun], (23, 59, 3)%Z)
  ∧ ex_qmorf_short !! ind_key (23, 59, 3)%Z = None
  ∧ apply_rules skeleton ex_qmorf_short ex_tokens REMOVE_SANDHI_RULES None
    = Err (KeyError "23,59,3").
Proof.
  split; [left; reflexivity|]. split; [reflexivity|]. split; [vm_compute; reflexivity|].
  apply (absent_index_aborts skeleton ex_qmorf_short REMOVE_SANDHI_RULES ex_tokens None 1
           [ar_beh; ar_kasra; ar_reh; ar_fatha; ar_beh; ar_shadda; ar_kasra; ar_heh;
            ar_kasra; ar_meem; ar_quranic_sukun] (23, 59, 3)%Z).
  - left; reflexivity.
  - reflexivity.
  - vm_compute; reflexivity.
  - intros k Hk. assert (k = 0) as -> by lia.
    exists (23, 59, 2)%Z, (Morf ["P"] [] [] []).
    split; [reflexivity|]. split; [vm_compute; reflexivity|]. apply not_elem_of_nil.
Defined.

(** C2 at Q.23:59:2-3. *)
Lemma trace_comparison_witness :
  apply_rules skeleton ex_qmorf ex_tokens REMOVE_SANDHI_RULES
    (Some (counts_init REMOVE_SANDHI_RULES)) = Ok ex_eval_rm
  ∧ apply_rules skeleton ex_qmorf (st_tokens ex_eval_rm) RESTORE_SANDHI_RULES
      (Some (counts_init RESTORE_SANDHI_RULES)) = Ok ex_eval_ad
  ∧ ∃ c_rm c_add ls status,
      st_counts ex_eval_rm = Some c_rm ∧ st_counts ex_eval_ad = Some c_add
      ∧ eval_run skeleton ex_qmorf ex_tokens = Ok (ls, status)
      ∧ fst <$> c_rm = id_rule <$> REMOVE_SANDHI_RULES
      ∧ fst <$> c_add = id_rule <$> RESTORE_SANDHI_RULES
      ∧ ∀ id traces_rm, (id, traces_rm) ∈ c_rm →
          ∃ traces_add,
            counts_get id c_add = Some traces_add
            ∧ Out_rule id (total traces_rm) (total traces_add)
                       (bool_decide (traces_rm = traces_add)) ∈ ls
            ∧ (traces_rm = traces_add →
               total traces_rm = total traces_add
               ∧ touched traces_rm = touched traces_add
               ∧ traces_rm ≡ₚ traces_add).
Proof.
  split; [vm_compute; reflexivity|]. split; [vm_compute; reflexivity|].
  apply (trace_comparison skeleton ex_qmorf ex_tokens ex_eval_rm ex_eval_ad);
    vm_compute; reflexivity.
Defined.

(** C2 as it is written fails: on the two words without the tajweed layer
    the removal pass records nothing under [M1] and the restoral pass
    records one match, so the two traces are not equal as multisets. *)
Lemma traces_differ_on_bare_text :
  ¬ (∀ (rasm : str → str) (qmorf : gmap string morf) qtokens rm ad c_rm c_add id,
       apply_rules rasm qmorf qtokens REMOVE_SANDHI_RULES
         (Some (counts_init REMOVE_SANDHI_RULES)) = Ok rm →
       apply_rules rasm qmorf (st_tokens rm) RESTORE_SANDHI_RULES
         (Some (counts_init RESTORE_SANDHI_RULES)) = Ok ad →
       st_counts rm = Some c_rm → st_counts ad = Some c_add →
       default [] (counts_get id c_rm) ≡ₚ default [] (counts_get id c_add)).
Proof.
  intros H.
  specialize (H skeleton ex_qmorf ex_tokens_rm ex_bare_rm ex_bare_ad
                (default [] (st_counts ex_bare_rm)) (default [] (st_counts ex_bare_ad))
                "M1").
  apply Permutation_length in H; [|vm_compute; reflexivity..].
  vm_compute in H. discriminate.
Qed.

(** * Further properties

    ** Searching and deleting *)

Section search_facts.

Context (r : regex) (s : str).

Lemma search_from_least fuel pos ma b e c :
  search_from r s fuel pos ma = Some (b, e, c) →
  (pos < b → match_at r s pos ma = None) ∧
  ∀ j, pos < j < b → match_at r s j false = None.
Proof.
  revert pos ma. induction fuel as [|fuel IH]; intros pos ma; simpl.
  - destruct (match_at r s pos ma) as [ec|] eqn:Hm; [|done].
    intros [= <- _ _]. split; intros; lia.
  - destruct (match_at r s pos ma) as [ec|] eqn:Hm.
    + intros [= <- _ _]. split; intros; lia.
    + intros H. split; [done|]. intros j Hj.
      pose proof (search_from_Some _ _ _ _ _ _ _ _ H) as [Hb _].
      apply IH in H as [H1 H2].
      destruct (decide (j = S pos)) as [->|]; [apply H1; lia|apply H2; lia].
Qed.

Lemma search_from_None_inv fuel pos ma :
  search_from r s fuel pos ma = None →
  match_at r s pos ma = None ∧
  ∀ j, pos < j ≤ pos + fuel → match_at r s j false = None.
Proof.
  revert pos ma. induction fuel as [|fuel IH]; intros pos ma; simpl.
  - destruct (match_at r s pos ma) as [ec|] eqn:Hm; [done|].
    intros _. split; [done|]. intros; lia.
  - destruct (match_at r s pos ma) as [ec|] eqn:Hm; [done|].
    intros H. apply IH in H as [H1 H2]. split; [done|]. intros j Hj.
    destruct (decide (j = S pos)) as [->|]; [done|apply H2; lia].
Qed.

Lemma match_at_false_None pos :
  match_at r s pos false = None ↔ matches r s pos [] = [].
Proof.
  unfold match_at. destruct (matches r s pos []) as [|ec l]; simpl; [done|].
  split; intros; done.
Qed.

(** [re.search] finds nothing exactly when the pattern matches at no
    position of the text. *)
Lemma search_false :
  search r s = false ↔ ∀ pos, pos ≤ length s → matches r s pos [] = [].
Proof.
  unfold search. rewrite bool_decide_eq_false. split.
  - intros H pos Hpos. apply match_at_false_None.
    destruct (search_from r s (length s) 0 false) as [x|] eqn:Hs.
    { destruct H. by eexists. }
    apply search_from_None_inv in Hs as [H0 H1].
    destruct pos; [done|]. apply H1. lia.
  - intros H [x Hx]. destruct x as [[b e] c].
    apply search_from_Some in Hx as [Hb Hin].
    rewrite H in Hin by lia. by apply elem_of_nil in Hin.
Qed.

Lemma search_true :
  search r s = true ↔ ∃ pos, pos ≤ length s ∧ matches r s pos [] ≠ [].
Proof.
  split.
  - unfold search. rewrite bool_decide_eq_true. intros [[[b e] c] Hx].
    apply search_from_Some in Hx as [Hb Hin]. exists b. split; [lia|].
    intros Hm. rewrite Hm in Hin. by apply elem_of_nil in Hin.
  - intros (pos & Hpos & Hm). destruct (search r s) eqn:Hs; [done|].
    rewrite search_false in Hs. by rewrite Hs in Hm.
Qed.


End search_facts.

Section class_sub.

Context (neg : bool) (cs : list char).

Lemma matches_cls s pos c :
  matches (Cls neg cs) s pos c =
  match s !! pos with
  | Some x => if in_class neg cs x then [(S pos, c)] else []
  | None => []
  end.
Proof. done. Qed.

Lemma match_at_cls_None s pos ma :
  match_at (Cls neg cs) s pos ma = None ↔
  ∀ x, s !! pos = Some x → in_class neg cs x = false.
Proof.
  unfold match_at. rewrite matches_cls.
  destruct (s !! pos) as [x|]; [|by split].
  destruct (in_class neg cs x) eqn:Hx; simpl.
  - rewrite bool_decide_eq_false_2 by lia. rewrite andb_false_r. simpl.
    split; [done|]. intros H. specialize (H x eq_refl). congruence.
  - split; [|done]. by intros _ ? [= <-].
Qed.

Lemma filter_all_out (s : str) :
  (∀ x, x ∈ s → in_class neg cs x = false) →
  filter (λ x, in_class neg cs x = false) s = s ∧
  length (filter (λ x, in_class neg cs x = true) s) = 0.
Proof.
  induction s as [|a s IH]; intros H; [done|].
  rewrite !filter_cons.
  pose proof (H a ltac:(left)) as Ha.
  destruct IH as [IH1 IH2]. { intros. apply H. by right. }
  rewrite decide_True by done. rewrite decide_False by congruence.
  by rewrite IH1, IH2.
Qed.

Lemma subn_loop_cls s fuel start ma acc n :
  start ≤ length s → length s - start < fuel →
  subn_loop (Cls neg cs) [] s fuel start ma acc n =
  (acc ++ filter (λ x, in_class neg cs x = false) (drop start s),
   n + length (filter (λ x, in_class neg cs x = true) (drop start s))).
Proof.
  revert start ma acc n. induction fuel as [|fuel IH]; intros start ma acc n Hs Hf; [lia|].
  cbn [subn_loop].
  destruct (search_from (Cls neg cs) s (length s - start) start ma) as [[[b e] c]|] eqn:Hsf.
  - pose proof (search_from_least _ _ _ _ _ _ _ _ Hsf) as [H1 H2].
    apply search_from_Some in Hsf as [Hb Hin].
    rewrite matches_cls in Hin.
    destruct (s !! b) as [x|] eqn:Hx; [|by apply elem_of_nil in Hin].
    destruct (in_class neg cs x) eqn:Hc; [|by apply elem_of_nil in Hin].
    apply list_elem_of_singleton in Hin as [= -> ->].
    apply lookup_lt_Some in Hx as Hlt.
    rewrite IH by lia.
    assert (Hsplit : drop start s = take (b - start) (drop start s) ++ x :: drop (S b) s).
    { rewrite <-(take_drop (b - start) (drop start s)) at 1. f_equal.
      rewrite drop_drop. replace (start + (b - start)) with b by lia.
      by apply drop_S. }
    assert (Hout : ∀ y, y ∈ take (b - start) (drop start s) → in_class neg cs y = false).
    { intros y Hy. apply list_elem_of_lookup in Hy as [k Hk].
      apply lookup_take_Some in Hk as [Hk Hlt'].
      rewrite lookup_drop in Hk.
      destruct k as [|k].
      - rewrite Nat.add_0_r in Hk.
        assert (Hm : match_at (Cls neg cs) s start ma = None) by (apply H1; lia).
        by eapply match_at_cls_None in Hm.
      - assert (Hm : match_at (Cls neg cs) s (start + S k) false = None) by (apply H2; lia).
        by eapply match_at_cls_None in Hm. }
    apply filter_all_out in Hout as [Ho1 Ho2].
    rewrite Hsplit at 2 3. rewrite !filter_app, !filter_cons, Ho1.
    rewrite decide_False by congruence. rewrite decide_True by done.
    rewrite !length_app, Ho2. simpl. rewrite app_nil_r, <-!(assoc_L (++)).
    f_equal. lia.
  - apply search_from_None_inv in Hsf as [H1 H2].
    assert (Hout : ∀ y, y ∈ drop start s → in_class neg cs y = false).
    { intros y Hy. apply list_elem_of_lookup in Hy as [k Hk].
      rewrite lookup_drop in Hk. apply lookup_lt_Some in Hk as Hlt.
      destruct k as [|k].
      - rewrite Nat.add_0_r in Hk. by eapply match_at_cls_None in H1.
      - assert (Hm : match_at (Cls neg cs) s (start + S k) false = None) by (apply H2; lia).
        by eapply match_at_cls_None in Hm. }
    apply filter_all_out in Hout as [Ho1 Ho2].
    by rewrite Ho1, Ho2, Nat.add_0_r.
Qed.

(** Deleting the members of a character set with [re.subn]. *)
Lemma subn_cls_delete s :
  subn (Cls neg cs) [] s =
  (filter (λ x, in_class neg cs x = false) s,
   length (filter (λ x, in_class neg cs x = true) s)).
Proof.
  unfold subn. rewrite subn_loop_cls by lia. by rewrite drop_0.
Qed.

End class_sub.

Lemma preproc_filter s : preproc s = filter (λ c, c ∉ QSTOPS) s.
Proof.
  unfold preproc, sub, QSTOPS_REGEX. rewrite subn_cls_delete. simpl.
  apply list_filter_iff. intros x. unfold in_class. simpl.
  by rewrite bool_decide_eq_false.
Qed.

(** X1. [preproc] deletes the pause marks and nothing else. Its result is the
    text without its code points U+06D6 to U+06DB, the others in their
    order. *)
Theorem preproc_deletes_pause_marks (s : str) :
  preproc s = filter (λ c, c ∉ QSTOPS) s.
Proof. apply preproc_filter. Qed.

(** X2. [preproc] applied twice is [preproc] applied once, no pause mark is
    left in its result, and the preprocessed text of two texts put together
    is the two preprocessed texts put together. *)
Theorem preproc_idempotent (s s' : str) :
  preproc (preproc s) = preproc s
  ∧ Forall (λ c, c ∉ QSTOPS) (preproc s)
  ∧ preproc (s ++ s') = preproc s ++ preproc s'.
Proof.
  rewrite !preproc_filter. split; [|split].
  - apply list_filter_filter_l. done.
  - apply Forall_forall. intros c Hc. by apply list_elem_of_filter in Hc as [? _].
  - apply filter_app.
Qed.

(** ** The sink and the pass *)

Section sink_facts.

Context (rasm : str → str) (qmorf : gmap string morf).

Implicit Types (r : rule) (st : state) (i j : nat).

Lemma apply_between_same r i st1 st2 :
  same_text st1 st2 → same_text (apply_between r i st1) (apply_between r i st2).
Proof.
  intros [Ht Ho]. unfold apply_between. rewrite <-Ht.
  destruct (between r) as [b|]; [|done].
  destruct (st_tokens st1 !! i) as [[cur ind]|]; [|done].
  destruct (st_tokens st1 !! S i) as [[next ind']|]; [|done].
  destruct (search _ cur && search _ next); [|done].
  destruct (subn _ _ cur) as [m cnt]. by split.
Qed.

Lemma apply_within_same r i st1 st2 :
  same_text st1 st2 → same_text (apply_within r i st1) (apply_within r i st2).
Proof.
  intros [Ht Ho]. unfold apply_within. rewrite <-Ht.
  destruct (within r) as [wi|]; [|done].
  destruct (st_tokens st1 !! i) as [[cur ind]|]; [|done].
  destruct (subn _ _ cur) as [m cnt]. by split.
Qed.

Lemma apply_rule_same r i w st1 st2 :
  same_text st1 st2 →
  result_rel same_text (apply_rule qmorf r i w st1) (apply_rule qmorf r i w st2).
Proof.
  intros Hs. pose proof Hs as [Ht Ho]. unfold apply_rule. rewrite <-Ht.
  destruct (st_tokens st1 !! i) as [[tok ind]|]; [|done].
  destruct (_ && _); [done|].
  destruct (bool_decide (ind ∈ except_ind r)); [done|].
  destruct (pos_filtered qmorf r ind) as [[|]|e]; simpl; [done| |done].
  destruct (clitic_check qmorf r ind w) as [[[|] pr]|e]; simpl; [| |done].
  - split; simpl; [done|]. by rewrite Ho.
  - apply apply_within_same, apply_between_same. split; simpl; [done|]. by rewrite Ho.
Qed.

Lemma apply_rules_at_same rules i w st1 st2 :
  same_text st1 st2 →
  result_rel same_text (apply_rules_at qmorf rules i w st1) (apply_rules_at qmorf rules i w st2).
Proof.
  revert st1 st2. induction rules as [|r rules IH]; intros st1 st2 Hs; simpl; [done|].
  pose proof (apply_rule_same r i w st1 st2 Hs) as H.
  destruct (apply_rule qmorf r i w st1) as [a|e], (apply_rule qmorf r i w st2) as [b|e'];
    simpl in *; try done.
  by apply IH.
Qed.

Lemma apply_positions_same rules positions st1 st2 :
  same_text st1 st2 →
  result_rel same_text (apply_positions rasm qmorf rules positions st1)
                       (apply_positions rasm qmorf rules positions st2).
Proof.
  revert st1 st2. induction positions as [|i positions IH]; intros st1 st2 Hs; simpl; [done|].
  assert (result_rel same_text (apply_token rasm qmorf rules i st1)
                               (apply_token rasm qmorf rules i st2)) as H.
  { unfold apply_token. destruct Hs as [Ht Ho]. rewrite <-Ht.
    destruct (st_tokens st1 !! i) as [[text ind]|]; [|done].
    by apply apply_rules_at_same. }
  destruct (apply_token rasm qmorf rules i st1) as [a|e],
           (apply_token rasm qmorf rules i st2) as [b|e']; simpl in *; try done.
  by apply IH.
Qed.

Lemma apply_rules_same tokens rules c1 c2 :
  result_rel same_text (apply_rules rasm qmorf tokens rules c1)
                       (apply_rules rasm qmorf tokens rules c2).
Proof. unfold apply_rules. by apply apply_positions_same. Qed.

Lemma apply_between_no_sink r i st :
  st_counts st = None → st_counts (apply_between r i st) = None.
Proof.
  intros Hn. unfold apply_between.
  destruct (between r) as [b|]; [|done].
  destruct (st_tokens st !! i) as [[cur ind]|]; [|done].
  destruct (st_tokens st !! S i) as [[next ind']|]; [|done].
  destruct (search _ cur && search _ next); [|done].
  destruct (subn _ _ cur) as [m cnt]. simpl. by rewrite Hn.
Qed.

Lemma apply_within_no_sink r i st :
  st_counts st = None → st_counts (apply_within r i st) = None.
Proof.
  intros Hn. unfold apply_within.
  destruct (within r) as [wi|]; [|done].
  destruct (st_tokens st !! i) as [[cur ind]|]; [|done].
  destruct (subn _ _ cur) as [m cnt]. simpl. by rewrite Hn.
Qed.

(** Without a sink nothing is recorded. *)
Lemma apply_rules_no_sink tokens rules st' :
  apply_rules rasm qmorf tokens rules None = Ok st' → st_counts st' = None.
Proof.
  unfold apply_rules.
  intros H.
  refine (apply_positions_lift rasm qmorf
           (λ st1 st2, st_counts st1 = None → st_counts st2 = None) _ _ _ _ _ _ _ H eq_refl).
  - done.
  - intros ??? H1 H2 ?. auto.
  - intros r i w st1 st2 _ Hr Hn.
    apply apply_rule_Ok in Hr as (pr & [->| ->]); [done|].
    by apply apply_within_no_sink, apply_between_no_sink.
Qed.

End sink_facts.

Section turn_facts.

Context (rasm : str → str) (qmorf : gmap string morf).

Implicit Types (r : rule) (st : state) (i j : nat).




End turn_facts.

Section entries.

Context (rasm : str → str) (qmorf : gmap string morf).
Variable P : string → entry → Prop.

Implicit Types (r : rule) (st : state) (i j : nat).

(** What is known of an entry when a turn records it. *)
Lemma apply_rule_entries r i w st st' :
  (∀ ind cnt b,
     (snd <$> st_tokens st) !! i = Some ind →
     (b = true → S i < length (st_tokens st)) →
     cnt ≠ 0 → ind ∉ except_ind r →
     (restrict_ind r = [] ∨ ind ∈ restrict_ind r) →
     P (id_rule r) (ind, cnt, b)) →
  apply_rule qmorf r i w st = Ok st' →
  counts_ok P (st_counts st) → counts_ok P (st_counts st').
Proof.
  intros HP Hrun Hok.
  apply apply_rule_fired in Hrun
    as [[pr ->]|(tok & ind & pr & Hi & Hre & Hex & ->)]; [done|].
  set (st0 := with_out st pr).
  assert ((snd <$> st_tokens st) !! i = Some ind) as Hind.
  { rewrite list_lookup_fmap. by rewrite Hi. }
  assert (counts_ok P (st_counts (apply_between r i st0))) as Hok1.
  { unfold apply_between.
    destruct (between r) as [b|] eqn:Hbr; [|done].
    change (st_tokens st0) with (st_tokens st). rewrite Hi.
    destruct (st_tokens st !! S i) as [[next ind']|] eqn:Hn; [|done].
    destruct (search _ tok && search _ next); [|done].
    destruct (subn _ _ tok) as [m cnt] eqn:Hs. simpl.
    apply record_count_ok; [done|]. intros Hcnt.
    apply HP; try done. intros _. by apply lookup_lt_Some in Hn. }
  assert ((snd <$> st_tokens (apply_between r i st0)) !! i = Some ind) as Hi1.
  { rewrite apply_between_indices. done. }
  rewrite list_lookup_fmap in Hi1.
  unfold apply_within.
  destruct (within r) as [wi|]; [|done].
  destruct (st_tokens (apply_between r i st0) !! i) as [[cur ind1]|]; [|done].
  simpl in Hi1. injection Hi1 as ->.
  destruct (subn _ _ cur) as [m cnt]. simpl.
  apply record_count_ok; [done|]. intros Hcnt. by apply HP.
Qed.

Lemma apply_rules_entries tokens rules counts st' :
  (∀ r i ind cnt b,
     r ∈ rules →
     (snd <$> tokens) !! i = Some ind →
     (b = true → S i < length tokens) →
     cnt ≠ 0 → ind ∉ except_ind r →
     (restrict_ind r = [] ∨ ind ∈ restrict_ind r) →
     P (id_rule r) (ind, cnt, b)) →
  apply_rules rasm qmorf tokens rules counts = Ok st' →
  counts_ok P counts → counts_ok P (st_counts st').
Proof.
  intros HP H Hok. unfold apply_rules in H.
  set (R := λ st1 st2 : state,
         (snd <$> st_tokens st1) = (snd <$> tokens) ∧ counts_ok P (st_counts st1) →
         (snd <$> st_tokens st2) = (snd <$> tokens) ∧ counts_ok P (st_counts st2)).
  assert (R (State tokens counts []) st') as HR; [|by apply HR].
  apply (apply_positions_lift rasm qmorf R) with rules (seq 0 (length tokens)); [| | |done].
  - intros ? ?. done.
  - intros ??? H1 H2 ?. unfold R in *. auto.
  - intros r i w st1 st2 Hr Hrun [Hinds Hc]. split.
    + by rewrite (apply_rule_indices _ _ _ _ _ _ Hrun).
    + eapply apply_rule_entries; [|done|done].
      intros ind cnt b Hi Hb. rewrite Hinds in Hi. apply (HP r i); [done|done|].
      intros Hbt. specialize (Hb Hbt).
      rewrite <-(length_fmap snd), Hinds, length_fmap in Hb. done.
Qed.

End entries.

Section pass_properties.

Context (rasm : str → str) (qmorf : gmap string morf).

(** X3. The sink never steers the pass. Two passes of the same table over the
    same tokens that differ only in the [counts] sink they are given (none,
    empty, or any other) end with the same tokens and the same output, or
    raise the same error. *)
Theorem counts_sink_never_steers (tokens : list token) (rules : list rule)
    (counts1 counts2 : option counts_t) :
  result_rel same_text (apply_rules rasm qmorf tokens rules counts1)
                       (apply_rules rasm qmorf tokens rules counts2).
Proof. apply apply_rules_same. Qed.

(** X4. [--rm --json] followed by [--add --json] on its output computes what
    [--eval] compares. When both runs complete, the tokens the first run
    writes are the de-tajweed-ized tokens of the evaluation run, the tokens
    the second run writes are its restored tokens, and the evaluation run
    ends with status 0 exactly when the text of the restored tokens equals
    the text of the original ones. *)
Theorem rm_then_add_is_eval (qtokens : list token) (out1 out2 : list line)
    (t1 t2 : list token) :
  rm_run rasm qmorf true qtokens = Ok (out1, Printed_json t1) →
  add_run rasm qmorf true t1 = Ok (out2, Printed_json t2) →
  ∃ rm ad ls,
    apply_rules rasm qmorf qtokens REMOVE_SANDHI_RULES
      (Some (counts_init REMOVE_SANDHI_RULES)) = Ok rm
    ∧ st_tokens rm = t1
    ∧ apply_rules rasm qmorf t1 RESTORE_SANDHI_RULES
        (Some (counts_init RESTORE_SANDHI_RULES)) = Ok ad
    ∧ st_tokens ad = t2
    ∧ eval_run rasm qmorf qtokens
      = Ok (ls, if bool_decide (qtext qtokens = qtext t2) then 0%Z else 1%Z).
Proof.
  unfold rm_run, add_run. intros H1 H2.
  destruct (apply_rules rasm qmorf qtokens REMOVE_SANDHI_RULES None) as [s1|e] eqn:Hrm;
    simpl in H1; [|done].
  injection H1 as _ Ht1.
  destruct (apply_rules rasm qmorf t1 RESTORE_SANDHI_RULES None) as [s2|e] eqn:Had;
    simpl in H2; [|done].
  injection H2 as _ Ht2.
  pose proof (apply_rules_same rasm qmorf qtokens REMOVE_SANDHI_RULES None
                (Some (counts_init REMOVE_SANDHI_RULES))) as Hs1.
  rewrite Hrm in Hs1.
  destruct (apply_rules rasm qmorf qtokens REMOVE_SANDHI_RULES
              (Some (counts_init REMOVE_SANDHI_RULES))) as [rm|e] eqn:Hrm'; [|done].
  destruct Hs1 as [Hs1 _].
  pose proof (apply_rules_same rasm qmorf t1 RESTORE_SANDHI_RULES None
                (Some (counts_init RESTORE_SANDHI_RULES))) as Hs2.
  rewrite Had in Hs2.
  destruct (apply_rules rasm qmorf t1 RESTORE_SANDHI_RULES
              (Some (counts_init RESTORE_SANDHI_RULES))) as [ad|e] eqn:Had'; [|done].
  destruct Hs2 as [Hs2 _].
  assert (st_tokens rm = t1) as Hrm1 by congruence.
  assert (st_tokens ad = t2) as Had1 by congruence.
  unfold eval_run. rewrite Hrm'. simpl. rewrite Hrm1, Had'. simpl.
  unfold roundtrip_check. rewrite Had1.
  case_bool_decide; eexists rm, ad, _; done.
Qed.


(** X6. A rule never fires at an index of its ExceptIndexes set. The turn of
    the rule at a token with such an index leaves the state as it is, and in
    a pass of a table with pairwise distinct ids, started on the empty
    traces of the evaluation run, no entry recorded under the id of the rule
    carries an index of the set. *)
Theorem excepted_index_never_fires (rules : list rule) (r : rule) :
  NoDup (id_rule <$> rules) → r ∈ rules →
  (∀ i w st tok ind,
     st_tokens st !! i = Some (tok, ind) → ind ∈ except_ind r →
     apply_rule qmorf r i w st = Ok st)
  ∧ (∀ tokens st' counts' l ind cnt b,
       apply_rules rasm qmorf tokens rules (Some (counts_init rules)) = Ok st' →
       st_counts st' = Some counts' →
       (id_rule r, l) ∈ counts' → (ind, cnt, b) ∈ l → ind ∉ except_ind r).
Proof.
  intros Hnd Hr. split.
  - intros i w st tok ind Hi Hex. unfold apply_rule. rewrite Hi.
    destruct (_ && _); [done|]. by rewrite bool_decide_eq_true_2.
  - intros tokens st' counts' l ind cnt b Hrun Hc Hl He.
    set (P := λ (id : string) (e : entry),
                ∀ r', r' ∈ rules → id_rule r' = id → e.1.1 ∉ except_ind r').
    assert (counts_ok P (st_counts st')) as Hok.
    { eapply (apply_rules_entries rasm qmorf P); [|done|apply counts_init_ok].
      intros r1 i ind1 cnt1 b1 Hr1 _ _ _ Hex _ r' Hr' Hid. simpl.
      by rewrite (NoDup_fmap_eq id_rule rules r' r1 Hnd Hr' Hr1 Hid). }
    rewrite Hc in Hok. simpl in Hok.
    rewrite Forall_forall in Hok. specialize (Hok _ Hl). simpl in Hok.
    rewrite Forall_forall in Hok. by apply (Hok _ He r).
Qed.

(** X7. The entries of a trace are well formed. Every entry that a pass
    started on the empty traces of the evaluation run holds at its end has a
    match count of at least 1 and carries the index of a token of the text;
    an entry of a boundary match carries the index of a token that has a
    successor (the last token never gets one). *)
Theorem trace_entries_well_formed (tokens : list token) (rules : list rule) (st' : state)
    (counts' : counts_t) (id : string) (l : list entry) (ind : index) (cnt : nat) (b : bool) :
  apply_rules rasm qmorf tokens rules (Some (counts_init rules)) = Ok st' →
  st_counts st' = Some counts' →
  (id, l) ∈ counts' → (ind, cnt, b) ∈ l →
  1 ≤ cnt
  ∧ (∃ r, r ∈ rules ∧ id_rule r = id)
  ∧ ∃ i tok, tokens !! i = Some (tok, ind) ∧ (b = true → S i < length tokens).
Proof.
  intros Hrun Hc Hl He.
  set (P := λ (id : string) (e : entry),
              1 ≤ e.1.2
              ∧ (∃ r, r ∈ rules ∧ id_rule r = id)
              ∧ ∃ i tok, tokens !! i = Some (tok, e.1.1) ∧ (e.2 = true → S i < length tokens)).
  assert (counts_ok P (st_counts st')) as Hok.
  { eapply (apply_rules_entries rasm qmorf P); [|done|apply counts_init_ok].
    intros r1 i ind1 cnt1 b1 Hr1 Hi Hb Hcnt _ _. unfold P. simpl.
    split; [lia|]. split; [by exists r1|].
    rewrite list_lookup_fmap in Hi.
    destruct (tokens !! i) as [[tok ind2]|] eqn:Hti; [|done].
    simpl in Hi. injection Hi as ->. by exists i, tok. }
  rewrite Hc in Hok. simpl in Hok.
  rewrite Forall_forall in Hok. specialize (Hok _ Hl). simpl in Hok.
  rewrite Forall_forall in Hok. apply (Hok _ He).
Qed.

End pass_properties.

(** The two runs on the words of Q.23:59:2-3. *)
Lemma rm_then_add_is_eval_witness :
  rm_run skeleton ex_qmorf true ex_tokens = Ok ([], Printed_json (st_tokens ex_removed))
  ∧ add_run skeleton ex_qmorf true (st_tokens ex_removed)
    = Ok ([], Printed_json (st_tokens ex_restored))
  ∧ ∃ rm ad ls,
      apply_rules skeleton ex_qmorf ex_tokens REMOVE_SANDHI_RULES
        (Some (counts_init REMOVE_SANDHI_RULES)) = Ok rm
      ∧ st_tokens rm = st_tokens ex_removed
      ∧ apply_rules skeleton ex_qmorf (st_tokens ex_removed) RESTORE_SANDHI_RULES
          (Some (counts_init RESTORE_SANDHI_RULES)) = Ok ad
      ∧ st_tokens ad = st_tokens ex_restored
      ∧ eval_run skeleton ex_qmorf ex_tokens
        = Ok (ls, if bool_decide (qtext ex_tokens = qtext (st_tokens ex_restored))
                  then 0%Z else 1%Z).
Proof.
  split; [vm_compute; reflexivity|].
  split; [vm_compute; reflexivity|].
  apply (rm_then_add_is_eval skeleton ex_qmorf ex_tokens [] [] (st_tokens ex_removed)
           (st_tokens ex_restored)).
  - vm_compute; reflexivity.
  - vm_compute; reflexivity.
Defined.


(** Restoral rule [HU] at Q.39:7:13, the index of its ExceptIndexes set. *)
Lemma excepted_index_never_fires_witness :
  NoDup (id_rule <$> RESTORE_SANDHI_RULES)
  ∧ restoral_HU ∈ RESTORE_SANDHI_RULES
  ∧ ex_except_tokens !! 0
    = Some ([ar_farsi_yeh; ar_fatha; ar_reh; ar_quranic_sukun; ar_dad; ar_fatha; ar_heh;
             ar_damma], (39, 7, 13)%Z)
  ∧ (39, 7, 13)%Z ∈ except_ind restoral_HU
  ∧ apply_rule ex_except_qmorf restoral_HU 0 [] (State ex_except_tokens None [])
    = Ok (State ex_except_tokens None []).
Proof.
  assert (NoDup (id_rule <$> RESTORE_SANDHI_RULES)) as Hnd.
  { apply table_ids_NoDup. right; reflexivity. }
  assert (restoral_HU ∈ RESTORE_SANDHI_RULES) as Hin.
  { apply (rule_by_id_elem_of "HU"); reflexivity. }
  assert ((39, 7, 13)%Z ∈ except_ind restoral_HU) as Hex.
  { apply list_elem_of_here. }
  split; [exact Hnd|]. split; [exact Hin|]. split; [reflexivity|]. split; [exact Hex|].
  apply (proj1 (excepted_index_never_fires skeleton ex_except_qmorf RESTORE_SANDHI_RULES
                  restoral_HU Hnd Hin)
           0 [] (State ex_except_tokens None [])
           [ar_farsi_yeh; ar_fatha; ar_reh; ar_quranic_sukun; ar_dad; ar_fatha; ar_heh;
            ar_damma] (39, 7, 13)%Z).
  - reflexivity.
  - exact Hex.
Defined.

(** The same word away from Q.39:7:13: rule [HU] fires and records the one
    entry of the pass. *)
Lemma trace_entries_well_formed_witness :
  apply_rules skeleton ex_except_qmorf ex_plain_tokens RESTORE_SANDHI_RULES
    (Some (counts_init RESTORE_SANDHI_RULES)) = Ok ex_plain_ad
  ∧ ("HU", [((1, 1, 1)%Z, 1, true)]) ∈ default [] (st_counts ex_plain_ad)
  ∧ 1 ≤ 1
  ∧ (∃ r, r ∈ RESTORE_SANDHI_RULES ∧ id_rule r = "HU")
  ∧ ∃ i tok, ex_plain_tokens !! i = Some (tok, (1, 1, 1)%Z)
             ∧ (true = true → S i < length ex_plain_tokens).
Proof.
  assert (("HU", [((1, 1, 1)%Z, 1, true)]) ∈ default [] (st_counts ex_plain_ad)) as Hin.
  { apply (bool_decide_unpack _). vm_compute. reflexivity. }
  split; [vm_compute; reflexivity|]. split; [exact Hin|].
  apply (trace_entries_well_formed skeleton ex_except_qmorf ex_plain_tokens
           RESTORE_SANDHI_RULES ex_plain_ad (default [] (st_counts ex_plain_ad))
           "HU" [((1, 1, 1)%Z, 1, true)] (1, 1, 1)%Z 1 true).
  - vm_compute; reflexivity.
  - reflexivity.
  - exact Hin.
  - apply list_elem_of_here.
Defined.

(** ** The verdict of the round trip *)

Section join_facts.

Implicit Types (s u v : str) (l : list str).

Lemma join_cons2 sep x y l : join sep (x :: y :: l) = x ++ sep ++ join sep (y :: l).
Proof. done. Qed.

(** The number of separators in a text. *)
Lemma join_count sep_c l :
  length (filter (λ c, c = sep_c) (join [sep_c] l))
  = (length l - 1) + length (filter (λ c, c = sep_c) (concat l)).
Proof.
  induction l as [|x [|y l] IH].
  - done.
  - simpl. by rewrite app_nil_r.
  - rewrite join_cons2, !filter_app, !length_app, IH.
    rewrite filter_cons, decide_True by done.
    change (concat (x :: y :: l)) with (x ++ concat (y :: l)).
    rewrite filter_app, length_app. simpl. lia.
Qed.

Lemma filter_none_concat sep_c l :
  length (filter (λ c, c = sep_c) (concat l)) = 0 ↔ Forall (λ s, sep_c ∉ s) l.
Proof.
  induction l as [|x l IH]; simpl.
  - split; [by constructor|done].
  - rewrite filter_app, length_app, Forall_cons. split.
    + intros H. split.
      * intros Hin. assert (sep_c ∈ filter (λ c, c = sep_c) x) as Hf.
        { by apply list_elem_of_filter. }
        destruct (filter (λ c, c = sep_c) x); [by apply elem_of_nil in Hf|]. simpl in H. lia.
      * apply IH. lia.
    + intros [Hx Hl]. apply IH in Hl. rewrite Hl.
      destruct (filter (λ c, c = sep_c) x) as [|a f] eqn:Hf; [done|].
      assert (a ∈ filter (λ c, c = sep_c) x) as Ha by (rewrite Hf; left).
      apply list_elem_of_filter in Ha as [-> Ha]. done.
Qed.

Lemma split_at_first sep_c s s' u v :
  sep_c ∉ s → sep_c ∉ s' → s ++ sep_c :: u = s' ++ sep_c :: v → s = s' ∧ u = v.
Proof.
  revert s'. induction s as [|a s IH]; intros [|a' s'] Hs Hs'; simpl.
  - by intros [= ->].
  - intros [= <- _]. destruct Hs'. left.
  - intros [= -> _]. destruct Hs. left.
  - intros [= <- H]. apply IH in H as [-> ->]; [done| |].
    + intros ?. apply Hs. by right.
    + intros ?. apply Hs'. by right.
Qed.

Lemma join_inj_free sep_c l l' :
  length l = length l' →
  Forall (λ s, sep_c ∉ s) l → Forall (λ s, sep_c ∉ s) l' →
  join [sep_c] l = join [sep_c] l' → l = l'.
Proof.
  revert l'. induction l as [|x l IH]; intros [|x' l'] Hlen Hl Hl'; try done.
  apply Forall_cons in Hl as [Hx Hl]. apply Forall_cons in Hl' as [Hx' Hl'].
  destruct l as [|y l], l' as [|y' l']; try done.
  - simpl. by intros ->.
  - rewrite !join_cons2. simpl. intros H.
    apply split_at_first in H as [-> H]; [|done..].
    f_equal. apply IH; [simpl in *; lia|done..].
Qed.

(** Texts joined with a separator that the texts of the first list do not
    hold are equal only if the lists are, when they are of the same length. *)
Lemma join_inj sep_c l l' :
  length l = length l' →
  Forall (λ s, sep_c ∉ s) l →
  join [sep_c] l = join [sep_c] l' → l = l'.
Proof.
  intros Hlen Hl H. apply (join_inj_free sep_c); [done|done| |done].
  apply filter_none_concat.
  apply (f_equal (λ s, length (filter (λ c, c = sep_c) s))) in H.
  rewrite !join_count in H.
  apply filter_none_concat in Hl. lia.
Qed.

End join_facts.

Section roundtrip.

Context (rasm : str → str) (qmorf : gmap string morf).

Lemma apply_rules_indices tokens rules counts st' :
  apply_rules rasm qmorf tokens rules counts = Ok st' →
  (snd <$> st_tokens st') = (snd <$> tokens).
Proof. unfold apply_rules. intros H. by apply apply_positions_indices in H. Qed.

Lemma fst_snd_eq {A B} (l l' : list (A * B)) :
  fst <$> l = fst <$> l' → snd <$> l = snd <$> l' → l = l'.
Proof.
  revert l'. induction l as [|[a b] l IH]; intros [|[a' b'] l']; simpl; try done.
  intros [= -> H1] [= -> H2]. f_equal. by apply IH.
Qed.

(** X8. What the round-trip verdict means. The evaluation run compares the
    texts joined by spaces. When no original token holds a space, the joined
    texts are equal exactly when the restored tokens are the original tokens,
    text by text and index by index. *)
Theorem roundtrip_verdict_is_tokenwise (qtokens : list token) (rm ad : state) :
  apply_rules rasm qmorf qtokens REMOVE_SANDHI_RULES
    (Some (counts_init REMOVE_SANDHI_RULES)) = Ok rm →
  apply_rules rasm qmorf (st_tokens rm) RESTORE_SANDHI_RULES
    (Some (counts_init RESTORE_SANDHI_RULES)) = Ok ad →
  Forall (λ t, space ∉ t.1) qtokens →
  qtext qtokens = qtext (st_tokens ad) ↔ st_tokens ad = qtokens.
Proof.
  intros Hrm Had Hfree. split; [|by intros ->].
  apply apply_rules_indices in Hrm, Had. rewrite Hrm in Had.
  unfold qtext. intros H. symmetry. apply fst_snd_eq; [|done].
  apply (join_inj space); [|by apply Forall_fmap|done].
  rewrite !length_fmap. by rewrite <-(length_fmap snd qtokens), <-Had, length_fmap.
Qed.

End roundtrip.

(** The verdict on the words of Q.23:59:2-3. *)
Lemma roundtrip_verdict_is_tokenwise_witness :
  apply_rules skeleton ex_qmorf ex_tokens REMOVE_SANDHI_RULES
    (Some (counts_init REMOVE_SANDHI_RULES)) = Ok ex_eval_rm
  ∧ apply_rules skeleton ex_qmorf (st_tokens ex_eval_rm) RESTORE_SANDHI_RULES
      (Some (counts_init RESTORE_SANDHI_RULES)) = Ok ex_eval_ad
  ∧ Forall (λ t, space ∉ t.1) ex_tokens
  ∧ (qtext ex_tokens = qtext (st_tokens ex_eval_ad) ↔ st_tokens ex_eval_ad = ex_tokens).
Proof.
  assert (Forall (λ t : token, space ∉ t.1) ex_tokens) as Hfree.
  { apply (bool_decide_unpack _). vm_compute. reflexivity. }
  split; [vm_compute; reflexivity|].
  split; [vm_compute; reflexivity|].
  split; [exact Hfree|].
  apply (roundtrip_verdict_is_tokenwise skeleton ex_qmorf ex_tokens ex_eval_rm ex_eval_ad).
  - vm_compute; reflexivity.
  - vm_compute; reflexivity.
  - exact Hfree.
Defined.

(** ** A rule and its inverse; the shape of the tables *)

Section pair_at_end.

Implicit Types (s pre rest cs : str) (a b : char).

Lemma matches_pair_eol a b s pos :
  matches (Seq (Str [a; b]) Eol) s pos []
  = if bool_decide (s !! pos = Some a) && bool_decide (s !! S pos = Some b)
       && at_end s (S (S pos))
    then [(S (S pos), [])] else [].
Proof.
  cbn [matches Str foldr].
  destruct (s !! pos) as [x|] eqn:Hx; [|by rewrite bool_decide_eq_false_2].
  destruct (decide (x = a)) as [->|Hne].
  2:{ rewrite bool_decide_eq_false_2 by done.
      by rewrite (bool_decide_eq_false_2 (Some x = Some a)) by congruence. }
  rewrite !bool_decide_eq_true_2 by done. csimpl.
  destruct (s !! S pos) as [y|] eqn:Hy; [|by rewrite bool_decide_eq_false_2].
  destruct (decide (y = b)) as [->|Hne].
  2:{ rewrite bool_decide_eq_false_2 by done.
      by rewrite (bool_decide_eq_false_2 (Some y = Some b)) by congruence. }
  rewrite !bool_decide_eq_true_2 by done. csimpl.
  by destruct (at_end s (S (S pos))).
Qed.

(** In a word that ends in [a b], the pattern [ab$] matches at one place. *)
Lemma matches_pair_eol_last a b pre pos :
  b ≠ newline →
  matches (Seq (Str [a; b]) Eol) (pre ++ [a; b]) pos []
  = if bool_decide (pos = length pre) then [(S (S pos), [])] else [].
Proof.
  intros Hb. rewrite matches_pair_eol.
  destruct (decide (pos = length pre)) as [->|Hne].
  - rewrite list_lookup_middle by done.
    rewrite (cons_middle a pre [b]), (assoc_L (++)).
    rewrite list_lookup_middle by (rewrite length_app; simpl; lia).
    rewrite !bool_decide_eq_true_2 by done. simpl.
    replace (at_end _ (S (S (length pre)))) with true; [done|].
    symmetry. apply at_end_spec. left. rewrite !length_app. simpl. lia.
  - rewrite (bool_decide_eq_false_2 (pos = length pre)) by done.
    destruct (bool_decide (_ !! pos = Some a)) eqn:Hx; [|done].
    destruct (bool_decide (_ !! S pos = Some b)) eqn:Hy; [|done]. simpl.
    apply bool_decide_eq_true in Hy. apply lookup_lt_Some in Hy as Hlt.
    rewrite length_app in Hlt. simpl in Hlt.
    replace (at_end (pre ++ [a; b]) (S (S pos))) with false; [done|].
    symmetry. apply not_true_is_false. rewrite at_end_spec.
    rewrite length_app. simpl. intros [?|[? Hnl]]; [lia|].
    assert (S (S pos) = S (length pre)) as Heq by lia.
    rewrite Heq in Hnl.
    rewrite (cons_middle a pre [b]), (assoc_L (++)) in Hnl.
    rewrite list_lookup_middle in Hnl by (rewrite length_app; simpl; lia). congruence.
Qed.

Lemma search_pair_eol a b pre :
  b ≠ newline → search (Seq (Str [a; b]) Eol) (pre ++ [a; b]) = true.
Proof.
  intros Hb. unfold search. apply bool_decide_eq_true.
  exists (length pre, S (S (length pre)), []).
  apply search_from_first with (l := []).
  - rewrite length_app. simpl. lia.
  - intros j Hj. rewrite matches_pair_eol_last by done.
    rewrite bool_decide_eq_false_2; [done|lia].
  - rewrite matches_pair_eol_last by done. by rewrite bool_decide_eq_true_2.
  - lia.
Qed.

(** [re.subn('ab$', cs, pre + 'ab')] is [(pre + cs, 1)]. *)
Lemma subn_pair_eol a b pre cs :
  b ≠ newline →
  subn (Seq (Str [a; b]) Eol) (lit cs) (pre ++ [a; b]) = (pre ++ cs, 1).
Proof.
  intros Hb. unfold subn.
  replace (2 * length (pre ++ [a; b]) + 2) with (S (S (2 * length (pre ++ [a; b])))) by lia.
  cbn [subn_loop].
  rewrite (search_from_first _ _ _ 0 false (length pre) (S (S (length pre))) [] []).
  2: { rewrite length_app. simpl. lia. }
  2: { intros j Hj. rewrite matches_pair_eol_last by done.
       rewrite bool_decide_eq_false_2; [done|lia]. }
  2: { rewrite matches_pair_eol_last by done. by rewrite bool_decide_eq_true_2. }
  2: lia.
  rewrite search_from_None.
  2: { intros b2 Hb2. rewrite matches_pair_eol_last by done.
       rewrite bool_decide_eq_false_2; [done|lia]. }
  rewrite expand_lit, Nat.sub_0_r, drop_0, take_app_length, app_nil_l.
  replace (S (S (length pre))) with (length (pre ++ [a; b]))
    by (rewrite length_app; simpl; lia).
  by rewrite drop_all, app_nil_r.
Qed.

End pair_at_end.

Section M1_pair.

Context (qmorf : gmap string morf).

Lemma apply_rule_plain r i w st tok ind :
  st_tokens st !! i = Some (tok, ind) →
  restrict_ind r = [] → except_ind r = [] → FILTER_POS r = None →
  id_rule r ∉ ["HU"; "HI"] →
  apply_rule qmorf r i w st = Ok (apply_within r i (apply_between r i st)).
Proof.
  intros Hi Hre Hex Hpos Hid. unfold apply_rule. rewrite Hi, Hre, Hex.
  rewrite (bool_decide_eq_false_2 ([] ≠ [])) by (intros H; by apply H).
  rewrite (bool_decide_eq_false_2 (ind ∈ [])) by apply not_elem_of_nil.
  cbn [andb]. unfold pos_filtered. rewrite Hpos.
  cbn [mbind result_bind mret result_ret].
  rewrite clitic_check_other by done.
  cbn [mbind result_bind mret result_ret]. f_equal. f_equal. f_equal.
  destruct st. simpl. by rewrite app_nil_r.
Qed.

(** X9. Rule [M1] and its inverse undo each other. Where a word ends in meem
    and the next word begins with beh, the turn of removal rule [M1] followed
    by the turn of restoral rule [M1] at the same position gives every token
    back as it was; each of the two turns records one boundary match with
    count 1 under the index of the word. *)
Theorem M1_round_trip (i : nat) (w w' : str) (st : state)
    (pre : str) (ind : index) (rest : str) (ind_next : index) :
  st_tokens st !! i = Some (pre ++ [ar_meem], ind) →
  st_tokens st !! S i = Some (ar_beh :: rest, ind_next) →
  ∃ st1 st2,
    apply_rule qmorf removal_M1 i w st = Ok st1
    ∧ st_tokens st1 !! i = Some (pre ++ [ar_meem; ar_quranic_sukun], ind)
    ∧ st_counts st1 = record_count "M1" ind 1 true (st_counts st)
    ∧ apply_rule qmorf restoral_M1 i w' st1 = Ok st2
    ∧ st_tokens st2 = st_tokens st
    ∧ st_counts st2 = record_count "M1" ind 1 true (st_counts st1).
Proof.
  intros Hi Hs.
  pose proof (lookup_lt_Some _ _ _ Hi) as Hlt.
  set (st1 := State (<[i := (pre ++ [ar_meem; ar_quranic_sukun], ind)]> (st_tokens st))
                    (record_count "M1" ind 1 true (st_counts st)) (st_out st)).
  assert (apply_rule qmorf removal_M1 i w st = Ok st1) as H1.
  { rewrite (apply_rule_plain _ i w st _ ind Hi); try done.
    2:{ by apply (bool_decide_unpack _). }
    f_equal. unfold apply_within. change (within removal_M1) with (@None inside).
    unfold apply_between.
    change (between removal_M1) with
      (Some (Boundary (Chr ar_meem) (Chr ar_beh) (lit [ar_meem; ar_quranic_sukun])
               (Some (lit [ar_beh])))).
    cbn [tok_pre tok_post repl_pre repl_post anchor_end anchor_start].
    rewrite Hi, Hs.
    rewrite search_chr_eol, search_bol_chr by done. cbn [andb].
    rewrite (subn_chr_eol ar_meem pre [ar_meem; ar_quranic_sukun]) by done.
    rewrite sub_bol_chr_same. cbn [lit fmap list_fmap].
    by rewrite (list_insert_id (st_tokens st) (S i)) by done. }
  assert (st_tokens st1 !! i = Some (pre ++ [ar_meem; ar_quranic_sukun], ind)) as Hi1.
  { simpl. by apply list_lookup_insert_eq. }
  assert (st_tokens st1 !! S i = Some (ar_beh :: rest, ind_next)) as Hs1.
  { simpl. by rewrite list_lookup_insert_ne by lia. }
  exists st1, (State (st_tokens st) (record_count "M1" ind 1 true (st_counts st1)) (st_out st)).
  split; [done|]. split; [done|]. split; [done|]. split; [|done].
  rewrite (apply_rule_plain _ i w' st1 _ ind Hi1); try done.
  2:{ by apply (bool_decide_unpack _). }
  f_equal. unfold apply_within. change (within restoral_M1) with (@None inside).
  unfold apply_between.
  change (between restoral_M1) with
    (Some (Boundary (Str [ar_meem; ar_quranic_sukun]) (Chr ar_beh) (lit [ar_meem])
             (Some (lit [ar_beh])))).
  cbn [tok_pre tok_post repl_pre repl_post anchor_end anchor_start].
  change (anchor_end (Str [ar_meem; ar_quranic_sukun]))
    with (Seq (Str [ar_meem; ar_quranic_sukun]) Eol).
  rewrite Hi1, Hs1.
  rewrite (search_pair_eol ar_meem ar_quranic_sukun pre), search_bol_chr by done.
  cbn [andb].
  rewrite (subn_pair_eol ar_meem ar_quranic_sukun pre [ar_meem]) by done.
  rewrite sub_bol_chr_same. cbn [lit fmap list_fmap].
  rewrite (list_insert_id (st_tokens st1) (S i)) by done.
  f_equal. simpl. rewrite list_insert_insert_eq. by apply list_insert_id.
Qed.

End M1_pair.

Section table_shape.

Context (qmorf : gmap string morf).

Lemma table_force_empty rules r :
  is_table rules → r ∈ rules → force_ind r = [] ∧ except_lemas r = [].
Proof.
  intros Ht Hr.
  set (f := λ r : rule, bool_decide (force_ind r = []) && bool_decide (except_lemas r = [])).
  assert (forallb f rules = true) as Hf by (destruct Ht as [->| ->]; vm_compute; reflexivity).
  pose proof (forallb_elem_of f rules r Hf Hr) as H. unfold f in H.
  apply andb_true_iff in H as [H1 H2]. by apply bool_decide_eq_true in H1, H2.
Qed.

(** X10. No row of the tables uses the two sets the engine makes room for.
    In both tables the ForceIndexes set and the set of excluded lemmas of
    every rule are empty; so the check of the roots is never overridden: for
    rules [HU] and [HI] it is made at every word that the earlier guards let
    through, and a word without a record stops it with a KeyError. *)
Theorem force_override_unused (rules : list rule) (r : rule) :
  is_table rules → r ∈ rules →
  force_ind r = [] ∧ except_lemas r = []
  ∧ (id_rule r ∈ ["HU"; "HI"] →
     ∀ ind w, qmorf !! ind_key ind = None →
              clitic_check qmorf r ind w = Err (KeyError (ind_key ind))).
Proof.
  intros Ht Hr. destruct (table_force_empty rules r Ht Hr) as [Hf He].
  split; [done|]. split; [done|].
  intros Hid ind w Hm. unfold clitic_check, lookup_morf. rewrite Hf, Hm.
  rewrite (bool_decide_eq_true_2 (ind ∉ [])) by apply not_elem_of_nil.
  by rewrite (bool_decide_eq_true_2 _ Hid).
Qed.

(** X11. A rule and its inverse are guarded alike. For every id other than
    [P-sil-1] the removal rule and the restoral rule of that id have the same
    POS filter and the same sets of excepted, forced and restricting
    indices. Rule [P-sil-1] is the one exception: its removal rule excepts
    no index, its restoral rule those of [EXCLUDE_INDEXES_SIL_1]. *)
Theorem paired_rules_guarded_alike (id : string) (r r' : rule) :
  rule_by_id id REMOVE_SANDHI_RULES = Some r →
  rule_by_id id RESTORE_SANDHI_RULES = Some r' →
  (id ≠ "P-sil-1" → guards_agree r r' = true)
  ∧ (id = "P-sil-1" → except_ind r = [] ∧ except_ind r' = EXCLUDE_INDEXES_SIL_1).
Proof.
  intros Hr Hr'. split.
  - intros Hid.
    set (f := λ r : rule,
           match rule_by_id (id_rule r) RESTORE_SANDHI_RULES with
           | Some r' => bool_decide (id_rule r = "P-sil-1") || guards_agree r r'
           | None => false
           end).
    assert (forallb f REMOVE_SANDHI_RULES = true) as Hf by (vm_compute; reflexivity).
    apply rule_by_id_elem_of in Hr as [Hin Hidr].
    pose proof (forallb_elem_of f _ r Hf Hin) as H. unfold f in H.
    rewrite Hidr, Hr' in H. by rewrite bool_decide_eq_false_2 in H.
  - intros ->. vm_compute in Hr, Hr'.
    injection Hr as <-. injection Hr' as <-. split; reflexivity.
Qed.

(** X12. Every reference of a replacement has its group. In both tables each
    [\1], [\2] of a replacement refers to a group that the pattern it
    replaces has, so no substitution of a pass raises for an invalid group
    reference. *)
Theorem table_refs_bound (rules : list rule) (r : rule) :
  is_table rules → r ∈ rules → rule_refs_bound r = true.
Proof.
  intros Ht Hr.
  assert (forallb rule_refs_bound rules = true) as Hf
    by (destruct Ht as [->| ->]; vm_compute; reflexivity).
  exact (forallb_elem_of rule_refs_bound rules r Hf Hr).
Qed.

End table_shape.

(** The two turns on the words of Q.23:59:2-3. *)
Lemma M1_round_trip_witness :
  ∃ st1 st2,
    apply_rule ex_qmorf removal_M1 0 [] (State ex_tokens (Some []) []) = Ok st1
    ∧ st_tokens st1 !! 0 = Some ([ar_heh; ar_damma] ++ [ar_meem; ar_quranic_sukun], (23, 59, 2)%Z)
    ∧ st_counts st1 = record_count "M1" (23, 59, 2)%Z 1 true (Some [])
    ∧ apply_rule ex_qmorf restoral_M1 0 [] st1 = Ok st2
    ∧ st_tokens st2 = ex_tokens
    ∧ st_counts st2 = record_count "M1" (23, 59, 2)%Z 1 true (st_counts st1).
Proof.
  apply (M1_round_trip ex_qmorf 0 [] [] (State ex_tokens (Some []) [])
           [ar_heh; ar_damma] (23, 59, 2)%Z
           [ar_kasra; ar_reh; ar_fatha; ar_beh; ar_shadda; ar_kasra; ar_heh; ar_kasra;
            ar_meem; ar_quranic_sukun] (23, 59, 3)%Z).
  - reflexivity.
  - reflexivity.
Defined.

(** Removal rule [HU] on a word without a record. *)
Lemma force_override_unused_witness :
  force_ind removal_HU = [] ∧ except_lemas removal_HU = []
  ∧ (id_rule removal_HU ∈ ["HU"; "HI"] →
     ∀ ind w, ex_qmorf !! ind_key ind = None →
              clitic_check ex_qmorf removal_HU ind w = Err (KeyError (ind_key ind))).
Proof.
  apply (force_override_unused ex_qmorf REMOVE_SANDHI_RULES removal_HU).
  - left; reflexivity.
  - apply (rule_by_id_elem_of "HU"); reflexivity.
Defined.

(** The two rules [HU], which except the same index Q.39:7:13. *)
Lemma paired_rules_guarded_alike_witness :
  ("HU" ≠ "P-sil-1" → guards_agree removal_HU restoral_HU = true)
  ∧ ("HU" = "P-sil-1" →
     except_ind removal_HU = [] ∧ except_ind restoral_HU = EXCLUDE_INDEXES_SIL_1).
Proof.
  apply (paired_rules_guarded_alike "HU" removal_HU restoral_HU).
  - reflexivity.
  - reflexivity.
Defined.

(** Removal rule [P-sil-1], whose replacement is the first group of its
    pattern. *)
Lemma table_refs_bound_witness : rule_refs_bound removal_P_sil_1 = true.
Proof.
  apply (table_refs_bound REMOVE_SANDHI_RULES removal_P_sil_1).
  - left; reflexivity.
  - apply (rule_by_id_elem_of "P-sil-1"); reflexivity.
Defined.

(** ** The table built from the corpus *)

Section keys.

Import Stdlib.Strings.Ascii.

Lemma pretty_N_char_digit x c :
  pretty_N_char x = c → c ∈ ["0"; "1"; "2"; "3"; "4"; "5"; "6"; "7"; "8"; "9"]%char.
Proof.
  intros <-. unfold pretty_N_char.
  repeat case_match; apply (bool_decide_unpack _); vm_compute; reflexivity.
Qed.

Lemma pretty_N_go_sep_free c x s : is_sep c → sep_free c s → sep_free c (pretty_N_go x s).
Proof.
  intros Hc. revert s. induction (N.lt_wf_0 x) as [x _ IH]; intros s Hs.
  assert (x = 0 ∨ 0 < x)%N as [->|?] by lia.
  - by rewrite pretty_N_go_0.
  - rewrite pretty_N_go_step by done. apply IH.
    + by apply N.div_lt.
    + split; [|done]. intros Heq. apply pretty_N_char_digit in Heq.
      apply Hc. by right.
Qed.

Lemma pretty_N_sep_free c (x : N) : is_sep c → sep_free c (pretty x).
Proof.
  intros Hc. unfold pretty, pretty_N. case_decide.
  - split; [|done]. intros <-. apply Hc. right. left.
  - by apply pretty_N_go_sep_free.
Qed.

Lemma pretty_Z_sep_free c (x : Z) : is_sep c → sep_free c (pretty x).
Proof.
  intros Hc. destruct x as [|p|p]; unfold pretty, pretty_Z.
  - split; [|done]. intros <-. apply Hc. right. left.
  - by apply pretty_N_sep_free.
  - split; [|by apply pretty_N_sep_free]. intros <-. apply Hc. left.
Qed.

Lemma split_at_sep c a a' u v :
  sep_free c a → sep_free c a' →
  a +:+ String c u = a' +:+ String c v → a = a' ∧ u = v.
Proof.
  revert a'. induction a as [|x a IH]; intros [|x' a']; simpl.
  - by intros _ _ [= ->].
  - intros _ [Hc _] [= <- _]. done.
  - intros [Hc _] _ [= -> _]. done.
  - intros [_ Ha] [_ Ha'] [= <- H]. apply IH in H as [-> ->]; done.
Qed.

Lemma is_sep_comma : is_sep ","%char.
Proof. unfold is_sep. apply (bool_decide_unpack _). vm_compute. reflexivity. Qed.

Lemma is_sep_colon : is_sep ":"%char.
Proof. unfold is_sep. apply (bool_decide_unpack _). vm_compute. reflexivity. Qed.

(** Distinct indices have distinct keys. *)
Lemma ind_key_inj_aux (ind ind' : index) : ind_key ind = ind_key ind' → ind = ind'.
Proof.
  destruct ind as [[s v] w], ind' as [[s' v'] w']. unfold ind_key. simpl.
  intros H.
  apply split_at_sep in H as [Hs H]; [|apply pretty_Z_sep_free, is_sep_comma..].
  apply split_at_sep in H as [Hv Hw]; [|apply pretty_Z_sep_free, is_sep_comma..].
  apply (inj pretty) in Hs, Hv, Hw. by subst.
Qed.

Lemma qmorf_key_ind_key it : qmorf_key it = ind_key (item_index it).
Proof. done. Qed.

End keys.

Section fromkeys_facts.

Lemma fromkeys_acc_spec (acc l : list string) :
  NoDup acc →
  let keys := foldl (λ keys k, if bool_decide (k ∈ keys) then keys else keys ++ [k]) acc l in
  NoDup keys ∧ (∀ k, k ∈ keys ↔ k ∈ acc ∨ k ∈ l) ∧ ∃ more, keys = acc ++ more.
Proof.
  revert acc. induction l as [|x l IH]; intros acc Hacc; simpl.
  - split; [done|]. split; [|by exists []; rewrite app_nil_r].
    intros k. rewrite elem_of_nil. tauto.
  - case_bool_decide as Hx.
    + destruct (IH acc Hacc) as (H1 & H2 & H3). split; [done|]. split; [|done].
      intros k. rewrite H2, elem_of_cons. split; [tauto|].
      intros [?|[Hk|?]]; [tauto|subst k; tauto|tauto].
    + assert (NoDup (acc ++ [x])) as Hacc'.
      { apply NoDup_app. split; [done|]. split; [|apply NoDup_singleton].
        intros y Hy ->%list_elem_of_singleton. done. }
      destruct (IH _ Hacc') as (H1 & H2 & more & H3). split; [done|]. split.
      * intros k. rewrite H2, elem_of_app, list_elem_of_singleton, elem_of_cons. tauto.
      * exists (x :: more). by rewrite H3, <-(assoc_L (++)).
Qed.

Lemma fromkeys_NoDup l : NoDup (fromkeys l).
Proof. apply (fromkeys_acc_spec [] l). constructor. Qed.

Lemma fromkeys_elem_of l k : k ∈ fromkeys l ↔ k ∈ l.
Proof.
  destruct (fromkeys_acc_spec [] l (NoDup_nil_2)) as (_ & H & _).
  unfold fromkeys. rewrite H, elem_of_nil. tauto.
Qed.

(** The first key is the first element. *)
Lemma fromkeys_head x l : head (fromkeys (x :: l)) = Some x.
Proof.
  unfold fromkeys. simpl.
  destruct (fromkeys_acc_spec [x] l (NoDup_singleton x)) as (_ & _ & more & ->). done.
Qed.

End fromkeys_facts.

Section table_of_corpus.

Implicit Types (it : Mushaf.item) (dt_quran : list Mushaf.item).

Lemma qmorf_process_snoc dt_quran it :
  _qmorf_process (dt_quran ++ [it])
  = <[qmorf_key it := qmorf_record it]> (_qmorf_process dt_quran).
Proof. unfold _qmorf_process. by rewrite foldl_app. Qed.

(** A key of the dict holds the record of an item with that key. *)
Lemma qmorf_process_lookup_Some dt_quran key rec :
  _qmorf_process dt_quran !! key = Some rec →
  ∃ it, it ∈ dt_quran ∧ qmorf_key it = key ∧ rec = qmorf_record it.
Proof.
  induction dt_quran as [|it dt_quran IH] using rev_ind.
  - unfold _qmorf_process. simpl. by rewrite lookup_empty.
  - rewrite qmorf_process_snoc.
    destruct (decide (qmorf_key it = key)) as [<-|Hne].
    + rewrite lookup_insert_eq. intros [= <-]. exists it.
      rewrite elem_of_app, list_elem_of_singleton. auto.
    + rewrite lookup_insert_ne by done. intros H.
      destruct (IH H) as (it' & Hin & Hk & Hr). exists it'.
      rewrite elem_of_app. auto.
Qed.

(** Every item has its key in the dict. *)
Lemma qmorf_process_lookup_is_Some dt_quran it :
  it ∈ dt_quran → is_Some (_qmorf_process dt_quran !! qmorf_key it).
Proof.
  induction dt_quran as [|it' dt_quran IH] using rev_ind.
  - by intros ?%elem_of_nil.
  - rewrite qmorf_process_snoc, elem_of_app, list_elem_of_singleton.
    destruct (decide (qmorf_key it' = qmorf_key it)) as [Heq|Hne].
    + rewrite Heq, lookup_insert_eq. by eexists.
    + rewrite lookup_insert_ne by done. intros [?| ->]; [by apply IH|done].
Qed.

(** The item that comes last under a key gives the record. *)
Lemma qmorf_process_lookup_last dt_quran it :
  it ∈ dt_quran →
  (∀ it', it' ∈ dt_quran → qmorf_key it' = qmorf_key it → it' = it) →
  _qmorf_process dt_quran !! qmorf_key it = Some (qmorf_record it).
Proof.
  intros Hin Huniq.
  destruct (qmorf_process_lookup_is_Some dt_quran it Hin) as [rec Hrec].
  rewrite Hrec. apply qmorf_process_lookup_Some in Hrec as (it' & Hin' & Hk & ->).
  by rewrite (Huniq it' Hin' Hk).
Qed.



Lemma QMORF_lookup dt_quran key m :
  QMORF dt_quran !! key = Some m →
  ∃ it, it ∈ dt_quran ∧ qmorf_key it = key ∧ m = (qmorf_record it).2.
Proof.
  unfold QMORF. rewrite lookup_fmap.
  destruct (_qmorf_process dt_quran !! key) as [rec|] eqn:H; [|done].
  simpl. intros [= <-].
  apply qmorf_process_lookup_Some in H as (it & ? & ? & ->). by exists it.
Qed.

End table_of_corpus.

(** X13. Distinct indices never share a key of the morphological table: the
    key [','.join(map(str, ind))] determines the index. *)
Theorem ind_key_injective (ind ind' : index) : ind_key ind = ind_key ind' ↔ ind = ind'.
Proof. split; [apply ind_key_inj_aux|by intros ->]. Qed.

Section corpus_table.

Context (rasm : str → str).

Implicit Types (it : Mushaf.item) (dt_quran : list Mushaf.item).

(** X14. The table built by [_qmorf_process] answers every lookup the engine
    makes for a word of the corpus. For an item whose index no other item of
    the corpus has, the key that [apply_rules] forms from the index finds the
    record built from that item. *)
Theorem qmorf_process_lookup dt_quran it :
  it ∈ dt_quran →
  (∀ it', it' ∈ dt_quran → item_index it' = item_index it → it' = it) →
  QMORF dt_quran !! ind_key (item_index it) = Some (qmorf_record it).2.
Proof.
  intros Hin Huniq. unfold QMORF. rewrite lookup_fmap, <-qmorf_key_ind_key.
  rewrite (qmorf_process_lookup_last dt_quran it Hin); [done|].
  intros it' Hin' Hk. apply Huniq; [done|].
  rewrite !qmorf_key_ind_key in Hk. by apply ind_key_inj_aux.
Qed.


End corpus_table.

Lemma POS_MAPPING_values :
  map_Forall (λ _ v, v = "N" ∨ v = "P") POS_MAPPING.
Proof. apply (bool_decide_unpack _). vm_compute. reflexivity. Qed.

Lemma pos_norm_cases t : pos_norm t = t ∨ pos_norm t = "N" ∨ pos_norm t = "P".
Proof.
  unfold pos_norm. destruct (POS_MAPPING !! t) as [v|] eqn:H; simpl; [|by left].
  right. by apply POS_MAPPING_values in H.
Qed.

Lemma pos_norm_idemp t : pos_norm (pos_norm t) = pos_norm t.
Proof.
  destruct (pos_norm_cases t) as [H|[H|H]]; rewrite H; [done|..]; vm_compute; reflexivity.
Qed.

(** X16. The collapse of the POS tags. A tag is kept, or becomes [N] or [P],
    and collapsing twice changes nothing more. The tags [CONJ] and [SUB] are
    kept as they are: the table has the one key [CONJSUB] in their place, so
    a word's list of tags is not confined to [N], [V] and [P]. *)
Theorem pos_norm_collapse (t : string) :
  (pos_norm t = t ∨ pos_norm t = "N" ∨ pos_norm t = "P")
  ∧ pos_norm (pos_norm t) = pos_norm t
  ∧ pos_norm "CONJ" = "CONJ" ∧ pos_norm "SUB" = "SUB" ∧ pos_norm "CONJSUB" = "P".
Proof.
  split; [apply pos_norm_cases|]. split; [apply pos_norm_idemp|].
  repeat split; vm_compute; reflexivity.
Qed.

(** X17. The list of tags of a record. It holds exactly the collapsed tags of
    the entries of the item, each once, the tag of the first entry first;
    none of them is a tag that the collapse would still change. *)
Theorem qmorf_record_pos (it : Mushaf.item) :
  NoDup (pos (qmorf_record it).2)
  ∧ (∀ t, t ∈ pos (qmorf_record it).2
          ↔ ∃ mo, mo ∈ Mushaf.morf it ∧ pos_norm (Mushaf.POS mo) = t)
  ∧ (∀ mo rest, Mushaf.morf it = mo :: rest →
                head (pos (qmorf_record it).2) = Some (pos_norm (Mushaf.POS mo)))
  ∧ (∀ t, t ∈ pos (qmorf_record it).2 → pos_norm t = t).
Proof.
  simpl. split; [apply fromkeys_NoDup|].
  assert (∀ t, t ∈ fromkeys ((λ m, pos_norm (Mushaf.POS m)) <$> Mushaf.morf it)
               ↔ ∃ mo, mo ∈ Mushaf.morf it ∧ pos_norm (Mushaf.POS mo) = t) as Hel.
  { intros t. rewrite fromkeys_elem_of, list_elem_of_fmap. split.
    - intros (mo & -> & ?). by exists mo.
    - intros (mo & ? & <-). by exists mo. }
  split; [exact Hel|]. split.
  - intros mo rest ->. rewrite fmap_cons. apply fromkeys_head.
  - intros t Ht. apply Hel in Ht as (mo & _ & <-). apply pos_norm_idemp.
Qed.

(** The first item of the example corpus: the pause mark is gone from its
    text, [CONJ] is kept beside [N], and the empty values are dropped. *)
Lemma qmorf_process_lookup_witness :
  Mushaf.Item 1 1 1 [ar_waw; ar_fatha; ar_reh; ar_fatha; ar_beh; ar_shadda; 0x06DA%N]
    [Mushaf.Morpheme "CONJ" None None None;
     Mushaf.Morpheme "PN" (Some [ar_reh; ar_beh]) (Some [ar_reh; ar_beh; ar_beh]) None;
     Mushaf.Morpheme "ADJ" None None (Some "")] ∈ ex_items
  ∧ QMORF ex_items !! "1,1,1"
    = Some (Morf ["CONJ"; "N"] [[ar_reh; ar_beh]] [[ar_reh; ar_beh; ar_beh]] []).
Proof.
  split; [apply list_elem_of_here|].
  apply (qmorf_process_lookup ex_items
           (Mushaf.Item 1 1 1 [ar_waw; ar_fatha; ar_reh; ar_fatha; ar_beh; ar_shadda; 0x06DA%N]
              [Mushaf.Morpheme "CONJ" None None None;
               Mushaf.Morpheme "PN" (Some [ar_reh; ar_beh]) (Some [ar_reh; ar_beh; ar_beh]) None;
               Mushaf.Morpheme "ADJ" None None (Some "")])).
  - apply list_elem_of_here.
  - intros it' Hin Hind. apply elem_of_cons in Hin as [Hin|Hin]; [exact Hin|].
    apply list_elem_of_singleton in Hin. rewrite Hin in Hind. discriminate Hind.
Defined.


(** ** The patterns of the sweep *)

Section sweep_patterns.

Implicit Types (s tok : str) (pos k : nat).

Lemma matches_chr_seq a r s pos c :
  matches (Seq (Chr a) r) s pos c
  = if bool_decide (s !! pos = Some a) then matches r s (S pos) c else [].
Proof.
  cbn [matches]. destruct (s !! pos) as [x|] eqn:Hx.
  - destruct (decide (x = a)) as [->|Hne].
    + rewrite !bool_decide_eq_true_2 by done. simpl. by rewrite app_nil_r.
    + rewrite !bool_decide_eq_false_2 by congruence. done.
  - by rewrite bool_decide_eq_false_2.
Qed.

Lemma matches_cls_seq neg cs r s pos c :
  matches (Seq (Cls neg cs) r) s pos c
  = match s !! pos with
    | Some x => if in_class neg cs x then matches r s (S pos) c else []
    | None => []
    end.
Proof.
  cbn [matches]. destruct (s !! pos) as [x|]; [|done].
  destruct (in_class neg cs x); [|done]. simpl. by rewrite app_nil_r.
Qed.

(** A pair of literals. *)
Lemma matches_pair x y s pos c :
  matches (Str [x; y]) s pos c
  = if bool_decide (s !! pos = Some x) && bool_decide (s !! S pos = Some y)
    then [(S (S pos), c)] else [].
Proof.
  unfold Str. cbn [foldr]. rewrite !matches_chr_seq.
  destruct (bool_decide (s !! pos = Some x)); [|done].
  by destruct (bool_decide (s !! S pos = Some y)).
Qed.

Lemma in_class_CONS x : in_class false CONS x = true ↔ x ∈ CONS.
Proof. unfold in_class. simpl. by rewrite bool_decide_eq_true. Qed.

Lemma long_vowel_at_dec tok k :
  long_vowel_at tok k ↔
  2 ≤ S k ∧
  matches (Alt (Str [ar_damma; ar_waw]) (Str [ar_kasra; ar_farsi_yeh])) tok (S k - 2) [] ≠ [].
Proof.
  unfold long_vowel_at. cbn [matches]. rewrite !matches_pair. split.
  - intros (k' & -> & H). split; [lia|].
    replace (S (S k') - 2) with k' by lia.
    destruct H as [[H1 H2]|[H1 H2]].
    + rewrite !(bool_decide_eq_true_2 _ H1), !(bool_decide_eq_true_2 _ H2). done.
    + rewrite !(bool_decide_eq_true_2 _ H1), !(bool_decide_eq_true_2 _ H2). simpl.
      by destruct (_ && _).
  - intros [Hk H]. destruct k as [|k']; [lia|]. exists k'. split; [done|].
    replace (S (S k') - 2) with k' in H by lia.
    destruct (bool_decide (tok !! k' = Some ar_damma)) eqn:H1;
      destruct (bool_decide (tok !! S k' = Some ar_waw)) eqn:H2;
      destruct (bool_decide (tok !! k' = Some ar_kasra)) eqn:H3;
      destruct (bool_decide (tok !! S k' = Some ar_farsi_yeh)) eqn:H4;
      simpl in H; try done;
      repeat match goal with
             | H : bool_decide _ = true |- _ => apply bool_decide_eq_true in H
             end; auto.
Qed.

(** Where [SUKUN_REGEX] matches. *)
Lemma matches_SUKUN_REGEX tok k :
  matches SUKUN_REGEX tok k [] ≠ [] ↔ bare_consonant_at tok k.
Proof.
  unfold SUKUN_REGEX, Cat, bare_consonant_at. cbn [foldr].
  rewrite matches_cls_seq.
  destruct (tok !! k) as [a|] eqn:Ha; [|split; [done|by intros (?&?&?&_)]].
  destruct (in_class false CONS a) eqn:Hca.
  2:{ split; [done|]. intros (a' & b & [= <-] & Hin & _).
      apply in_class_CONS in Hin. congruence. }
  apply in_class_CONS in Hca.
  pose proof (long_vowel_at_dec tok k) as Hlv.
  cbn [matches] in *.
  assert (∀ (l : list (nat * caps)),
            (match l with [] => [(S k, [])] | _ :: _ => [] end
             ≫= (λ ec : nat * caps,
                   match tok !! ec.1 with
                   | Some x => if in_class false CONS x then [(S ec.1, ec.2)] else []
                   | None => []
                   end ≫= λ ec0 : nat * caps, [(ec0.1, ec0.2)])) ≠ []
            ↔ l = [] ∧ ∃ b, tok !! S k = Some b ∧ b ∈ CONS) as Hstep.
  { intros [|ec l]; csimpl.
    - destruct (tok !! S k) as [b|] eqn:Hb; csimpl.
      + destruct (bool_decide (b ∈ CONS)) eqn:Hcb; csimpl.
        * apply bool_decide_eq_true in Hcb. split; [|done]. intros _.
          split; [done|]. by exists b.
        * apply bool_decide_eq_false in Hcb.
          split; [done|]. by intros [_ (b' & [= <-] & Hin)].
      + split; [done|]. by intros [_ (b' & ? & _)].
    - split; [done|]. by intros [? _]. }
  destruct (bool_decide (2 ≤ S k)) eqn:H2.
  - apply bool_decide_eq_true in H2. rewrite Hstep. split.
    + intros [Hm (b & Hb & Hcb)]. exists a, b. repeat split; try done.
      intros Hl. apply Hlv in Hl as [_ Hl]. exact (Hl Hm).
    + intros (a' & b & _ & _ & Hb & Hcb & Hn). split; [|by exists b].
      destruct (matches _ tok (S k - 2) [] ++ _) eqn:Hm; [done|].
      destruct Hn. apply Hlv. split; done.
  - apply bool_decide_eq_false in H2. rewrite (Hstep []). split.
    + intros [_ (b & Hb & Hcb)]. exists a, b. repeat split; try done.
      intros Hl. apply Hlv in Hl as [Hl _]. done.
    + intros (a' & b & _ & _ & Hb & Hcb & Hn). split; [done|by exists b].
Qed.

Lemma search_SUKUN_REGEX tok :
  search SUKUN_REGEX tok = true ↔ ∃ k, bare_consonant_at tok k.
Proof.
  rewrite search_true. split.
  - intros (pos & _ & H). exists pos. by apply matches_SUKUN_REGEX.
  - intros (k & H). exists k. split; [|by apply matches_SUKUN_REGEX].
    destruct H as (a & _ & Ha & _). apply lookup_lt_Some in Ha. lia.
Qed.

Lemma matches_bol_seq r s pos c :
  matches (Seq Bol r) s pos c = if bool_decide (pos = 0) then matches r s pos c else [].
Proof.
  cbn [matches]. case_bool_decide; [|done]. simpl. by rewrite app_nil_r.
Qed.

Lemma matches_SHADDA_REGEX tok pos :
  matches SHADDA_REGEX tok pos []
  = if bool_decide (pos = 0) then
      match tok !! pos with
      | Some x =>
          if in_class false CONS x then
            if bool_decide (tok !! S pos = Some ar_shadda) then [(S (S pos), [])] else []
          else []
      | None => []
      end
    else [].
Proof.
  unfold SHADDA_REGEX, Cat. cbn [foldr].
  by rewrite matches_bol_seq, matches_cls_seq, matches_chr_seq.
Qed.

(** Where [SHADDA_REGEX] matches. *)
Lemma search_SHADDA_REGEX tok :
  search SHADDA_REGEX tok = true ↔ ∃ a rest, tok = a :: ar_shadda :: rest ∧ a ∈ CONS.
Proof.
  rewrite search_true. split.
  - intros (pos & _ & H). rewrite matches_SHADDA_REGEX in H.
    case_bool_decide as Hp; [subst pos|done].
    destruct tok as [|a tok]; [done|]. cbn [lookup list_lookup] in H.
    destruct (in_class false CONS a) eqn:Hca; [|done].
    destruct tok as [|b rest]; [done|]. cbn [lookup list_lookup] in H.
    case_bool_decide as Hb; [|done]. injection Hb as ->.
    exists a, rest. split; [done|]. by apply in_class_CONS.
  - intros (a & rest & -> & Hin). exists 0. split; [lia|].
    rewrite matches_SHADDA_REGEX.
    apply in_class_CONS in Hin. rewrite bool_decide_eq_true_2 by done.
    cbn [lookup list_lookup]. rewrite Hin.
    rewrite bool_decide_eq_true_2 by done. done.
Qed.

End sweep_patterns.

(** X18. What the first warning of the sweep means. A token is reported with
    WARNING-1 exactly when its index is outside [EXCEPTIONS_SUKUN] and
    somewhere in it two letters of [CONS] stand side by side, the first of
    them not being a waw after a damma or a yeh after a kasra. *)
Theorem warning_1_meaning (tok : str) (ind : index) :
  classify tok ind = Some Bare_consonant
  ↔ (ind ∉ EXCEPTIONS_SUKUN) ∧ ∃ k, bare_consonant_at tok k.
Proof.
  rewrite <-search_SUKUN_REGEX. unfold classify.
  destruct (search SUKUN_REGEX tok); simpl.
  - case_bool_decide as Hex.
    + split; [by intros _|done].
    + split; [|by intros [? _]]. repeat (case_match; try done).
  - split; [|by intros [_ ?]]. repeat (case_match; try done).
Qed.

(** X19. What the second warning of the sweep means. A token that is not
    reported with WARNING-1 is reported with WARNING-2 exactly when it
    starts with a letter of [CONS] that carries a shadda. *)
Theorem warning_2_meaning (tok : str) (ind : index) :
  classify tok ind = Some Initial_shadda
  ↔ classify tok ind ≠ Some Bare_consonant
    ∧ ∃ a rest, tok = a :: ar_shadda :: rest ∧ a ∈ CONS.
Proof.
  rewrite <-search_SHADDA_REGEX. unfold classify.
  destruct (search SUKUN_REGEX tok && bool_decide (ind ∉ EXCEPTIONS_SUKUN)).
  - split; [done|]. by intros [? _].
  - destruct (search SHADDA_REGEX tok).
    + split; done.
    + split; [|by intros [_ ?]]. repeat (case_match; try done).
Qed.

(** ** The report scripts and the search *)

Section groups_by_prefix.

Import Stdlib.Strings.Ascii.

Lemma prefix_first a s1 rule :
  String.prefix (String a s1) rule = true → String.prefix (String a "") rule = true.
Proof.
  destruct rule as [|b rule]; simpl; [done|].
  destruct (Ascii.ascii_dec a b); [|done]. intros _. by destruct rule.
Qed.

(** X20. The groups of [tajweed_tabular.py]. An id is counted under [M]
    exactly when it starts with the letter M, whatever follows; since every
    id that starts with [MTHL] or [MTJNS] starts with M, no id is ever
    counted under these two groups. *)
Theorem rule_gr_shadowed (rule : string) :
  (rule_gr rule = Some "M" ↔ String.prefix "M" rule = true)
  ∧ rule_gr rule ≠ Some "MTHL"
  ∧ rule_gr rule ≠ Some "MTJNS".
Proof.
  unfold rule_gr, RULES. cbn [List.find].
  pose proof (prefix_first "M" "THL" rule) as H1.
  pose proof (prefix_first "M" "TJNS" rule) as H2.
  destruct (String.prefix "M" rule); [repeat split; congruence|].
  destruct (String.prefix "N" rule); [repeat split; congruence|].
  destruct (String.prefix "SHMS" rule); [repeat split; congruence|].
  destruct (String.prefix "MTHL" rule); [by specialize (H1 eq_refl)|].
  destruct (String.prefix "MTJNS" rule); [by specialize (H2 eq_refl)|].
  repeat split; congruence.
Qed.

End groups_by_prefix.

Section dict_facts.

Context {K V : Type} `{EqDecision K}.

Implicit Types (k : K) (v : V) (d : list (K * V)).

Lemma dict_get_set k v d : dict_get k (dict_set k v d) = Some v.
Proof.
  induction d as [|[k0 v0] d IH]; simpl.
  - by rewrite bool_decide_eq_true_2.
  - case_bool_decide as Hk; simpl.
    + by rewrite bool_decide_eq_true_2.
    + by rewrite bool_decide_eq_false_2.
Qed.

Lemma dict_get_set_ne k k' v d : k' ≠ k → dict_get k' (dict_set k v d) = dict_get k' d.
Proof.
  intros Hne. induction d as [|[k0 v0] d IH]; simpl.
  - by rewrite bool_decide_eq_false_2.
  - case_bool_decide as Hk; simpl.
    + subst k0. by rewrite !bool_decide_eq_false_2 by done.
    + case_bool_decide; [done|apply IH].
Qed.

Lemma dict_get_None k d : dict_get k d = None ↔ k ∉ fst <$> d.
Proof.
  induction d as [|[k0 v0] d IH]; csimpl.
  - split; [intros _ ?%elem_of_nil; done|done].
  - case_bool_decide as Hk.
    + subst k0. split; [done|]. intros Hn. destruct Hn. left.
    + rewrite IH, not_elem_of_cons. split; [by intros ?|by intros [_ ?]].
Qed.

Lemma dict_set_keys k v d :
  is_Some (dict_get k d) → fst <$> dict_set k v d = fst <$> d.
Proof.
  induction d as [|[k0 v0] d IH]; csimpl.
  - by intros [? ?].
  - case_bool_decide as Hk; csimpl; [done|]. intros H. by rewrite IH.
Qed.

Lemma dict_set_keys_subseteq k v d x :
  x ∈ fst <$> dict_set k v d → x = k ∨ x ∈ fst <$> d.
Proof.
  induction d as [|[k0 v0] d IH]; csimpl.
  - intros ->%list_elem_of_singleton. by left.
  - case_bool_decide as Hk; csimpl.
    + intros H. by right.
    + rewrite !elem_of_cons. intros [->|H]; [by right; left|].
      destruct (IH H); [by left|by right; right].
Qed.

End dict_facts.

Section by_verses_facts.

Implicit Types (r : row) (merged : list (string * row)).

Lemma row_add_total k cnt r : row_total (row_add k cnt r) = row_total r + cnt.
Proof.
  unfold row_add. induction r as [|[k0 c0] r IH]; simpl; [lia|].
  case_bool_decide as Hk; simpl; [lia|].
  unfold row_total in *. simpl. rewrite IH. lia.
Qed.

Lemma row_add_unreached rule cnt r :
  unreached_zero r → unreached_zero (row_add (rule_gr rule) cnt r).
Proof.
  intros [H1 H2]. destruct (rule_gr_shadowed rule) as (_ & Hn1 & Hn2).
  unfold row_add. split; rewrite dict_get_set_ne; try done; congruence.
Qed.

Lemma merged_set_total key r r' cnt merged :
  dict_get key merged = Some r → row_total r' = row_total r + cnt →
  merged_total (dict_set key r' merged) = merged_total merged + cnt.
Proof.
  intros Hg Hr. induction merged as [|[k0 r0] merged IH]; simpl in *; [done|].
  case_bool_decide as Hk; simpl.
  - injection Hg as ->. lia.
  - rewrite IH by done. lia.
Qed.

Lemma merged_set_Forall (P : row → Prop) key r' merged :
  Forall (λ it, P it.2) merged → P r' → Forall (λ it, P it.2) (dict_set key r' merged).
Proof.
  intros Hm Hr. induction merged as [|[k0 r0] merged IH]; simpl.
  - by apply Forall_singleton.
  - apply Forall_cons in Hm as [H0 Hm]. case_bool_decide; apply Forall_cons; auto.
Qed.

Lemma dict_get_Forall (P : row → Prop) key r merged :
  Forall (λ it, P it.2) merged → dict_get key merged = Some r → P r.
Proof.
  intros Hm. induction merged as [|[k0 r0] merged IH]; simpl; [done|].
  apply Forall_cons in Hm as [H0 Hm]. case_bool_decide; [by intros [= <-]|by apply IH].
Qed.

Lemma merged_init_rows indexes :
  Forall (λ it, it.2 = row_zero) (merged_init indexes)
  ∧ ∀ key, key ∈ fst <$> merged_init indexes → key ∈ verse_key <$> indexes.
Proof.
  unfold merged_init. induction indexes as [|i indexes IH] using rev_ind.
  - split; [constructor|]. by intros ? ?%elem_of_nil.
  - rewrite foldl_app. simpl. destruct IH as [IH1 IH2]. split.
    + by apply (merged_set_Forall (λ r, r = row_zero)).
    + intros key Hk. apply dict_set_keys_subseteq in Hk as [->|Hk].
      * rewrite fmap_app, elem_of_app. right. simpl. left.
      * rewrite fmap_app, elem_of_app. left. by apply IH2.
Qed.

Lemma merged_zero_total merged :
  Forall (λ it, it.2 = row_zero) merged → merged_total merged = 0.
Proof.
  induction 1 as [|[k r] merged Hr _ IH]; simpl in *; [done|]. by rewrite Hr, IH.
Qed.

Lemma unique_verses_elem_of ind_complete i :
  i ∈ unique_verses ind_complete → i ∈ ind_complete.
Proof.
  unfold unique_verses.
  assert (∀ acc, i ∈ foldl (λ seen i, if bool_decide (i ∈ seen) then seen else seen ++ [i])
                       acc ind_complete → i ∈ acc ∨ i ∈ ind_complete) as H.
  { induction ind_complete as [|x l IH]; intros acc; simpl; [by left|].
    intros Hi. apply IH in Hi as [Hi|Hi]; [|by right; right].
    case_bool_decide; [by left|].
    apply elem_of_app in Hi as [?| ->%list_elem_of_singleton]; [by left|by right; left]. }
  intros Hi. apply H in Hi as [?%elem_of_nil|?]; done.
Qed.

Lemma merge_verses_Ok triples merged merged' :
  merge_verses triples merged = Ok merged' →
  Forall (λ it, unreached_zero it.2) merged →
  (∀ t, t ∈ triples → ∃ rule, t.1.1 = rule_gr rule) →
  fst <$> merged' = fst <$> merged
  ∧ merged_total merged' = merged_total merged + parsed_total triples
  ∧ Forall (λ it, unreached_zero it.2) merged'.
Proof.
  revert merged. induction triples as [|[[rule_id rule_ind] rule_cnt] rest IH];
    intros merged; simpl.
  - intros [= <-] Hz _. split; [done|]. split; [lia|done].
  - destruct (dict_get _ merged) as [r|] eqn:Hg; [|done].
    intros Hrun Hz Hgr.
    destruct (Hgr (rule_id, rule_ind, rule_cnt)) as [rule Hrule]; [left|]. simpl in Hrule.
    apply IH in Hrun as (H1 & H2 & H3).
    + split; [by rewrite H1, dict_set_keys by (by rewrite Hg)|].
      split; [|done]. rewrite H2.
      rewrite (merged_set_total _ r _ rule_cnt) by (done || apply row_add_total).
      unfold parsed_total. simpl. lia.
    + apply (merged_set_Forall unreached_zero); [done|]. rewrite Hrule.
      apply row_add_unreached. by eapply (dict_get_Forall unreached_zero).
    + intros t Ht. apply Hgr. by right.
Qed.

Lemma merge_verses_Err triples merged t :
  t ∈ triples → verse_key (t.1.2.1.1, t.1.2.1.2) ∉ fst <$> merged →
  ∃ key, merge_verses triples merged = Err (KeyError key).
Proof.
  revert merged. induction triples as [|[[rule_id rule_ind] rule_cnt] rest IH];
    intros merged Ht Hk; [by apply elem_of_nil in Ht|]. simpl.
  destruct (dict_get _ merged) as [r|] eqn:Hg; [|by eexists].
  apply elem_of_cons in Ht as [->|Ht].
  - simpl in Hk. apply dict_get_None in Hk. congruence.
  - apply IH; [done|]. by rewrite dict_set_keys by (by rewrite Hg).
Qed.

Lemma parsed_elem_of rules_counts t :
  t ∈ parsed rules_counts ↔
  ∃ rule words ind cnt b,
    (rule, words) ∈ rules_counts ∧ (ind, cnt, b) ∈ words ∧ t = (rule_gr rule, ind, cnt).
Proof.
  unfold parsed. rewrite list_elem_of_bind. split.
  - intros ([rule words] & Ht & Hin). simpl in Ht.
    apply list_elem_of_fmap in Ht as ([[ind cnt] b] & -> & Hw).
    by exists rule, words, ind, cnt, b.
  - intros (rule & words & ind & cnt & b & Hin & Hw & ->).
    exists (rule, words). split; [|done]. simpl.
    apply list_elem_of_fmap. by exists (ind, cnt, b).
Qed.

Lemma parsed_total_counts rules_counts :
  parsed_total (parsed rules_counts) = foldr (λ it n, total it.2 + n) 0 rules_counts.
Proof.
  unfold parsed. induction rules_counts as [|[rule words] rc IH]; [done|].
  csimpl. rewrite <-IH. clear IH.
  induction words as [|[[ind cnt] b] words IHw]; [done|].
  csimpl. unfold parsed_total in *. simpl. rewrite IHw. unfold total. simpl. lia.
Qed.

Lemma verse_key_inj i i' : verse_key i = verse_key i' → i = i'.
Proof.
  destruct i as [s v], i' as [s' v']. unfold verse_key. simpl. intros H.
  apply split_at_sep in H as [Hs Hv]; [|apply pretty_Z_sep_free, is_sep_colon..].
  apply (inj pretty) in Hs, Hv. by subst.
Qed.

End by_verses_facts.

(** X21. The table by verse keeps the counts. When [tajweed_tabular.py]
    completes without [-n], the numbers of its rows add up to the sum of all
    match counts of the counts file, the cells [MTHL] and [MTJNS] of every
    row hold 0, and every row is a verse among those that [rasm] lists. *)
Theorem by_verses_totals (ind_complete : list (Z * Z)) (rules_counts : counts_t)
    (merged : list (string * row)) :
  by_verses ind_complete rules_counts = Ok merged →
  merged_total merged = foldr (λ it n, total it.2 + n) 0 rules_counts
  ∧ Forall (λ it, unreached_zero it.2) merged
  ∧ (∀ key, key ∈ fst <$> merged → key ∈ verse_key <$> ind_complete).
Proof.
  unfold by_verses. intros H.
  destruct (merged_init_rows (unique_verses ind_complete)) as [Hz Hk].
  apply merge_verses_Ok in H as (H1 & H2 & H3).
  - split; [|split; [done|]].
    + by rewrite H2, (merged_zero_total _ Hz), parsed_total_counts.
    + intros key Hin. rewrite H1 in Hin. apply Hk in Hin.
      apply list_elem_of_fmap in Hin as (i & -> & Hi).
      apply list_elem_of_fmap. exists i. split; [done|].
      by apply unique_verses_elem_of.
  - eapply Forall_impl; [exact Hz|]. intros [k r] ->. by split.
  - intros t Ht. apply parsed_elem_of in Ht as (rule & ? & ? & ? & ? & _ & _ & ->).
    by exists rule.
Qed.

(** X22. A count at a verse that is not listed stops the table by verse. If
    the counts file holds an entry whose verse is not among those that
    [rasm] lists, [tajweed_tabular.py] without [-n] raises a KeyError. *)
Theorem by_verses_unknown_verse (ind_complete : list (Z * Z)) (rules_counts : counts_t)
    (rule : string) (words : list entry) (ind : index) (cnt : nat) (b : bool) :
  (rule, words) ∈ rules_counts → (ind, cnt, b) ∈ words →
  (ind.1.1, ind.1.2) ∉ ind_complete →
  ∃ key, by_verses ind_complete rules_counts = Err (KeyError key).
Proof.
  intros Hr Hw Hv. unfold by_verses.
  apply (merge_verses_Err _ _ (rule_gr rule, ind, cnt)).
  - apply parsed_elem_of. by exists rule, words, ind, cnt, b.
  - simpl. intros Hin.
    apply (proj2 (merged_init_rows (unique_verses ind_complete))) in Hin.
    apply list_elem_of_fmap in Hin as (i & Hi & Hin).
    apply verse_key_inj in Hi. subst i.
    by apply unique_verses_elem_of in Hin.
Qed.

Lemma RULE_MAPPER_ids rules :
  is_table rules →
  forallb (λ id, match RULE_MAPPER !! id with
                 | Some gr =>
                     existsb (λ g, bool_decide (g.1 = gr) && bool_decide (id ∈ g.2)) RULE_GROUPS
                 | None => false
                 end) (id_rule <$> rules) = true.
Proof. intros [->| ->]; vm_compute; reflexivity. Qed.

Section counts_file.

Context (rasm : str → str) (qmorf : gmap string morf).

(** X23. Every rule of a saved counts file has its group. The keys of the
    counts that the evaluation run saves are the ids of the removal table,
    and each of them is a key of [RULE_MAPPER], under the group whose list
    holds it: with [--groups] the lookup of [tajweed2df.py] does not raise
    on such a file. *)
Theorem counts_file_is_grouped (qtokens : list token) (rm : state) (c : counts_t)
    (rule : string) :
  apply_rules rasm qmorf qtokens REMOVE_SANDHI_RULES
    (Some (counts_init REMOVE_SANDHI_RULES)) = Ok rm →
  st_counts rm = Some c → rule ∈ fst <$> c →
  ∃ gr li, counted_under true rule = Ok gr ∧ (gr, li) ∈ RULE_GROUPS ∧ rule ∈ li.
Proof.
  intros Hrun Hc Hin.
  assert (is_table REMOVE_SANDHI_RULES) as Ht by (by left).
  pose proof (table_ids_NoDup _ Ht) as Hnd.
  apply apply_rules_keys in Hrun as [Hk _].
  2:{ intros r Hr. by apply counts_init_has_key. }
  assert (fst <$> c = id_rule <$> REMOVE_SANDHI_RULES) as Hkeys.
  { change (fst <$> c) with (counts_keys (Some c)). rewrite <-Hc, Hk.
    exact (counts_init_keys _ Hnd). }
  rewrite Hkeys in Hin.
  pose proof (forallb_elem_of _ _ rule (RULE_MAPPER_ids _ Ht)) as Hf.
  specialize (Hf Hin). cbv beta in Hf. unfold counted_under.
  destruct (RULE_MAPPER !! rule) as [gr|]; [|done].
  apply existsb_exists in Hf as ([g li] & Hg & Hb).
  apply andb_true_iff in Hb as [H1 H2].
  apply bool_decide_eq_true in H1, H2. simpl in *. subst g.
  exists gr, li. split; [done|]. split; [by apply list_elem_of_In|done].
Qed.

End counts_file.

Section normalise_facts.

Context {A : Type}.

Implicit Types (tokens todo : list (nat * (str * A))).

Lemma normalise_loop_spec fuel (done_ todo : list (nat * (str * A))) :
  length todo ≤ fuel →
  normalise_loop fuel (length done_) (done_ ++ todo)
  = done_ ++ filter (λ t, t.2.1 ≠ [])
               ((λ t, (t.1, (translate NOISY_CHARS t.2.1, t.2.2))) <$> todo).
Proof.
  revert fuel done_. induction todo as [|[iabs [tok fields]] todo IH]; intros fuel done_ Hf.
  - rewrite fmap_nil, filter_nil, !app_nil_r. destruct fuel as [|fuel]; [done|].
    cbn [normalise_loop]. by rewrite lookup_ge_None_2.
  - destruct fuel as [|fuel]; simpl in Hf; [lia|]. cbn [normalise_loop].
    rewrite list_lookup_middle by done.
    rewrite fmap_cons, filter_cons. cbn [fst snd].
    assert (<[length done_ := (iabs, (translate NOISY_CHARS tok, fields))]>
              (done_ ++ (iabs, (tok, fields)) :: todo)
            = done_ ++ (iabs, (translate NOISY_CHARS tok, fields)) :: todo) as ->.
    { rewrite insert_app_r_alt by done. by rewrite Nat.sub_diag. }
    case_bool_decide as He.
    + rewrite decide_False by (by intros ?).
      rewrite delete_middle. apply IH. lia.
    + rewrite decide_True by done.
      rewrite (cons_middle _ done_ todo), (assoc_L (++)).
      replace (S (length done_)) with (length (done_ ++ [(iabs, (translate NOISY_CHARS tok, fields))]))
        by (rewrite length_app; simpl; lia).
      rewrite IH by lia. by rewrite <-(assoc_L (++)).
Qed.

Lemma normalise_loop_0 fuel (l : list (str * A)) :
  length l ≤ fuel →
  normalise_loop fuel 0 (enumerate l)
  = filter (λ t, t.2.1 ≠ [])
      ((λ t, (t.1, (translate NOISY_CHARS t.2.1, t.2.2))) <$> enumerate l).
Proof.
  intros Hf. apply (normalise_loop_spec fuel [] (enumerate l)).
  unfold enumerate. rewrite length_zip, length_seq. lia.
Qed.

(** X24. What the normalisation of [searcher.py] leaves. The loop that
    translates and pops gives the tokens with the code points of
    [NOISY_CHARS] deleted from their texts, without the tokens of which
    nothing is left, each with the position it had in the file; the loop
    ends within as many turns as there are tokens. *)
Theorem normalise_is_filter (l : list (str * A)) :
  normalise l
  = filter (λ t, t.2.1 ≠ [])
      ((λ t, (t.1, (translate NOISY_CHARS t.2.1, t.2.2))) <$> enumerate l)
  ∧ ∀ fuel, length l ≤ fuel → normalise_loop fuel 0 (enumerate l) = normalise l.
Proof.
  split.
  - unfold normalise. by apply normalise_loop_0.
  - intros fuel Hf. unfold normalise. by rewrite !normalise_loop_0 by done.
Qed.

End normalise_facts.

(** The table by verse of the example: both ids count under the verse 2:8,
    [MTJNS-dt] under [M] and [HU] under no group. *)
Lemma by_verses_totals_witness :
  by_verses ex_verses ex_rules_counts
  = Ok [("2:8", [(Some "M", 1); (Some "N", 0); (Some "SHMS", 0); (Some "MTHL", 0);
                 (Some "MTJNS", 0); (None, 2)]);
        ("2:9", row_zero)]
  ∧ merged_total [("2:8", [(Some "M", 1); (Some "N", 0); (Some "SHMS", 0); (Some "MTHL", 0);
                           (Some "MTJNS", 0); (None, 2)]);
                  ("2:9", row_zero)] = 3.
Proof.
  split; [vm_compute; reflexivity|].
  apply (by_verses_totals ex_verses ex_rules_counts
           [("2:8", [(Some "M", 1); (Some "N", 0); (Some "SHMS", 0); (Some "MTHL", 0);
                     (Some "MTJNS", 0); (None, 2)]);
            ("2:9", row_zero)]).
  vm_compute; reflexivity.
Defined.

(** The same counts with the verses of another sura. *)
Lemma by_verses_unknown_verse_witness :
  ∃ key, by_verses [(3, 1); (3, 2)]%Z ex_rules_counts = Err (KeyError key).
Proof.
  apply (by_verses_unknown_verse [(3, 1); (3, 2)]%Z ex_rules_counts
           "MTJNS-dt" [((2, 8, 10)%Z, 1, true)] (2, 8, 10)%Z 1 true).
  - apply list_elem_of_here.
  - apply list_elem_of_here.
  - apply (bool_decide_unpack _). vm_compute. reflexivity.
Defined.

(** The counts of the evaluation run on the words of Q.23:59:2-3: rule [M1]
    is counted under [ASSIM-M]. *)
Lemma counts_file_is_grouped_witness :
  ∃ gr li, counted_under true "M1" = Ok gr ∧ (gr, li) ∈ RULE_GROUPS ∧ "M1" ∈ li.
Proof.
  apply (counts_file_is_grouped skeleton ex_qmorf ex_tokens ex_eval_rm
           (default [] (st_counts ex_eval_rm)) "M1").
  - vm_compute; reflexivity.
  - reflexivity.
  - apply (bool_decide_unpack _). vm_compute. reflexivity.
Defined.

(** The token that is a pause mark alone is dropped; the token after it
    keeps its position 2. *)
Example normalise_example :
  normalise ex_search_tokens
  = [(0, ([ar_meem; ar_noon], (1, 1, 1)%Z)); (2, ([ar_beh], (1, 1, 3)%Z))].
Proof. vm_compute. reflexivity. Qed.

